(* ===== verification/_CoqProject ===== *)
-Q . S2P
Prelude.v
GoStrings.v
Bytes.v
Crypto.v
DCNetCipher.v
Equivocation.v
DCNet.v
DCNetRound.v
DCNetSession.v
BitMask.v
Messages.v
StateMachine.v
Measurements.v
Pkts.v
Statistics.v
RoundManager.v
RoundManagerInv.v
RoundManagerSpec.v
NeffShuffle.v
NeffShuffleSpec.v
Network.v
HandlerLogic.v
Trustee.v
TrusteeSpec.v
Client.v
ClientSpec.v
ClientCells.v
Relay.v
RelayStates.v
RelayInv.v
RelayPhases.v
RelaySteps.v
RelaySetup.v
RelaySpec.v
RelayDelivery.v
RelayOrigin.v
RelayKeys.v
RelayBlame.v
Multiplexer.v
MultiplexerSpec.v
Protocol.v
Service.v
ServiceSpec.v
ServiceStart.v
Configuration.v
ServiceDemo.v
Transport.v
Application.v
Wiring.v
NodeKeys.v
System.v
SystemKeys.v
SystemIntegrity.v
SystemDemo.v
Mobile.v
Simulation.v
StartDemo.v
