(* ===== verification/Prelude.v ===== *)
(** * PriFi: a verification library for the protocol code under src/

    PriFi is an anonymous communication network.  Clients and trustees share
    pairwise secrets; in every round each of them sends the relay a cell made of
    pads (and, for the owner of the slot, of its payload), and the XOR of all
    cells is the payload.  The relay runs the rounds: it announces them, collects
    cells, decodes, hands the payload to its application and closes the round.
    Slots are given out once, by a verifiable shuffle of the clients' ephemeral
    keys (Neff shuffle) that every trustee takes part in.

    ** The parts of the program and the files that model them

    - Prelude.v: record update, the outcomes of Go code (a value or a [crash]),
      loops, generic lemmas and tactics.  Bytes.v: slices, copies, big-endian
      integers, XOR of byte strings, wrap-around at 32 and 64 bits.  GoStrings.v:
      the functions of strings, strconv, path and bufio the code uses.
    - Crypto.v: the kyber group, XOF, AES-GCM, SHA-256 and Schnorr signatures as
      a class [CryptoSuite] of operations, [CryptoLaws] for the documented facts
      the protocol relies on, and a small suite (ToySuite) that satisfies all of
      them, on which every witness computes.
    - DCNetCipher.v, Equivocation.v, DCNet.v: prifi-lib/dcnet, the cells, the
      equivocation protection, the entities and the relay's decoder.
      DCNetRound.v proves one round, DCNetSession.v a deployment and any sequence
      of rounds.
    - BitMask.v, NeffShuffle.v: prifi-lib/scheduler and prifi-lib/crypto, the
      open/closed slots and the shuffle; NeffShuffleSpec.v its theorems.
    - Messages.v, StateMachine.v: prifi-lib/net and prifi-lib/utils.
      Network.v: message_sender.go and the effects of a handler, a state monad
      over the entity's state and a trace of what the outside world observes
      (messages, sleeps, goroutines started, data delivered).  HandlerLogic.v: a
      weakest precondition for handlers, indexed by the crashes allowed.
    - Measurements.v, Statistics.v, Pkts.v: prifi-lib/log, the pcap files of
      prifi-lib/utils (Pkts.v the textual traces) and utils/timing.go.
    - RoundManager.v: prifi-lib/relay/bufferableRoundManager.go, with its
      invariant (RoundManagerInv.v) and theorems (RoundManagerSpec.v).
    - Trustee.v and TrusteeSpec.v, Client.v and ClientSpec.v: prifi-lib/trustee
      and prifi-lib/client, every handler of init.go, trustee.go or client.go,
      and disruption.go; the trustee's sending goroutine is a step on its own
      state, interleaved with the handlers.
    - Relay.v: prifi-lib/relay/init.go, relay.go, disruption.go, timeouts.go, all
      handlers, the phases of a round and the body of a timeout.  RelayInv.v
      abstracts a relay to the [view] that matters for the rounds; RelayPhases.v
      specifies each phase, RelaySteps.v data messages and timeouts,
      RelaySetup.v the handlers up to the first round and those of the blame;
      RelaySpec.v has the runs, the invariant of all reachable states and the
      theorems; RelayDelivery.v joins relay and DC-net; RelayOrigin.v follows the
      received cells to the output; RelayKeys.v states what the relay tells the
      nodes in the setup; RelayBlame.v is about the disruption protection;
      RelayStates.v is a traversal of all handlers for what holds of each of their
      steps.
    - ClientCells.v: which cell a client sent for which announcement, in every run.
      NodeKeys.v: what a client and a trustee hold after they were told numbers,
      parameters and keys.  System.v: the whole network, one relay, clients and
      trustees, a step of any of them on a message that was sent to it; SystemKeys.v
      joins both sides of the setup; SystemIntegrity.v follows a payload
      from the cell of the slot's owner to the relay's output; SystemDemo.v an
      executable scheduler and a run from creation to delivery.
    - Multiplexer.v: stream-multiplexer/ingress.go and egress.go, TCP streams cut
      into frames and rebuilt; MultiplexerSpec.v joins it with the DC-net.
    - Protocol.v: sda/protocols (prifi.go, protocol.go, message_sender.go,
      message_binders.go) and prifi-lib/prifi.go, the wrapper that configures,
      starts, feeds and stops an entity; Configuration.v follows the parameters of
      prifi.toml to the relay; Wiring.v joins the three entities and the tree: who
      sends what to whom.  Transport.v: tcp.go, udp.go and the broadcast subscription.
    - Service.v: sda/services (churn.go, prifi.go, service.go, config.go), the
      queue of waiting nodes and the life of the protocol; ServiceSpec.v has its
      invariant, ServiceStart.v what a connection and a timeout do,
      ServiceDemo.v concrete runs.
    - Application.v: sda/app/prifi.go, the command line, the configuration files
      and the start of a node.  Mobile.v: prifi-mobile, the configuration kept in
      package variables, its getters and setters, the client of the app.
      Simulation.v: sda/simulation, the roster from the hosts file, the roles of
      the participants and the experiment on the relay.  StartDemo.v: concrete
      environments for the three.

    ** How code becomes definitions

    A Go function is a Rocq function with the same name.  Code that can stop the
    process returns [go A]: [Ret], or [Crash] with a runtime error, a panic, a
    log.Fatal, a blocking channel operation, or divergence.  Errors are values
    ([result]).  Handlers hold the entity's lock from start to end, so each is one
    atomic step, and a run is a sequence of such steps ([rstep], [cstep],
    [tstep]).  Machine integers are [Z] with the wrap-around written out where the
    code computes ([i32], [u32], [i64], [u64]); maps are [gmap], slices lists (a
    slice's capacity is its length; nil and empty are told apart by [option] where
    the code does so).  The clock, the network's answers and random draws are
    inputs: [Clock] and [Network] are functions of the trace, draws are arguments.
    The order in which Go ranges over a map is arbitrary: inside the entities the
    model uses that of the keys, in the service it is an oracle ([Range]) the
    theorems quantify over.  What lies outside the sources is an interface: [Onet]
    (identities, trees, sends) with [OnetLaws], [Sockets] (dials and writes),
    [Environment], [MobileEnv] and [SimEnv] (files, TOML, addresses, processes);
    Protocol.v builds the [Network] that client, trustee and relay are verified
    against from the tree ([ms_network]).

    ** What the theorems show

    - The DC-net: every round of every session decodes to the owner's payload;
      cells do not depend on the order of encoding; what a trace reveals.
    - The shuffle gives each client a slot of its own; clients accept only what
      every trustee signed; trustees sign only transcripts with their own base and
      proof, and their own keys as far as the first key list goes.
    - The round manager's open rounds are a window of consecutive rounds; rounds
      are collected complete (the last contribution of everybody) and closed in
      order, which removes their ciphers; owners rotate; rate messages alternate.
    - Clients answer each round once; trustees send each round once, in order,
      and stop when told.
    - The relay: the window, the packets in flight and the decoder agree in every
      reachable state; rounds are announced exactly once and in order, with one
      message for all clients; every step refines an abstract pipeline; ciphers of
      any content never make it exit, block or loop; a timeout gives the oldest
      round up and refills the window, or reports who is missing; honest rounds are
      delivered; and against arbitrary peers each
      delivered payload is decoded from received cells of one round, one of every
      client and trustee.
    - The whole network: nodes that were just created run in any interleaving over
      a network that loses, repeats and reorders messages but does not forge them;
      client i and trustee j end up with the same secret for each other, under
      their own numbers and the parameters of the relay, and no two clients with
      the same slot; and what the relay delivers for a round is what the owner of
      the slot encoded, with these secrets, in its one cell.  The theorems ask that
      the relay is set up for the nodes there are, that it passed on no missing key
      ([complete]: it counts keys and not the nodes they come from, see
      [repeated_key_missing]), that the clients drew different ephemeral keys
      ([ephemeral_apart]), that no node is initialised twice and that no disruption
      query is delivered; the second one also that no disruption is forced and that
      no trustee sent more than 2^31 - 1 cells.
    - Wiring: every message an entity sends is one its addressee handles and, but for
      the UDP broadcast, of a type registered with the protocol; all but
      ALL_ALL_SHUTDOWN are registered with the network library too.
    - Streams: what applications write to an ingress server arrives at the egress
      server, in order and per stream, through frames, cells, rounds and decoding;
      answers come back to the right connection; which frames fit a cell.
    - The service: waiting nodes are numbered without gaps; a connection restarts
      the protocol with exactly the waiting nodes; every value of prifi.toml
      reaches the relay; giving up after failed rounds deadlocks.
    - Starting up: which versions a relay admits, what a missing file does, the
      roster and the roles of an experiment, what the app's setters change.
    - Encodings round-trip, and the inputs on which they do not are stated.
    - Where the code does not do what it means to (the equivocation history, the
      trace of a round, the blame of a closed round, size guards, the fast TCP
      channel), a theorem states what it does.

    ** Bounds and fuel

    Round numbers are int32; theorems about runs ask that the window still fits
    below 2^31 ([room]).  Loops over slices are folds.  Loops with fuel: the search
    for the next owner (the size of the schedule plus two, one more than it can
    need), the search for the next round to open (the number of open rounds plus
    one), and the scan of pcap messages (the length of the cell); running out is
    the crash [Diverges], which the theorems exclude.  Endless loops over channels
    and sockets are modelled by their body, one step per iteration; ten digits are
    enough for the decimal form of a 32-bit stream ID.

    ** Not modelled

    The runs of a relay, a client and a trustee leave out a parameters message that
    forces a second initialisation ([rnormal], [cnormal], [normal_msg]), which the
    code accepts; those of a client also the resync, those of a trustee disruption
    queries.
    That the setup of the whole network ends, given that messages arrive, is run
    in SystemDemo.v and proved of its parts (the shuffle, a complete round, a
    timeout), not stated for every fair run of the network.
    The protobuf encoding and kyber/proof are libraries; the latter is the class
    [ProofSystem] without laws.  Log output and the text of reports are left out,
    as are memory printouts, unused helpers (ValidateHmac256) and the verifiable
    DC-net the code itself does not implement.  Channels towards the application
    are events of the trace, so a reader that never drains them is outside the
    model.  Of the service and the transport,
    reading and writing files, opening sockets, resolving addresses and the delays
    between pings are left out, as are the sleeps of an experiment's start.  What the three start-up files take from outside
    (files, TOML, git, regular expressions, HTTP) is an oracle of their class.
    socks (a wrapper around a third-party server), web (static pages) and
    sda/simulation/simul.go (a call of onet's driver) have no logic of their own. *)

From Stdlib Require Export ZArith Lia.
From stdpp Require Export base list gmap strings numbers sets.

Open Scope Z_scope.

(** ** Record update

    [r <| f := v |>] is the record [r] with field [f] replaced, the way the Go
    code assigns one field of a struct.  A record opts in with an [Eta]
    instance; the setter of each projection is computed from it. *)

Class Eta (R : Type) := eta_expand : R → R.
Class Setter {R T : Type} (proj : R → T) := set_field : T → R → R.

Ltac build_setter proj :=
  match type of proj with
  | ?R → ?T =>
    let v := fresh "v" in let r := fresh "r" in
    unfold Setter; intros v r;
    let inst := constr:(_ : Eta R) in
    let body := eval hnf in (inst r) in
    match eval pattern (proj r) in body with
    | ?F _ => let b := eval cbv beta in (F v) in exact b
    end
  end.

Global Hint Extern 0 (Setter ?proj) => build_setter proj : typeclass_instances.

Notation "r <| p := v |>" := (set_field (proj:=p) v r)
  (at level 1, left associativity, p at level 11,
   format "r  <|  p  :=  v  |>").

(** ** Outcomes of Go code

    A call either returns, or stops the process: a runtime error (index out of
    range, nil dereference, division by zero), an explicit [panic], or
    [log.Fatal].  [Diverges] is what a fuelled loop yields when the fuel runs
    out; every loop of the development is proved not to produce it.  [Blocks] is
    a send on a channel whose buffer is full: the call waits for a reader. *)

Inductive crash : Type :=
| RuntimeError
| Panicked (msg : string)
| Fatal (msg : string)
| Diverges
| Blocks.

Inductive go (A : Type) : Type :=
| Ret (a : A)
| Crash (c : crash).
Arguments Ret {A} _.
Arguments Crash {A} _.

#[global] Instance go_ret : MRet go := λ A a, Ret a.
#[global] Instance go_bind : MBind go := λ A B f m,
  match m with Ret a => f a | Crash c => Crash c end.
#[global] Instance go_fmap : FMap go := λ A B f m,
  match m with Ret a => Ret (f a) | Crash c => Crash c end.

(** A pair [(value, error)] of Go in which exactly one half is meaningful. *)
Inductive result (A : Type) : Type :=
| Ok (a : A)
| Err (e : string).
Arguments Ok {A} _.
Arguments Err {A} _.

#[global] Instance crash_eq_dec : EqDecision crash.
Proof. solve_decision. Defined.

Definition returns {A} (m : go A) : bool :=
  match m with Ret _ => true | Crash _ => false end.
Definition is_Ok {A} (r : result A) : bool :=
  match r with Ok _ => true | Err _ => false end.

Section go_lemmas.
Context {A B C : Type}.

Lemma go_bind_ret (a : A) (f : A → go B) : (Ret a ≫= f) = f a.
Proof. reflexivity. Qed.

Lemma go_bind_crash c (f : A → go B) : ((Crash c : go A) ≫= f) = Crash c.
Proof. reflexivity. Qed.

Lemma go_bind_inv (m : go A) (f : A → go B) b :
  (m ≫= f) = Ret b → ∃ a, m = Ret a ∧ f a = Ret b.
Proof. destruct m; intros H; [by eauto | discriminate H]. Qed.

Lemma go_bind_assoc (m : go A) (f : A → go B) (g : B → go C) :
  ((m ≫= f) ≫= g) = (m ≫= λ x, f x ≫= g).
Proof. by destruct m. Qed.
End go_lemmas.

(** ** Loops over a list in the crash monad *)

(** [for _, x := range l { a = f(a, x) }] *)
Definition go_fold {A X} (f : A → X → go A) (a : A) (l : list X) : go A :=
  foldl (λ acc x, a ← acc; f a x) (Ret a) l.

Lemma go_fold_cons {A X} (f : A → X → go A) a x l :
  go_fold f a (x :: l) = (a ← f a x; go_fold f a l).
Proof.
  unfold go_fold. cbn. destruct (f a x) as [b|c]; [done|].
  induction l as [|y l IH]; [done | apply IH].
Qed.

Lemma mapM_go_ret {X Y} (f : X → go Y) (g : X → Y) l :
  (∀ x, x ∈ l → f x = Ret (g x)) → mapM f l = Ret (g <$> l).
Proof.
  induction l as [|x l IH]; intros H; [done|]. simpl.
  rewrite H by set_solver. cbn. rewrite IH by set_solver. done.
Qed.

Lemma mapM_go_exists {X Y T} (f : X → go T) (h : Y → T) (Q : X → Y → Prop) l :
  (∀ x, x ∈ l → ∃ y, f x = Ret (h y) ∧ Q x y) →
  ∃ ys, mapM f l = Ret (h <$> ys) ∧ Forall2 Q l ys.
Proof.
  induction l as [|x l IH]; intros H; [by exists []|].
  destruct (H x) as (y & E & HQ); [set_solver|].
  destruct IH as (ys & Es & HQs); [set_solver|].
  exists (y :: ys). simpl. rewrite E. cbn. rewrite Es. by split; [|constructor].
Qed.

Lemma mapM_go_fmap {X Y T} (f : Y → go T) (g : X → Y) l :
  mapM f (g <$> l) = mapM (λ x, f (g x)) l.
Proof. induction l as [|x l IH]; [done|]. rewrite fmap_cons. simpl. by rewrite IH. Qed.

Lemma mapM_go_ext {X Y} (f g : X → go Y) l :
  (∀ x, x ∈ l → f x = g x) → mapM f l = mapM g l.
Proof.
  induction l as [|x l IH]; intros H; [done|]. simpl.
  rewrite (H x), IH by set_solver. done.
Qed.

Lemma mapM_go_Forall2 {X Y} (f : X → go Y) l ys :
  mapM f l = Ret ys ↔ Forall2 (λ x y, f x = Ret y) l ys.
Proof.
  split.
  - revert ys. induction l as [|x l IH]; intros ys; simpl; [by intros [= <-]|].
    destruct (f x) as [y|] eqn:E; [|done]. cbn.
    destruct (mapM f l) as [k|]; [|done]. intros [= <-]. constructor; auto.
  - induction 1 as [|x y l ys E _ IH]; simpl; [done|]. rewrite E. cbn. by rewrite IH.
Qed.

(** A loop that keeps part of each result, against the loop that keeps all. *)
Lemma mapM_go_proj {X Y T} (f : X → go Y) (h : Y → T) (l : list X) (ts : list T) :
  mapM (λ x, y ← f x; Ret (h y)) l = Ret ts →
  ∃ ys : list Y, mapM f l = Ret ys ∧ ts = h <$> ys.
Proof.
  revert ts. induction l as [|x l IH]; intros ts; simpl; [intros [= <-]; by exists []|].
  destruct (f x) as [y|]; [|done]. cbn.
  destruct (mapM (λ x, y ← f x; Ret (h y)) l) as [k|] eqn:E; [|done].
  intros [= <-]. destruct (IH k eq_refl) as (ys & -> & ->). by exists (y :: ys).
Qed.

Lemma fmap_nth_seq {X} (d : X) l : l = (λ i, nth i l d) <$> seq 0 (length l).
Proof.
  apply list_eq. intros i. rewrite list_lookup_fmap.
  destruct (decide (i < length l)%nat) as [Hi|Hi].
  - rewrite lookup_seq_lt by done. simpl. destruct (lookup_lt_is_Some_2 l i Hi) as [x Hx].
    rewrite Hx. f_equal. symmetry. by apply nth_lookup_Some.
  - rewrite lookup_seq_ge by lia. simpl. apply lookup_ge_None. lia.
Qed.

(** Elements of a list are told apart by a function that is injective on it. *)
Lemma NoDup_fmap_eq {X Y} (f : X → Y) l x y :
  NoDup (f <$> l) → x ∈ l → y ∈ l → f x = f y → x = y.
Proof.
  intros Hnd [i Hi]%list_elem_of_lookup_1 [j Hj]%list_elem_of_lookup_1 Hf.
  assert (i = j) as <-; [|congruence].
  eapply NoDup_lookup; [exact Hnd | by rewrite list_lookup_fmap, Hi |].
  by rewrite list_lookup_fmap, Hj, Hf.
Qed.

Lemma existsb_ext {X} (f g : X → bool) l : (∀ x, f x = g x) → existsb f l = existsb g l.
Proof. intros H. induction l as [|x l IH]; simpl; [done | by rewrite H, IH]. Qed.

Lemma Forall2_Forall_snd {X Y} (Q : X → Y → Prop) (R : Y → Prop) xs ys :
  Forall2 Q xs ys → (∀ x y, Q x y → R y) → Forall R ys.
Proof. induction 1; intros ?; constructor; eauto. Qed.

(** [go_inv H] decomposes [H : (x ← m; k x) = Ret b] down to its calls. *)
Ltac go_inv_core H a E :=
  apply go_bind_inv in H; destruct H as (a & E & H).
Tactic Notation "go_inv" hyp(H) :=
  let a := fresh "a" in let E := fresh "E" in go_inv_core H a E.
Tactic Notation "go_inv" hyp(H) "as" simple_intropattern(p) :=
  let a := fresh "a" in let E := fresh "E" in go_inv_core H a E; destruct a as p.

(** [use lem as pat]: apply [lem] in the last hypothesis it fits. *)
Tactic Notation "use" constr(lem) "as" simple_intropattern(p) :=
  match goal with H : _ |- _ => apply lem in H as p end.

(** ** Fixed-width integers

    Go's integer types are kept as [Z]; conversions and the arithmetic whose
    overflow matters wrap explicitly. *)

Definition wrap_u (w z : Z) : Z := z mod 2 ^ w.
Definition wrap_s (w z : Z) : Z := (z + 2 ^ (w - 1)) mod 2 ^ w - 2 ^ (w - 1).

Abbreviation u8 := (wrap_u 8).
Abbreviation u16 := (wrap_u 16).
Abbreviation u32 := (wrap_u 32).
Abbreviation u64 := (wrap_u 64).
Abbreviation i32 := (wrap_s 32).
Abbreviation i64 := (wrap_s 64).

Definition MaxInt32 : Z := 2147483647.

Lemma wrap_u_range w z : 0 ≤ w → 0 ≤ wrap_u w z < 2 ^ w.
Proof. intros. apply Z.mod_pos_bound. by apply Z.pow_pos_nonneg. Qed.

Lemma wrap_u_small w z : 0 ≤ z < 2 ^ w → wrap_u w z = z.
Proof. apply Z.mod_small. Qed.

Lemma wrap_s_small w z : 0 < w → - 2 ^ (w - 1) ≤ z < 2 ^ (w - 1) → wrap_s w z = z.
Proof.
  intros Hw Hz. unfold wrap_s.
  assert (2 ^ w = 2 * 2 ^ (w - 1)) by (rewrite <- Z.pow_succ_r by lia; f_equal; lia).
  rewrite Z.mod_small; lia.
Qed.

Lemma i32_small z : - 2147483648 ≤ z < 2147483648 → i32 z = z.
Proof. intros. by apply wrap_s_small. Qed.

Lemma i32_range z : - 2147483648 ≤ i32 z < 2147483648.
Proof.
  unfold wrap_s. change (2 ^ (32 - 1)) with 2147483648.
  pose proof (Z.mod_pos_bound (z + 2147483648) (2 ^ 32)) as H.
  change (2 ^ 32) with 4294967296 in *. lia.
Qed.

(** int32(uint32(z)) is z for every int32: the conversion pair used to put
    signed round numbers on the wire. *)
Lemma i32_u32 z : - 2147483648 ≤ z < 2147483648 → i32 (u32 z) = z.
Proof.
  intros Hz. unfold wrap_s, wrap_u.
  change (2 ^ (32 - 1)) with 2147483648. change (2 ^ 32) with 4294967296.
  rewrite Zplus_mod_idemp_l, Z.mod_small; lia.
Qed.

Lemma i64_u64 z : - 2 ^ 63 ≤ z < 2 ^ 63 → i64 (u64 z) = z.
Proof.
  intros Hz. unfold wrap_s, wrap_u.
  change (2 ^ (64 - 1)) with (2 ^ 63).
  rewrite Zplus_mod_idemp_l, Z.mod_small; lia.
Qed.
