(* ===== verification/GoStrings.v ===== *)
(** * Strings of the Go standard library

    The functions of packages strings, strconv, path and bufio that the code
    calls, on ASCII text: Split on one character, Replace of a character by
    nothing, TrimSpace, HasPrefix, Atoi with its saturation, path.Join and the
    lines of a Scanner; and the lemmas on what they do to printed numbers. *)

From Stdlib Require Import Ascii.
From stdpp Require Import pretty.
From S2P Require Import Prelude.

Open Scope Z_scope.

(** ** Definitions *)

(** strings.Split(s, string(c)) *)
Fixpoint Split (c : ascii) (s : string) : list string :=
  match s with
  | EmptyString => [EmptyString]
  | String x s =>
    if Ascii.eqb x c then EmptyString :: Split c s
    else match Split c s with
         | [] => [String x EmptyString]
         | w :: ws => String x w :: ws
         end
  end.

(** strings.Join(l, sep) *)
Fixpoint Join (sep : string) (l : list string) : string :=
  match l with
  | [] => EmptyString
  | [w] => w
  | w :: l => w +:+ sep +:+ Join sep l
  end.

(** strings.Replace(s, string(c), "", -1) *)
Fixpoint Remove (c : ascii) (s : string) : string :=
  match s with
  | EmptyString => EmptyString
  | String x s => if Ascii.eqb x c then Remove c s else String x (Remove c s)
  end.

Definition isSpace (c : ascii) : bool :=
  let n := N_of_ascii c in (N.leb 9 n && N.leb n 13) || N.eqb n 32.

Fixpoint TrimLeft (s : string) : string :=
  match s with String x s' => if isSpace x then TrimLeft s' else s | EmptyString => s end.
Fixpoint TrimRight (s : string) : string :=
  match s with
  | EmptyString => EmptyString
  | String x s =>
    match TrimRight s with
    | EmptyString => if isSpace x then EmptyString else String x EmptyString
    | s => String x s
    end
  end.

(** strings.TrimSpace *)
Definition TrimSpace (s : string) : string := TrimRight (TrimLeft s).

(** strings.HasPrefix and strings.Contains *)
Definition HasPrefix (s prefix : string) : bool := String.prefix prefix s.
Fixpoint Contains (s sub : string) : bool :=
  String.prefix sub s || match s with String _ s => Contains s sub | EmptyString => false end.

Definition isDigit (c : ascii) : bool :=
  let n := N_of_ascii c in N.leb 48 n && N.leb n 57.
Definition digit (c : ascii) : Z := Z.of_N (N_of_ascii c) - 48.

(** The value of a string of digits; [None] when it holds something else *)
Fixpoint digits (acc : Z) (s : string) : option Z :=
  match s with
  | EmptyString => Some acc
  | String c s => if isDigit c then digits (acc * 10 + digit c) s else None
  end.

Definition MinInt64 : Z := - 2 ^ 63.
Definition MaxInt64 : Z := 2 ^ 63 - 1.

(** strconv.Atoi: the number, and whether there is an error; a number out of
    range is cut to the nearest int, anything else that is no number gives 0 *)
Definition Atoi (s : string) : Z * bool :=
  let '(neg, body) :=
    match s with
    | String c s' =>
      if Ascii.eqb c "-" then (true, s') else if Ascii.eqb c "+" then (false, s') else (false, s)
    | EmptyString => (false, s)
    end in
  match body with
  | EmptyString => (0, true)
  | _ =>
    match digits 0 body with
    | None => (0, true)
    | Some n =>
      let z := if neg : bool then - n else n in
      if z <? MinInt64 then (MinInt64, true)
      else if MaxInt64 <? z then (MaxInt64, true) else (z, false)
    end
  end.

(** path.Clean: the elements that remain, last first *)
Definition cleanStep (rooted : bool) (acc : list string) (w : string) : list string :=
  if String.eqb w "" || String.eqb w "." then acc
  else if String.eqb w ".." then
    match acc with
    | top :: acc' => if String.eqb top ".." then w :: acc else acc'
    | [] => if rooted then [] else [w]
    end
  else w :: acc.
Definition Clean (p : string) : string :=
  let rooted := String.prefix "/" p in
  let body := Join "/" (rev (foldl (cleanStep rooted) [] (Split "/" p))) in
  if rooted then "/" +:+ body else if String.eqb body "" then "." else body.

(** path.Join *)
Definition path_Join (l : list string) : string :=
  match List.filter (λ w, negb (String.eqb w "")) l with
  | [] => EmptyString
  | l => Clean (Join "/" l)
  end.

(** The tokens of a bufio.Scanner that reads lines, and whether it stopped at
    a line that does not fit its buffer of 64 KB *)
Fixpoint dropCR (s : string) : string :=
  match s with
  | EmptyString => EmptyString
  | String c EmptyString => if Ascii.eqb c "013" then EmptyString else s
  | String c s => String c (dropCR s)
  end.
Fixpoint scan (l : list string) : list string * bool :=
  match l with
  | [] => ([], false)
  | [w] => if String.eqb w "" then ([], false)
           else if (65536 <=? String.length w)%nat then ([], true) else ([dropCR w], false)
  | w :: l => if (65536 <=? String.length w)%nat then ([], true)
              else let '(ws, err) := scan l in (dropCR w :: ws, err)
  end.
Definition scanLines (s : string) : list string * bool := scan (Split "010" s).

(** ** Splitting *)

(** All characters of a string satisfy [f] *)
Fixpoint allChars (f : ascii → bool) (s : string) : bool :=
  match s with EmptyString => true | String c s => f c && allChars f s end.

Lemma app_String c a b : String c a +:+ b = String c (a +:+ b).
Proof. done. Qed.

Lemma allChars_app f a b : allChars f (a +:+ b) = allChars f a && allChars f b.
Proof. induction a as [|c a IH]; [done|]. rewrite app_String. cbn. by rewrite IH, andb_assoc. Qed.

Lemma allChars_weaken (f g : ascii → bool) s :
  (∀ c, f c = true → g c = true) → allChars f s = true → allChars g s = true.
Proof.
  intros Hfg. induction s as [|c s IH]; [done|]. cbn. intros [Hc Hs]%andb_prop.
  by rewrite Hfg, IH.
Qed.

Definition isNot (c : ascii) : ascii → bool := λ x, negb (Ascii.eqb x c).

Lemma Split_none c a : allChars (isNot c) a = true → Split c a = [a].
Proof.
  induction a as [|x a IH]; [done|]. cbn. unfold isNot. destruct (Ascii.eqb x c); [done|].
  intros H. by rewrite IH.
Qed.

Lemma Split_app c a b :
  allChars (isNot c) a = true → Split c (a +:+ String c b) = a :: Split c b.
Proof.
  induction a as [|x a IH]; rewrite ?app_String; cbn.
  - intros _. change (EmptyString +:+ String c b) with (String c b). cbn. by rewrite Ascii.eqb_refl.
  - unfold isNot. destruct (Ascii.eqb x c); [done|]. intros H. by rewrite IH.
Qed.

(** Splitting undoes joining words that do not contain the separator. *)
Lemma Split_Join c l :
  l ≠ [] → Forall (λ w, allChars (isNot c) w = true) l →
  Split c (Join (String c EmptyString) l) = l.
Proof.
  intros Hl HF. induction HF as [|w l Hw HF IH]; [done|]. destruct l as [|w' l].
  - by apply Split_none.
  - change (Join (String c "") (w :: w' :: l)) with (w +:+ String c (Join (String c "") (w' :: l))).
    rewrite Split_app by done. f_equal. by apply IH.
Qed.

Lemma Split_nonempty c a : Split c a ≠ [].
Proof. destruct a as [|x a]; cbn; [done|]. destruct (Ascii.eqb x c); [done|]. by destruct (Split c a). Qed.

Lemma Split_app_both c a b : Split c (a +:+ String c b) = Split c a ++ Split c b.
Proof.
  induction a as [|x a IH].
  - change (EmptyString +:+ String c b) with (String c b). cbn. by rewrite Ascii.eqb_refl.
  - rewrite app_String. cbn. rewrite IH. destruct (Ascii.eqb x c); [done|].
    pose proof (Split_nonempty c a). by destruct (Split c a).
Qed.

Lemma Split_single c a w : Split c a = [w] → w = a.
Proof.
  revert w. induction a as [|x a IH]; intros w; cbn; [by intros [= <-]|].
  pose proof (Split_nonempty c a). destruct (Ascii.eqb x c); [by intros [= _ ?]|].
  destruct (Split c a) as [|w' ws]; [done|]. intros [= <- ->]. by rewrite (IH w').
Qed.

Lemma Remove_none c a : allChars (isNot c) a = true → Remove c a = a.
Proof.
  induction a as [|x a IH]; [done|]. cbn. unfold isNot. destruct (Ascii.eqb x c); [done|].
  intros H. by rewrite IH.
Qed.

Lemma Remove_app c a b : Remove c (a +:+ b) = Remove c a +:+ Remove c b.
Proof. induction a as [|x a IH]; [done|]. rewrite app_String. cbn. rewrite IH. by destruct (Ascii.eqb x c). Qed.

(** ** Trimming *)

Lemma TrimLeft_none s : allChars (λ c, negb (isSpace c)) s = true → TrimLeft s = s.
Proof. destruct s as [|x s]; [done|]. cbn. by destruct (isSpace x). Qed.

Lemma TrimRight_none s : allChars (λ c, negb (isSpace c)) s = true → TrimRight s = s.
Proof.
  induction s as [|x s IH]; [done|]. cbn. intros [Hx Hs]%andb_prop. rewrite IH by done.
  destruct (isSpace x); [done|]. by destruct s.
Qed.

Lemma TrimSpace_none s : allChars (λ c, negb (isSpace c)) s = true → TrimSpace s = s.
Proof. intros H. unfold TrimSpace. by rewrite TrimLeft_none, TrimRight_none. Qed.

(** ** Printed numbers *)

Lemma pretty_N_char_spec x :
  (x < 10)%N → isDigit (pretty_N_char x) = true ∧ digit (pretty_N_char x) = Z.of_N x.
Proof.
  intros H.
  assert (x = 0 ∨ x = 1 ∨ x = 2 ∨ x = 3 ∨ x = 4 ∨ x = 5 ∨ x = 6 ∨ x = 7 ∨ x = 8 ∨ x = 9)%N as Hx by lia.
  by repeat (destruct Hx as [->|Hx]; [by split|]); subst.
Qed.

Lemma digits_pretty_go x s : digits 0 (pretty_N_go x s) = digits (Z.of_N x) s.
Proof.
  revert s. induction (N.lt_wf_0 x) as [x _ IH]. intros s.
  assert (x = 0 ∨ 0 < x)%N as [->|Hx] by lia; [by rewrite pretty_N_go_0|].
  rewrite pretty_N_go_step by done. rewrite IH by (apply N.div_lt; lia). cbn [digits].
  destruct (pretty_N_char_spec (x mod 10)) as [-> ->]; [by apply N.mod_lt|].
  f_equal. rewrite N2Z.inj_div, N2Z.inj_mod. pose proof (Z.div_mod (Z.of_N x) 10). lia.
Qed.

Lemma pretty_go_digits x s :
  allChars isDigit s = true → allChars isDigit (pretty_N_go x s) = true.
Proof.
  revert s. induction (N.lt_wf_0 x) as [x _ IH]. intros s Hs.
  assert (x = 0 ∨ 0 < x)%N as [->|Hx] by lia; [by rewrite pretty_N_go_0|].
  rewrite pretty_N_go_step by done. apply IH; [apply N.div_lt; lia|]. cbn.
  destruct (pretty_N_char_spec (x mod 10)) as [-> _]; [by apply N.mod_lt | done].
Qed.

Lemma pretty_pos p : pretty (Z.pos p) = pretty_N_go (N.pos p) EmptyString.
Proof. change (pretty (Z.pos p)) with (pretty (N.pos p)). unfold pretty, pretty_N. by rewrite decide_False. Qed.

(** A number that is not negative is printed with digits only, and read back. *)
Lemma pretty_digits (z : Z) : 0 ≤ z → allChars isDigit (pretty z) = true.
Proof.
  intros Hz. destruct z as [|p|p]; [done| |lia]. rewrite pretty_pos. by apply pretty_go_digits.
Qed.

Lemma pretty_value (z : Z) : 0 ≤ z → digits 0 (pretty z) = Some z.
Proof.
  intros Hz. destruct z as [|p|p]; [done| |lia]. by rewrite pretty_pos, digits_pretty_go.
Qed.

Lemma pretty_nonempty (z : Z) : pretty z ≠ EmptyString.
Proof.
  intros E. destruct (decide (0 ≤ z)) as [Hz|Hz].
  - pose proof (pretty_value _ Hz) as H. rewrite E in H. cbn in H. injection H as <-. done.
  - destruct z as [|p|p]; [lia..|]. done.
Qed.

Lemma digit_start c : isDigit c = true → Ascii.eqb c "-" = false ∧ Ascii.eqb c "+" = false.
Proof. intros H. split; apply Ascii.eqb_neq; by intros ->. Qed.

Lemma Atoi_digits s n :
  s ≠ EmptyString → allChars isDigit s = true → digits 0 s = Some n → n ≤ MaxInt64 → 0 ≤ n →
  Atoi s = (n, false).
Proof.
  intros Hs Hd Hn Hle H0. unfold Atoi. destruct s as [|c s]; [done|].
  pose proof Hd as [Hc _]%andb_prop. apply digit_start in Hc as [-> ->]. rewrite Hn.
  unfold MinInt64, MaxInt64 in *. destruct (Z.ltb_spec n (- 2 ^ 63)); [lia|].
  destruct (Z.ltb_spec (2 ^ 63 - 1) n); [lia|]. done.
Qed.

(** Atoi undoes Itoa on every int. *)
Lemma Atoi_Itoa z : MinInt64 ≤ z ≤ MaxInt64 → Atoi (pretty z) = (z, false).
Proof.
  intros Hz. destruct (decide (0 ≤ z)) as [H0|H0].
  - apply Atoi_digits; [apply pretty_nonempty | by apply pretty_digits | by apply pretty_value | lia | done].
  - destruct z as [|p|p]; [lia..|].
    change (pretty (Z.neg p)) with (String "-" (pretty (N.pos p))).
    pose proof (pretty_value (Z.pos p)) as Hv. pose proof (pretty_nonempty (Z.pos p)) as Hne.
    change (pretty (Z.pos p)) with (pretty (N.pos p)) in Hv, Hne. unfold Atoi.
    change (Ascii.eqb "-" "-") with true. cbn iota.
    destruct (pretty (N.pos p)) as [|c s]; [done|]. rewrite Hv by lia.
    unfold MinInt64, MaxInt64 in *. change (- Z.pos p) with (Z.neg p).
    destruct (Z.ltb_spec (Z.neg p) (- 2 ^ 63)); [lia|].
    destruct (Z.ltb_spec (2 ^ 63 - 1) (Z.neg p)); [lia|]. done.
Qed.

Lemma digit_no_space c : isDigit c = true → isSpace c = false.
Proof.
  unfold isDigit, isSpace. generalize (N_of_ascii c) as n. intros n [H1 H2]%andb_prop.
  apply N.leb_le in H1, H2. destruct (N.leb_spec 9 n), (N.leb_spec n 13), (N.eqb_spec n 32); try lia; done.
Qed.

Lemma digits_trim s : allChars isDigit s = true → TrimSpace s = s.
Proof.
  intros H. apply TrimSpace_none. revert H. apply allChars_weaken.
  intros c Hc. by rewrite digit_no_space.
Qed.

(** A separator that is no digit does not occur in a printed number. *)
Lemma digits_isNot c s : isDigit c = false → allChars isDigit s = true → allChars (isNot c) s = true.
Proof.
  intros Hc. apply allChars_weaken. intros x Hx. unfold isNot.
  destruct (Ascii.eqb_spec x c) as [->|]; [congruence | done].
Qed.

Create HintDb go_strings.
#[export] Hint Resolve pretty_digits digits_isNot digits_trim pretty_nonempty : go_strings.
