(* ===== verification/Bytes.v ===== *)
(** * Byte slices

    Go slices of bytes as lists of [Z], each element meant to be in [0, 256):
    indexing and re-slicing with their bounds checks, [make] and [copy], the
    XOR of two slices, and the big-endian codecs of [encoding/binary].  A slice
    is modelled with its capacity equal to its length, so re-slicing beyond the
    length is a runtime error. *)

From S2P Require Import Prelude.

Open Scope Z_scope.

Abbreviation bytes := (list Z).

(** ** Construction, indexing, slicing *)

Definition len {A} (l : list A) : Z := Z.of_nat (length l).

Definition zeros (n : nat) : bytes := replicate n 0.

(** [make([]byte, n)] *)
Definition make_bytes (n : Z) : go bytes :=
  if n <? 0 then Crash RuntimeError else Ret (zeros (Z.to_nat n)).

(** [l[i]] *)
Definition index {A} (l : list A) (i : Z) : go A :=
  if i <? 0 then Crash RuntimeError
  else match l !! Z.to_nat i with Some x => Ret x | None => Crash RuntimeError end.

(** [l[i] = x] *)
Definition set_index {A} (l : list A) (i : Z) (x : A) : go (list A) :=
  if (i <? 0) || (len l <=? i) then Crash RuntimeError
  else Ret (<[Z.to_nat i := x]> l).

(** [l[lo:hi]] *)
Definition slice {A} (l : list A) (lo hi : Z) : go (list A) :=
  if (lo <? 0) || (hi <? lo) || (len l <? hi) then Crash RuntimeError
  else Ret (take (Z.to_nat (hi - lo)) (drop (Z.to_nat lo) l)).

(** [l[lo:]] *)
Definition slice_from {A} (l : list A) (lo : Z) : go (list A) := slice l lo (len l).

(** [copy(dst, src)]: the bytes of [src] over the front of [dst], as many as
    both slices hold. *)
Definition copy_bytes {A} (dst src : list A) : list A :=
  take (length dst) src ++ drop (length src) dst.

(** [copy(dst[off:], src)] for [off] inside [dst] *)
Definition copy_at {A} (dst : list A) (off : nat) (src : list A) : list A :=
  take off dst ++ copy_bytes (drop off dst) src.

(** [copy(dst[lo:hi], src)] *)
Definition copy_into (dst : bytes) (lo hi : Z) (src : bytes) : go bytes :=
  part ← slice dst lo hi;
  Ret (take (Z.to_nat lo) dst ++ copy_bytes part src ++ drop (Z.to_nat hi) dst).

Definition bytes_ok (l : bytes) : Prop := Forall (λ b, 0 ≤ b < 256) l.

#[global] Instance bytes_ok_dec l : Decision (bytes_ok l).
Proof. unfold bytes_ok. apply _. Defined.

Lemma len_nonneg {A} (l : list A) : 0 ≤ len l.
Proof. unfold len. lia. Qed.

Lemma to_nat_len {A} (l : list A) : Z.to_nat (len l) = length l.
Proof. unfold len. lia. Qed.

Lemma len_app {A} (l k : list A) : len (l ++ k) = len l + len k.
Proof. unfold len. rewrite length_app. lia. Qed.

Lemma length_zeros n : length (zeros n) = n.
Proof. apply length_replicate. Qed.

Lemma len_zeros n : len (zeros n) = Z.of_nat n.
Proof. unfold len. by rewrite length_zeros. Qed.

Lemma bytes_ok_zeros n : bytes_ok (zeros n).
Proof. apply Forall_replicate. lia. Qed.

Lemma make_bytes_ret n : 0 ≤ n → make_bytes n = Ret (zeros (Z.to_nat n)).
Proof. intros. unfold make_bytes. rewrite (proj2 (Z.ltb_ge _ _)) by lia. done. Qed.

Lemma index_lookup {A} (l : list A) i x :
  0 ≤ i → l !! Z.to_nat i = Some x → index l i = Ret x.
Proof. intros Hi Hx. unfold index. rewrite (proj2 (Z.ltb_ge _ _)) by lia. by rewrite Hx. Qed.

Lemma index_oob {A} (l : list A) i : len l ≤ i → index l i = Crash RuntimeError.
Proof.
  intros Hi. unfold index, len in *. destruct (Z.ltb_spec i 0); [done|].
  rewrite lookup_ge_None_2 by lia. done.
Qed.

Lemma index_ret {A} (l : list A) i x :
  index l i = Ret x ↔ 0 ≤ i ∧ l !! Z.to_nat i = Some x.
Proof.
  unfold index. destruct (Z.ltb_spec i 0).
  - split; [done | lia].
  - destruct (l !! Z.to_nat i); split; [by intros [= ->] | by intros [_ [= ->]] | done | by intros [? ?]].
Qed.

Lemma set_index_ret {A} (l : list A) i x :
  0 ≤ i < len l → set_index l i x = Ret (<[Z.to_nat i := x]> l).
Proof.
  intros Hi. unfold set_index.
  destruct (Z.ltb_spec i 0), (Z.leb_spec (len l) i); simpl; done || lia.
Qed.

Lemma slice_ret {A} (l : list A) lo hi :
  0 ≤ lo ≤ hi → hi ≤ len l →
  slice l lo hi = Ret (take (Z.to_nat (hi - lo)) (drop (Z.to_nat lo) l)).
Proof.
  intros ??. unfold slice.
  destruct (Z.ltb_spec lo 0), (Z.ltb_spec hi lo), (Z.ltb_spec (len l) hi); simpl; done || lia.
Qed.

Lemma slice_crash {A} (l : list A) lo hi :
  lo < 0 ∨ hi < lo ∨ len l < hi → slice l lo hi = Crash RuntimeError.
Proof.
  intros H. unfold slice.
  destruct (Z.ltb_spec lo 0), (Z.ltb_spec hi lo), (Z.ltb_spec (len l) hi); simpl; done || lia.
Qed.

Lemma slice_from_ret {A} (l : list A) lo :
  0 ≤ lo ≤ len l → slice_from l lo = Ret (drop (Z.to_nat lo) l).
Proof.
  intros H. unfold slice_from. rewrite slice_ret by lia. f_equal.
  apply take_ge. rewrite length_drop. unfold len in *. lia.
Qed.

(** Slicing a concatenation at its seams. *)
Lemma slice_app_l {A} (l k : list A) hi : hi = len l → slice (l ++ k) 0 hi = Ret l.
Proof.
  intros ->. rewrite slice_ret; [|unfold len; lia | rewrite len_app; unfold len; lia].
  f_equal. rewrite Z.sub_0_r, to_nat_len. change (Z.to_nat 0) with 0%nat.
  rewrite drop_0. by rewrite take_app_length.
Qed.

Lemma slice_app_r {A} (l k : list A) lo hi :
  lo = len l → hi = len l + len k → slice (l ++ k) lo hi = Ret k.
Proof.
  intros -> ->. rewrite slice_ret; [|unfold len; lia | rewrite len_app; lia].
  f_equal. rewrite to_nat_len, drop_app_length.
  apply take_ge. unfold len. lia.
Qed.

Lemma slice_app_mid {A} (a b c : list A) lo hi :
  lo = len a → hi = len a + len b → slice (a ++ b ++ c) lo hi = Ret b.
Proof.
  intros -> ->. rewrite slice_ret; [|unfold len; lia | rewrite !len_app; unfold len; lia].
  f_equal. rewrite to_nat_len, drop_app_length.
  replace (Z.to_nat _) with (length b) by (unfold len; lia).
  by rewrite take_app_length.
Qed.

Lemma slice_from_app {A} (l k : list A) lo : lo = len l → slice_from (l ++ k) lo = Ret k.
Proof. intros ->. unfold slice_from. apply slice_app_r; [done | apply len_app]. Qed.

Lemma length_copy_bytes {A} (dst src : list A) : length (copy_bytes dst src) = length dst.
Proof. unfold copy_bytes. rewrite length_app, length_take, length_drop. lia. Qed.

Lemma copy_bytes_same {A} (dst src : list A) : length src = length dst → copy_bytes dst src = src.
Proof.
  intros H. unfold copy_bytes. rewrite (drop_ge dst) by lia.
  rewrite app_nil_r. apply take_ge. lia.
Qed.

Lemma copy_bytes_short {A} (dst src : list A) :
  (length src ≤ length dst)%nat → copy_bytes dst src = src ++ drop (length src) dst.
Proof. intros. unfold copy_bytes. by rewrite take_ge. Qed.

Lemma copy_into_mid (a b c src : bytes) lo hi :
  lo = len a → hi = len a + len b → length src = length b →
  copy_into (a ++ b ++ c) lo hi src = Ret (a ++ src ++ c).
Proof.
  intros Hlo Hhi Hs. unfold copy_into. rewrite slice_app_mid by done. cbn [mbind go_bind].
  rewrite copy_bytes_same by done. do 2 f_equal.
  - subst lo. by rewrite to_nat_len, take_app_length.
  - f_equal. rewrite (assoc_L (++)). apply drop_app_length'. rewrite length_app. subst hi.
    unfold len. lia.
Qed.

(** ** XOR *)

Definition xor_bytes (a b : bytes) : bytes := zip_with Z.lxor a b.

(** [for k := range dst { dst[k] ^= src[k] }] *)
Definition xor_into (dst src : bytes) : go bytes :=
  if (length src <? length dst)%nat then Crash RuntimeError
  else Ret (xor_bytes dst src).

(** [for k := range src { dst[k] ^= src[k] }] *)
Definition xor_range (dst src : bytes) : go bytes :=
  if (length dst <? length src)%nat then Crash RuntimeError
  else Ret (xor_bytes (take (length src) dst) src ++ drop (length src) dst).

#[global] Instance xor_bytes_comm : Comm eq xor_bytes.
Proof. intros a. induction a as [|x a IH]; intros [|y b]; simpl; f_equal; auto using Z.lxor_comm. Qed.

#[global] Instance xor_bytes_assoc : Assoc eq xor_bytes.
Proof.
  intros a. induction a as [|x a IH]; intros [|y b] [|z c]; simpl; try done.
  f_equal; [by rewrite Z.lxor_assoc | apply IH].
Qed.

Lemma length_xor_bytes a b : length (xor_bytes a b) = (length a `min` length b)%nat.
Proof. apply length_zip_with. Qed.

Lemma xor_bytes_zeros_l a n : length a = n → xor_bytes (zeros n) a = a.
Proof. intros <-. induction a as [|x a IH]; simpl; [done|]. f_equal; apply IH. Qed.

Lemma xor_bytes_zeros_r a n : length a = n → xor_bytes a (zeros n) = a.
Proof. intros. rewrite (comm xor_bytes). by apply xor_bytes_zeros_l. Qed.

Lemma xor_bytes_self a : xor_bytes a a = zeros (length a).
Proof. induction a as [|x a IH]; simpl; [done|]. by rewrite Z.lxor_nilpotent, IH. Qed.

Lemma xor_into_ret dst src :
  (length dst ≤ length src)%nat → xor_into dst src = Ret (xor_bytes dst src).
Proof. intros. unfold xor_into. by rewrite (proj2 (Nat.ltb_ge _ _)). Qed.

Lemma xor_range_ret dst src :
  length src = length dst → xor_range dst src = Ret (xor_bytes dst src).
Proof.
  intros H. unfold xor_range. rewrite H, Nat.ltb_irrefl.
  by rewrite take_ge, drop_ge, app_nil_r by lia.
Qed.

Lemma lookup_xor_bytes a b i x y :
  a !! i = Some x → b !! i = Some y → xor_bytes a b !! i = Some (Z.lxor x y).
Proof. intros Ha Hb. unfold xor_bytes. rewrite lookup_zip_with, Ha. simpl. by rewrite Hb. Qed.

Lemma land_pow2 b k : 0 ≤ k → Z.land b (2 ^ k) = if Z.testbit b k then 2 ^ k else 0.
Proof.
  intros Hk. apply Z.bits_inj'. intros i Hi. rewrite Z.land_spec, Z.pow2_bits_eqb by done.
  destruct (Z.eqb_spec k i) as [->|Hne].
  - destruct (Z.testbit b i) eqn:Hb; [by rewrite Z.pow2_bits_true | by rewrite Z.bits_0].
  - rewrite andb_false_r. destruct (Z.testbit b k); [|by rewrite Z.bits_0].
    by rewrite Z.pow2_bits_false.
Qed.

Lemma byte_lxor x y : 0 ≤ x < 256 → 0 ≤ y < 256 → 0 ≤ Z.lxor x y < 256.
Proof.
  intros Hx Hy. split; [apply Z.lxor_nonneg; lia|].
  destruct (Z.eq_dec (Z.lxor x y) 0); [lia|].
  apply (Z.log2_lt_pow2 _ 8); [|].
  { assert (0 ≤ Z.lxor x y) by (apply Z.lxor_nonneg; lia). lia. }
  eapply Z.le_lt_trans; [apply Z.log2_lxor; lia|].
  assert (∀ z, 0 ≤ z < 256 → Z.log2 z < 8) as Hlog.
  { intros z Hz. destruct (Z.eq_dec z 0) as [->|]; [done|].
    apply Z.log2_lt_pow2; [lia | done || lia]. }
  pose proof (Hlog x Hx). pose proof (Hlog y Hy). lia.
Qed.

Lemma bytes_ok_xor a b : bytes_ok a → bytes_ok b → bytes_ok (xor_bytes a b).
Proof.
  unfold bytes_ok. intros Ha. revert b.
  induction Ha as [|x a Hx Ha IH]; intros [|y b] Hb; simpl; try by constructor.
  inversion Hb; subst. constructor; [by apply byte_lxor | by apply IH].
Qed.

(** ** Sums of slices

    [xor_sum n f l] is the XOR of [f x] for [x] in [l], a slice of length [n]:
    the sum a DC-net round computes. *)

Section xor_sums.
Context {X : Type} (n : nat).
Implicit Types f g : X → bytes.

Fixpoint xor_sum f (l : list X) : bytes :=
  match l with
  | [] => zeros n
  | x :: l => xor_bytes (f x) (xor_sum f l)
  end.

Lemma length_xor_sum f l :
  (∀ x, x ∈ l → length (f x) = n) → length (xor_sum f l) = n.
Proof.
  induction l as [|x l IH]; intros Hf; simpl; [apply length_zeros|].
  rewrite length_xor_bytes, IH, Hf by set_solver. lia.
Qed.

Lemma xor_sum_ext f g l : (∀ x, x ∈ l → f x = g x) → xor_sum f l = xor_sum g l.
Proof.
  induction l as [|x l IH]; intros H; simpl; [done|].
  rewrite H by set_solver. by rewrite IH by set_solver.
Qed.

Lemma xor_sum_split f g l :
  xor_sum (λ x, xor_bytes (f x) (g x)) l = xor_bytes (xor_sum f l) (xor_sum g l).
Proof.
  induction l as [|x l IH]; simpl.
  - by rewrite xor_bytes_zeros_l by apply length_zeros.
  - rewrite IH, !(assoc xor_bytes). f_equal. rewrite <- !(assoc xor_bytes).
    f_equal. by rewrite (comm xor_bytes).
Qed.

Lemma xor_sum_zeros f l : (∀ x, x ∈ l → f x = zeros n) → xor_sum f l = zeros n.
Proof.
  induction l as [|x l IH]; intros H; simpl; [done|].
  rewrite H, IH by set_solver. apply xor_bytes_zeros_l, length_zeros.
Qed.

(** A sum with a single non-zero term is that term. *)
Lemma xor_sum_single f l o :
  NoDup l → o ∈ l → length (f o) = n → (∀ x, x ∈ l → x ≠ o → f x = zeros n) →
  xor_sum f l = f o.
Proof.
  induction l as [|x l IH]; intros Hnd Ho Hlen Hz; [by apply elem_of_nil in Ho|].
  apply NoDup_cons in Hnd as [Hx Hnd]. simpl.
  apply elem_of_cons in Ho as [->|Ho].
  - rewrite xor_sum_zeros; [by apply xor_bytes_zeros_r|].
    intros y Hy. apply Hz; [set_solver|]. by intros ->.
  - rewrite (Hz x), IH; [by apply xor_bytes_zeros_l | done | done | done | | set_solver | by intros ->].
    intros y Hy. apply Hz. set_solver.
Qed.

(** Accumulating from the left, the order in which the relay folds ciphers. *)
Lemma foldl_xor_sum f l acc :
  length acc = n → (∀ x, x ∈ l → length (f x) = n) →
  foldl (λ a x, xor_bytes a (f x)) acc l = xor_bytes acc (xor_sum f l).
Proof.
  revert acc. induction l as [|x l IH]; intros acc Hacc Hf; simpl.
  - by rewrite xor_bytes_zeros_r.
  - rewrite IH, (assoc xor_bytes); [done | | set_solver].
    rewrite length_xor_bytes, Hf by set_solver. lia.
Qed.
End xor_sums.

(** Exchange of two summations: the pads summed per client equal the pads
    summed per trustee. *)
Lemma xor_sum_exchange {X Y} n (f : X → Y → bytes) (xs : list X) (ys : list Y) :
  xor_sum n (λ x, xor_sum n (f x) ys) xs = xor_sum n (λ y, xor_sum n (λ x, f x y) xs) ys.
Proof.
  induction xs as [|x xs IH]; simpl.
  - by rewrite xor_sum_zeros.
  - by rewrite IH, <- xor_sum_split.
Qed.

Lemma xor_sum_Forall2 {X Y} n (Q : X → Y → Prop) (f : X → bytes) (g : Y → bytes) xs ys :
  Forall2 Q xs ys → (∀ x y, x ∈ xs → Q x y → f x = g y) → xor_sum n f xs = xor_sum n g ys.
Proof.
  induction 1 as [|x y xs ys HQ _ IH]; intros H; simpl; [done|].
  rewrite (H x y), IH by set_solver. done.
Qed.

Lemma xor_sum_map {X Y} n (g : X → Y) (f : Y → bytes) l :
  xor_sum n f (g <$> l) = xor_sum n (λ x, f (g x)) l.
Proof. induction l as [|x l IH]; [done|]. rewrite fmap_cons. cbn [xor_sum]. by rewrite IH. Qed.

(** ** Big-endian integers ([encoding/binary]) *)

(** The [n] low-order bytes of [z], most significant first ([PutUint16],
    [PutUint32], [PutUint64] for n = 2, 4, 8). *)
Fixpoint be_encode (n : nat) (z : Z) : bytes :=
  match n with
  | O => []
  | S n => be_encode n (z / 256) ++ [z mod 256]
  end.

(** The value of a slice read most significant byte first ([Uint16],
    [Uint32], [Uint64]). *)
Definition be_decode (l : bytes) : Z := foldl (λ acc b, acc * 256 + b) 0 l.

Lemma length_be_encode n z : length (be_encode n z) = n.
Proof. revert z. induction n as [|n IH]; intros z; simpl; [done|]. rewrite length_app, IH. simpl. lia. Qed.

Lemma len_be_encode n z : len (be_encode n z) = Z.of_nat n.
Proof. unfold len. by rewrite length_be_encode. Qed.

Lemma bytes_ok_be_encode n z : bytes_ok (be_encode n z).
Proof.
  revert z. induction n as [|n IH]; intros z; simpl; [constructor|].
  apply Forall_app; split; [apply IH|]. repeat constructor; apply Z.mod_pos_bound; lia.
Qed.

Lemma be_decode_snoc l b : be_decode (l ++ [b]) = be_decode l * 256 + b.
Proof. unfold be_decode. by rewrite foldl_app. Qed.

Lemma be_decode_encode n z : be_decode (be_encode n z) = z mod 256 ^ Z.of_nat n.
Proof.
  revert z. induction n as [|n IH]; intros z; simpl be_encode.
  - change (256 ^ Z.of_nat 0) with 1. rewrite Z.mod_1_r. done.
  - rewrite be_decode_snoc, IH.
    replace (256 ^ Z.of_nat (S n)) with (256 * 256 ^ Z.of_nat n)
      by (rewrite Nat2Z.inj_succ, Z.pow_succ_r; lia).
    rewrite Z.rem_mul_r by lia. lia.
Qed.

Lemma be_decode_range l : bytes_ok l → 0 ≤ be_decode l < 256 ^ len l.
Proof.
  intros Hl. induction l as [|b l IH] using rev_ind; [done|].
  apply Forall_app in Hl as [Hl Hb]. inversion_clear Hb as [|?? Hbb _].
  rewrite be_decode_snoc, len_app. specialize (IH Hl).
  change (len [b]) with 1. rewrite Z.pow_add_r by (unfold len; lia). lia.
Qed.

Lemma be_encode_decode l : bytes_ok l → be_encode (length l) (be_decode l) = l.
Proof.
  intros Hl. induction l as [|b l IH] using rev_ind; [done|].
  apply Forall_app in Hl as [Hl Hb]. inversion_clear Hb as [|?? Hbb _].
  rewrite length_app, Nat.add_1_r. simpl. rewrite be_decode_snoc.
  replace ((be_decode l * 256 + b) / 256) with (be_decode l)
    by (apply Z.div_unique_pos with b; lia).
  replace ((be_decode l * 256 + b) mod 256) with b
    by (apply Z.mod_unique_pos with (be_decode l); lia).
  by rewrite IH.
Qed.

Abbreviation put_u16 z := (be_encode 2 z).
Abbreviation put_u32 z := (be_encode 4 z).
Abbreviation put_u64 z := (be_encode 8 z).

Lemma be_u16 z : be_decode (put_u16 z) = u16 z.
Proof. by rewrite be_decode_encode. Qed.
Lemma be_u32 z : be_decode (put_u32 z) = u32 z.
Proof. by rewrite be_decode_encode. Qed.
Lemma be_u64 z : be_decode (put_u64 z) = u64 z.
Proof. by rewrite be_decode_encode. Qed.

(** ** Automation *)

Create HintDb slices.
Create Rewrite HintDb slices.
#[export] Hint Rewrite @len_app @len_be_encode @len_zeros @length_app @length_zeros
  @length_be_encode @length_copy_bytes @length_take @length_drop : slices.
#[export] Hint Resolve bytes_ok_zeros bytes_ok_be_encode bytes_ok_xor : slices.

(** Length side conditions. *)
Ltac slen := autorewrite with slices in *; unfold len in *; simpl length in *; lia.
