(* ===== verification/Crypto.v ===== *)
(** * Cryptographic suite

    The primitives PriFi calls and does not implement, as one interface: the
    kyber group and XOF behind [config.CryptoSuite] (prifi-lib/config/config.go),
    AES-GCM, SHA-256, Schnorr signatures and the NIZK prover of kyber/proof.
    [CryptoSuite] lists the operations; [CryptoLaws] states the documented
    facts the protocol relies on.  A small concrete suite at the end of the file
    satisfies every law, so that theorems which assume them can be applied to
    runs that compute. *)

From S2P Require Import Prelude Bytes.
From Stdlib Require Import Eqdep_dec.

Open Scope Z_scope.

Class CryptoSuite := {
  (** go.dedis.ch/kyber: scalars and points of the group, [config.CryptoSuite] *)
  Scalar : Type;
  Point : Type;
  Scalar_Zero : Scalar;
  Scalar_One : Scalar;
  Scalar_Add : Scalar → Scalar → Scalar;
  Scalar_Sub : Scalar → Scalar → Scalar;
  Scalar_Mul : Scalar → Scalar → Scalar;
  Scalar_SetBytes : bytes → Scalar;
  Scalar_MarshalBinary : Scalar → option bytes;  (* [None]: the error result *)
  Scalar_MarshalSize : Scalar → Z;
  Point_Base : Point;
  Point_Mul : Scalar → Point → Point;
  Point_Equal : Point → Point → bool;
  Point_MarshalBinary : Point → option bytes;
  (** kyber.XOF: an extendable-output function, used as a stream cipher *)
  XOF : Type;
  XOF_New : bytes → XOF;
  XORKeyStream : XOF → bytes → bytes * XOF;
  Scalar_Pick : XOF → Scalar * XOF;
  (** crypto/sha256 *)
  Sum256 : bytes → bytes;
  (** crypto/aes + crypto/cipher: [None] is the error of [aes.NewCipher] *)
  aesgcm_Seal : bytes → bytes → bytes → option bytes;
  aesgcm_Open : bytes → bytes → bytes → option (result bytes);
  (** kyber/sign/schnorr, with the signer's nonce stream *)
  schnorr_Sign : XOF → Scalar → bytes → result bytes;
  schnorr_Verify : Point → bytes → bytes → bool
}.

Class CryptoLaws (CS : CryptoSuite) := {
  (** scalars form a commutative ring *)
  Scalar_Add_comm : ∀ a b, Scalar_Add a b = Scalar_Add b a;
  Scalar_Add_assoc : ∀ a b c, Scalar_Add a (Scalar_Add b c) = Scalar_Add (Scalar_Add a b) c;
  Scalar_Add_0_l : ∀ a, Scalar_Add Scalar_Zero a = a;
  Scalar_Sub_Add : ∀ a b, Scalar_Sub (Scalar_Add a b) b = a;
  Scalar_Mul_comm : ∀ a b, Scalar_Mul a b = Scalar_Mul b a;
  Scalar_Mul_assoc : ∀ a b c, Scalar_Mul a (Scalar_Mul b c) = Scalar_Mul (Scalar_Mul a b) c;
  Scalar_Mul_Add_distr_l : ∀ a b c,
    Scalar_Mul a (Scalar_Add b c) = Scalar_Add (Scalar_Mul a b) (Scalar_Mul a c);
  (** marshalling never fails and is inverted by SetBytes *)
  Scalar_Marshal_SetBytes : ∀ a, ∃ bs, Scalar_MarshalBinary a = Some bs ∧ Scalar_SetBytes bs = a;
  Scalar_Marshal_length : ∀ a bs, Scalar_MarshalBinary a = Some bs → length bs = 32%nat;
  (** scalars act on points; equality of points is decidable *)
  Point_Mul_Mul : ∀ a b P, Point_Mul a (Point_Mul b P) = Point_Mul (Scalar_Mul a b) P;
  Point_Equal_eq : ∀ P Q, Point_Equal P Q = true ↔ P = Q;
  Point_Marshal_Some : ∀ P, is_Some (Point_MarshalBinary P);
  (** a keystream XORs its input, byte for byte *)
  XORKeyStream_length : ∀ x src, length (XORKeyStream x src).1 = length src;
  Sum256_length : ∀ m, length (Sum256 m) = 32%nat;
  (** AES-GCM with a marshalled scalar as key (32 bytes, AES-256): opening what
      was sealed under the same key and nonce returns it; 16 bytes of tag *)
  aesgcm_Seal_Open : ∀ a key nonce m, Scalar_MarshalBinary a = Some key →
    ∃ c, aesgcm_Seal key nonce m = Some c ∧ aesgcm_Open key nonce c = Some (Ok m) ∧
         length c = (length m + 16)%nat;
  (** a signature made with the private key verifies under the public key *)
  schnorr_Sign_Verify : ∀ x sk m, ∃ sig, schnorr_Sign x sk m = Ok sig ∧
    schnorr_Verify (Point_Mul sk Point_Base) m sig = true
}.

(** ** Sums of scalars *)

Section scalar_sums.
Context {CS : CryptoSuite} {CL : CryptoLaws CS}.

#[global] Instance Scalar_Add_Comm : Comm eq Scalar_Add.
Proof. intros a b. apply Scalar_Add_comm. Qed.
#[global] Instance Scalar_Add_Assoc : Assoc eq Scalar_Add.
Proof. intros a b c. apply Scalar_Add_assoc. Qed.
Lemma Scalar_Add_0_r a : Scalar_Add a Scalar_Zero = a.
Proof. rewrite (comm Scalar_Add). apply Scalar_Add_0_l. Qed.

Definition scalar_sum {X} (f : X → Scalar) (l : list X) : Scalar :=
  foldr (λ x acc, Scalar_Add (f x) acc) Scalar_Zero l.

Lemma Scalar_Mul_0_r a : Scalar_Mul a Scalar_Zero = Scalar_Zero.
Proof.
  rewrite <- (Scalar_Sub_Add (Scalar_Mul a Scalar_Zero) (Scalar_Mul a Scalar_Zero)).
  rewrite <- Scalar_Mul_Add_distr_l, Scalar_Add_0_l.
  rewrite <- (Scalar_Add_0_l (Scalar_Mul a Scalar_Zero)) at 1. apply Scalar_Sub_Add.
Qed.

Lemma scalar_sum_ext {X} (f g : X → Scalar) l :
  (∀ x, x ∈ l → f x = g x) → scalar_sum f l = scalar_sum g l.
Proof.
  induction l as [|x l IH]; intros H; simpl; [done|].
  rewrite (H x) by set_solver. rewrite IH; [done | set_solver].
Qed.

Lemma scalar_sum_add {X} (f g : X → Scalar) l :
  scalar_sum (λ x, Scalar_Add (f x) (g x)) l = Scalar_Add (scalar_sum f l) (scalar_sum g l).
Proof.
  induction l as [|x l IH]; simpl; [by rewrite Scalar_Add_0_l|].
  rewrite IH, !(assoc Scalar_Add). f_equal. rewrite <- !(assoc Scalar_Add).
  f_equal. apply (comm Scalar_Add).
Qed.

Lemma scalar_sum_mul {X} a (f : X → Scalar) l :
  scalar_sum (λ x, Scalar_Mul a (f x)) l = Scalar_Mul a (scalar_sum f l).
Proof.
  induction l as [|x l IH]; simpl; [by rewrite Scalar_Mul_0_r|].
  by rewrite IH, Scalar_Mul_Add_distr_l.
Qed.

Lemma scalar_sum_zero {X} (f : X → Scalar) l :
  (∀ x, x ∈ l → f x = Scalar_Zero) → scalar_sum f l = Scalar_Zero.
Proof.
  induction l as [|x l IH]; intros H; simpl; [done|].
  rewrite (H x) by set_solver. rewrite IH; [by rewrite Scalar_Add_0_l | set_solver].
Qed.

Lemma scalar_sum_exchange {X Y} (f : X → Y → Scalar) xs ys :
  scalar_sum (λ x, scalar_sum (f x) ys) xs = scalar_sum (λ y, scalar_sum (λ x, f x y) xs) ys.
Proof.
  induction xs as [|x xs IH]; simpl; [by rewrite scalar_sum_zero|].
  by rewrite IH, <- scalar_sum_add.
Qed.

Lemma scalar_sum_single {X} (f : X → Scalar) l o :
  NoDup l → o ∈ l → (∀ x, x ∈ l → x ≠ o → f x = Scalar_Zero) → scalar_sum f l = f o.
Proof.
  induction l as [|x l IH]; intros Hnd Ho Hz; [by apply elem_of_nil in Ho|].
  apply NoDup_cons in Hnd as [Hx Hnd]. simpl. apply elem_of_cons in Ho as [->|Ho].
  - rewrite scalar_sum_zero; [by rewrite Scalar_Add_0_r|].
    intros y Hy. apply Hz; [set_solver | by intros ->].
  - rewrite (Hz x); [|set_solver | by intros ->].
    rewrite Scalar_Add_0_l. apply IH; try done. set_solver.
Qed.

Lemma scalar_sum_Forall2 {X Y} (Q : X → Y → Prop) (f : X → Scalar) (g : Y → Scalar) xs ys :
  Forall2 Q xs ys → (∀ x y, x ∈ xs → Q x y → f x = g y) → scalar_sum f xs = scalar_sum g ys.
Proof.
  induction 1 as [|x y xs ys HQ _ IH]; intros H; simpl; [done|].
  rewrite (H x y), IH by set_solver. done.
Qed.

(** The accumulation loops of the code: [sum = sum.Add(sum, p)]. *)
Lemma foldl_scalar_sum {X} (f : X → Scalar) l acc :
  foldl (λ a x, Scalar_Add a (f x)) acc l = Scalar_Add acc (scalar_sum f l).
Proof.
  revert acc. induction l as [|x l IH]; intros acc; simpl.
  - by rewrite Scalar_Add_0_r.
  - by rewrite IH, (assoc Scalar_Add).
Qed.
End scalar_sums.

(** The error result of a marshalling call: the code stops with [log.Fatal]. *)
Definition marshal_or_fatal (what : string) (r : option bytes) : go bytes :=
  match r with Some b => Ret b | None => Crash (Fatal what) end.

Section marshal.
Context {CS : CryptoSuite} {CL : CryptoLaws CS}.

Lemma scalar_marshal_ret s a : ∃ bs,
  marshal_or_fatal s (Scalar_MarshalBinary a) = Ret bs ∧
  Scalar_MarshalBinary a = Some bs ∧ Scalar_SetBytes bs = a ∧ length bs = 32%nat.
Proof.
  destruct (Scalar_Marshal_SetBytes a) as (bs & E & Hs). exists bs. rewrite E.
  repeat split; try done. by apply (Scalar_Marshal_length a).
Qed.

Lemma point_marshal_ret s P : ∃ bs,
  marshal_or_fatal s (Point_MarshalBinary P) = Ret bs ∧ Point_MarshalBinary P = Some bs.
Proof. destruct (Point_Marshal_Some P) as [bs E]. exists bs. by rewrite E. Qed.
End marshal.

(** ** A concrete suite

    Arithmetic modulo the prime 251, a quadratic keystream and a checksum in
    place of the hash: no security, but every law holds and every operation
    computes, so protocol runs can be evaluated. *)

Module ToySuite.
Record fp := Fp { fp_val : Z; fp_ok : (0 <=? fp_val) && (fp_val <? 251) = true }.

Lemma fp_eq (a b : fp) : fp_val a = fp_val b → a = b.
Proof.
  destruct a as [x Hx], b as [y Hy]. simpl. intros ->. f_equal.
  apply UIP_dec. apply Bool.bool_dec.
Qed.

Lemma fp_mod_ok z : (0 <=? z mod 251) && (z mod 251 <? 251) = true.
Proof.
  pose proof (Z.mod_pos_bound z 251 eq_refl).
  apply andb_true_intro; split; [apply Z.leb_le | apply Z.ltb_lt]; lia.
Qed.

Definition fp_of (z : Z) : fp := Fp (z mod 251) (fp_mod_ok z).

Lemma fp_range (a : fp) : 0 ≤ fp_val a < 251.
Proof.
  pose proof (fp_ok a) as H. apply andb_prop in H as [H1 H2].
  apply Z.leb_le in H1. apply Z.ltb_lt in H2. lia.
Qed.

Definition add (a b : fp) : fp := fp_of (fp_val a + fp_val b).
Definition sub (a b : fp) : fp := fp_of (fp_val a - fp_val b).
Definition mul (a b : fp) : fp := fp_of (fp_val a * fp_val b).

Definition marshal (a : fp) : option bytes := Some (fp_val a :: zeros 31).
Definition set_bytes (l : bytes) : fp := fp_of (foldr (λ b acc, b + 256 * acc) 0 l).

Definition checksum (l : bytes) : Z := foldl (λ acc b, (acc * 31 + b + 1) mod 2 ^ 61) 7 l.

Definition stream_byte (seed : bytes) (i : Z) : Z :=
  (checksum seed * (i + 1) + i * i * 13 + 3) mod 256.
Definition stream (seed : bytes) (pos : Z) (n : nat) : bytes :=
  map (λ k, stream_byte seed (pos + Z.of_nat k)) (seq 0 n).

Definition xof := (bytes * Z)%type.
Definition xor_key_stream (x : xof) (src : bytes) : bytes * xof :=
  (xor_bytes src (stream x.1 x.2 (length src)), (x.1, x.2 + len src)).
Definition pick (x : xof) : fp * xof :=
  (fp_of (be_decode (stream x.1 x.2 4)), (x.1, x.2 + 4)).

Definition seal (key nonce m : bytes) : option bytes :=
  if bool_decide (length key = 32%nat)
  then Some (xor_bytes m (stream (key ++ nonce) 0 (length m))
             ++ be_encode 16 (checksum (key ++ nonce ++ m)))
  else None.

Definition open (key nonce c : bytes) : option (result bytes) :=
  if bool_decide (length key = 32%nat) then
    let body := take (length c - 16) c in
    let m := xor_bytes body (stream (key ++ nonce) 0 (length body)) in
    Some (if bool_decide (drop (length c - 16) c = be_encode 16 (checksum (key ++ nonce ++ m)))
          then Ok m else Err "cipher: message authentication failed")
  else None.

Definition sign (x : xof) (sk : fp) (m : bytes) : result bytes :=
  Ok (fp_val (mul sk (fp_of 1)) :: be_encode 8 (checksum m)).
Definition verify (pk : fp) (m sig : bytes) : bool :=
  bool_decide (sig = fp_val pk :: be_encode 8 (checksum m)).

Definition suite : CryptoSuite := {|
  Scalar := fp; Point := fp;
  Scalar_Zero := fp_of 0; Scalar_One := fp_of 1;
  Scalar_Add := add; Scalar_Sub := sub; Scalar_Mul := mul;
  Scalar_SetBytes := set_bytes; Scalar_MarshalBinary := marshal;
  Scalar_MarshalSize := λ _, 32;
  Point_Base := fp_of 1; Point_Mul := mul;
  Point_Equal := λ a b, fp_val a =? fp_val b;
  Point_MarshalBinary := marshal;
  XOF := xof; XOF_New := λ seed, (seed, 0);
  XORKeyStream := xor_key_stream; Scalar_Pick := pick;
  Sum256 := λ m, be_encode 32 (checksum m);
  aesgcm_Seal := seal; aesgcm_Open := open;
  schnorr_Sign := sign; schnorr_Verify := verify
|}.

Lemma length_stream seed pos n : length (stream seed pos n) = n.
Proof. unfold stream. by rewrite length_map, length_seq. Qed.

Ltac fp_ring := intros; apply fp_eq; simpl;
  repeat (rewrite Zmult_mod_idemp_l || rewrite Zmult_mod_idemp_r ||
          rewrite Zplus_mod_idemp_l || rewrite Zplus_mod_idemp_r ||
          rewrite Zminus_mod_idemp_l); f_equal; ring.

Lemma fold_zeros n : foldr (λ b acc, b + 256 * acc) 0 (zeros n) = 0.
Proof. induction n as [|n IH]; [done|]. change (zeros (S n)) with (0 :: zeros n). cbn [foldr]. rewrite IH. lia. Qed.

Lemma set_bytes_marshal (a : fp) : set_bytes (fp_val a :: zeros 31) = a.
Proof.
  apply fp_eq. cbn [fp_val set_bytes fp_of foldr].
  rewrite fold_zeros. rewrite Z.mul_0_r, Z.add_0_r.
  apply Z.mod_small, fp_range.
Qed.

Lemma seal_open key nonce m :
  length key = 32%nat →
  ∃ c, seal key nonce m = Some c ∧ open key nonce c = Some (Ok m) ∧
       length c = (length m + 16)%nat.
Proof.
  intros Hk. unfold seal, open. rewrite bool_decide_eq_true_2 by done.
  set (s := stream (key ++ nonce) 0 (length m)).
  assert (length (xor_bytes m s) = length m) as Hx.
  { unfold s. rewrite length_xor_bytes, length_stream. lia. }
  eexists; split; [reflexivity|].
  rewrite length_app, length_be_encode, Hx, Nat.add_sub.
  rewrite take_app_length' by done. rewrite Hx. fold s.
  replace (xor_bytes (xor_bytes m s) s) with m.
  - rewrite drop_app_length' by done. by rewrite bool_decide_eq_true_2.
  - rewrite <- (assoc xor_bytes), xor_bytes_self, xor_bytes_zeros_r; [done|].
    unfold s. by rewrite length_stream.
Qed.

Lemma laws : CryptoLaws suite.
Proof.
  split; simpl; try fp_ring.
  - intros a. apply fp_eq. cbn. rewrite Zplus_mod_idemp_l. simpl. apply Z.mod_small, fp_range.
  - intros a b. apply fp_eq. cbn. rewrite Zminus_mod_idemp_l.
    replace (fp_val a + fp_val b - fp_val b) with (fp_val a) by ring. apply Z.mod_small, fp_range.
  - intros a. eexists; split; [reflexivity | apply set_bytes_marshal].
  - by intros a bs [= <-].
  - intros P Q. rewrite Z.eqb_eq. split; [apply fp_eq | by intros ->].
  - intros P. by eexists.
  - intros x src. rewrite length_xor_bytes, length_stream. lia.
  - done.
  - intros a key nonce m [= <-]. by apply seal_open.
  - intros x sk m. eexists; split; [reflexivity|]. unfold verify. by apply bool_decide_eq_true_2.
Qed.
End ToySuite.
