(* ===== verification/DCNetCipher.v ===== *)
(** * Wire format of DC-net ciphers (prifi-lib/dcnet/dcnet_cipher.go)

    A cipher is an optional equivocation-protection tag and a payload.  On the
    wire: 4 bytes for the position of the tag (-1 when there is none), 4 bytes
    for the position of the payload, the tag, the payload. *)

From S2P Require Import Prelude Bytes.

Open Scope Z_scope.

(** type DCNetCipher; the tag slice may be nil *)
Record DCNetCipher := mkDCNetCipher {
  EquivocationProtectionTag : option bytes;
  Payload : bytes
}.

#[export] Instance DCNetCipher_eq_dec : EqDecision DCNetCipher.
Proof. solve_decision. Defined.

(** func (c *DCNetCipher) ToBytes *)
Definition ToBytes (c : DCNetCipher) : bytes :=
  let equivocationTagStart :=
    match EquivocationProtectionTag c with Some _ => 8 | None => -1 end in
  let payloadStart :=
    match EquivocationProtectionTag c with Some tag => 8 + len tag | None => 8 end in
  let out := put_u32 (u32 equivocationTagStart) ++ put_u32 (u32 payloadStart) in
  let out := match EquivocationProtectionTag c with Some tag => out ++ tag | None => out end in
  out ++ Payload c.

(** func DCNetCipherFromBytes *)
Definition DCNetCipherFromBytes (data : bytes) : go DCNetCipher :=
  if len data <? 8 then Crash (Panicked "DCNetCipherFromBytes: data too short") else
  let minusOneInUint32 := MaxInt32 in
  h1 ← slice data 0 4;
  h2 ← slice data 4 8;
  let equivocationTagStart := be_decode h1 in
  let payloadStart := be_decode h2 in
  tag ← (if negb (equivocationTagStart =? minusOneInUint32)
         then t ← slice data 8 payloadStart; Ret (Some t)
         else Ret None);
  payload ← slice_from data payloadStart;
  Ret (mkDCNetCipher tag payload).

(** The header of an encoded cipher, and what it decodes to. *)
Lemma ToBytes_app c :
  ToBytes c = put_u32 (u32 (match EquivocationProtectionTag c with Some _ => 8 | None => -1 end))
           ++ put_u32 (u32 (8 + len (default [] (EquivocationProtectionTag c))))
           ++ default [] (EquivocationProtectionTag c) ++ Payload c.
Proof. unfold ToBytes. destruct (EquivocationProtectionTag c); simpl default; by rewrite <- !app_assoc. Qed.

Lemma DCNetCipherFromBytes_parts h1 h2 tag payload :
  length h1 = 4%nat → length h2 = 4%nat →
  be_decode h1 ≠ MaxInt32 → be_decode h2 = 8 + len tag →
  DCNetCipherFromBytes (h1 ++ h2 ++ tag ++ payload) = Ret (mkDCNetCipher (Some tag) payload).
Proof.
  intros H1 H2 Hne Hps. unfold DCNetCipherFromBytes.
  destruct (Z.ltb_spec (len (h1 ++ h2 ++ tag ++ payload)) 8) as [Hl|_]; [slen|].
  rewrite slice_app_l by (unfold len; lia). cbn [mbind go_bind].
  rewrite slice_app_mid by (unfold len; lia). cbn [mbind go_bind].
  rewrite (proj2 (Z.eqb_neq _ _) Hne). cbn [negb]. rewrite Hps.
  rewrite !(assoc_L (++)).
  rewrite <- (assoc_L (++) (h1 ++ h2) tag payload).
  rewrite slice_app_mid by slen. cbn [mbind go_bind].
  rewrite (assoc_L (++)), slice_from_app by slen. done.
Qed.

Lemma FromBytes_ToBytes c :
  len (default [] (EquivocationProtectionTag c)) < 2 ^ 32 - 8 →
  DCNetCipherFromBytes (ToBytes c) =
    Ret (mkDCNetCipher (Some (default [] (EquivocationProtectionTag c))) (Payload c)).
Proof.
  intros Hlen. rewrite ToBytes_app.
  pose proof (len_nonneg (default [] (EquivocationProtectionTag c))).
  apply DCNetCipherFromBytes_parts; try apply length_be_encode.
  - destruct (EquivocationProtectionTag c); rewrite be_u32; done.
  - rewrite be_u32, !wrap_u_small; [done | lia | rewrite wrap_u_small; lia].
Qed.

(** What decoding needs: eight bytes of header and a payload position inside
    the data.  Everything else is a panic. *)
Lemma FromBytes_returns data :
  returns (DCNetCipherFromBytes data) = true →
  8 ≤ len data ∧ be_decode (take 4 (drop 4 data)) ≤ len data.
Proof.
  unfold DCNetCipherFromBytes. destruct (Z.ltb_spec (len data) 8); [done|].
  rewrite !slice_ret by lia. cbn [mbind go_bind]. intros Hr. split; [done|].
  destruct (Z.le_gt_cases (be_decode (take 4 (drop 4 data))) (len data)) as [|Hgt]; [done|].
  exfalso. revert Hr. change (Z.to_nat (8 - 4)) with 4%nat. change (Z.to_nat 4) with 4%nat.
  case_match; cbn [mbind go_bind]; [rewrite (slice_crash data 8) by lia; done|].
  unfold slice_from. rewrite slice_crash by lia. done.
Qed.

(** Encoding a cipher and decoding the bytes gives the payload and the tag
    back (an absent tag comes back as an empty one), and decoding panics on any
    data that lacks the header or whose payload position lies outside it. *)
Theorem DCNetCipher_roundtrip c data :
  len (default [] (EquivocationProtectionTag c)) < 2 ^ 32 - 8 →
  DCNetCipherFromBytes (ToBytes c) =
    Ret (mkDCNetCipher (Some (default [] (EquivocationProtectionTag c))) (Payload c))
  ∧ (len data < 8 ∨ len data < be_decode (take 4 (drop 4 data)) →
     returns (DCNetCipherFromBytes data) = false).
Proof.
  intros Hlen. split; [by apply FromBytes_ToBytes|]. intros Hd.
  apply Bool.not_true_iff_false. intros [? ?]%FromBytes_returns. lia.
Qed.

Lemma DCNetCipher_roundtrip_witness :
  DCNetCipherFromBytes (ToBytes (mkDCNetCipher (Some [1; 2; 3]) [9; 8]))
  = Ret (mkDCNetCipher (Some [1; 2; 3]) [9; 8])
  ∧ (len [0] < 8 ∨ len [0] < be_decode (take 4 (drop 4 [0])) →
     returns (DCNetCipherFromBytes [0]) = false).
Proof.
  apply (DCNetCipher_roundtrip (mkDCNetCipher (Some [1; 2; 3]) [9; 8]) [0]). vm_compute. done.
Defined.

(** The guard [equivocationTagStart != math.MaxInt32] does not recognise
    the encoding 0xFFFFFFFF of "no tag": a cipher sent without a tag is decoded
    with an empty, non-nil tag. *)
Theorem nil_tag_not_recognised p :
  DCNetCipherFromBytes (ToBytes (mkDCNetCipher None p)) = Ret (mkDCNetCipher (Some []) p)
  ∧ DCNetCipherFromBytes (ToBytes (mkDCNetCipher None p)) ≠ Ret (mkDCNetCipher None p).
Proof. rewrite FromBytes_ToBytes by done. done. Qed.
