(* ===== verification/Equivocation.v ===== *)
(** * Equivocation protection (prifi-lib/dcnet/equivocation.go)

    The slot owner encrypts its payload under a fresh scalar key and blinds the
    key with the history of the downstream traffic times the sum of its pads;
    the relay recovers the key from the contributions of all entities, provided
    they agree on the history. *)

From S2P Require Import Prelude Bytes Crypto.

Open Scope Z_scope.

Section equivocation.
Context {CS : CryptoSuite}.

(** type EquivocationProtection; the suite field is [CS] *)
Record EquivocationProtection := mkEquivocation {
  history : Scalar;
  randomness : XOF
}.

#[export] Instance eta_Equivocation : Eta EquivocationProtection :=
  λ e, mkEquivocation (history e) (randomness e).

(** func NewEquivocation; [randomKey] is what crypto/rand delivers *)
Definition NewEquivocation (randomKey : bytes) : EquivocationProtection :=
  mkEquivocation Scalar_One (XOF_New randomKey).

(** func (e) randomScalar *)
Definition randomScalar (e : EquivocationProtection) : Scalar * EquivocationProtection :=
  let '(k, r) := Scalar_Pick (randomness e) in (k, e <| randomness := r |>).

(** func (e) hashInGroup *)
Definition hashInGroup (data : bytes) : Scalar := Scalar_SetBytes data.

(** func (e) UpdateHistory.  The buffer that is hashed has the length of the
    history and the data together, and nothing is copied into it. *)
Definition UpdateHistory (e : EquivocationProtection) (data : bytes)
    : go EquivocationProtection :=
  historyB ← marshal_or_fatal "Could not unmarshall bytes" (Scalar_MarshalBinary (history e));
  let toBeHashed := zeros (length historyB + length data) in
  let newPayload := Sum256 toBeHashed in
  Ret (e <| history := Scalar_SetBytes newPayload |>).

(** [sum := Zero; for _, p := range q { sum = sum.Add(sum, p) }] *)
Definition sum_scalars (q : list Scalar) : Scalar := foldl Scalar_Add Scalar_Zero q.

(** func (e) ClientEncryptPayload *)
Definition ClientEncryptPayload (e : EquivocationProtection) (slotOwner : bool)
    (x : bytes) (p_j : list bytes) : go (bytes * bytes * EquivocationProtection) :=
  let q_j := hashInGroup <$> p_j in
  let sum := sum_scalars q_j in
  let product := Scalar_Mul sum (history e) in
  if negb slotOwner then
    kappa_i_bytes ← marshal_or_fatal "Couldn't marshall" (Scalar_MarshalBinary product);
    Ret (x, kappa_i_bytes, e)
  else
    let '(k_i, e) := randomScalar e in
    k_i_bytes ← marshal_or_fatal "Couldn't marshall" (Scalar_MarshalBinary k_i);
    let nonce := zeros 12 in
    match aesgcm_Seal k_i_bytes nonce x with
    | None => Crash (Panicked "aes.NewCipher")
    | Some x =>
      let kappa_i := Scalar_Add k_i product in
      kappa_i_bytes ← marshal_or_fatal "Couldn't marshall" (Scalar_MarshalBinary kappa_i);
      Ret (x, kappa_i_bytes, e)
    end.

(** func (e) TrusteeGetContribution *)
Definition TrusteeGetContribution (s_i : list bytes) : go bytes :=
  let q_i := hashInGroup <$> s_i in
  let sum := sum_scalars q_i in
  let kappa_j := sum in
  marshal_or_fatal "Couldn't marshall" (Scalar_MarshalBinary kappa_j).

(** The scalar the relay computes from the contributions. *)
Definition recoverKey (e : EquivocationProtection)
    (trusteesContributions clientsContributions : list bytes) : Scalar :=
  let trustee_kappa_j := Scalar_SetBytes <$> trusteesContributions in
  let client_kappa_i := Scalar_SetBytes <$> clientsContributions in
  let sumTrustees := sum_scalars trustee_kappa_j in
  let sumClients := sum_scalars client_kappa_i in
  let prod := Scalar_Mul sumTrustees (history e) in
  Scalar_Sub sumClients prod.

(** func (e) RelayDecode *)
Definition RelayDecode (e : EquivocationProtection) (encryptedPayload : bytes)
    (trusteesContributions clientsContributions : list bytes) : go bytes :=
  let k_i := recoverKey e trusteesContributions clientsContributions in
  k_bytes ← marshal_or_fatal "Couldn't marshall" (Scalar_MarshalBinary k_i);
  if (length k_bytes =? 0)%nat then Ret [] else
  let nonce := zeros 12 in
  match aesgcm_Open k_bytes nonce encryptedPayload with
  | None => Crash (Panicked "aes.NewCipher")
  | Some (Ok message) => Ret message
  | Some (Err _) => make_bytes (len encryptedPayload - 16)
  end.

Lemma sum_scalars_fmap {CL : CryptoLaws CS} {X} (f : X → Scalar) (l : list X) :
  sum_scalars (f <$> l) = scalar_sum f l.
Proof.
  unfold sum_scalars. rewrite foldl_fmap, foldl_scalar_sum. apply Scalar_Add_0_l.
Qed.

(** The history after an update depends on the lengths only. *)
Lemma UpdateHistory_length_only e data1 data2 :
  length data1 = length data2 → UpdateHistory e data1 = UpdateHistory e data2.
Proof. intros H. unfold UpdateHistory. by rewrite H. Qed.

Section with_laws.
Context {CL : CryptoLaws CS}.

(** What a client contributes: its pads, blinded by the history it saw,
    plus the fresh key if it owns the slot. *)
Definition client_share (h : Scalar) (pads : list bytes) : Scalar :=
  Scalar_Mul (scalar_sum hashInGroup pads) h.

Lemma ClientEncryptPayload_idle e x pads : ∃ kappa,
  ClientEncryptPayload e false x pads = Ret (x, kappa, e)
  ∧ Scalar_SetBytes kappa = client_share (history e) pads ∧ length kappa = 32%nat.
Proof.
  unfold ClientEncryptPayload. cbn [negb]. rewrite sum_scalars_fmap.
  destruct (scalar_marshal_ret "Couldn't marshall" (client_share (history e) pads))
    as (bs & E & _ & Hs & Hl).
  exists bs. unfold client_share in *. rewrite E. done.
Qed.

Lemma ClientEncryptPayload_owner e x pads : ∃ c kappa key,
  let k := (Scalar_Pick (randomness e)).1 in
  ClientEncryptPayload e true x pads
    = Ret (c, kappa, e <| randomness := (Scalar_Pick (randomness e)).2 |>)
  ∧ Scalar_SetBytes kappa = Scalar_Add k (client_share (history e) pads)
  ∧ length kappa = 32%nat
  ∧ Scalar_MarshalBinary k = Some key
  ∧ aesgcm_Open key (zeros 12) c = Some (Ok x)
  ∧ length c = (length x + 16)%nat.
Proof.
  unfold ClientEncryptPayload, randomScalar. cbn [negb].
  destruct (Scalar_Pick (randomness e)) as [k r] eqn:Ek. cbn [fst snd].
  destruct (scalar_marshal_ret "Couldn't marshall" k) as (key & E1 & Ekey & _ & _).
  rewrite E1. cbn [mbind go_bind].
  destruct (aesgcm_Seal_Open k key (zeros 12) x Ekey) as (c & Ec & Eo & El).
  rewrite Ec, sum_scalars_fmap.
  destruct (scalar_marshal_ret "Couldn't marshall"
    (Scalar_Add k (client_share (history e) pads))) as (bs & E & _ & Hs & Hl).
  exists c, bs, key. unfold client_share in *. rewrite E. done.
Qed.

Lemma TrusteeGetContribution_share pads : ∃ sigma,
  TrusteeGetContribution pads = Ret sigma
  ∧ Scalar_SetBytes sigma = scalar_sum hashInGroup pads ∧ length sigma = 32%nat.
Proof.
  unfold TrusteeGetContribution. rewrite sum_scalars_fmap.
  destruct (scalar_marshal_ret "Couldn't marshall" (scalar_sum hashInGroup pads))
    as (bs & E & _ & Hs & Hl). eauto.
Qed.

(** Decoding with the key under which the payload was sealed. *)
Lemma RelayDecode_key e k key c x tcs ccs :
  recoverKey e tcs ccs = k → Scalar_MarshalBinary k = Some key →
  aesgcm_Open key (zeros 12) c = Some (Ok x) →
  RelayDecode e c tcs ccs = Ret x.
Proof.
  intros Hk Ekey Eo. unfold RelayDecode. rewrite Hk, Ekey. cbn [mbind go_bind marshal_or_fatal].
  apply Scalar_Marshal_length in Ekey. destruct key as [|b key]; [done|].
  cbn [length Nat.eqb]. by rewrite Eo.
Qed.
End with_laws.
End equivocation.

Arguments EquivocationProtection CS : clear implicits.
