(* ===== verification/DCNet.v ===== *)
(** * DC-net entities (prifi-lib/dcnet/dcnet.go)

    Clients and trustees encode one cipher per round, XORing in one pad per
    shared secret; the relay accumulates the ciphers of a round and decodes the
    cell.  The state is the source's [DCNetEntity] struct; every method that
    mutates it returns the new state. *)

From S2P Require Import Prelude Bytes Crypto DCNetCipher Equivocation.

Open Scope Z_scope.

(** type DCNET_ENTITY *)
Inductive DCNET_ENTITY := DCNET_CLIENT | DCNET_TRUSTEE | DCNET_RELAY.

#[export] Instance DCNET_ENTITY_eq_dec : EqDecision DCNET_ENTITY.
Proof. solve_decision. Defined.

(** type DCNetRoundDecoder *)
Record DCNetRoundDecoder := mkDecoder {
  currentRoundBeingDecoded : Z;
  xorBuffer : bytes;
  equivTrusteeContribs : list (option bytes);
  equivClientContribs : list (option bytes)
}.

#[export] Instance eta_Decoder : Eta DCNetRoundDecoder := λ d,
  mkDecoder (currentRoundBeingDecoded d) (xorBuffer d) (equivTrusteeContribs d)
            (equivClientContribs d).

(** [n] iterations of a loop body that may crash. *)
Fixpoint go_iter {A} (n : nat) (f : A → go A) (a : A) : go A :=
  match n with
  | O => Ret a
  | S n => a ← f a; go_iter n f a
  end.

Section dcnet.
Context {CS : CryptoSuite}.

(** type DCNetEntity.  A nil point of [sharedKeys] is [None]; [verbose] only
    guards log output. *)
Record DCNetEntity := mkDCNetEntity {
  EntityID : Z;
  Entity : DCNET_ENTITY;
  EquivocationProtectionEnabled : bool;
  DCNetPayloadSize : Z;
  sharedKeys : list (option Point);
  sharedPRNGs : list XOF;
  currentRound : Z;
  RoundDecoder : option DCNetRoundDecoder;
  equivocationProtection : option (EquivocationProtection CS);
  equivocationContribLength : Z
}.

#[export] Instance eta_DCNetEntity : Eta DCNetEntity := λ e,
  mkDCNetEntity (EntityID e) (Entity e) (EquivocationProtectionEnabled e)
    (DCNetPayloadSize e) (sharedKeys e) (sharedPRNGs e) (currentRound e)
    (RoundDecoder e) (equivocationProtection e) (equivocationContribLength e).

(** The seeding loop over [sharedKeys]: one XOF per shared secret. *)
Definition seedPRNG (key : option Point) : go XOF :=
  match key with
  | None => Crash RuntimeError
  | Some p =>
    seed ← marshal_or_fatal "Could not extract data from shared key" (Point_MarshalBinary p);
    Ret (XOF_New seed)
  end.
Definition seedPRNGs (keys : list (option Point)) : go (list XOF) := mapM seedPRNG keys.

(** func NewDCNetEntity; [rnd1] and [rnd2] are the random keys of its two
    NewEquivocation calls *)
Definition NewDCNetEntity (rnd1 rnd2 : bytes) (entityID : Z) (entity : DCNET_ENTITY)
    (payloadSize : Z) (equivocation : bool) (keys : list (option Point)) : go DCNetEntity :=
  let e := mkDCNetEntity entityID entity equivocation payloadSize [] [] 0 None None 0 in
  let e := if equivocation
           then e <| equivocationProtection := Some (NewEquivocation rnd1) |> else e in
  e ← (if bool_decide (entity ≠ DCNET_RELAY) then
         prngs ← seedPRNGs keys;
         Ret (e <| sharedKeys := keys |> <| sharedPRNGs := prngs |>)
       else Ret (e <| sharedKeys := [] |> <| sharedPRNGs := [] |>));
  let e := if equivocation then
             let minusOne := Scalar_Sub Scalar_Zero Scalar_One in
             e <| equivocationProtection := Some (NewEquivocation rnd2) |>
               <| equivocationContribLength := Scalar_MarshalSize minusOne |>
           else e in
  if DCNetPayloadSize e <=? 0 then Crash (Panicked "Payload length is") else Ret e.

(** Reading one pad: [dummy := make([]byte, size); prng.XORKeyStream(dummy, dummy)] *)
Definition readPad (size : Z) (x : XOF) : bytes * XOF :=
  XORKeyStream x (zeros (Z.to_nat size)).

Definition readPads (size : Z) (xs : list XOF) : list bytes * list XOF :=
  ((λ x, (readPad size x).1) <$> xs, (λ x, (readPad size x).2) <$> xs).

(** "consume the PRNGs": one pad of each PRNG is discarded *)
Definition consumePRNGs (size : Z) (xs : list XOF) : list XOF := (readPads size xs).2.

(** The same loop over a copy, indexed by the range of another slice *)
Definition consumeCopy (size : Z) (range : nat) (copy : list XOF) : go (list XOF) :=
  if (length copy <? range)%nat then Crash RuntimeError
  else Ret (consumePRNGs size (take range copy) ++ drop range copy).

(** Regenerating the PRNGs of [sharedKeys] from their seeds and skipping the
    rounds before [roundID] (the re-seeding blocks of EncodeForRound and
    GetBitsOfRound) *)
Definition reseedToRound (e : DCNetEntity) (roundID : Z) : go DCNetEntity :=
  copy ← seedPRNGs (sharedKeys e);
  copy ← go_iter (Z.to_nat roundID)
           (consumeCopy (DCNetPayloadSize e) (length (sharedPRNGs e))) copy;
  Ret (e <| sharedPRNGs := copy |> <| currentRound := roundID |>).

(** [for e.currentRound < roundID { ... e.currentRound++ }] *)
Definition skipToRound (e : DCNetEntity) (roundID : Z) : DCNetEntity :=
  if currentRound e <? roundID then
    let n := Z.to_nat (roundID - currentRound e) in
    e <| sharedPRNGs := Nat.iter n (consumePRNGs (DCNetPayloadSize e)) (sharedPRNGs e) |>
      <| currentRound := roundID |>
  else e.

(** The DC-net encryption loop: XOR every pad into the payload *)
Definition xorPads (payload : bytes) (pads : list bytes) : go bytes :=
  foldl (λ acc pad, p ← acc; xor_into p pad) (Ret payload) pads.

(** func (e) clientEncode *)
Definition clientEncode (e : DCNetEntity) (slotOwner : bool) (payload : option bytes)
    : go (DCNetCipher * bytes * DCNetEntity) :=
  payload ← match payload with
            | None => make_bytes (DCNetPayloadSize e)
            | Some p =>
              let dcnetPayloadSize :=
                if EquivocationProtectionEnabled e && slotOwner
                then DCNetPayloadSize e - 16 else DCNetPayloadSize e in
              payload2 ← make_bytes dcnetPayloadSize;
              dst ← slice payload2 0 (len p);
              Ret (copy_bytes dst p ++ drop (length p) payload2)
            end;
  let '(p_ij, prngs) := readPads (DCNetPayloadSize e) (sharedPRNGs e) in
  let e := e <| sharedPRNGs := prngs |> in
  plainPayload ← make_bytes (DCNetPayloadSize e);
  '(payload, tag, plainPayload, e) ←
     (if EquivocationProtectionEnabled e then
        match equivocationProtection e with
        | None => Crash RuntimeError
        | Some eq =>
          '(payload, sigma_j, eq) ← ClientEncryptPayload eq slotOwner payload p_ij;
          Ret (payload, Some sigma_j, copy_bytes plainPayload payload,
               e <| equivocationProtection := Some eq |>)
        end
      else Ret (payload, None, plainPayload, e));
  payload ← xorPads payload p_ij;
  Ret (mkDCNetCipher tag payload, plainPayload, e).

(** func (e) trusteeEncode *)
Definition trusteeEncode (e : DCNetEntity) : go (DCNetCipher * DCNetEntity) :=
  payload ← make_bytes (DCNetPayloadSize e);
  let '(p_ij, prngs) := readPads (DCNetPayloadSize e) (sharedPRNGs e) in
  let e := e <| sharedPRNGs := prngs |> in
  payload ← xorPads payload p_ij;
  tag ← (if EquivocationProtectionEnabled e then
           match equivocationProtection e with
           | None => Crash RuntimeError
           | Some _ => sigma_j ← TrusteeGetContribution p_ij; Ret (Some sigma_j)
           end
         else Ret None);
  Ret (mkDCNetCipher tag payload, e).

(** func (e) EncodeForRound *)
Definition EncodeForRound (e : DCNetEntity) (roundID : Z) (slotOwner : bool)
    (payload : option bytes) : go (bytes * option bytes * DCNetEntity) :=
  if DCNetPayloadSize e <? len (default [] payload)
  then Crash (Panicked "DCNet: cannot encode Payload of length") else
  e ← (if roundID <? currentRound e then reseedToRound e roundID else Ret e);
  let e := skipToRound e roundID in
  '(c, plainPayload, e) ←
     (if bool_decide (Entity e = DCNET_CLIENT) then
        '(c, plain, e) ← clientEncode e slotOwner payload; Ret (c, Some plain, e)
      else '(c, e) ← trusteeEncode e; Ret (c, None, e));
  let e := e <| currentRound := i32 (currentRound e + 1) |> in
  Ret (ToBytes c, plainPayload, e).

(** func (e) TrusteeEncodeForRound *)
Definition TrusteeEncodeForRound (e : DCNetEntity) (roundID : Z) : go (bytes * DCNetEntity) :=
  '(upstreamCell, _, e) ← EncodeForRound e roundID false None;
  Ret (upstreamCell, e).

(** func (e) UpdateReceivedMessageHistory *)
Definition UpdateReceivedMessageHistory (e : DCNetEntity) (newData : bytes) : go DCNetEntity :=
  if EquivocationProtectionEnabled e then
    match equivocationProtection e with
    | None => Crash RuntimeError
    | Some eq => eq ← UpdateHistory eq newData;
                 Ret (e <| equivocationProtection := Some eq |>)
    end
  else Ret e.

(** The mask of a bit position: [byte(1 << uint((8-bitPosition%8)%8 - 1))].
    The constant takes type byte, and the count is converted to an unsigned
    64-bit integer: a count of 8 or more, such as the 2^64-1 that -1 becomes,
    shifts every bit out. *)
Definition bitMask (bitPosition : Z) : Z :=
  let bitInByte := Z.rem (8 - Z.rem bitPosition 8) 8 - 1 in
  let count := u64 bitInByte in
  if 8 <=? count then 0 else Z.shiftl 1 count.

(** func (e) GetBitsOfRound *)
Definition GetBitsOfRound (e : DCNetEntity) (roundID bitPosition : Z)
    : go (option (list Z * list bytes) * DCNetEntity) :=
  if currentRound e <=? roundID then Ret (None, e) else
  e ← reseedToRound e roundID;
  let '(p_ij, prngs) := readPads (DCNetPayloadSize e) (sharedPRNGs e) in
  let e := e <| sharedPRNGs := prngs |> in
  bits ← mapM (λ pad : bytes,
            let bytePosition := Z.quot bitPosition 8 in
            let bytePosition := if EquivocationProtectionEnabled e
                                then bytePosition else bytePosition + 1 in
            byte_toGet ← index pad bytePosition;
            Ret (if Z.land byte_toGet (bitMask bitPosition) =? 0 then 0 else 1)) p_ij;
  Ret (Some (bits, p_ij), e).

(** func (e) DecodeStart *)
Definition DecodeStart (e : DCNetEntity) (roundID : Z) : go DCNetEntity :=
  buf ← make_bytes (DCNetPayloadSize e);
  Ret (e <| RoundDecoder := Some (mkDecoder roundID buf [] []) |>).

(** The accumulation shared by DecodeClient and DecodeTrustee *)
Definition decodeInto (e : DCNetEntity) (roundID : Z) (slice : bytes)
    (store : DCNetRoundDecoder → option bytes → DCNetRoundDecoder) : go DCNetEntity :=
  dcNetCipher ← DCNetCipherFromBytes slice;
  match RoundDecoder e with
  | None => Crash RuntimeError
  | Some d =>
    if negb (roundID =? currentRoundBeingDecoded d)
    then Crash (Panicked "Cannot DecodeClient for round") else
    buf ← xor_range (xorBuffer d) (Payload dcNetCipher);
    let d := d <| xorBuffer := buf |> in
    let d := if EquivocationProtectionEnabled e
             then store d (EquivocationProtectionTag dcNetCipher) else d in
    Ret (e <| RoundDecoder := Some d |>)
  end.

(** func (e) DecodeClient *)
Definition DecodeClient (e : DCNetEntity) (roundID : Z) (slice : bytes) : go DCNetEntity :=
  decodeInto e roundID slice (λ d tag,
    d <| equivClientContribs := equivClientContribs d ++ [tag] |>).

(** func (e) DecodeTrustee *)
Definition DecodeTrustee (e : DCNetEntity) (roundID : Z) (slice : bytes) : go DCNetEntity :=
  decodeInto e roundID slice (λ d tag,
    d <| equivTrusteeContribs := equivTrusteeContribs d ++ [tag] |>).

(** func (e) DecodeCell *)
Definition DecodeCell (e : DCNetEntity) (isOpenClosedSlot : bool) : go (bytes * bytes) :=
  match RoundDecoder e with
  | None => Crash RuntimeError
  | Some d =>
    let cipherText := xorBuffer d in
    decoded ← (if EquivocationProtectionEnabled e && negb isOpenClosedSlot then
                 match equivocationProtection e with
                 | None => Crash RuntimeError
                 | Some eq => RelayDecode eq (xorBuffer d)
                                (default [] <$> equivTrusteeContribs d)
                                (default [] <$> equivClientContribs d)
                 end
               else Ret cipherText);
    Ret (decoded, cipherText)
  end.
End dcnet.

Arguments DCNetEntity CS : clear implicits.
