(* ===== verification/DCNetRound.v ===== *)
(** * Correctness of a DC-net round

    The invariant that keeps the pads of two parties in step, and the theorem
    that the relay decodes what the slot owner sent: without equivocation
    protection for any set of payloads, and with it through the recovery of the
    encryption key. *)

From S2P Require Import Prelude Bytes Crypto DCNetCipher Equivocation DCNet.

Open Scope Z_scope.

Section pads.
Context {CS : CryptoSuite} {CL : CryptoLaws CS}.
Implicit Types (e : DCNetEntity CS) (size : Z).

(** ** Pads as a function of the key, the cell size and the round *)

Definition xof_of (key : option Point) : XOF :=
  XOF_New (default [] (key ≫= Point_MarshalBinary)).
Definition prng_at size (r : nat) (key : option Point) : XOF :=
  Nat.iter r (λ x, (readPad size x).2) (xof_of key).
Definition pad_at size (r : nat) (key : option Point) : bytes :=
  (readPad size (prng_at size r key)).1.
Definition prngs_at size (r : nat) (keys : list (option Point)) : list XOF :=
  prng_at size r <$> keys.

(** The entity's PRNGs stand exactly at the start of its current round. *)
Record synced e : Prop := {
  synced_keys : Forall is_Some (sharedKeys e);
  synced_size : 0 < DCNetPayloadSize e;
  synced_round : 0 ≤ currentRound e;
  synced_prngs : sharedPRNGs e
    = prngs_at (DCNetPayloadSize e) (Z.to_nat (currentRound e)) (sharedKeys e)
}.

Definition at_round e (r : Z) : DCNetEntity CS :=
  e <| sharedPRNGs := prngs_at (DCNetPayloadSize e) (Z.to_nat r) (sharedKeys e) |>
    <| currentRound := r |>.

Lemma length_pad_at size r key : length (pad_at size r key) = Z.to_nat size.
Proof. unfold pad_at, readPad. by rewrite XORKeyStream_length, length_zeros. Qed.

Lemma seedPRNGs_ret keys : Forall is_Some keys → seedPRNGs keys = Ret (xof_of <$> keys).
Proof.
  induction 1 as [|key keys [p ->] Hkeys IH]; [done|].
  change (seedPRNGs (Some p :: keys))
    with (y ← seedPRNG (Some p); l ← seedPRNGs keys; Ret (y :: l)).
  rewrite IH. unfold seedPRNG, xof_of. rewrite fmap_cons. simpl.
  destruct (point_marshal_ret "Could not extract data from shared key" p) as (bs & E & Es).
  rewrite E, Es. done.
Qed.

Lemma prng_at_S size r key : prng_at size (S r) key = (readPad size (prng_at size r key)).2.
Proof. done. Qed.

Lemma consumePRNGs_at size r keys :
  consumePRNGs size (prngs_at size r keys) = prngs_at size (S r) keys.
Proof. unfold consumePRNGs, readPads, prngs_at. simpl. by rewrite <- list_fmap_compose. Qed.

Lemma readPads_at size r keys :
  readPads size (prngs_at size r keys) = (pad_at size r <$> keys, prngs_at size (S r) keys).
Proof. unfold readPads, prngs_at. by rewrite <- !list_fmap_compose. Qed.

Lemma iter_consumePRNGs size r k keys :
  Nat.iter k (consumePRNGs size) (prngs_at size r keys) = prngs_at size (k + r) keys.
Proof. induction k as [|k IH]; [done|]. simpl. by rewrite IH, consumePRNGs_at. Qed.

Lemma consumeCopy_at size r n keys :
  n = length keys → consumeCopy size n (prngs_at size r keys) = Ret (prngs_at size (S r) keys).
Proof.
  intros ->. unfold consumeCopy.
  assert (length (prngs_at size r keys) = length keys) as Hl by apply length_fmap.
  rewrite Hl, Nat.ltb_irrefl. rewrite take_ge, drop_ge, app_nil_r by lia.
  by rewrite consumePRNGs_at.
Qed.

Lemma iter_consumeCopy size r k n keys :
  n = length keys →
  go_iter k (consumeCopy size n) (prngs_at size r keys) = Ret (prngs_at size (k + r) keys).
Proof.
  intros Hn. revert r. induction k as [|k IH]; intros r; [done|].
  cbn [go_iter]. rewrite consumeCopy_at by done. cbn [mbind go_bind].
  rewrite IH. do 2 f_equal. lia.
Qed.

Lemma synced_length e : synced e → length (sharedPRNGs e) = length (sharedKeys e).
Proof. intros H. rewrite (synced_prngs _ H). apply length_fmap. Qed.

Lemma reseedToRound_at e r : synced e → 0 ≤ r → reseedToRound e r = Ret (at_round e r).
Proof.
  intros H Hr. unfold reseedToRound. rewrite seedPRNGs_ret by apply H. cbn [mbind go_bind].
  change (xof_of <$> sharedKeys e) with (prngs_at (DCNetPayloadSize e) 0 (sharedKeys e)).
  rewrite iter_consumeCopy by by apply synced_length. by rewrite Nat.add_0_r.
Qed.

Lemma skipToRound_at e r :
  synced e → currentRound e ≤ r → skipToRound e r = at_round e r.
Proof.
  intros H Hr. unfold skipToRound, at_round. pose proof (synced_round _ H).
  destruct (Z.ltb_spec (currentRound e) r).
  - rewrite (synced_prngs _ H), iter_consumePRNGs. do 2 f_equal. f_equal. lia.
  - assert (r = currentRound e) as -> by lia. rewrite <- (synced_prngs _ H). by destruct e.
Qed.

Lemma synced_at_round e r : synced e → 0 ≤ r → synced (at_round e r).
Proof. intros [] ?. by split. Qed.

(** Whatever rounds were encoded before, encoding for round [r] starts from
    the PRNG state of round [r]. *)
Lemma goto_round e r :
  synced e → 0 ≤ r →
  ((if r <? currentRound e then reseedToRound e r else Ret e) ≫= λ e, Ret (skipToRound e r))
  = Ret (at_round e r).
Proof.
  intros H Hr. destruct (Z.ltb_spec r (currentRound e)).
  - rewrite reseedToRound_at by done. cbn [mbind go_bind].
    rewrite skipToRound_at; [by destruct e | by apply synced_at_round | done].
  - cbn [mbind go_bind]. by rewrite skipToRound_at.
Qed.

Lemma xorPads_ret n payload pads :
  length payload = n → Forall (λ p : bytes, length p = n) pads →
  xorPads payload pads = Ret (xor_bytes payload (xor_sum n id pads)).
Proof.
  intros Hp Hpads. unfold xorPads. revert payload Hp.
  induction Hpads as [|pad pads Hpad _ IH]; intros payload Hp; simpl.
  - by rewrite xor_bytes_zeros_r.
  - rewrite xor_into_ret by lia. rewrite IH by (rewrite length_xor_bytes; lia).
    by rewrite (assoc xor_bytes).
Qed.

Lemma xorPads_at size r payload keys :
  length payload = Z.to_nat size →
  xorPads payload (pad_at size r <$> keys)
  = Ret (xor_bytes payload (xor_sum (Z.to_nat size) (pad_at size r) keys)).
Proof.
  intros Hp. rewrite (xorPads_ret (Z.to_nat size)); [|done|].
  - by rewrite xor_sum_map.
  - apply Forall_fmap, Forall_true. intros. apply length_pad_at.
Qed.

(** ** What one entity sends for a round *)

Definition padPayload (n : nat) (payload : option bytes) : bytes :=
  default [] payload ++ zeros (n - length (default [] payload)).

Lemma length_padPayload n payload :
  (length (default [] payload) ≤ n)%nat → length (padPayload n payload) = n.
Proof. intros. unfold padPayload. rewrite length_app, length_zeros. lia. Qed.

(** The "deep clone and pad" of clientEncode. *)
Lemma clone_and_pad n p :
  (length p ≤ n)%nat →
  (payload2 ← make_bytes (Z.of_nat n); dst ← slice payload2 0 (len p);
   Ret (copy_bytes dst p ++ drop (length p) payload2)) = Ret (padPayload n (Some p)).
Proof.
  intros Hp. rewrite make_bytes_ret by lia. cbn [mbind go_bind].
  rewrite slice_ret by slen. cbn [mbind go_bind]. rewrite Nat2Z.id. f_equal.
  unfold padPayload. simpl from_option. rewrite copy_bytes_same by slen.
  f_equal. unfold zeros. rewrite drop_replicate. done.
Qed.

Lemma clone_or_zeros size payload :
  0 ≤ size → (length (default [] payload) ≤ Z.to_nat size)%nat →
  match payload with
  | None => make_bytes size
  | Some p => payload2 ← make_bytes size; dst ← slice payload2 0 (len p);
              Ret (copy_bytes dst p ++ drop (length p) payload2)
  end = Ret (padPayload (Z.to_nat size) payload).
Proof.
  intros Hs Hl. destruct payload as [p|].
  - rewrite <- (Z2Nat.id size) at 1 by lia. by apply clone_and_pad.
  - rewrite make_bytes_ret by lia. unfold padPayload. simpl. by rewrite Nat.sub_0_r.
Qed.

Lemma EncodeForRound_unfold e r owner payload :
  synced e → 0 ≤ r → len (default [] payload) ≤ DCNetPayloadSize e →
  EncodeForRound e r owner payload =
  ('(c, plainPayload, e) ←
     (if bool_decide (Entity e = DCNET_CLIENT) then
        '(c, plain, e) ← clientEncode (at_round e r) owner payload; Ret (c, Some plain, e)
      else '(c, e) ← trusteeEncode (at_round e r); Ret (c, None, e));
   Ret (ToBytes c, plainPayload, e <| currentRound := i32 (currentRound e + 1) |>)).
Proof.
  intros H Hr Hlen. unfold EncodeForRound.
  destruct (Z.ltb_spec (DCNetPayloadSize e) (len (default [] payload))); [lia|].
  pose proof (goto_round e r H Hr) as Hg.
  destruct (if r <? currentRound e then _ else _) as [e1|]; [|done].
  cbn [mbind go_bind] in Hg |- *. injection Hg as ->. done.
Qed.

Lemma at_round_next e r :
  0 ≤ r → r < MaxInt32 →
  (at_round e r) <| sharedPRNGs := prngs_at (DCNetPayloadSize e) (S (Z.to_nat r)) (sharedKeys e) |>
     <| currentRound := i32 (r + 1) |> = at_round e (r + 1).
Proof.
  intros ??. unfold at_round, MaxInt32 in *. rewrite i32_small by lia.
  replace (Z.to_nat (r + 1)) with (S (Z.to_nat r)) by lia. done.
Qed.

(** A client without equivocation protection: padded payload XOR all pads. *)
Lemma EncodeForRound_client_plain e r owner payload :
  synced e → Entity e = DCNET_CLIENT → EquivocationProtectionEnabled e = false →
  0 ≤ r → r < MaxInt32 → len (default [] payload) ≤ DCNetPayloadSize e →
  let n := Z.to_nat (DCNetPayloadSize e) in
  EncodeForRound e r owner payload =
    Ret (ToBytes (mkDCNetCipher None
           (xor_bytes (padPayload n payload)
                      (xor_sum n (pad_at (DCNetPayloadSize e) (Z.to_nat r)) (sharedKeys e)))),
         Some (zeros n), at_round e (r + 1)).
Proof.
  intros H HE Heq Hr Hr' Hlen n. pose proof (synced_size _ H).
  rewrite EncodeForRound_unfold by done. rewrite bool_decide_eq_true_2 by done.
  unfold clientEncode. cbn [DCNetPayloadSize EquivocationProtectionEnabled sharedPRNGs at_round set_field].
  rewrite Heq. cbn [andb].
  rewrite clone_or_zeros by (unfold len in *; lia).
  cbn [mbind go_bind]. rewrite readPads_at, make_bytes_ret by lia. cbn [mbind go_bind].
  rewrite xorPads_at by (apply length_padPayload; unfold n, len in *; lia).
  cbn [mbind go_bind]. do 2 f_equal. by apply at_round_next.
Qed.

(** A trustee: the XOR of all pads, tagged with the sum of their hashes when
    equivocation protection is on. *)
Lemma EncodeForRound_trustee e r :
  synced e → Entity e = DCNET_TRUSTEE →
  (EquivocationProtectionEnabled e = true → is_Some (equivocationProtection e)) →
  0 ≤ r → r < MaxInt32 →
  let n := Z.to_nat (DCNetPayloadSize e) in
  ∃ tag,
  TrusteeEncodeForRound e r =
    Ret (ToBytes (mkDCNetCipher tag
           (xor_sum n (pad_at (DCNetPayloadSize e) (Z.to_nat r)) (sharedKeys e))),
         at_round e (r + 1))
  ∧ (EquivocationProtectionEnabled e = false → tag = None)
  ∧ (EquivocationProtectionEnabled e = true → ∃ t, tag = Some t ∧ length t = 32%nat ∧
      Scalar_SetBytes t = scalar_sum hashInGroup
        (pad_at (DCNetPayloadSize e) (Z.to_nat r) <$> sharedKeys e)).
Proof.
  intros H HE Heq Hr Hr' n. pose proof (synced_size _ H).
  unfold TrusteeEncodeForRound. rewrite EncodeForRound_unfold by (done || (unfold len; simpl; lia)).
  rewrite bool_decide_eq_false_2 by congruence.
  unfold trusteeEncode. cbn [DCNetPayloadSize EquivocationProtectionEnabled sharedPRNGs
    equivocationProtection at_round set_field].
  rewrite make_bytes_ret by lia. cbn [mbind go_bind]. rewrite readPads_at.
  rewrite xorPads_at by apply length_zeros. cbn [mbind go_bind].
  rewrite xor_bytes_zeros_l by (apply length_xor_sum; intros; apply length_pad_at).
  destruct (TrusteeGetContribution_share
    (pad_at (DCNetPayloadSize e) (Z.to_nat r) <$> sharedKeys e)) as (t & Et & Hs & Hl).
  destruct (EquivocationProtectionEnabled e).
  - destruct (Heq eq_refl) as [eq ->]. rewrite Et. cbn [mbind go_bind].
    exists (Some t). split; [|naive_solver]. do 2 f_equal. by apply at_round_next.
  - exists None. cbn [mbind go_bind]. split; [|naive_solver].
    do 2 f_equal. by apply at_round_next.
Qed.

(** A client with equivocation protection that does not own the slot. *)
Lemma EncodeForRound_client_idle e eq r payload :
  synced e → Entity e = DCNET_CLIENT → EquivocationProtectionEnabled e = true →
  equivocationProtection e = Some eq →
  0 ≤ r → r < MaxInt32 → len (default [] payload) ≤ DCNetPayloadSize e →
  let n := Z.to_nat (DCNetPayloadSize e) in
  let pads := pad_at (DCNetPayloadSize e) (Z.to_nat r) <$> sharedKeys e in
  ∃ kappa,
  EncodeForRound e r false payload =
    Ret (ToBytes (mkDCNetCipher (Some kappa)
           (xor_bytes (padPayload n payload) (xor_sum n id pads))),
         Some (padPayload n payload), at_round e (r + 1))
  ∧ Scalar_SetBytes kappa = client_share (history eq) pads ∧ length kappa = 32%nat.
Proof.
  intros H HE Heq Hq Hr Hr' Hlen n pads. pose proof (synced_size _ H).
  rewrite EncodeForRound_unfold by done. rewrite bool_decide_eq_true_2 by done.
  unfold clientEncode. cbn [DCNetPayloadSize EquivocationProtectionEnabled sharedPRNGs
    equivocationProtection at_round set_field].
  rewrite Heq, Hq. cbn [andb]. rewrite clone_or_zeros by (unfold len in *; lia).
  cbn [mbind go_bind]. rewrite readPads_at, make_bytes_ret by lia. cbn [mbind go_bind].
  destruct (ClientEncryptPayload_idle eq (padPayload n payload) pads) as (kappa & Ek & Hs & Hl).
  fold pads n. rewrite Ek. cbn [mbind go_bind].
  assert (length (padPayload n payload) = n) as Hp
    by (apply length_padPayload; unfold n, len in *; lia).
  rewrite (xorPads_ret n); [|done | apply Forall_fmap, Forall_true; intros; apply length_pad_at].
  cbn [mbind go_bind]. exists kappa. split; [|done].
  rewrite copy_bytes_same by (rewrite length_zeros; lia).
  do 2 f_equal. rewrite <- at_round_next by done. destruct e; cbn in *. by subst.
Qed.

(** The slot owner: the payload travels sealed under a fresh key, and the key
    travels blinded in the tag. *)
Lemma EncodeForRound_client_owner e eq r p :
  synced e → Entity e = DCNET_CLIENT → EquivocationProtectionEnabled e = true →
  equivocationProtection e = Some eq →
  0 ≤ r → r < MaxInt32 → len p + 16 ≤ DCNetPayloadSize e →
  let n := Z.to_nat (DCNetPayloadSize e) in
  let pads := pad_at (DCNetPayloadSize e) (Z.to_nat r) <$> sharedKeys e in
  let k := (Scalar_Pick (randomness eq)).1 in
  ∃ c kappa key,
  EncodeForRound e r true (Some p) =
    Ret (ToBytes (mkDCNetCipher (Some kappa) (xor_bytes c (xor_sum n id pads))),
         Some c,
         (at_round e (r + 1))
           <| equivocationProtection := Some (eq <| randomness := (Scalar_Pick (randomness eq)).2 |>) |>)
  ∧ Scalar_SetBytes kappa = Scalar_Add k (client_share (history eq) pads)
  ∧ length kappa = 32%nat
  ∧ Scalar_MarshalBinary k = Some key
  ∧ aesgcm_Open key (zeros 12) c = Some (Ok (padPayload (n - 16) (Some p)))
  ∧ length c = n.
Proof.
  intros H HE Heq Hq Hr Hr' Hlen n pads k. pose proof (synced_size _ H).
  pose proof (len_nonneg p).
  rewrite EncodeForRound_unfold by (done || (simpl; lia)).
  rewrite bool_decide_eq_true_2 by done.
  unfold clientEncode. cbn [DCNetPayloadSize EquivocationProtectionEnabled sharedPRNGs
    equivocationProtection at_round set_field].
  rewrite Heq, Hq. cbn [andb].
  replace (DCNetPayloadSize e - 16) with (Z.of_nat (n - 16)) by (unfold n; lia).
  rewrite clone_and_pad by (unfold n, len in *; lia).
  cbn [mbind go_bind]. rewrite readPads_at, make_bytes_ret by lia. cbn [mbind go_bind].
  destruct (ClientEncryptPayload_owner eq (padPayload (n - 16) (Some p)) pads)
    as (c & kappa & key & Ek & Hs & Hl & Hkey & Ho & Hc). fold k in Hs, Hkey.
  rewrite length_padPayload in Hc by (simpl; unfold n, len in *; lia).
  assert (length c = n) as Hcn by (unfold n, len in *; lia). clear Hc.
  fold pads n. rewrite Ek. cbn [mbind go_bind].
  rewrite (xorPads_ret n); [|done | apply Forall_fmap, Forall_true; intros; apply length_pad_at].
  cbn [mbind go_bind]. exists c, kappa, key. split; [|done].
  rewrite copy_bytes_same by (rewrite length_zeros; lia).
  do 2 f_equal. rewrite <- at_round_next by done. by destruct e.
Qed.
End pads.

(** ** The relay's accumulation of a round *)

Section accumulate.
Context {CS : CryptoSuite} {CL : CryptoLaws CS}.
Implicit Types (e : DCNetEntity CS).

(** What the decoder remembers of a cipher's tag. *)
Definition seen_tag (c : DCNetCipher) : option bytes :=
  Some (default [] (EquivocationProtectionTag c)).

Definition cipher_ok (n : nat) (c : DCNetCipher) : Prop :=
  length (Payload c) = n ∧ (length (default [] (EquivocationProtectionTag c)) ≤ 32)%nat.

Lemma decodeInto_ok e d n c store :
  RoundDecoder e = Some d → length (xorBuffer d) = n → cipher_ok n c →
  decodeInto e (currentRoundBeingDecoded d) (ToBytes c) store =
    let d' := d <| xorBuffer := xor_bytes (xorBuffer d) (Payload c) |> in
    Ret (e <| RoundDecoder := Some (if EquivocationProtectionEnabled e
                                    then store d' (seen_tag c) else d') |>).
Proof.
  intros Hd Hb [Hp Ht]. unfold decodeInto.
  rewrite FromBytes_ToBytes by (unfold len; lia). cbn [mbind go_bind].
  rewrite Hd, Z.eqb_refl. cbn [negb]. cbn [Payload EquivocationProtectionTag].
  by rewrite xor_range_ret by lia.
Qed.

Lemma DecodeClient_all e d n cs :
  RoundDecoder e = Some d → length (xorBuffer d) = n → Forall (cipher_ok n) cs →
  go_fold (λ e c, DecodeClient e (currentRoundBeingDecoded d) c) e (ToBytes <$> cs) =
    Ret (e <| RoundDecoder := Some (mkDecoder (currentRoundBeingDecoded d)
           (xor_bytes (xorBuffer d) (xor_sum n Payload cs)) (equivTrusteeContribs d)
           (equivClientContribs d ++ if EquivocationProtectionEnabled e then seen_tag <$> cs else [])) |>).
Proof.
  intros Hd Hb Hcs. revert e d Hd Hb.
  induction Hcs as [|c cs Hc _ IH]; intros e d Hd Hb.
  - cbn. destruct e as [??????? dec ??], d. cbn in *. subst dec.
    rewrite xor_bytes_zeros_r by done. repeat f_equal. case_match; by rewrite app_nil_r.
  - rewrite fmap_cons, go_fold_cons.
    pose proof (decodeInto_ok e d n c
      (λ d tag, d <| equivClientContribs := equivClientContribs d ++ [tag] |>) Hd Hb Hc) as Hone.
    fold (DecodeClient e (currentRoundBeingDecoded d) (ToBytes c)) in Hone.
    rewrite Hone. cbn [mbind go_bind]. clear Hone.
    destruct (EquivocationProtectionEnabled e) eqn:Heq; cbn zeta.
    all: match goal with |- go_fold _ (_ <| RoundDecoder := Some ?d' |>) _ = _ =>
           specialize (IH (e <| RoundDecoder := Some d' |>) d') end.
    all: cbn in IH |- *; rewrite IH;
         [|done | rewrite length_xor_bytes; destruct Hc; lia].
    all: rewrite Heq; cbn; rewrite <- (assoc xor_bytes), <- ?app_assoc; done.
Qed.

Lemma DecodeTrustee_all e d n cs :
  RoundDecoder e = Some d → length (xorBuffer d) = n → Forall (cipher_ok n) cs →
  go_fold (λ e c, DecodeTrustee e (currentRoundBeingDecoded d) c) e (ToBytes <$> cs) =
    Ret (e <| RoundDecoder := Some (mkDecoder (currentRoundBeingDecoded d)
           (xor_bytes (xorBuffer d) (xor_sum n Payload cs))
           (equivTrusteeContribs d ++ if EquivocationProtectionEnabled e then seen_tag <$> cs else [])
           (equivClientContribs d)) |>).
Proof.
  intros Hd Hb Hcs. revert e d Hd Hb.
  induction Hcs as [|c cs Hc _ IH]; intros e d Hd Hb.
  - cbn. destruct e as [??????? dec ??], d. cbn in *. subst dec.
    rewrite xor_bytes_zeros_r by done. repeat f_equal. case_match; by rewrite app_nil_r.
  - rewrite fmap_cons, go_fold_cons.
    pose proof (decodeInto_ok e d n c
      (λ d tag, d <| equivTrusteeContribs := equivTrusteeContribs d ++ [tag] |>) Hd Hb Hc) as Hone.
    fold (DecodeTrustee e (currentRoundBeingDecoded d) (ToBytes c)) in Hone.
    rewrite Hone. cbn [mbind go_bind]. clear Hone.
    destruct (EquivocationProtectionEnabled e) eqn:Heq; cbn zeta.
    all: match goal with |- go_fold _ (_ <| RoundDecoder := Some ?d' |>) _ = _ =>
           specialize (IH (e <| RoundDecoder := Some d' |>) d') end.
    all: cbn in IH |- *; rewrite IH;
         [|done | rewrite length_xor_bytes; destruct Hc; lia].
    all: rewrite Heq; cbn; rewrite <- (assoc xor_bytes), <- ?app_assoc; done.
Qed.

(** The relay's processing of one complete round, as upstreamPhase2 performs
    it: DecodeStart, every client cipher, every trustee cipher, DecodeCell. *)
Definition decodeRound (relay : DCNetEntity CS) (r : Z) (oc : bool)
    (clientCells trusteeCells : list bytes) : go (bytes * bytes) :=
  relay ← DecodeStart relay r;
  relay ← go_fold (λ e c, DecodeClient e r c) relay clientCells;
  relay ← go_fold (λ e c, DecodeTrustee e r c) relay trusteeCells;
  DecodeCell relay oc.

Lemma decodeRound_ok relay r oc n ccs tcs :
  DCNetPayloadSize relay = Z.of_nat n →
  Forall (cipher_ok n) ccs → Forall (cipher_ok n) tcs →
  let buf := xor_bytes (xor_sum n Payload ccs) (xor_sum n Payload tcs) in
  decodeRound relay r oc (ToBytes <$> ccs) (ToBytes <$> tcs) =
    (if EquivocationProtectionEnabled relay && negb oc then
       match equivocationProtection relay with
       | None => Crash RuntimeError
       | Some eq => plain ← RelayDecode eq buf
                      ((λ c, default [] (EquivocationProtectionTag c)) <$> tcs)
                      ((λ c, default [] (EquivocationProtectionTag c)) <$> ccs);
                    Ret (plain, buf)
       end
     else Ret (buf, buf)).
Proof.
  intros Hn Hcs Hts buf. unfold decodeRound, DecodeStart.
  rewrite make_bytes_ret, Hn, Nat2Z.id by lia. cbn [mbind go_bind].
  set (d0 := mkDecoder r (zeros n) [] []).
  set (e0 := relay <| RoundDecoder := Some d0 |>).
  pose proof (DecodeClient_all e0 d0 n ccs eq_refl (length_zeros n) Hcs) as H1.
  change (currentRoundBeingDecoded d0) with r in H1. rewrite H1. cbn [mbind go_bind]. clear H1.
  match goal with |- context [e0 <| RoundDecoder := Some ?d |>] => set (d1 := d) end.
  assert (length (xorBuffer d1) = n) as Hd1.
  { unfold d1. cbn. rewrite length_xor_bytes, length_zeros, length_xor_sum; [lia|].
    intros c Hc. by apply (proj1 (Forall_forall _ _) Hcs) in Hc as [? _]. }
  pose proof (DecodeTrustee_all (e0 <| RoundDecoder := Some d1 |>) d1 n tcs eq_refl Hd1 Hts) as H2.
  change (currentRoundBeingDecoded d1) with r in H2. rewrite H2. clear H2.
  unfold d1, d0, e0. cbn -[zeros xor_sum xor_bytes].
  rewrite (xor_bytes_zeros_l (xor_sum n Payload ccs)).
  2:{ apply length_xor_sum. intros c Hc. by apply (proj1 (Forall_forall _ _) Hcs) in Hc as [? _]. }
  fold buf. destruct (EquivocationProtectionEnabled relay); cbn; [|done].
  destruct oc; cbn; [done|]. destruct (equivocationProtection relay); [|done].
  by rewrite <- !list_fmap_compose.
Qed.
End accumulate.

(** ** One round of the DC-net

    [n] clients and [m] trustees; [K i j] is the secret shared by client [i]
    and trustee [j]. *)

Section round.
Context {CS : CryptoSuite} {CL : CryptoLaws CS}.
Context (N : Z) (n m : nat) (K : nat → nat → Point) (r : Z).

Definition client_of (i : nat) (e : DCNetEntity CS) : Prop :=
  synced e ∧ Entity e = DCNET_CLIENT ∧ DCNetPayloadSize e = N ∧
  sharedKeys e = (λ j, Some (K i j)) <$> seq 0 m.
Definition trustee_of (j : nat) (e : DCNetEntity CS) : Prop :=
  synced e ∧ Entity e = DCNET_TRUSTEE ∧ DCNetPayloadSize e = N ∧
  sharedKeys e = (λ i, Some (K i j)) <$> seq 0 n.

(** Every client encodes (entity, owns the slot, payload), every trustee
    encodes, and the relay decodes the cells. *)
Definition dcnetRound (relay : DCNetEntity CS) (oc : bool)
    (clients : list (DCNetEntity CS * bool * option bytes)) (trustees : list (DCNetEntity CS))
    : go (bytes * bytes) :=
  clientCells ← mapM (λ '(e, owner, payload),
    '(cell, _, _) ← EncodeForRound e r owner payload; Ret cell) clients;
  trusteeCells ← mapM (λ e, '(cell, _) ← TrusteeEncodeForRound e r; Ret cell) trustees;
  decodeRound relay r oc clientCells trusteeCells.

Abbreviation nN := (Z.to_nat N).
Definition pad (i j : nat) : bytes := pad_at N (Z.to_nat r) (Some (K i j)).

Lemma length_pad i j : length (pad i j) = nN.
Proof. apply length_pad_at. Qed.

(** Every pad occurs once in a client's cipher and once in a trustee's. *)
Lemma pads_cancel (B : nat → bytes) ccs tcs :
  (∀ i, (i < n)%nat → length (B i) = nN) →
  Forall2 (λ i c, Payload c = xor_bytes (B i) (xor_sum nN (pad i) (seq 0 m))) (seq 0 n) ccs →
  Forall2 (λ j c, Payload c = xor_sum nN (λ i, pad i j) (seq 0 n)) (seq 0 m) tcs →
  xor_bytes (xor_sum nN Payload ccs) (xor_sum nN Payload tcs) = xor_sum nN B (seq 0 n).
Proof.
  intros HB Hc Ht.
  rewrite <- (xor_sum_Forall2 _ _ _ _ _ _ Hc (λ i c _ H, eq_sym H)).
  rewrite <- (xor_sum_Forall2 _ _ _ _ _ _ Ht (λ i c _ H, eq_sym H)).
  rewrite xor_sum_split, (xor_sum_exchange _ pad), <- (assoc xor_bytes), xor_bytes_self.
  rewrite length_xor_sum; [|intros; apply length_xor_sum; intros; apply length_pad].
  apply xor_bytes_zeros_r, length_xor_sum. intros i Hi. apply HB. apply elem_of_seq in Hi. lia.
Qed.

Lemma client_pad_sum i e :
  client_of i e →
  xor_sum (Z.to_nat (DCNetPayloadSize e)) (pad_at (DCNetPayloadSize e) (Z.to_nat r)) (sharedKeys e)
  = xor_sum nN (pad i) (seq 0 m).
Proof. intros (_ & _ & -> & ->). by rewrite xor_sum_map. Qed.

Lemma trustee_pad_sum j e :
  trustee_of j e →
  xor_sum (Z.to_nat (DCNetPayloadSize e)) (pad_at (DCNetPayloadSize e) (Z.to_nat r)) (sharedKeys e)
  = xor_sum nN (λ i, pad i j) (seq 0 n).
Proof. intros (_ & _ & -> & ->). by rewrite xor_sum_map. Qed.

Lemma length_pad_sum i : length (xor_sum nN (pad i) (seq 0 m)) = nN.
Proof. apply length_xor_sum. intros. apply length_pad. Qed.

Context (C T : nat → DCNetEntity CS) (relay : DCNetEntity CS).
Context (owner : nat → bool) (P : nat → option bytes).

(** What all entities of a round agree on. *)
Record round_setup (equiv : bool) : Prop := {
  setup_round : 0 ≤ r < MaxInt32;
  setup_size : 0 < N;
  setup_clients : ∀ i, (i < n)%nat → client_of i (C i) ∧ EquivocationProtectionEnabled (C i) = equiv;
  setup_trustees : ∀ j, (j < m)%nat → trustee_of j (T j) ∧ EquivocationProtectionEnabled (T j) = equiv;
  setup_relay : DCNetPayloadSize relay = N ∧ EquivocationProtectionEnabled relay = equiv;
  setup_payloads : ∀ i, (i < n)%nat → len (default [] (P i)) ≤ N
}.

Definition theClients := (λ i, (C i, owner i, P i)) <$> seq 0 n.
Definition theTrustees := T <$> seq 0 m.

(** The cells of the trustees, whether or not tags are in use. *)
Lemma trustee_cells equiv :
  round_setup equiv →
  (equiv = true → ∀ j, (j < m)%nat → is_Some (equivocationProtection (T j))) →
  ∃ tcs, mapM (λ e, '(cell, _) ← TrusteeEncodeForRound e r; Ret cell) theTrustees
         = Ret (ToBytes <$> tcs)
  ∧ Forall2 (λ j c, Payload c = xor_sum nN (λ i, pad i j) (seq 0 n) ∧ cipher_ok nN c
      ∧ (equiv = true → Scalar_SetBytes (default [] (EquivocationProtectionTag c))
           = scalar_sum (λ i, hashInGroup (pad i j)) (seq 0 n))) (seq 0 m) tcs.
Proof.
  intros [Hr HN _ HT _ _] Heqs. unfold theTrustees. rewrite mapM_go_fmap.
  apply mapM_go_exists. intros j Hj. apply elem_of_seq in Hj as [_ Hj].
  destruct (HT j Hj) as [Htj Heq]. pose proof Htj as (Hs & HE & Hsz & Hk).
  destruct (EncodeForRound_trustee (T j) r) as (tag & E & Hnone & Hsome);
    [done | done | | lia | lia |].
  { rewrite Heq. intros ->. by apply Heqs. }
  rewrite E. rewrite (trustee_pad_sum j) by done. rewrite Heq, Hsz, Hk in *.
  eexists; split; [reflexivity|]. split; [done|]. split.
  - split; [apply length_xor_sum; intros; apply length_pad|].
    cbn. destruct equiv; [destruct (Hsome eq_refl) as (t & -> & Hl & _); simpl; lia|].
    rewrite (Hnone eq_refl). simpl. lia.
  - intros ->. destruct (Hsome eq_refl) as (t & -> & _ & Ht). cbn. rewrite Ht.
    rewrite <- list_fmap_compose. unfold scalar_sum. by rewrite foldr_fmap.
Qed.

Lemma client_cells_plain :
  round_setup false →
  ∃ ccs, mapM (λ '(e, owner, payload),
           '(cell, _, _) ← EncodeForRound e r owner payload; Ret cell) theClients
         = Ret (ToBytes <$> ccs)
  ∧ Forall2 (λ i c, Payload c = xor_bytes (padPayload nN (P i)) (xor_sum nN (pad i) (seq 0 m))
      ∧ cipher_ok nN c) (seq 0 n) ccs.
Proof.
  intros [Hr HN HC _ _ HP]. unfold theClients. rewrite mapM_go_fmap.
  apply mapM_go_exists. intros i Hi. apply elem_of_seq in Hi as [_ Hi].
  destruct (HC i Hi) as [Hci Heq]. pose proof Hci as (Hs & HE & Hsz & _).
  specialize (HP i Hi). rewrite <- Hsz in HP.
  rewrite EncodeForRound_client_plain by (done || lia).
  rewrite (client_pad_sum i) by done. rewrite Hsz in *.
  eexists; split; [reflexivity|]. split; [done|]. split; [|simpl; lia].
  cbn. rewrite length_xor_bytes, length_pad_sum, length_padPayload; [lia|].
  unfold len in HP. lia.
Qed.

Lemma dcnetRound_plain oc :
  round_setup false →
  let sum := xor_sum nN (λ i, padPayload nN (P i)) (seq 0 n) in
  dcnetRound relay oc theClients theTrustees = Ret (sum, sum).
Proof.
  intros HS sum. unfold dcnetRound.
  destruct (client_cells_plain HS) as (ccs & -> & Hcs).
  destruct (trustee_cells false HS) as (tcs & -> & Hts); [done|].
  destruct HS as [_ HN _ _ [HR HRe] HP]. cbn [mbind go_bind].
  rewrite (decodeRound_ok _ _ _ nN); [|lia|..].
  - rewrite HRe. cbn [andb]. rewrite (pads_cancel (λ i, padPayload nN (P i))); [done|..].
    + intros i Hi. apply length_padPayload. specialize (HP i Hi). unfold len in HP. lia.
    + eapply Forall2_impl; [exact Hcs|]. by intros ?? [? _].
    + eapply Forall2_impl; [exact Hts|]. by intros ?? [? _].
  - eapply Forall2_Forall_snd; [exact Hcs|]. by intros ?? [_ ?].
  - eapply Forall2_Forall_snd; [exact Hts|]. by intros ?? (_ & ? & _).
Qed.

(** *** With equivocation protection *)

Context (o : nat) (p : bytes) (h : nat → Scalar).

(** The sum of the hashed pads of client [i]. *)
Definition pad_hash_sum (i : nat) : Scalar := scalar_sum (λ j, hashInGroup (pad i j)) (seq 0 m).

(** Client [o] owns the slot and sends [p]; the others send zeroes.  [h i] is
    the downstream history client [i] has seen. *)
Record owner_setup : Prop := {
  owner_lt : (o < n)%nat;
  owner_unique : ∀ i, (i < n)%nat → owner i = true ↔ i = o;
  owner_payload : P o = Some p ∧ len p + 16 ≤ N;
  idle_payloads : ∀ i, (i < n)%nat → i ≠ o → padPayload nN (P i) = zeros nN;
  client_history : ∀ i, (i < n)%nat →
    ∃ eq, equivocationProtection (C i) = Some eq ∧ history eq = h i;
  trustee_history : ∀ j, (j < m)%nat → is_Some (equivocationProtection (T j))
}.

Lemma client_cells_equiv :
  round_setup true → owner_setup →
  ∃ ccs c k key, mapM (λ '(e, owner, payload),
           '(cell, _, _) ← EncodeForRound e r owner payload; Ret cell) theClients
         = Ret (ToBytes <$> ccs)
  ∧ length c = nN ∧ Scalar_MarshalBinary k = Some key
  ∧ aesgcm_Open key (zeros 12) c = Some (Ok (padPayload (nN - 16) (Some p)))
  ∧ Forall2 (λ i cell,
      Payload cell = xor_bytes (if decide (i = o) then c else zeros nN)
                               (xor_sum nN (pad i) (seq 0 m))
      ∧ cipher_ok nN cell
      ∧ Scalar_SetBytes (default [] (EquivocationProtectionTag cell))
        = Scalar_Add (if decide (i = o) then k else Scalar_Zero)
                     (Scalar_Mul (pad_hash_sum i) (h i))) (seq 0 n) ccs.
Proof.
  intros [Hr HN HC _ _ HP] [Ho Hown [HPo Hp] Hidle Hhist _].
  destruct (HC o Ho) as [Hco Heqo]. pose proof Hco as (Hso & HEo & Hszo & Hko).
  destruct (Hhist o Ho) as (eqo & Hqo & Hho).
  destruct (EncodeForRound_client_owner (C o) eqo r p) as
    (c & kappa & key & Ecell & Hkappa & Hlk & Hkey & Hopen & Hc); [done..|lia|lia|lia|].
  rewrite Hszo in *. rewrite Hko in *.
  set (k := (Scalar_Pick (randomness eqo)).1) in *.
  assert (∀ i, client_share (h i) ((pad_at N (Z.to_nat r)) <$> ((λ j, Some (K i j)) <$> seq 0 m))
               = Scalar_Mul (pad_hash_sum i) (h i)) as Hshare.
  { intros i. unfold client_share, pad_hash_sum, scalar_sum. by rewrite !foldr_fmap. }
  assert (∀ i, xor_sum nN id (pad_at N (Z.to_nat r) <$> ((λ j, Some (K i j)) <$> seq 0 m))
               = xor_sum nN (pad i) (seq 0 m)) as Hpads.
  { intros i. by rewrite !xor_sum_map. }
  unfold theClients. rewrite mapM_go_fmap.
  match goal with |- ∃ ccs c k key, ?M = _ ∧ _ => enough (∃ ccs, M = Ret (ToBytes <$> ccs) ∧
    Forall2 (λ i cell,
      Payload cell = xor_bytes (if decide (i = o) then c else zeros nN)
                               (xor_sum nN (pad i) (seq 0 m))
      ∧ cipher_ok nN cell
      ∧ Scalar_SetBytes (default [] (EquivocationProtectionTag cell))
        = Scalar_Add (if decide (i = o) then k else Scalar_Zero)
                     (Scalar_Mul (pad_hash_sum i) (h i))) (seq 0 n) ccs) as (ccs & ? & ?)
    by (exists ccs, c, k, key; done) end.
  apply mapM_go_exists. intros i Hi. apply elem_of_seq in Hi as [_ Hi].
  destruct (decide (i = o)) as [->|Hne].
  - rewrite (proj2 (Hown o Ho) eq_refl), HPo, Ecell.
    eexists; split; [reflexivity|]. cbn. rewrite Hpads, Hkappa, Hho, Hshare.
    repeat split; [|simpl; lia]. cbn. rewrite length_xor_bytes, length_pad_sum. lia.
  - assert (owner i = false) as -> by (apply Bool.not_true_iff_false; intros E%Hown; done).
    destruct (HC i Hi) as [Hci Heqi]. pose proof Hci as (Hsi & HEi & Hszi & Hki).
    destruct (Hhist i Hi) as (eqi & Hqi & Hhi). specialize (HP i Hi). rewrite <- Hszi in HP.
    destruct (EncodeForRound_client_idle (C i) eqi r (P i)) as (kap & Ecl & Hkap & Hlkap);
      [done..|lia|lia|done|].
    rewrite Hszi, Hki in *. rewrite Ecl. eexists; split; [reflexivity|].
    cbn. rewrite Hpads, Hkap, Hhi, Hshare, Hidle by done. rewrite Scalar_Add_0_l.
    repeat split; [|simpl; lia]. cbn. rewrite length_xor_bytes, length_pad_sum, length_zeros. lia.
Qed.

(** What the relay computes as the key, whatever histories the clients saw. *)
Lemma recoverKey_offset eqr k ccs tcs :
  (o < n)%nat →
  Forall2 (λ i cell, Scalar_SetBytes (default [] (EquivocationProtectionTag cell))
    = Scalar_Add (if decide (i = o) then k else Scalar_Zero)
                 (Scalar_Mul (pad_hash_sum i) (h i))) (seq 0 n) ccs →
  Forall2 (λ j cell, Scalar_SetBytes (default [] (EquivocationProtectionTag cell))
    = scalar_sum (λ i, hashInGroup (pad i j)) (seq 0 n)) (seq 0 m) tcs →
  recoverKey eqr ((λ c, default [] (EquivocationProtectionTag c)) <$> tcs)
                 ((λ c, default [] (EquivocationProtectionTag c)) <$> ccs)
  = Scalar_Sub (Scalar_Add k (scalar_sum (λ i, Scalar_Mul (pad_hash_sum i) (h i)) (seq 0 n)))
               (Scalar_Mul (scalar_sum pad_hash_sum (seq 0 n)) (history eqr)).
Proof.
  intros Ho Hc Ht. unfold recoverKey. rewrite <- !list_fmap_compose, !sum_scalars_fmap.
  unfold compose.
  rewrite <- (scalar_sum_Forall2 _ _ _ _ _ Hc (λ i c _ H, eq_sym H)).
  rewrite <- (scalar_sum_Forall2 _ _ _ _ _ Ht (λ i c _ H, eq_sym H)).
  f_equal.
  - rewrite scalar_sum_add. f_equal.
    rewrite (scalar_sum_single _ _ o); [by rewrite decide_True | apply NoDup_seq | | ].
    + apply elem_of_seq. lia.
    + intros i _ Hi. by rewrite decide_False.
  - f_equal. unfold pad_hash_sum.
    by rewrite (scalar_sum_exchange (λ i j, hashInGroup (pad i j))).
Qed.

Lemma recoverKey_agree eqr k ccs tcs :
  (o < n)%nat → (∀ i, (i < n)%nat → h i = history eqr) →
  Forall2 (λ i cell, Scalar_SetBytes (default [] (EquivocationProtectionTag cell))
    = Scalar_Add (if decide (i = o) then k else Scalar_Zero)
                 (Scalar_Mul (pad_hash_sum i) (h i))) (seq 0 n) ccs →
  Forall2 (λ j cell, Scalar_SetBytes (default [] (EquivocationProtectionTag cell))
    = scalar_sum (λ i, hashInGroup (pad i j)) (seq 0 n)) (seq 0 m) tcs →
  recoverKey eqr ((λ c, default [] (EquivocationProtectionTag c)) <$> tcs)
                 ((λ c, default [] (EquivocationProtectionTag c)) <$> ccs) = k.
Proof.
  intros Ho Hh Hc Ht. rewrite (recoverKey_offset eqr k) by done.
  rewrite (scalar_sum_ext _ (λ i, Scalar_Mul (history eqr) (pad_hash_sum i))).
  - rewrite scalar_sum_mul, (Scalar_Mul_comm _ (history eqr)). apply Scalar_Sub_Add.
  - intros i Hi. apply elem_of_seq in Hi. rewrite Hh by lia. apply Scalar_Mul_comm.
Qed.

Lemma dcnetRound_equiv eqr :
  round_setup true → owner_setup →
  equivocationProtection relay = Some eqr → (∀ i, (i < n)%nat → h i = history eqr) →
  ∃ c, length c = nN ∧
    dcnetRound relay false theClients theTrustees = Ret (padPayload (nN - 16) (Some p), c).
Proof.
  intros HS HO HR Hh. unfold dcnetRound.
  destruct (client_cells_equiv HS HO) as (ccs & c & k & key & -> & Hc & Hkey & Hopen & Hcs).
  destruct (trustee_cells true HS) as (tcs & -> & Hts); [intros _; apply HO|].
  destruct HS as [_ HN _ _ [HRs HRe] _]. cbn [mbind go_bind].
  rewrite (decodeRound_ok _ _ _ nN); [|lia|..].
  - rewrite HRe, HR. cbn [andb negb].
    rewrite (pads_cancel (λ i, if decide (i = o) then c else zeros nN)).
    + rewrite (xor_sum_single nN _ _ o).
      * rewrite decide_True by done. exists c. split; [done|].
        rewrite (RelayDecode_key eqr k key c (padPayload (nN - 16) (Some p))); [done| |done|done].
        apply recoverKey_agree; [apply HO | done | |].
        -- eapply Forall2_impl; [exact Hcs|]. by intros ?? (_ & _ & ?).
        -- eapply Forall2_impl; [exact Hts|]. intros ?? (_ & _ & H). by apply H.
      * apply NoDup_seq.
      * apply elem_of_seq. pose proof (owner_lt HO). lia.
      * by rewrite decide_True.
      * intros i _ Hi. by rewrite decide_False.
    + intros i _. case_decide; [done | apply length_zeros].
    + eapply Forall2_impl; [exact Hcs|]. by intros ?? [? _].
    + eapply Forall2_impl; [exact Hts|]. by intros ?? [? _].
  - eapply Forall2_Forall_snd; [exact Hcs|]. by intros ?? (_ & ? & _).
  - eapply Forall2_Forall_snd; [exact Hts|]. by intros ?? (_ & ? & _).
Qed.

(** *** Open/closed rounds

    No client owns the slot, and the relay does not decrypt the sum. *)

Lemma client_cells_idle equiv :
  round_setup equiv → (∀ i, (i < n)%nat → owner i = false) →
  (equiv = true → ∀ i, (i < n)%nat → is_Some (equivocationProtection (C i))) →
  ∃ ccs, mapM (λ '(e, owner, payload),
           '(cell, _, _) ← EncodeForRound e r owner payload; Ret cell) theClients
         = Ret (ToBytes <$> ccs)
  ∧ Forall2 (λ i c, Payload c = xor_bytes (padPayload nN (P i)) (xor_sum nN (pad i) (seq 0 m))
      ∧ cipher_ok nN c) (seq 0 n) ccs.
Proof.
  intros HS Hown Hsome. destruct equiv; [|by apply client_cells_plain].
  destruct HS as [Hr HN HC _ _ HP]. unfold theClients. rewrite mapM_go_fmap.
  apply mapM_go_exists. intros i Hi. apply elem_of_seq in Hi as [_ Hi].
  destruct (HC i Hi) as [Hci Heq]. pose proof Hci as (Hs & HE & Hsz & Hk).
  specialize (HP i Hi). rewrite <- Hsz in HP. destruct (Hsome eq_refl i Hi) as [q Hq].
  rewrite Hown by done.
  destruct (EncodeForRound_client_idle (C i) q r (P i)) as (kap & E & _ & Hkap); [done..|lia|lia|done|].
  rewrite E, xor_sum_map. pose proof (client_pad_sum i (C i) Hci) as Hpads.
  unfold id. setoid_rewrite Hpads. rewrite Hsz in *.
  eexists; split; [reflexivity|]. split; [done|]. split; [|simpl; lia].
  cbn. rewrite length_xor_bytes, length_pad_sum, length_padPayload; [lia|].
  unfold len in HP. lia.
Qed.

Lemma dcnetRound_openclosed equiv :
  round_setup equiv → (∀ i, (i < n)%nat → owner i = false) →
  (equiv = true → (∀ i, (i < n)%nat → is_Some (equivocationProtection (C i)))
                ∧ (∀ j, (j < m)%nat → is_Some (equivocationProtection (T j)))) →
  let sum := xor_sum nN (λ i, padPayload nN (P i)) (seq 0 n) in
  dcnetRound relay true theClients theTrustees = Ret (sum, sum).
Proof.
  intros HS Hown Hsome sum. unfold dcnetRound.
  destruct (client_cells_idle equiv HS Hown) as (ccs & -> & Hcs);
    [intros He; by destruct (Hsome He)|].
  destruct (trustee_cells equiv HS) as (tcs & -> & Hts); [intros He; by destruct (Hsome He)|].
  destruct HS as [_ HN _ _ [HR HRe] HP]. cbn [mbind go_bind].
  rewrite (decodeRound_ok _ _ _ nN); [|lia|..].
  - rewrite andb_false_r. rewrite (pads_cancel (λ i, padPayload nN (P i))); [done|..].
    + intros i Hi. apply length_padPayload. specialize (HP i Hi). unfold len in HP. lia.
    + eapply Forall2_impl; [exact Hcs|]. by intros ?? [? _].
    + eapply Forall2_impl; [exact Hts|]. by intros ?? [? _].
  - eapply Forall2_Forall_snd; [exact Hcs|]. by intros ?? [_ ?].
  - eapply Forall2_Forall_snd; [exact Hts|]. by intros ?? (_ & ? & _).
Qed.
End round.
