(* ===== verification/DCNetSession.v ===== *)
(** * DC-net sessions

    Rounds composed: the entities of a deployment are created from their
    Diffie-Hellman secrets, then run any sequence of rounds.  The theorems say
    that the relay decodes what each slot owner sent, that no order of rounds
    desynchronises the pads, what the equivocation protection does and does not
    notice, and what a disruption trace reads. *)

From S2P Require Import Prelude Bytes Crypto DCNetCipher Equivocation DCNet DCNetRound.

Open Scope Z_scope.

Section entities.
Context {CS : CryptoSuite} {CL : CryptoLaws CS}.
Implicit Types (e : DCNetEntity CS).

(** NewDCNetEntity establishes the invariant, with round 0 as current round. *)
Lemma NewDCNetEntity_synced rnd1 rnd2 id entity size equiv keys :
  entity ≠ DCNET_RELAY → 0 < size → Forall is_Some keys →
  ∃ e, NewDCNetEntity rnd1 rnd2 id entity size equiv keys = Ret e
  ∧ synced e ∧ Entity e = entity ∧ DCNetPayloadSize e = size ∧ sharedKeys e = keys
  ∧ currentRound e = 0 ∧ EquivocationProtectionEnabled e = equiv
  ∧ (equiv = true → equivocationProtection e = Some (NewEquivocation rnd2)).
Proof.
  intros HE Hs Hk. unfold NewDCNetEntity. cbn zeta.
  rewrite bool_decide_eq_true_2 by done. rewrite seedPRNGs_ret by done. cbn [mbind go_bind].
  destruct (Z.leb_spec size 0); [lia|].
  destruct equiv; cbn; (destruct (Z.leb_spec size 0); [lia|]);
    (eexists; split; [reflexivity|]); cbn; repeat split; done || lia.
Qed.

Lemma NewDCNetEntity_Ret_keys rnd1 rnd2 id entity size equiv keys e :
  entity ≠ DCNET_RELAY → NewDCNetEntity rnd1 rnd2 id entity size equiv keys = Ret e →
  Forall is_Some keys ∧ 0 < size.
Proof.
  intros Hne. unfold NewDCNetEntity. intros H. rewrite bool_decide_eq_true_2 in H by done. go_inv H.
  go_inv E. injection E as <-. split.
  - apply mapM_go_Forall2 in E0. clear -E0. induction E0 as [|[p|] y keys ys E _ IH]; [done| |done].
    constructor; [by eexists | done].
  - destruct equiv; cbn in H; destruct (Z.leb_spec size 0); by try lia.
Qed.

(** ... and every entity it returns satisfies it. *)
Lemma NewDCNetEntity_ret_synced rnd1 rnd2 id entity size equiv keys e :
  entity ≠ DCNET_RELAY → NewDCNetEntity rnd1 rnd2 id entity size equiv keys = Ret e → synced e.
Proof.
  intros Hne H. destruct (NewDCNetEntity_Ret_keys _ _ _ _ _ _ _ _ Hne H) as [Hk Hs].
  destruct (NewDCNetEntity_synced rnd1 rnd2 id entity size equiv keys) as (e' & E & Hsy & _); [done..|].
  rewrite H in E. by injection E as <-.
Qed.

Lemma NewDCNetEntity_relay rnd1 rnd2 id size equiv keys :
  0 < size →
  ∃ e, NewDCNetEntity rnd1 rnd2 id DCNET_RELAY size equiv keys = Ret e
  ∧ Entity e = DCNET_RELAY ∧ DCNetPayloadSize e = size ∧ sharedPRNGs e = []
  ∧ EquivocationProtectionEnabled e = equiv
  ∧ (equiv = true → equivocationProtection e = Some (NewEquivocation rnd2)).
Proof.
  intros Hs. unfold NewDCNetEntity. cbn zeta.
  rewrite bool_decide_eq_false_2 by auto. cbn [mbind go_bind].
  destruct equiv; cbn; (destruct (Z.leb_spec size 0); [lia|]);
    (eexists; split; [reflexivity|]); cbn; repeat split; done || lia.
Qed.

(** What encoding a cell leaves unchanged, on every branch. *)
Definition keeps e e' : Prop :=
  synced e' ∧ Entity e' = Entity e ∧ DCNetPayloadSize e' = DCNetPayloadSize e
  ∧ sharedKeys e' = sharedKeys e
  ∧ EquivocationProtectionEnabled e' = EquivocationProtectionEnabled e
  ∧ (history <$> equivocationProtection e') = (history <$> equivocationProtection e).

Lemma clientEncode_keeps e owner payload c plain e' r :
  clientEncode (at_round e r) owner payload = Ret (c, plain, e') →
  e' = (at_round e r)
    <| sharedPRNGs := prngs_at (DCNetPayloadSize e) (S (Z.to_nat r)) (sharedKeys e) |>
    <| equivocationProtection := equivocationProtection e' |>
  ∧ (history <$> equivocationProtection e') = (history <$> equivocationProtection e).
Proof.
  unfold clientEncode. intros H. go_inv H.
  cbn [DCNetPayloadSize sharedPRNGs at_round set_field] in H. rewrite readPads_at in H.
  go_inv H. go_inv H as [[[pl tag] pp] e1]. go_inv H. injection H as <- <- <-.
  cbn in E1. destruct (EquivocationProtectionEnabled e); [|by injection E1 as <- <- <- <-].
  destruct (equivocationProtection e) as [eq|] eqn:Heq; [|done].
  go_inv E1 as [[x s] eq']. injection E1 as <- <- <- <-. split; [done|].
  cbn. f_equal. unfold ClientEncryptPayload in E3. destruct owner; cbn [negb] in E3.
  - unfold randomScalar in E3. destruct (Scalar_Pick _) as [k rr]. go_inv E3.
    destruct (aesgcm_Seal _ _ _); [|done]. go_inv E3. by injection E3 as <- <- <-.
  - go_inv E3. by injection E3 as <- <- <-.
Qed.

Lemma trusteeEncode_keeps e c e' r :
  trusteeEncode (at_round e r) = Ret (c, e') →
  e' = (at_round e r)
    <| sharedPRNGs := prngs_at (DCNetPayloadSize e) (S (Z.to_nat r)) (sharedKeys e) |>.
Proof.
  unfold trusteeEncode. intros H. go_inv H.
  cbn [DCNetPayloadSize sharedPRNGs at_round set_field] in H. rewrite readPads_at in H.
  go_inv H. go_inv H. by injection H as <- <-.
Qed.

Lemma EncodeForRound_keeps e r owner payload cell plain e' :
  synced e → 0 ≤ r < MaxInt32 →
  EncodeForRound e r owner payload = Ret (cell, plain, e') →
  keeps e e' ∧ currentRound e' = r + 1.
Proof.
  intros He Hr H.
  destruct (Z.lt_ge_cases (DCNetPayloadSize e) (len (default [] payload))) as [Hlt|Hge].
  { unfold EncodeForRound in H. by rewrite (proj2 (Z.ltb_lt _ _) Hlt) in H. }
  rewrite EncodeForRound_unfold in H by (done || lia).
  assert (i32 (r + 1) = r + 1) as Hi by (apply i32_small; unfold MaxInt32 in Hr; lia).
  assert (Z.to_nat (r + 1) = S (Z.to_nat r)) as Hn by lia.
  destruct He as [Hk Hs Hc Hp].
  destruct (bool_decide _); go_inv H as [[c p] e1]; [go_inv E as [[? ?] ?] | go_inv E as [? ?]];
    injection E as <- <- <-; injection H as <- <- <-.
  - apply clientEncode_keeps in E0 as [-> Hh]. cbn. rewrite Hi. unfold keeps. cbn.
    rewrite <- Hn. repeat split; cbn; done || lia.
  - apply trusteeEncode_keeps in E0 as ->. cbn. rewrite Hi. unfold keeps. cbn.
    rewrite <- Hn. repeat split; cbn; done || lia.
Qed.
End entities.

(** ** Sessions *)

Section session.
Context {CS : CryptoSuite} {CL : CryptoLaws CS}.

Record session := mkSession {
  ses_clients : list (DCNetEntity CS);
  ses_trustees : list (DCNetEntity CS);
  ses_relay : DCNetEntity CS
}.

(** One round: its number, the owner of the slot and its payload, and the
    data the relay broadcasts afterwards. *)
Record roundInput := mkRoundInput {
  ri_round : Z;
  ri_owner : nat;
  ri_payload : bytes;
  ri_downstream : bytes
}.

Definition ri_owns (x : roundInput) (i : nat) : bool := bool_decide (i = ri_owner x).
Definition ri_sends (x : roundInput) (i : nat) : option bytes :=
  if ri_owns x i then Some (ri_payload x) else None.

(** Every client and trustee encodes, the relay decodes, and the downstream
    data enters the history of the clients and of the relay. *)
Definition sessionRound (s : session) (x : roundInput) : go (bytes * session) :=
  cs ← mapM (λ '(i, e), EncodeForRound e (ri_round x) (ri_owns x i) (ri_sends x i))
         (imap pair (ses_clients s));
  ts ← mapM (λ e, TrusteeEncodeForRound e (ri_round x)) (ses_trustees s);
  '(plain, _) ← decodeRound (ses_relay s) (ri_round x) false ((λ c, c.1.1) <$> cs) (fst <$> ts);
  clients ← mapM (λ e, UpdateReceivedMessageHistory e (ri_downstream x)) (snd <$> cs);
  relay ← UpdateReceivedMessageHistory (ses_relay s) (ri_downstream x);
  Ret (plain, mkSession clients (snd <$> ts) relay).

Fixpoint runSession (s : session) (xs : list roundInput) : go (list bytes) :=
  match xs with
  | [] => Ret []
  | x :: xs => '(plain, s) ← sessionRound s x; rest ← runSession s xs; Ret (plain :: rest)
  end.

Context (N : Z) (n m : nat) (K : nat → nat → Point) (equiv : bool).

Definition history_is (h : Scalar) (e : DCNetEntity CS) : Prop :=
  EquivocationProtectionEnabled e = equiv ∧
  (equiv = true → (history <$> equivocationProtection e) = Some h).

(** The invariant of a session. *)
Record session_inv (s : session) : Prop := {
  inv_size : 0 < N;
  inv_history : ∃ h, history_is h (ses_relay s) ∧
    ∀ i e, ses_clients s !! i = Some e → client_of N m K i e ∧ history_is h e;
  inv_nclients : length (ses_clients s) = n;
  inv_ntrustees : length (ses_trustees s) = m;
  inv_trustees : ∀ j e, ses_trustees s !! j = Some e →
    trustee_of N n K j e ∧ ∃ h, history_is h e;
  inv_relay : DCNetPayloadSize (ses_relay s) = N
}.

(** What a round input must satisfy: the AES-GCM tag needs 16 bytes. *)
Definition cell_size : nat := if equiv then (Z.to_nat N - 16)%nat else Z.to_nat N.
Definition input_ok (x : roundInput) : Prop :=
  0 ≤ ri_round x < MaxInt32 ∧ (ri_owner x < n)%nat ∧
  len (ri_payload x) + (if equiv then 16 else 0) ≤ N.

Definition entity_default : DCNetEntity CS :=
  mkDCNetEntity 0 DCNET_RELAY false 0 [] [] 0 None None 0.
Abbreviation nthE l := (λ i, nth i l entity_default).

Lemma nthE_lookup (l : list (DCNetEntity CS)) i :
  (i < length l)%nat → l !! i = Some (nthE l i).
Proof. intros Hi. destruct (lookup_lt_is_Some_2 l i Hi) as [x Hx]. rewrite Hx. f_equal. symmetry. by apply nth_lookup_Some. Qed.

Lemma history_is_Some h e :
  history_is h e → equiv = true → ∃ eq, equivocationProtection e = Some eq ∧ history eq = h.
Proof.
  intros [_ H] Heq. specialize (H Heq). destruct (equivocationProtection e) as [eq|]; [|done].
  exists eq. by injection H.
Qed.

Lemma session_inv_setup s x :
  session_inv s → input_ok x →
  round_setup N n m K (ri_round x) (nthE (ses_clients s)) (nthE (ses_trustees s))
    (ses_relay s) (ri_sends x) equiv.
Proof.
  intros [HN (h & Hr & Hc) Hnc Hnt Ht HR] (Hround & Ho & Hp). split; try done.
  - intros i Hi. destruct (Hc i (nthE (ses_clients s) i)) as [? [? _]]; [|done].
    apply nthE_lookup. lia.
  - intros j Hj. destruct (Ht j (nthE (ses_trustees s) j)) as [? [? [? _]]]; [|done].
    apply nthE_lookup. lia.
  - split; [done | apply Hr].
  - intros i _. unfold ri_sends. pose proof (len_nonneg (ri_payload x)).
    destruct (ri_owns x i); cbn [default]; simpl; [destruct equiv; lia | unfold len; simpl; lia].
Qed.

Lemma padPayload_None k : padPayload k None = zeros k.
Proof. unfold padPayload. simpl. by rewrite Nat.sub_0_r. Qed.

(** One round decodes to the payload of its owner. *)
Lemma session_decodes s x :
  session_inv s → input_ok x →
  ∃ c, dcnetRound (ri_round x) (ses_relay s) false
      (theClients n (nthE (ses_clients s)) (ri_owns x) (ri_sends x))
      (theTrustees m (nthE (ses_trustees s)))
    = Ret (padPayload cell_size (Some (ri_payload x)), c).
Proof.
  intros Hs Hx. pose proof (session_inv_setup _ _ Hs Hx) as HS.
  destruct Hs as [HN (h & Hr & Hc) Hnc Hnt Ht HR]. destruct Hx as (Hround & Ho & Hp).
  assert (∀ i, i ≠ ri_owner x → ri_sends x i = None) as Hidle.
  { intros i Hi. unfold ri_sends, ri_owns. by rewrite bool_decide_eq_false_2. }
  assert (ri_sends x (ri_owner x) = Some (ri_payload x)) as Hsend.
  { unfold ri_sends, ri_owns. by rewrite bool_decide_eq_true_2. }
  unfold cell_size. destruct equiv eqn:Heq.
  - destruct (history_is_Some _ _ Hr Heq) as (eqr & HReq & Hh).
    destruct (dcnetRound_equiv N n m K (ri_round x) (nthE (ses_clients s)) (nthE (ses_trustees s))
      (ses_relay s) (ri_owns x) (ri_sends x) (ri_owner x) (ri_payload x) (λ _, h) eqr)
      as (c & _ & E); [done| |done|done|by exists c].
    split; [done| | | | |].
    + intros i _. unfold ri_owns. by rewrite bool_decide_eq_true.
    + done.
    + intros i _ Hi. by rewrite Hidle, padPayload_None.
    + intros i Hi. destruct (Hc i (nthE (ses_clients s) i)) as [_ Hhi]; [apply nthE_lookup; lia|].
      by apply (history_is_Some _ _ Hhi).
    + intros j Hj. destruct (Ht j (nthE (ses_trustees s) j)) as [_ [h' Hhj]]; [apply nthE_lookup; lia|].
      by destruct (history_is_Some _ _ Hhj Heq) as (? & -> & _).
  - rewrite (dcnetRound_plain N n m K) by done. eexists. do 2 f_equal.
    rewrite (xor_sum_single _ _ _ (ri_owner x)); [by rewrite Hsend | apply NoDup_seq | | |].
    + apply elem_of_seq. lia.
    + rewrite Hsend. apply length_padPayload. simpl. unfold len in Hp. lia.
    + intros i _ Hi. by rewrite Hidle, padPayload_None.
Qed.

Lemma imap_pair_nthE l :
  imap pair l = (λ i, (i, nthE l i)) <$> seq 0 (length l).
Proof.
  apply list_eq. intros i. rewrite list_lookup_imap, list_lookup_fmap.
  destruct (decide (i < length l)%nat) as [Hi|Hi].
  - by rewrite lookup_seq_lt, nthE_lookup.
  - rewrite lookup_seq_ge, lookup_ge_None_2 by lia. done.
Qed.

(** The history after [data]: a function of the history and the data length. *)
Definition next_history (h : Scalar) (data : bytes) : Scalar :=
  Scalar_SetBytes (Sum256 (zeros (length (default [] (Scalar_MarshalBinary h)) + length data))).

Lemma UpdateReceivedMessageHistory_ok h e data :
  history_is h e →
  ∃ e', UpdateReceivedMessageHistory e data = Ret e' ∧ history_is (next_history h data) e'
  ∧ e' = e <| equivocationProtection := equivocationProtection e' |>.
Proof.
  intros Hh. pose proof (history_is_Some h e Hh) as HS. destruct Hh as [He _].
  unfold UpdateReceivedMessageHistory. rewrite He. destruct equiv eqn:Heq.
  - destruct (HS eq_refl) as (eq & -> & Hq). unfold UpdateHistory.
    destruct (scalar_marshal_ret "Could not unmarshall bytes" (history eq)) as (bs & E & Eb & _).
    rewrite E. eexists; split; [reflexivity|]. unfold history_is. cbn.
    split; [|done]. split; [congruence|]. intros _. unfold next_history. by rewrite <- Hq, Eb.
  - eexists; split; [reflexivity|]. split; [split; congruence | by destruct e].
Qed.

Lemma client_of_history i e v :
  client_of N m K i e → client_of N m K i (e <| equivocationProtection := v |>).
Proof. intros ([] & ? & ? & ?). by repeat split. Qed.

Lemma keeps_client i e e' h :
  client_of N m K i e → history_is h e → keeps e e' → client_of N m K i e' ∧ history_is h e'.
Proof.
  intros (Hs & HE & HN & HK) [H1 H2] (Hs' & HE' & HN' & HK' & Hq & Hh).
  split; [split; [done | split; [|split]; congruence] | split; [congruence | by rewrite Hh]].
Qed.

Lemma keeps_trustee j e e' h :
  trustee_of N n K j e → history_is h e → keeps e e' → trustee_of N n K j e' ∧ history_is h e'.
Proof.
  intros (Hs & HE & HN & HK) [H1 H2] (Hs' & HE' & HN' & HK' & Hq & Hh).
  split; [split; [done | split; [|split]; congruence] | split; [congruence | by rewrite Hh]].
Qed.

(** The encoding half of a round, with the states the entities end in. *)
Lemma session_encodes s x :
  session_inv s → input_ok x →
  ∃ cs ts c,
    mapM (λ '(i, e), EncodeForRound e (ri_round x) (ri_owns x i) (ri_sends x i))
      (imap pair (ses_clients s)) = Ret cs
  ∧ mapM (λ e, TrusteeEncodeForRound e (ri_round x)) (ses_trustees s) = Ret ts
  ∧ decodeRound (ses_relay s) (ri_round x) false ((λ c, c.1.1) <$> cs) (fst <$> ts)
    = Ret (padPayload cell_size (Some (ri_payload x)), c).
Proof.
  intros Hs Hx. destruct (session_decodes s x Hs Hx) as (c & E).
  pose proof (inv_nclients _ Hs) as Hnc. pose proof (inv_ntrustees _ Hs) as Hnt.
  unfold dcnetRound in E. go_inv E. go_inv E.
  unfold theClients in E0. rewrite mapM_go_fmap in E0.
  rewrite (mapM_go_ext _ (λ i, y ← EncodeForRound (nthE (ses_clients s) i) (ri_round x)
    (ri_owns x i) (ri_sends x i); Ret y.1.1)) in E0
    by (intros; by destruct (EncodeForRound _ _ _ _) as [[[??]?]|]).
  apply mapM_go_proj in E0 as (cs & Ecs & ->).
  rewrite (mapM_go_ext _ (λ e, y ← TrusteeEncodeForRound e (ri_round x); Ret y.1)) in E1
    by (intros; by destruct (TrusteeEncodeForRound _ _) as [[??]|]).
  apply mapM_go_proj in E1 as (ts & Ets & ->).
  exists cs, ts, c. split_and!; [|..|done].
  - rewrite imap_pair_nthE, mapM_go_fmap, Hnc. done.
  - unfold theTrustees in Ets. rewrite (fmap_nth_seq entity_default (ses_trustees s)) at 1.
    by rewrite Hnt.
Qed.

(** A round succeeds, decodes the owner's payload and keeps the invariant. *)
Lemma sessionRound_ok s x :
  session_inv s → input_ok x →
  ∃ s', sessionRound s x = Ret (padPayload cell_size (Some (ri_payload x)), s') ∧ session_inv s'.
Proof.
  intros Hs Hx. destruct (session_encodes s x Hs Hx) as (cs & ts & c & Ecs & Ets & Ed).
  destruct Hs as [HN (h & Hr & Hc) Hnc Hnt Ht HR]. destruct Hx as (Hround & Ho & Hp).
  unfold sessionRound. rewrite Ecs. cbn [mbind go_bind]. rewrite Ets. cbn [mbind go_bind].
  rewrite Ed. cbn [mbind go_bind].
  apply mapM_go_Forall2 in Ecs, Ets.
  assert (length cs = n) as Hlc by (apply Forall2_length in Ecs; by rewrite length_imap in Ecs; lia).
  assert (length ts = m) as Hlt by (apply Forall2_length in Ets; lia).
  assert (∀ i y, cs !! i = Some y → client_of N m K i y.2 ∧ history_is h y.2) as Hcs.
  { intros i y Hy. destruct (Forall2_lookup_r _ _ _ _ _ Ecs Hy) as ([i' e] & Hi & Ee).
    rewrite list_lookup_imap in Hi. destruct (ses_clients s !! i) as [e0|] eqn:He; [|done].
    injection Hi as <- <-. destruct (Hc i e0 He) as [Hcl Hh]. destruct y as [[cell plain] e'].
    apply EncodeForRound_keeps in Ee as [Hk _]; [|apply Hcl|done]. by apply (keeps_client i e0). }
  destruct (mapM_go_exists (λ e, UpdateReceivedMessageHistory e (ri_downstream x)) id
    (λ e e', history_is (next_history h (ri_downstream x)) e'
       ∧ e' = e <| equivocationProtection := equivocationProtection e' |>) (snd <$> cs))
    as (clients & Ecl & HF).
  { intros e He. apply list_elem_of_lookup in He as [i He].
    rewrite list_lookup_fmap in He. destruct (cs !! i) as [y|] eqn:Hy; [|done].
    injection He as <-. destruct (Hcs i y Hy) as [_ Hh].
    destruct (UpdateReceivedMessageHistory_ok h y.2 (ri_downstream x) Hh) as (e' & ? & ? & ?). eauto. }
  rewrite list_fmap_id in Ecl. rewrite Ecl. cbn [mbind go_bind].
  destruct (UpdateReceivedMessageHistory_ok h _ (ri_downstream x) Hr) as (relay & Er & Hhr & Hre).
  rewrite Er. cbn [mbind go_bind]. eexists; split; [reflexivity|].
  split; cbn; [done| | | | |].
  - exists (next_history h (ri_downstream x)). split; [done|]. intros i e He.
    destruct (Forall2_lookup_r _ _ _ _ _ HF He) as (e0 & He0 & Hh & Hee).
    rewrite list_lookup_fmap in He0. destruct (cs !! i) as [y|] eqn:Hy; [|done].
    injection He0 as <-. split; [|done]. rewrite Hee. by apply client_of_history, (Hcs i y).
  - apply Forall2_length in HF. rewrite length_fmap in HF. lia.
  - by rewrite length_fmap.
  - intros j e He. rewrite list_lookup_fmap in He. destruct (ts !! j) as [y|] eqn:Hy; [|done].
    injection He as <-. destruct (Forall2_lookup_r _ _ _ _ _ Ets Hy) as (e0 & He0 & Ee).
    destruct (Ht j e0 He0) as [Htr [h' Hh]]. unfold TrusteeEncodeForRound in Ee.
    go_inv Ee as [[cell plain] e']. injection Ee as <-.
    apply EncodeForRound_keeps in E as [Hk _]; [|apply Htr|done].
    destruct (keeps_trustee j e0 e' h' Htr Hh Hk). eauto.
  - by rewrite Hre.
Qed.

Lemma runSession_ok s xs :
  session_inv s → Forall input_ok xs →
  runSession s xs = Ret ((λ x, padPayload cell_size (Some (ri_payload x))) <$> xs).
Proof.
  intros Hs Hxs. revert s Hs. induction Hxs as [|x xs Hx _ IH]; intros s Hs; [done|].
  cbn [runSession]. destruct (sessionRound_ok s x Hs Hx) as (s' & -> & Hs').
  cbn [mbind go_bind]. by rewrite IH.
Qed.
End session.

Arguments session CS : clear implicits.

(** ** Deployments *)

Section deployment.
Context {CS : CryptoSuite} {CL : CryptoLaws CS}.
Context (N : Z) (equiv : bool) (a t : list Scalar) (rnd : nat → bytes).

(** The secret a party with private key [sk] shares with the public key of
    [sk'], as the client and the trustee compute it from the announced key. *)
Definition shared_secret (sk sk' : Scalar) : option Point :=
  Some (Point_Mul sk (Point_Mul sk' Point_Base)).

Lemma shared_secret_comm sk sk' : shared_secret sk sk' = shared_secret sk' sk.
Proof. unfold shared_secret. by rewrite !Point_Mul_Mul, Scalar_Mul_comm. Qed.

(** Clients with private keys [a], trustees with private keys [t], a relay. *)
Definition deploy : go (session CS) :=
  clients ← mapM (λ '(i, sk), NewDCNetEntity (rnd i) (rnd i) (Z.of_nat i) DCNET_CLIENT N equiv
                                (shared_secret sk <$> t)) (imap pair a);
  trustees ← mapM (λ '(j, sk), NewDCNetEntity (rnd j) (rnd j) (Z.of_nat j) DCNET_TRUSTEE N equiv
                                 (shared_secret sk <$> a)) (imap pair t);
  relay ← NewDCNetEntity (rnd 0%nat) (rnd 0%nat) 0 DCNET_RELAY N equiv [];
  Ret (mkSession clients trustees relay).

Definition secretK (i j : nat) : Point :=
  Point_Mul (nth i a Scalar_Zero) (Point_Mul (nth j t Scalar_Zero) Point_Base).

Lemma fmap_shared_secret (sk : Scalar) (l : list Scalar) :
  shared_secret sk <$> l
  = (λ i, Some (Point_Mul sk (Point_Mul (nth i l Scalar_Zero) Point_Base))) <$> seq 0 (length l).
Proof. rewrite (fmap_nth_seq Scalar_Zero l) at 1. by rewrite <- list_fmap_compose. Qed.

Lemma history_is_new (e : DCNetEntity CS) rnd1 :
  EquivocationProtectionEnabled e = equiv →
  (equiv = true → equivocationProtection e = Some (NewEquivocation rnd1)) →
  history_is equiv Scalar_One e.
Proof. intros H1 H2. split; [done|]. intros H. by rewrite (H2 H). Qed.

Lemma deploy_entities kind (sks others : list Scalar) :
  kind ≠ DCNET_RELAY → 0 < N →
  ∃ es : list (DCNetEntity CS),
    mapM (λ '(i, sk), NewDCNetEntity (rnd i) (rnd i) (Z.of_nat i) kind N equiv
                        (shared_secret sk <$> others)) (imap pair sks) = Ret es
  ∧ length es = length sks
  ∧ ∀ i e, es !! i = Some e → synced e ∧ Entity e = kind ∧ DCNetPayloadSize e = N
      ∧ sharedKeys e = (shared_secret (nth i sks Scalar_Zero) <$> others)
      ∧ history_is equiv Scalar_One e.
Proof.
  intros Hk HN.
  destruct (mapM_go_exists (λ '(i, sk), NewDCNetEntity (rnd i) (rnd i) (Z.of_nat i) kind N equiv
      (shared_secret sk <$> others)) id (λ '(i, sk) e, synced e ∧ Entity e = kind
      ∧ DCNetPayloadSize e = N ∧ sharedKeys e = (shared_secret sk <$> others)
      ∧ history_is equiv Scalar_One e) (imap pair sks)) as (es & Ees & HF).
  { intros [i sk] _. destruct (NewDCNetEntity_synced (rnd i) (rnd i) (Z.of_nat i) kind N equiv
      (shared_secret sk <$> others)) as (e & E & Hs & HE & HS & HK & _ & Hq & Heq); [done..| |].
    { apply Forall_fmap, Forall_true. by eexists. }
    exists e. split; [done|]. split_and!; try done. by eapply history_is_new. }
  exists es. rewrite list_fmap_id in Ees. split; [done|].
  pose proof (Forall2_length _ _ _ HF) as Hl. rewrite length_imap in Hl. split; [done|].
  intros i e He. destruct (Forall2_lookup_r _ _ _ _ _ HF He) as ([i' sk] & Hi & H).
  rewrite list_lookup_imap in Hi. destruct (sks !! i) as [sk'|] eqn:Hsk; [|done].
  injection Hi as <- <-. by rewrite (nth_lookup_Some _ _ _ _ Hsk).
Qed.

Lemma deploy_ok :
  0 < N → ∃ s, deploy = Ret s ∧ session_inv N (length a) (length t) secretK equiv s.
Proof.
  intros HN. unfold deploy.
  destruct (deploy_entities DCNET_CLIENT a t) as (cs & Ecs & Hlc & Hcs); [done..|].
  destruct (deploy_entities DCNET_TRUSTEE t a) as (ts & Ets & Hlt & Hts); [done..|].
  destruct (NewDCNetEntity_relay (rnd 0%nat) (rnd 0%nat) 0 N equiv [])
    as (relay & Er & _ & HS & _ & Hq & Heq); [done|].
  rewrite Ecs. cbn [mbind go_bind]. rewrite Ets. cbn [mbind go_bind]. rewrite Er.
  eexists; split; [reflexivity|]. split; cbn; try done.
  - exists Scalar_One. split; [by eapply history_is_new|]. intros i e He.
    destruct (Hcs i e He) as (? & ? & ? & HK & ?). split; [|done]. repeat split; try apply H; try done.
    by rewrite HK, fmap_shared_secret.
  - intros j e He. destruct (Hts j e He) as (? & ? & ? & HK & ?). split; [|by eexists].
    repeat split; try apply H; try done. rewrite HK, (fmap_nth_seq Scalar_Zero a) at 1.
    rewrite <- list_fmap_compose. apply list_fmap_ext. intros i x _. apply shared_secret_comm.
Qed.

(** C1: A deployment whose entities derive their pads from Diffie-Hellman
    secrets can be created, and in any sequence of rounds (in any order, with
    repetitions) the relay decodes, for every round, exactly the zero-padded
    payload of the slot owner, with and without equivocation protection. *)
Theorem session_correct xs :
  0 < N → Forall (input_ok N (length a) equiv) xs →
  ∃ s, deploy = Ret s
  ∧ runSession s xs
    = Ret ((λ x, ri_payload x ++ zeros (cell_size N equiv - length (ri_payload x))) <$> xs).
Proof.
  intros HN Hxs. destruct (deploy_ok HN) as (s & E & Hs). exists s. split; [done|].
  by rewrite (runSession_ok _ _ _ _ _ s xs Hs Hxs).
Qed.
End deployment.

Lemma session_correct_witness :
  ∃ s, @deploy ToySuite.suite 24 true [ToySuite.fp_of 3; ToySuite.fp_of 77] [ToySuite.fp_of 5]
         (λ i, [Z.of_nat i]) = Ret s
  ∧ @runSession ToySuite.suite s
      [mkRoundInput 0 1 [7; 8] [1]; mkRoundInput 4 0 [9] [2; 2]; mkRoundInput 2 1 [3] []]
    = Ret [[7; 8; 0; 0; 0; 0; 0; 0]; [9; 0; 0; 0; 0; 0; 0; 0]; [3; 0; 0; 0; 0; 0; 0; 0]].
Proof.
  apply (@session_correct ToySuite.suite ToySuite.laws 24 true
    [ToySuite.fp_of 3; ToySuite.fp_of 77] [ToySuite.fp_of 5] (λ i, [Z.of_nat i])
    [mkRoundInput 0 1 [7; 8] [1]; mkRoundInput 4 0 [9] [2; 2]; mkRoundInput 2 1 [3] []]); [lia|].
  repeat constructor; vm_compute; done.
Defined.

(** ** Order of rounds, traces, errors *)

Section single.
Context {CS : CryptoSuite} {CL : CryptoLaws CS}.
Implicit Types (e : DCNetEntity CS).

Lemma EncodeForRound_at_round e r r' owner payload :
  synced e → 0 ≤ r < MaxInt32 → 0 ≤ r' →
  EncodeForRound (at_round e r') r owner payload = EncodeForRound e r owner payload.
Proof.
  intros He Hr Hr'.
  destruct (Z.lt_ge_cases (DCNetPayloadSize e) (len (default [] payload))) as [Hlt|Hge].
  - unfold EncodeForRound. cbn [DCNetPayloadSize at_round set_field].
    by rewrite (proj2 (Z.ltb_lt _ _) Hlt).
  - rewrite !EncodeForRound_unfold by (done || lia || by apply synced_at_round).
    by destruct e.
Qed.

(** C28: Whatever round an entity stands at, ahead of or behind [r], encoding
    for round [r] returns the same cell and ends in the same state, with the
    pads again in step with the round counter. *)
Theorem EncodeForRound_any_order e r r' owner payload :
  synced e → 0 ≤ r < MaxInt32 → 0 ≤ r' →
  EncodeForRound (at_round e r') r owner payload = EncodeForRound e r owner payload
  ∧ (∀ cell plain e', EncodeForRound e r owner payload = Ret (cell, plain, e') →
       synced e' ∧ currentRound e' = r + 1).
Proof.
  intros He Hr Hr'. split; [by apply EncodeForRound_at_round|].
  intros cell plain e' E. by apply EncodeForRound_keeps in E as [[? _] ?].
Qed.

Lemma GetBitsOfRound_run e r bitPosition :
  synced e → 0 ≤ r < currentRound e →
  GetBitsOfRound e r bitPosition =
    (bits ← mapM (λ pad : bytes,
       b ← index pad (if EquivocationProtectionEnabled e then Z.quot bitPosition 8
                      else Z.quot bitPosition 8 + 1);
       Ret (if Z.land b (bitMask bitPosition) =? 0 then 0 else 1))
      (pad_at (DCNetPayloadSize e) (Z.to_nat r) <$> sharedKeys e);
     Ret (Some (bits, pad_at (DCNetPayloadSize e) (Z.to_nat r) <$> sharedKeys e),
          (at_round e r) <| sharedPRNGs :=
             prngs_at (DCNetPayloadSize e) (S (Z.to_nat r)) (sharedKeys e) |>)).
Proof.
  intros He Hr. unfold GetBitsOfRound. destruct (Z.leb_spec (currentRound e) r); [lia|].
  rewrite reseedToRound_at by (done || lia). cbn [mbind go_bind].
  cbn [DCNetPayloadSize sharedPRNGs EquivocationProtectionEnabled at_round set_field].
  by rewrite readPads_at.
Qed.

Lemma bitMask_spec pos :
  0 ≤ pos → bitMask pos = if pos mod 8 =? 0 then 0 else 2 ^ (7 - pos mod 8).
Proof.
  intros Hp. unfold bitMask. rewrite (Z.rem_mod_nonneg pos 8) by lia.
  pose proof (Z.mod_pos_bound pos 8 eq_refl) as Hb.
  generalize dependent (pos mod 8). intros k Hk.
  assert (k = 0 ∨ k = 1 ∨ k = 2 ∨ k = 3 ∨ k = 4 ∨ k = 5 ∨ k = 6 ∨ k = 7) as H by lia.
  destruct H as [->|[->|[->|[->|[->|[->|[->| ->]]]]]]]; reflexivity.
Qed.

Lemma land_pow2_bit b k :
  0 ≤ k → (if Z.land b (2 ^ k) =? 0 then 0 else 1) = Z.b2z (Z.testbit b k).
Proof.
  intros Hk. rewrite land_pow2 by done.
  destruct (Z.testbit b k); [|done]. destruct (Z.eqb_spec (2 ^ k) 0); [|done].
  pose proof (Z.pow_pos_nonneg 2 k). lia.
Qed.

(** The byte of each pad that a trace of [pos] reads. *)
Definition traced_byte e (r pos : Z) (key : option Point) : Z :=
  default 0 (pad_at (DCNetPayloadSize e) (Z.to_nat r) key !!
    Z.to_nat (if EquivocationProtectionEnabled e then Z.quot pos 8 else Z.quot pos 8 + 1)).

(** A trace of round [r] (r before the current round, position inside the
    cell) reveals, for every shared secret, the bit [7 - pos mod 8] of the
    traced pad byte of that round; when [pos] is a multiple of 8 the mask is
    empty and the revealed bit is 0 whatever the pad holds. *)
Theorem GetBitsOfRound_bits e r pos :
  synced e → 0 ≤ r < currentRound e → 0 ≤ pos → Z.quot pos 8 + 1 < DCNetPayloadSize e →
  ∃ e', GetBitsOfRound e r pos = Ret (Some (
    (λ key, if pos mod 8 =? 0 then 0
            else Z.b2z (Z.testbit (traced_byte e r pos key) (7 - pos mod 8))) <$> sharedKeys e,
    pad_at (DCNetPayloadSize e) (Z.to_nat r) <$> sharedKeys e), e').
Proof.
  intros He Hr Hp Hsz. rewrite GetBitsOfRound_run by done. rewrite mapM_go_fmap.
  rewrite (mapM_go_ret _ (λ key, if pos mod 8 =? 0 then 0
    else Z.b2z (Z.testbit (traced_byte e r pos key) (7 - pos mod 8)))); [by eexists|].
  intros key _. unfold traced_byte.
  set (i := if EquivocationProtectionEnabled e then _ else _).
  assert (0 ≤ Z.quot pos 8) by (apply Z.quot_pos; lia).
  assert (0 ≤ i < DCNetPayloadSize e) as Hi by (unfold i; case_match; lia).
  destruct (lookup_lt_is_Some_2 (pad_at (DCNetPayloadSize e) (Z.to_nat r) key) (Z.to_nat i)) as [b Hb].
  { rewrite length_pad_at. lia. }
  rewrite (index_lookup _ _ b) by (done || lia). cbn [mbind go_bind]. rewrite Hb. simpl default.
  rewrite bitMask_spec by done. destruct (Z.eqb_spec (pos mod 8) 0); [by rewrite Z.land_0_r|].
  pose proof (Z.mod_pos_bound pos 8 eq_refl). by rewrite land_pow2_bit by lia.
Qed.

(** After a trace of round [r] the PRNGs are one block ahead of the round
    counter: the cell a trustee then encodes for a round [r' >= r] is made of
    the pads of round [r' + 1]. *)
Theorem GetBitsOfRound_desync e r r' pos bits pads e' :
  synced e → Entity e = DCNET_TRUSTEE → EquivocationProtectionEnabled e = false →
  0 ≤ r < currentRound e → r ≤ r' < MaxInt32 →
  GetBitsOfRound e r pos = Ret (Some (bits, pads), e') →
  ∃ e'', TrusteeEncodeForRound e' r' = Ret (ToBytes (mkDCNetCipher None
    (xor_sum (Z.to_nat (DCNetPayloadSize e))
       (pad_at (DCNetPayloadSize e) (Z.to_nat (r' + 1))) (sharedKeys e))), e'').
Proof.
  intros He HE Heq Hr Hr' HG. rewrite GetBitsOfRound_run in HG by done. go_inv HG.
  injection HG as _ _ <-. pose proof (synced_size _ He).
  unfold TrusteeEncodeForRound, EncodeForRound.
  cbn [DCNetPayloadSize currentRound at_round set_field].
  rewrite (proj2 (Z.ltb_ge (DCNetPayloadSize e) _)) by (unfold len; simpl; lia).
  destruct (Z.ltb_spec r' r); [lia|]. cbn [mbind go_bind].
  assert (∀ d : DCNetEntity CS, d = (at_round e r) <| sharedPRNGs :=
      prngs_at (DCNetPayloadSize e) (S (Z.to_nat r)) (sharedKeys e) |> →
    skipToRound d r' = (at_round e r') <| sharedPRNGs :=
      prngs_at (DCNetPayloadSize e) (Z.to_nat (r' + 1)) (sharedKeys e) |>) as Hskip.
  { intros d ->. unfold skipToRound. cbn. destruct (Z.ltb_spec r r').
    - rewrite iter_consumePRNGs.
      by replace (Z.to_nat (r' - r) + S (Z.to_nat r))%nat with (Z.to_nat (r' + 1)) by lia.
    - assert (r' = r) as -> by lia. by replace (S (Z.to_nat r)) with (Z.to_nat (r + 1)) by lia. }
  rewrite Hskip by done. cbn [Entity at_round set_field].
  rewrite bool_decide_eq_false_2 by congruence. unfold trusteeEncode.
  cbn [DCNetPayloadSize sharedPRNGs EquivocationProtectionEnabled at_round set_field].
  rewrite make_bytes_ret by lia. cbn [mbind go_bind]. rewrite readPads_at.
  rewrite xorPads_at by apply length_zeros. cbn [mbind go_bind].
  rewrite Heq. cbn [mbind go_bind]. rewrite xor_bytes_zeros_l; [by eexists|].
  apply length_xor_sum. intros. apply length_pad_at.
Qed.

(** The history that feeds the equivocation protection does not depend on
    the downstream data: two parties that were sent different data of equal
    length, even with different histories before, hold the same history. *)
Theorem history_ignores_data e1 e2 data1 data2 e1' e2' :
  length data1 = length data2 →
  EquivocationProtectionEnabled e1 = true → EquivocationProtectionEnabled e2 = true →
  UpdateReceivedMessageHistory e1 data1 = Ret e1' →
  UpdateReceivedMessageHistory e2 data2 = Ret e2' →
  (history <$> equivocationProtection e1') = (history <$> equivocationProtection e2').
Proof.
  intros Hl H1 H2. unfold UpdateReceivedMessageHistory. rewrite H1, H2.
  destruct (equivocationProtection e1) as [q1|]; [|done].
  destruct (equivocationProtection e2) as [q2|]; [|done].
  unfold UpdateHistory.
  destruct (scalar_marshal_ret "Could not unmarshall bytes" (history q1)) as (b1 & -> & _ & _ & L1).
  destruct (scalar_marshal_ret "Could not unmarshall bytes" (history q2)) as (b2 & -> & _ & _ & L2).
  cbn [mbind go_bind]. intros [= <-] [= <-]. cbn. by rewrite L1, L2, Hl.
Qed.

Lemma EncodeForRound_longer e r owner p :
  DCNetPayloadSize e < len p →
  EncodeForRound e r owner (Some p) = Crash (Panicked "DCNet: cannot encode Payload of length").
Proof.
  intros Hlt. unfold EncodeForRound. simpl from_option. unfold id.
  by rewrite (proj2 (Z.ltb_lt _ _) Hlt).
Qed.

Lemma EncodeForRound_no_tag_room e r p :
  synced e → 0 ≤ r → Entity e = DCNET_CLIENT → EquivocationProtectionEnabled e = true →
  DCNetPayloadSize e - 16 < len p ≤ DCNetPayloadSize e →
  EncodeForRound e r true (Some p) = Crash RuntimeError.
Proof.
  intros He Hr HE Heq Hl. rewrite EncodeForRound_unfold by (done || simpl; lia).
  rewrite bool_decide_eq_true_2 by done. unfold clientEncode.
  cbn [DCNetPayloadSize EquivocationProtectionEnabled at_round set_field].
  rewrite Heq. cbn [andb]. unfold make_bytes.
  cbn match. destruct (Z.ltb_spec (DCNetPayloadSize e - 16) 0); [done|]. cbn [mbind go_bind].
  rewrite slice_crash by (rewrite len_zeros; lia). done.
Qed.

(** Payloads that do not fit stop the process: longer than the cell, the
    explicit panic; longer than the cell less the 16-byte authentication tag
    when the owner encrypts, an out-of-range slice. *)
Theorem EncodeForRound_too_long e r p :
  synced e → 0 ≤ r →
  (DCNetPayloadSize e < len p → ∀ owner,
     EncodeForRound e r owner (Some p) = Crash (Panicked "DCNet: cannot encode Payload of length"))
  ∧ (Entity e = DCNET_CLIENT → EquivocationProtectionEnabled e = true →
     DCNetPayloadSize e - 16 < len p ≤ DCNetPayloadSize e →
     EncodeForRound e r true (Some p) = Crash RuntimeError).
Proof.
  intros He Hr. split; [intros Hlt owner; by apply EncodeForRound_longer|].
  by apply EncodeForRound_no_tag_room.
Qed.
End single.

(** ** Concrete entities *)

Module Demo.
#[local] Existing Instances ToySuite.suite ToySuite.laws.

Definition key : option Point := shared_secret (ToySuite.fp_of 3) (ToySuite.fp_of 5).

(** An entity with the given shared secrets and cells of [size] bytes, standing
    at round 0. *)
Definition entityK (kind : DCNET_ENTITY) (size : Z) (equiv : bool) (keys : list (option Point))
    : DCNetEntity ToySuite.suite :=
  mkDCNetEntity 0 kind equiv size keys (xof_of <$> keys) 0 None
    (if equiv then Some (NewEquivocation [1]) else None) (if equiv then 32 else 0).
Definition entity kind size equiv := entityK kind size equiv [key].

Lemma entityK_synced kind size equiv keys :
  0 < size → Forall is_Some keys → synced (entityK kind size equiv keys).
Proof. intros Hs Hk. split; cbn; [done | done | lia | done]. Qed.

Lemma entity_synced kind size equiv : 0 < size → synced (entity kind size equiv).
Proof. intros Hs. apply entityK_synced; [done | by repeat constructor]. Qed.
End Demo.

Lemma EncodeForRound_any_order_witness :
  let e := Demo.entity DCNET_CLIENT 8 false in
  EncodeForRound (at_round e 9) 4 true (Some [1; 2]) = EncodeForRound e 4 true (Some [1; 2])
  ∧ (∀ cell plain e', EncodeForRound e 4 true (Some [1; 2]) = Ret (cell, plain, e') →
       synced e' ∧ currentRound e' = 4 + 1).
Proof.
  apply (@EncodeForRound_any_order ToySuite.suite ToySuite.laws); [|by unfold MaxInt32|done].
  by apply Demo.entity_synced.
Defined.

Lemma GetBitsOfRound_bits_witness :
  let e := at_round (Demo.entity DCNET_TRUSTEE 8 false) 5 in
  ∃ e', GetBitsOfRound e 2 11 = Ret (Some (
    [Z.b2z (Z.testbit (traced_byte e 2 11 Demo.key) 4)], [pad_at 8 2 Demo.key]), e').
Proof.
  apply (@GetBitsOfRound_bits ToySuite.suite ToySuite.laws
           (at_round (Demo.entity DCNET_TRUSTEE 8 false) 5) 2 11); [|done|done|done].
  by apply synced_at_round; [apply Demo.entity_synced|].
Defined.

Lemma GetBitsOfRound_desync_witness :
  let e := at_round (Demo.entity DCNET_TRUSTEE 8 false) 5 in
  ∃ bits pads e', GetBitsOfRound e 2 11 = Ret (Some (bits, pads), e')
  ∧ ∃ e'', TrusteeEncodeForRound e' 6 = Ret (ToBytes (mkDCNetCipher None
      (xor_sum 8 (pad_at 8 7) [Demo.key])), e'').
Proof.
  eexists _, _, _. split; [reflexivity|].
  eapply (@GetBitsOfRound_desync ToySuite.suite ToySuite.laws
    (at_round (Demo.entity DCNET_TRUSTEE 8 false) 5) 2 6 11);
    [| done | done | done | by unfold MaxInt32 | reflexivity].
  by apply synced_at_round; [apply Demo.entity_synced|].
Defined.

Lemma history_ignores_data_witness :
  let e := Demo.entity DCNET_CLIENT 24 true in
  ∃ e1 e2, UpdateReceivedMessageHistory e [1; 2; 3] = Ret e1
  ∧ UpdateReceivedMessageHistory e [9; 9; 9] = Ret e2
  ∧ (history <$> equivocationProtection e1) = (history <$> equivocationProtection e2).
Proof.
  eexists _, _. split; [reflexivity|]. split; [reflexivity|].
  by apply (@history_ignores_data ToySuite.suite ToySuite.laws
    (Demo.entity DCNET_CLIENT 24 true) (Demo.entity DCNET_CLIENT 24 true) [1; 2; 3] [9; 9; 9]).
Defined.

Lemma EncodeForRound_too_long_witness :
  EncodeForRound (Demo.entity DCNET_CLIENT 16 true) 0 true (Some [1]) = Crash RuntimeError.
Proof.
  apply (@EncodeForRound_too_long ToySuite.suite ToySuite.laws); try done.
  by apply Demo.entity_synced.
Defined.
