(* ===== verification/BitMask.v ===== *)
(** * Open/closed slot schedule (prifi-lib/scheduler/bitmask_roundscheduler.go)

    In an open/closed round every client contributes a bit mask with at most the
    bit of its own slot set; the DC-net XORs the masks, and the relay reads the
    result as a map from slots to open or closed. *)

From S2P Require Import Prelude Bytes Crypto DCNetCipher Equivocation DCNet DCNetRound DCNetSession.

Open Scope Z_scope.

(** type BitMaskSlotScheduler_Client *)
Record BitMaskSlotScheduler_Client := mkBitMaskClient {
  NClients : Z;
  ClientWantsToSend : bool;
  MySlotID : Z
}.

#[export] Instance eta_BitMaskClient : Eta BitMaskSlotScheduler_Client := λ b,
  mkBitMaskClient (NClients b) (ClientWantsToSend b) (MySlotID b).

(** new(scheduler.BitMaskSlotScheduler_Client): the zero value *)
Definition newBitMaskClient : BitMaskSlotScheduler_Client := mkBitMaskClient 0 false 0.

(** func (bmc) Client_ReceivedScheduleRequest *)
Definition Client_ReceivedScheduleRequest (bmc : BitMaskSlotScheduler_Client) (nClients : Z) :=
  bmc <| NClients := nClients |> <| ClientWantsToSend := false |>.

(** func (bmc) Client_ReserveRound *)
Definition Client_ReserveRound (bmc : BitMaskSlotScheduler_Client) (slotID : Z) :=
  bmc <| MySlotID := slotID |> <| ClientWantsToSend := true |>.

(** [1 << count] in a byte, for a count of type uint *)
Definition shl_byte (count : Z) : Z := if 8 <=? count then 0 else Z.shiftl 1 count.

(** [int(math.Ceil(float64(n) / 8))] *)
Definition ceil_div8 (n : Z) : Z := - ((- n) / 8).

(** func (bmc) Client_GetOpenScheduleContribution *)
Definition Client_GetOpenScheduleContribution (bmc : BitMaskSlotScheduler_Client) : go bytes :=
  let nBytes := ceil_div8 (NClients bmc) in
  payload ← make_bytes nBytes;
  if negb (ClientWantsToSend bmc) then Ret payload else
  let whichByte := MySlotID bmc / 8 in
  let whichBit := u64 (Z.rem (MySlotID bmc) 8) in
  set_index payload whichByte (shl_byte whichBit).

(** func (bmr) Relay_CombineContributions *)
Definition Relay_CombineContributions (contributions : list bytes) : go bytes :=
  first ← index contributions 0;
  out ← make_bytes (len first);
  go_fold xor_range out contributions.

(** The inner loop of Relay_ComputeFinalSchedule over the bits of byte [b];
    the flag says that the function returned *)
Fixpoint scheduleBits (b byteIndex maxSlots : Z) (bits : list Z) (res : gmap Z bool)
    : gmap Z bool * bool :=
  match bits with
  | [] => (res, false)
  | bitPos :: bits =>
    let ownerID := byteIndex * 8 + bitPos in
    let val := Z.land b (shl_byte bitPos) in
    let res := <[ownerID := 0 <? val]> res in
    if ownerID =? maxSlots - 1 then (res, true)
    else scheduleBits b byteIndex maxSlots bits res
  end.

(** The outer loop, from byte [byteIndex] on *)
Fixpoint scheduleBytes (byteIndex maxSlots : Z) (contributions : bytes) (res : gmap Z bool)
    : gmap Z bool :=
  match contributions with
  | [] => res
  | b :: contributions =>
    match scheduleBits b byteIndex maxSlots [0; 1; 2; 3; 4; 5; 6; 7] res with
    | (res, true) => res
    | (res, false) => scheduleBytes (byteIndex + 1) maxSlots contributions res
    end
  end.

(** func (bmr) Relay_ComputeFinalSchedule *)
Definition Relay_ComputeFinalSchedule (allContributions : bytes) (maxSlots : Z) : gmap Z bool :=
  scheduleBytes 0 maxSlots allContributions ∅.

(** ** The schedule, slot by slot *)

(** The bit of slot [k] in a mask. *)
Definition slot_bit (mask : bytes) (k : Z) : bool :=
  Z.testbit (default 0 (mask !! Z.to_nat (k / 8))) (k mod 8).

Lemma shl_byte_bit b i :
  0 ≤ i < 8 → 0 ≤ b → (0 <? Z.land b (shl_byte i)) = Z.testbit b i.
Proof.
  intros Hi Hb. unfold shl_byte. destruct (Z.leb_spec 8 i); [lia|].
  rewrite Z.shiftl_1_l.
  rewrite land_pow2 by lia.
  pose proof (Z.pow_pos_nonneg 2 i).
  destruct (Z.testbit b i); [apply Z.ltb_lt; lia | done].
Qed.

(** The slots a single byte covers, until the last slot. *)
Lemma scheduleBits_spec b byteIndex maxSlots n : ∀ p res,
  0 ≤ b → 0 ≤ p → p + Z.of_nat n ≤ 8 →
  let out := scheduleBits b byteIndex maxSlots ((λ i, p + Z.of_nat i) <$> seq 0 n) res in
  let base := byteIndex * 8 in
  let hit := base + p ≤ maxSlots - 1 < base + p + Z.of_nat n in
  (out.2 = true ↔ hit) ∧
  ∀ k, out.1 !! k =
    if decide (base + p ≤ k < base + p + Z.of_nat n ∧ (hit → k < maxSlots))
    then Some (Z.testbit b (k - base)) else res !! k.
Proof.
  induction n as [|n IH]; intros p res Hb Hp Hn; cbn zeta.
  { simpl. split; [split; [done | lia]|]. intros k. rewrite decide_False by lia. done. }
  change (seq 0 (S n)) with (0%nat :: seq 1 n). rewrite fmap_cons, Z.add_0_r.
  rewrite <- fmap_S_seq, <- list_fmap_compose. cbn [scheduleBits].
  rewrite shl_byte_bit by lia.
  destruct (Z.eqb_spec (byteIndex * 8 + p) (maxSlots - 1)) as [Heq|Hne]; cbn.
  - split; [split; [intros _; lia | done]|]. intros k.
    destruct (decide (k = byteIndex * 8 + p)) as [->|Hk].
    + rewrite lookup_insert_eq, decide_True by lia. do 2 f_equal. lia.
    + rewrite lookup_insert_ne, decide_False by lia. done.
  - rewrite (list_fmap_ext _ (λ i, (p + 1) + Z.of_nat i) (seq 0 n)) by (intros; cbn; lia).
    specialize (IH (p + 1) (<[byteIndex * 8 + p:=Z.testbit b p]> res) Hb).
    destruct IH as [IH1 IH2]; [lia..|]. split; [rewrite IH1; lia|]. intros k. rewrite IH2.
    destruct (decide (k = byteIndex * 8 + p)) as [->|Hk].
    + rewrite (decide_False (P := _ ≤ _ < _ ∧ _)) by lia. rewrite lookup_insert_eq.
      rewrite decide_True by lia. do 2 f_equal. lia.
    + rewrite lookup_insert_ne by lia. apply decide_ext. lia.
Qed.

Lemma slot_bit_cons b l k :
  0 ≤ k → slot_bit (b :: l) k = if decide (k < 8) then Z.testbit b k else slot_bit l (k - 8).
Proof.
  intros Hk. unfold slot_bit. case_decide.
  - rewrite Z.div_small, Z.mod_small by lia. done.
  - replace (k / 8) with ((k - 8) / 8 + 1) by (rewrite <- Z.div_add by lia; f_equal; lia).
    replace (k mod 8) with ((k - 8) mod 8)
      by (rewrite <- (Z.mod_add (k - 8) 1) by lia; f_equal; lia).
    assert (0 ≤ (k - 8) / 8) by (apply Z.div_pos; lia).
    rewrite Z2Nat.inj_add by lia. change (Z.to_nat 1) with 1%nat. by rewrite Nat.add_1_r.
Qed.

Lemma scheduleBytes_spec maxSlots l : ∀ byteIndex res,
  0 ≤ byteIndex → Forall (λ b, 0 ≤ b) l →
  let base := byteIndex * 8 in
  let hit := base ≤ maxSlots - 1 < base + 8 * len l in
  ∀ k, scheduleBytes byteIndex maxSlots l res !! k =
    if decide (base ≤ k < base + 8 * len l ∧ (hit → k < maxSlots))
    then Some (slot_bit l (k - base)) else res !! k.
Proof.
  induction l as [|b l IH]; intros byteIndex res Hi Hl; cbn zeta; intros k.
  { rewrite decide_False by (change (len (@nil Z)) with 0; lia). done. }
  apply Forall_cons in Hl as [Hb Hl]. cbn [scheduleBytes].
  assert (len (b :: l) = 1 + len l) as Hlen by (unfold len; simpl length; lia).
  pose proof (len_nonneg l).
  destruct (scheduleBits_spec b byteIndex maxSlots 8 0 res Hb) as [H1 H2]; [lia..|].
  change ((λ i, 0 + Z.of_nat i) <$> seq 0 8) with [0; 1; 2; 3; 4; 5; 6; 7] in H1, H2.
  change (Z.of_nat 8) with 8 in H1, H2. rewrite Z.add_0_r in H1.
  destruct (scheduleBits _ _ _ _ _) as [res' stop]. cbn [fst snd] in H1, H2.
  rewrite Hlen. destruct stop.
  - specialize (proj1 H1 eq_refl) as Hhit. rewrite H2. repeat case_decide; try lia; [|done].
    rewrite slot_bit_cons, decide_True by lia. done.
  - assert (¬ (byteIndex * 8 ≤ maxSlots - 1 < byteIndex * 8 + 8)) as Hno by (intros ?%H1; done).
    rewrite (IH (byteIndex + 1) res') by (done || lia). rewrite H2.
    repeat case_decide; try lia; try done.
    all: rewrite slot_bit_cons by lia; case_decide; try lia; try done.
    all: do 2 f_equal; lia.
Qed.

(** What the final schedule says, for the [maxSlots] the mask has room for. *)
Lemma Relay_ComputeFinalSchedule_lookup l maxSlots k :
  Forall (λ b, 0 ≤ b) l → 0 < maxSlots ≤ 8 * len l →
  Relay_ComputeFinalSchedule l maxSlots !! k
  = if decide (0 ≤ k < maxSlots) then Some (slot_bit l k) else None.
Proof.
  intros Hl Hm. unfold Relay_ComputeFinalSchedule.
  rewrite scheduleBytes_spec by done. rewrite Z.mul_0_l, Z.add_0_l, Z.sub_0_r, lookup_empty.
  apply decide_ext. lia.
Qed.

(** ** Contributions *)

Lemma slot_bit_zeros n k : slot_bit (zeros n) k = false.
Proof.
  unfold slot_bit, zeros. destruct (replicate n 0 !! Z.to_nat (k / 8)) as [x|] eqn:E.
  - apply lookup_replicate in E as [-> _]. simpl. apply Z.bits_0.
  - simpl. apply Z.bits_0.
Qed.

Lemma ceil_div8_bounds n : n ≤ 8 * ceil_div8 n < n + 8.
Proof.
  unfold ceil_div8. pose proof (Z.div_mod (- n) 8). pose proof (Z.mod_pos_bound (- n) 8). lia.
Qed.

Definition reserves (bmc : BitMaskSlotScheduler_Client) (k : Z) : bool :=
  ClientWantsToSend bmc && (MySlotID bmc =? k).

(** A client whose reservation, if any, is inside the schedule. *)
Definition reservation_ok (n : Z) (bmc : BitMaskSlotScheduler_Client) : Prop :=
  NClients bmc = n ∧ (ClientWantsToSend bmc = true → 0 ≤ MySlotID bmc < n).

Lemma contribution_ok n bmc :
  0 ≤ n → reservation_ok n bmc →
  ∃ mask, Client_GetOpenScheduleContribution bmc = Ret mask
  ∧ len mask = ceil_div8 n ∧ Forall (λ b, 0 ≤ b) mask
  ∧ ∀ k, 0 ≤ k → slot_bit mask k = reserves bmc k.
Proof.
  intros Hn [HN Hslot]. pose proof (ceil_div8_bounds n).
  unfold Client_GetOpenScheduleContribution, reserves. rewrite HN, make_bytes_ret by lia.
  cbn [mbind go_bind]. destruct (ClientWantsToSend bmc); cbn [negb andb].
  - specialize (Hslot eq_refl). set (s := MySlotID bmc) in *.
    pose proof (Z.div_mod s 8). pose proof (Z.mod_pos_bound s 8).
    assert (0 ≤ s / 8 < ceil_div8 n) as Hb by lia.
    rewrite set_index_ret by (rewrite len_zeros; lia). eexists; split; [reflexivity|].
    rewrite Z.rem_mod_nonneg by lia. rewrite wrap_u_small by lia.
    unfold shl_byte. destruct (Z.leb_spec 8 (s mod 8)); [lia|]. rewrite Z.shiftl_1_l.
    split_and!.
    + unfold len. rewrite length_insert, length_zeros. lia.
    + apply Forall_insert; [by apply Forall_replicate | apply Z.pow_nonneg; lia].
    + intros k Hk. unfold slot_bit.
      pose proof (Z.div_mod k 8). pose proof (Z.mod_pos_bound k 8).
      destruct (decide (k / 8 = s / 8)) as [E|Hne].
      * rewrite E, list_lookup_insert_eq by (rewrite length_zeros; lia). simpl default.
        rewrite Z.pow2_bits_eqb by lia.
        destruct (Z.eqb_spec (s mod 8) (k mod 8)), (Z.eqb_spec s k); done || lia.
      * rewrite list_lookup_insert_ne by lia. fold (slot_bit (zeros (Z.to_nat (ceil_div8 n))) k).
        rewrite slot_bit_zeros. symmetry. apply Z.eqb_neq. congruence.
  - eexists; split; [reflexivity|]. rewrite len_zeros. split_and!; [lia | by apply Forall_replicate |].
    intros k _. apply slot_bit_zeros.
Qed.

Lemma slot_bit_xor a b k :
  length a = length b → slot_bit (xor_bytes a b) k = xorb (slot_bit a k) (slot_bit b k).
Proof.
  intros Hl. unfold slot_bit. destruct (a !! Z.to_nat (k / 8)) as [x|] eqn:Ea.
  - destruct (lookup_lt_is_Some_2 b (Z.to_nat (k / 8))) as [y Eb].
    { rewrite <- Hl. by eapply lookup_lt_Some. }
    rewrite (lookup_xor_bytes _ _ _ x y Ea Eb), Eb. simpl. apply Z.lxor_spec.
  - assert (b !! Z.to_nat (k / 8) = None) as Eb.
    { apply lookup_ge_None. rewrite <- Hl. by apply lookup_ge_None. }
    rewrite Eb. assert (xor_bytes a b !! Z.to_nat (k / 8) = None) as ->.
    { apply lookup_ge_None. rewrite length_xor_bytes. apply lookup_ge_None in Ea. lia. }
    simpl. by rewrite Z.bits_0.
Qed.

(** A mask XORed from contributions of clients with pairwise different slots
    has exactly the reserved bits. *)
Lemma slot_bit_xor_sum {X} n (f : X → bytes) (g : X → BitMaskSlotScheduler_Client) l k :
  (∀ x, x ∈ l → length (f x) = n) → (∀ x, x ∈ l → slot_bit (f x) k = reserves (g x) k) →
  NoDup (MySlotID <$> filter (λ b, ClientWantsToSend b = true) (g <$> l)) →
  slot_bit (xor_sum n f l) k = existsb (λ x, reserves (g x) k) l.
Proof.
  induction l as [|x l IH]; intros Hlen Hbit Hnd; [apply slot_bit_zeros|]. cbn [xor_sum existsb].
  assert (∀ y, y ∈ l → length (f y) = n) as Hlen' by (intros; apply Hlen; by right).
  rewrite slot_bit_xor by (rewrite length_xor_sum by done; apply Hlen; left).
  rewrite Hbit by left. rewrite fmap_cons, filter_cons in Hnd.
  rewrite IH; [|done|intros; apply Hbit; by right|
    case_decide; [rewrite fmap_cons in Hnd; by apply NoDup_cons in Hnd as [_ ?] | done]].
  destruct (reserves (g x) k) eqn:Hx; [|by destruct (existsb _ _)].
  assert (existsb (λ x, reserves (g x) k) l = false) as ->; [|done].
  unfold reserves in Hx. apply andb_prop in Hx as [Hw Hs%Z.eqb_eq].
  rewrite decide_True in Hnd by done. rewrite fmap_cons in Hnd. apply NoDup_cons in Hnd as [Hni _].
  apply Bool.not_true_iff_false. intros (y & Hy & Hr)%existsb_exists.
  apply andb_prop in Hr as [Hwy Hsy%Z.eqb_eq]. apply Hni, list_elem_of_fmap. exists (g y).
  split; [congruence|]. apply list_elem_of_filter. split; [done|].
  apply list_elem_of_fmap. exists y. split; [done|]. by apply list_elem_of_In.
Qed.

Lemma go_fold_xor_range n acc (l : list bytes) :
  length acc = n → Forall (λ m : bytes, length m = n) l →
  go_fold xor_range acc l = Ret (xor_bytes acc (xor_sum n id l)).
Proof.
  intros Ha Hl. revert acc Ha. induction Hl as [|m l Hm _ IH]; intros acc Ha.
  - cbn. by rewrite xor_bytes_zeros_r.
  - rewrite go_fold_cons, xor_range_ret by lia. cbn [mbind go_bind].
    rewrite IH by (rewrite length_xor_bytes; lia). cbn [xor_sum]. unfold id at 2.
    by rewrite (assoc xor_bytes).
Qed.

Lemma Relay_CombineContributions_sum n m l :
  Forall (λ m : bytes, length m = n) (m :: l) →
  Relay_CombineContributions (m :: l) = Ret (xor_sum n id (m :: l)).
Proof.
  intros Hl. unfold Relay_CombineContributions.
  pose proof Hl as [Hm _]%Forall_cons. change (index (m :: l) 0) with (Ret m). cbn [mbind go_bind].
  rewrite make_bytes_ret, to_nat_len by apply len_nonneg. cbn [mbind go_bind].
  rewrite (go_fold_xor_range n) by (rewrite ?length_zeros; done).
  rewrite Hm, xor_bytes_zeros_l; [done|]. apply length_xor_sum. intros x Hx.
  by apply (proj1 (Forall_forall _ _) Hl).
Qed.

Lemma xor_sum_nonneg {X} n (f : X → bytes) l :
  (∀ x, x ∈ l → Forall (λ b, 0 ≤ b) (f x)) → Forall (λ b, 0 ≤ b) (xor_sum n f l).
Proof.
  induction l as [|x l IH]; intros H; cbn [xor_sum]; [by apply Forall_replicate|].
  assert (Forall (λ b, 0 ≤ b) (f x)) as Hx by (apply H; left).
  specialize (IH (λ y Hy, H y (list_elem_of_further _ _ _ Hy))). unfold xor_bytes.
  clear H. revert IH. generalize (xor_sum n f l). intros r Hr. revert r Hr.
  induction Hx as [|a u Ha _ IHu]; intros [|b r] Hr; simpl; try by constructor.
  apply Forall_cons in Hr as [Hb Hr]. constructor; [by apply Z.lxor_nonneg | by apply IHu].
Qed.

(** All slots reserved by different clients. *)
Definition slots_distinct (cs : list BitMaskSlotScheduler_Client) : Prop :=
  NoDup (MySlotID <$> filter (λ b, ClientWantsToSend b = true) cs).

(** The schedule computed from a mask that has the reserved bits. *)
Lemma schedule_of_sum {X} n N (f : X → bytes) (g : X → BitMaskSlotScheduler_Client) l :
  0 < n → ceil_div8 n ≤ Z.of_nat N →
  (∀ x, x ∈ l → length (f x) = N ∧ Forall (λ b, 0 ≤ b) (f x)
     ∧ ∀ k, 0 ≤ k → slot_bit (f x) k = reserves (g x) k) →
  slots_distinct (g <$> l) →
  ∀ k, Relay_ComputeFinalSchedule (xor_sum N f l) n !! k
    = if decide (0 ≤ k < n) then Some (existsb (λ x, reserves (g x) k) l) else None.
Proof.
  intros Hn HN Hf Hd k. pose proof (ceil_div8_bounds n).
  assert (length (xor_sum N f l) = N) as Hl by (apply length_xor_sum; intros; by apply Hf).
  rewrite Relay_ComputeFinalSchedule_lookup; [|apply xor_sum_nonneg; intros; by apply Hf|unfold len; lia].
  case_decide; [|done]. f_equal. apply slot_bit_xor_sum; [intros; by apply Hf | | done].
  intros x Hx. apply Hf; [done | lia].
Qed.

(** The masks of any non-empty set of clients with different slots combine
    to a schedule that holds exactly the slots 0 .. n-1, each open if and only
    if a client reserved it. *)
Theorem schedule_open_iff_reserved n c cs :
  0 < n → Forall (reservation_ok n) (c :: cs) → slots_distinct (c :: cs) →
  ∃ masks combined,
    mapM Client_GetOpenScheduleContribution (c :: cs) = Ret masks
  ∧ Relay_CombineContributions masks = Ret combined
  ∧ ∀ k, Relay_ComputeFinalSchedule combined n !! k
      = if decide (0 ≤ k < n) then Some (existsb (λ c, reserves c k) (c :: cs)) else None.
Proof.
  intros Hn Hok Hd. pose proof (ceil_div8_bounds n).
  set (mask c := match Client_GetOpenScheduleContribution c with Ret m => m | Crash _ => [] end).
  set (N := Z.to_nat (ceil_div8 n)).
  assert (∀ c', c' ∈ c :: cs → Client_GetOpenScheduleContribution c' = Ret (mask c')
    ∧ length (mask c') = N ∧ Forall (λ b, 0 ≤ b) (mask c')
    ∧ ∀ k, 0 ≤ k → slot_bit (mask c') k = reserves c' k) as Hmask.
  { intros c' Hc'. unfold mask.
    destruct (contribution_ok n c') as (m & -> & Hl & Hf & Hk); [lia| |].
    { by apply (proj1 (Forall_forall _ _) Hok). }
    split_and!; try done. unfold N. rewrite <- Hl. by rewrite to_nat_len. }
  exists (mask <$> c :: cs), (xor_sum N mask (c :: cs)). split_and!.
  - apply mapM_go_ret. intros c' Hc'. by apply Hmask.
  - rewrite fmap_cons, (Relay_CombineContributions_sum N).
    + rewrite <- fmap_cons. by rewrite xor_sum_map.
    + rewrite <- fmap_cons. apply Forall_fmap, Forall_forall. intros c' Hc'. by apply Hmask.
  - apply (schedule_of_sum n N mask id); [done | unfold N; lia | intros; by apply Hmask |].
    by rewrite list_fmap_id.
Qed.

Lemma schedule_open_iff_reserved_witness :
  ∃ masks combined,
    mapM Client_GetOpenScheduleContribution
      [mkBitMaskClient 10 true 9; mkBitMaskClient 10 false 0; mkBitMaskClient 10 true 2] = Ret masks
  ∧ Relay_CombineContributions masks = Ret combined
  ∧ ∀ k, Relay_ComputeFinalSchedule combined 10 !! k
      = if decide (0 ≤ k < 10) then Some (existsb (λ c, reserves c k)
          [mkBitMaskClient 10 true 9; mkBitMaskClient 10 false 0; mkBitMaskClient 10 true 2]) else None.
Proof.
  apply (schedule_open_iff_reserved 10); [done | |].
  - repeat constructor; cbn; (done || lia).
  - by apply (bool_decide_unpack _).
Defined.

(** A client that reserves a slot outside the schedule (an unassigned slot
    -1, or one beyond the bytes of the mask) does not send a wrong mask: the
    index is out of range and the process stops. *)
Theorem contribution_out_of_range n slot :
  0 ≤ n → slot < 0 ∨ 8 * ceil_div8 n ≤ slot →
  Client_GetOpenScheduleContribution
    (Client_ReserveRound (Client_ReceivedScheduleRequest newBitMaskClient n) slot)
  = Crash RuntimeError.
Proof.
  intros Hn Hs. unfold Client_GetOpenScheduleContribution. cbn. pose proof (ceil_div8_bounds n).
  rewrite make_bytes_ret by lia. cbn [mbind go_bind]. unfold set_index.
  rewrite len_zeros, Z2Nat.id by lia.
  destruct (Z.ltb_spec (slot / 8) 0); [done|]. destruct (Z.leb_spec (ceil_div8 n) (slot / 8)); [done|].
  pose proof (Z.div_mod slot 8). pose proof (Z.mod_pos_bound slot 8). lia.
Qed.

Lemma contribution_out_of_range_witness :
  Client_GetOpenScheduleContribution
    (Client_ReserveRound (Client_ReceivedScheduleRequest newBitMaskClient 5) (-1))
  = Crash RuntimeError.
Proof. apply (contribution_out_of_range 5 (-1)); [done | by left]. Defined.

(** ** The schedule through the DC-net *)

Section openclosed.
Context {CS : CryptoSuite} {CL : CryptoLaws CS}.
Context (N : Z) (n m : nat) (K : nat → nat → Point) (r : Z).
Context (C T : nat → DCNetEntity CS) (relay : DCNetEntity CS) (equiv : bool).
Context (slot : nat → Z) (wants : nat → bool).

(** What client [i] does with an open/closed request. *)
Definition requestOf (i : nat) : BitMaskSlotScheduler_Client :=
  let bmc := Client_ReceivedScheduleRequest newBitMaskClient (Z.of_nat n) in
  if wants i then Client_ReserveRound bmc (slot i) else bmc.
Definition maskOf (i : nat) : bytes :=
  match Client_GetOpenScheduleContribution (requestOf i) with Ret mask => mask | Crash _ => [] end.

Lemma slot_bit_padPayload k mask size :
  slot_bit (padPayload size (Some mask)) k = slot_bit mask k.
Proof.
  unfold slot_bit, padPayload. simpl from_option. set (i := Z.to_nat (k / 8)). unfold id.
  destruct (decide (i < length mask)%nat).
  - by rewrite lookup_app_l.
  - rewrite lookup_app_r by lia. rewrite (lookup_ge_None_2 mask) by lia.
    destruct (zeros _ !! _) as [x|] eqn:E; [|done].
    by apply lookup_replicate in E as [-> _].
Qed.

Lemma slots_distinct_requests :
  (∀ i j, (i < n)%nat → (j < n)%nat → slot i = slot j → i = j) →
  slots_distinct (requestOf <$> seq 0 n).
Proof.
  intros Hinj. unfold slots_distinct.
  assert (∀ l, (∀ i, i ∈ l → (i < n)%nat) → NoDup l →
    NoDup (MySlotID <$> filter (λ b, ClientWantsToSend b = true) (requestOf <$> l))) as H.
  { induction l as [|i l IH]; intros Hl Hnd; [constructor|].
    apply NoDup_cons in Hnd as [Hi Hnd]. rewrite fmap_cons, filter_cons.
    assert (∀ j, j ∈ l → (j < n)%nat) as Hl' by (intros; apply Hl; by right).
    case_decide as Hw; [|by apply IH]. rewrite fmap_cons. apply NoDup_cons. split; [|by apply IH].
    intros (b & Hb & Hin)%list_elem_of_fmap.
    apply list_elem_of_filter in Hin as [Hwb (j & -> & Hj)%list_elem_of_fmap].
    unfold requestOf in Hw, Hwb, Hb. destruct (wants i); [|done]. destruct (wants j); [|done].
    cbn in Hb. apply Hi. rewrite (Hinj i j); [done | apply Hl; left | by apply Hl' | done]. }
  apply H; [intros i Hi; apply elem_of_seq in Hi; lia | apply NoDup_seq].
Qed.

(** C26: An open/closed round over the DC-net, with or without equivocation
    protection, gives the relay a schedule in which slot [k] of the [n] slots
    is open exactly when a client that wants to transmit was assigned [k]. *)
Theorem openclosed_round_schedule :
  (0 < n)%nat → ceil_div8 (Z.of_nat n) ≤ N →
  round_setup N n m K r C T relay (λ i, Some (maskOf i)) equiv →
  (equiv = true → (∀ i, (i < n)%nat → is_Some (equivocationProtection (C i)))
                ∧ (∀ j, (j < m)%nat → is_Some (equivocationProtection (T j)))) →
  (∀ i, (i < n)%nat → 0 ≤ slot i < Z.of_nat n) →
  (∀ i j, (i < n)%nat → (j < n)%nat → slot i = slot j → i = j) →
  ∃ cell, dcnetRound r relay true (theClients n C (λ _, false) (λ i, Some (maskOf i)))
            (theTrustees m T) = Ret (cell, cell)
  ∧ ∀ k, Relay_ComputeFinalSchedule cell (Z.of_nat n) !! k
      = if decide (0 ≤ k < Z.of_nat n)
        then Some (existsb (λ i, wants i && (slot i =? k)) (seq 0 n)) else None.
Proof.
  intros Hn HN HS Hsome Hslot Hinj.
  rewrite (dcnetRound_openclosed N n m K r C T relay (λ _, false) _ equiv) by done.
  eexists; split; [reflexivity|]. intros k.
  assert (∀ i, (i < n)%nat → reservation_ok (Z.of_nat n) (requestOf i)) as Hok.
  { intros i Hi. unfold requestOf. split; [by destruct (wants i)|].
    destruct (wants i); cbn; [intros _; by apply Hslot | done]. }
  rewrite (schedule_of_sum (Z.of_nat n) (Z.to_nat N) _ requestOf).
  - case_decide; [|done]. f_equal. apply existsb_ext. intros i. unfold reserves, requestOf.
    by destruct (wants i).
  - lia.
  - lia.
  - intros i Hi. apply elem_of_seq in Hi as [_ Hi].
    destruct (contribution_ok (Z.of_nat n) (requestOf i)) as (mask & E & Hl & Hf & Hb); [lia|by apply Hok|].
    unfold maskOf. rewrite E. split_and!.
    + apply length_padPayload. simpl. unfold len in Hl. lia.
    + apply Forall_app. split; [done | by apply Forall_replicate].
    + intros k' Hk'. rewrite slot_bit_padPayload. by apply Hb.
  - by apply slots_distinct_requests.
Qed.
End openclosed.

Lemma openclosed_round_schedule_witness :
  let K i j := ToySuite.fp_of (Z.of_nat (10 * i + j + 1)) in
  let C i := Demo.entityK DCNET_CLIENT 24 true [Some (K i 0%nat)] in
  let T j := Demo.entityK DCNET_TRUSTEE 24 true [Some (K 0%nat j); Some (K 1%nat j)] in
  let relay := Demo.entityK DCNET_RELAY 24 true [] in
  let wants i := (i =? 0)%nat in
  let slot i := 1 - Z.of_nat i in
  ∃ cell, dcnetRound 3 relay true (theClients 2 C (λ _, false) (λ i, Some (maskOf 2 slot wants i)))
            (theTrustees 1 T) = Ret (cell, cell)
  ∧ ∀ k, Relay_ComputeFinalSchedule cell 2 !! k
      = if decide (0 ≤ k < 2)
        then Some (existsb (λ i, wants i && (slot i =? k)) (seq 0 2)) else None.
Proof.
  intros K C T relay wants slot.
  apply (@openclosed_round_schedule ToySuite.suite ToySuite.laws 24 2 1 K 3 C T relay true slot wants).
  - lia.
  - done.
  - split; try done.
    + intros i Hi. assert (i = 0 ∨ i = 1)%nat as [-> | ->] by lia;
        (split; [split; [by apply Demo.entityK_synced; [|repeat constructor] | done] | done]).
    + intros i Hi. assert (i = 0)%nat as -> by lia.
      split; [split; [by apply Demo.entityK_synced; [|repeat constructor] | done] | done].
    + intros i Hi. assert (i = 0 ∨ i = 1)%nat as [-> | ->] by lia; done.
  - intros _. split; intros; by eexists.
  - intros i Hi. unfold slot. lia.
  - intros i j Hi Hj. unfold slot. lia.
Defined.
