(* ===== verification/Messages.v ===== *)
(** * Messages between the parties (prifi-lib/net/messages.go, all_all_params.go)

    The message types, the dictionary of parameters, and the hand-written wire
    format of the downstream message that travels over UDP. *)

From S2P Require Import Prelude Bytes Crypto.

Open Scope Z_scope.

(** ** Message types *)

(** type REL_CLI_DOWNSTREAM_DATA *)
Record REL_CLI_DOWNSTREAM_DATA := mkDownstream {
  dd_RoundID : Z;
  dd_OwnershipID : Z;
  dd_HashOfPreviousUpstreamData : bytes;
  dd_Data : bytes;
  dd_FlagResync : bool;
  dd_FlagOpenClosedRequest : bool
}.

#[export] Instance Downstream_eq_dec : EqDecision REL_CLI_DOWNSTREAM_DATA.
Proof. solve_decision. Defined.

(** type CLI_REL_UPSTREAM_DATA *)
Record CLI_REL_UPSTREAM_DATA := mkUpstream {
  up_ClientID : Z;
  up_RoundID : Z;
  up_Data : option bytes
}.

(** type CLI_REL_OPENCLOSED_DATA *)
Record CLI_REL_OPENCLOSED_DATA := mkOpenClosed {
  oc_ClientID : Z;
  oc_RoundID : Z;
  oc_OpenClosedData : option bytes
}.

(** type TRU_REL_DC_CIPHER *)
Record TRU_REL_DC_CIPHER := mkDCCipher {
  tc_RoundID : Z;
  tc_TrusteeID : Z;
  tc_Data : option bytes
}.

(** type TRU_REL_SHUFFLE_SIG *)
Record TRU_REL_SHUFFLE_SIG := mkShuffleSig {
  ss_TrusteeID : Z;
  ss_Sig : bytes
}.

(** type REL_TRU_TELL_RATE_CHANGE *)
Record REL_TRU_TELL_RATE_CHANGE := mkRateChange { WindowCapacity : Z }.

(** A point of the interface type kyber.Point may be nil, [None]; a slice whose
    nil-ness the code inspects is an option. *)

Section point_messages.
Context {CS : CryptoSuite}.

(** type CLI_REL_TELL_PK_AND_EPH_PK *)
Record CLI_REL_TELL_PK_AND_EPH_PK := mkTellPkEph {
  tp_ClientID : Z;
  tp_Pk : option Point;
  tp_EphPk : option Point
}.

(** type REL_CLI_TELL_EPH_PKS_AND_TRUSTEES_SIG; the element type ByteArray
    wraps one []byte *)
Record REL_CLI_TELL_EPH_PKS_AND_TRUSTEES_SIG := mkTellEphPks {
  te_Base : option Point;
  te_EphPks : option (list (option Point));
  te_TrusteesSigs : list (option bytes)
}.

(** func (m) GetSignatures *)
Definition GetSignatures (m : REL_CLI_TELL_EPH_PKS_AND_TRUSTEES_SIG) : list (option bytes) :=
  te_TrusteesSigs m.

(** type REL_TRU_TELL_CLIENTS_PKS_AND_EPH_PKS_AND_BASE *)
Record REL_TRU_TELL_CLIENTS_PKS_AND_EPH_PKS_AND_BASE := mkTellClients {
  tb_Pks : option (list (option Point));
  tb_EphPks : option (list (option Point));
  tb_Base : option Point
}.

(** type REL_TRU_TELL_TRANSCRIPT; PublicKeyArray and ByteArray wrap slices *)
Record REL_TRU_TELL_TRANSCRIPT := mkTranscript {
  tt_Bases : list (option Point);
  tt_EphPks : list (option (list (option Point)));
  tt_Proofs : list (option bytes)
}.

(** func (m) GetKeys; an absent key array reads as an empty one *)
Definition GetKeys (m : REL_TRU_TELL_TRANSCRIPT) : list (list (option Point)) :=
  default [] <$> tt_EphPks m.

(** func (m) GetProofs *)
Definition GetProofs (m : REL_TRU_TELL_TRANSCRIPT) : list bytes := default [] <$> tt_Proofs m.

(** type TRU_REL_TELL_NEW_BASE_AND_EPH_PKS *)
Record TRU_REL_TELL_NEW_BASE_AND_EPH_PKS := mkNewBase {
  nb_NewBase : option Point;
  nb_NewEphPks : option (list (option Point));
  nb_Proof : option bytes;
  nb_VerifiableDCNetKey : bytes
}.

(** type TRU_REL_TELL_PK *)
Record TRU_REL_TELL_PK := mkTellPk {
  tk_TrusteeID : Z;
  tk_Pk : option Point
}.

(** type REL_CLI_DISRUPTED_ROUND *)
Record REL_CLI_DISRUPTED_ROUND := mkDisruptedRound {
  dr_RoundID : Z;
  dr_Data : bytes
}.

(** A map[string]kyber.Point of the public values of a proof *)
Abbreviation publicValues := (gmap string (option Point)).

(** type CLI_REL_DISRUPTION_BLAME *)
Record CLI_REL_DISRUPTION_BLAME := mkBlame {
  bl_RoundID : Z;
  bl_NIZK : bytes;
  bl_BitPos : Z;
  bl_Pval : publicValues
}.

(** type REL_ALL_DISRUPTION_REVEAL *)
Record REL_ALL_DISRUPTION_REVEAL := mkReveal {
  rv_RoundID : Z;
  rv_BitPos : Z;
  rv_NIZK : bytes;
  rv_Pval : publicValues
}.

(** type CLI_REL_DISRUPTION_REVEAL; [Bits] is a map from indices to bits, nil
    when the DC-net refuses *)
Record CLI_REL_DISRUPTION_REVEAL := mkClientReveal {
  cr_ClientID : Z;
  cr_Bits : option (gmap Z Z);
  cr_NIZK : bytes;
  cr_Pval : publicValues
}.

(** type TRU_REL_DISRUPTION_REVEAL *)
Record TRU_REL_DISRUPTION_REVEAL := mkTrusteeReveal {
  tr_TrusteeID : Z;
  tr_Bits : option (gmap Z Z);
  tr_NIZK : bytes;
  tr_Pval : publicValues
}.

(** type REL_ALL_REVEAL_SHARED_SECRETS *)
Record REL_ALL_REVEAL_SHARED_SECRETS := mkRevealSecrets { rs_EntityID : Z }.

(** type CLI_REL_SHARED_SECRET *)
Record CLI_REL_SHARED_SECRET := mkClientSecret {
  cs_ClientID : Z;
  cs_TrusteeID : Z;
  cs_Secret : option Point;
  cs_NIZK : bytes;
  cs_Pub : publicValues
}.

(** type TRU_REL_SHARED_SECRET *)
Record TRU_REL_SHARED_SECRET := mkTrusteeSecret {
  ts_TrusteeID : Z;
  ts_ClientID : Z;
  ts_Secret : option Point;
  ts_NIZK : bytes;
  ts_Pub : publicValues
}.
End point_messages.

Arguments CLI_REL_TELL_PK_AND_EPH_PK CS : clear implicits.
Arguments REL_CLI_TELL_EPH_PKS_AND_TRUSTEES_SIG CS : clear implicits.
Arguments REL_TRU_TELL_CLIENTS_PKS_AND_EPH_PKS_AND_BASE CS : clear implicits.
Arguments REL_TRU_TELL_TRANSCRIPT CS : clear implicits.
Arguments TRU_REL_TELL_NEW_BASE_AND_EPH_PKS CS : clear implicits.
Arguments TRU_REL_TELL_PK CS : clear implicits.
Arguments CLI_REL_DISRUPTION_BLAME CS : clear implicits.
Arguments REL_ALL_DISRUPTION_REVEAL CS : clear implicits.
Arguments CLI_REL_DISRUPTION_REVEAL CS : clear implicits.
Arguments TRU_REL_DISRUPTION_REVEAL CS : clear implicits.
Arguments CLI_REL_SHARED_SECRET CS : clear implicits.
Arguments TRU_REL_SHARED_SECRET CS : clear implicits.

(** ** Parameters *)

(** The dynamic types Add switches on; every other type is ignored *)
Inductive paramVal := PInt (z : Z) | PStr (s : string) | PBool (b : bool) | POther.

Section params.
Context {CS : CryptoSuite}.

(** type ALL_ALL_PARAMETERS; reading a nil map finds nothing, so a nil map and
    an empty one behave alike here *)
Record ALL_ALL_PARAMETERS := mkParams {
  TrusteesPks : list (option Point);
  ForceParams : bool;
  ParamsInt : gmap string Z;
  ParamsStr : gmap string string;
  ParamsBool : gmap string bool
}.

#[export] Instance eta_Params : Eta ALL_ALL_PARAMETERS := λ m,
  mkParams (TrusteesPks m) (ForceParams m) (ParamsInt m) (ParamsStr m) (ParamsBool m).

(** new(net.ALL_ALL_PARAMETERS) *)
Definition newParams : ALL_ALL_PARAMETERS := mkParams [] false ∅ ∅ ∅.

(** func (m) Add *)
Definition Add (m : ALL_ALL_PARAMETERS) (key : string) (val : paramVal) : ALL_ALL_PARAMETERS :=
  match val with
  | PInt z => m <| ParamsInt := <[key := z]> (ParamsInt m) |>
  | PStr s => m <| ParamsStr := <[key := s]> (ParamsStr m) |>
  | PBool b => m <| ParamsBool := <[key := b]> (ParamsBool m) |>
  | POther => m
  end.

(** func (m) BoolValueOrElse *)
Definition BoolValueOrElse (m : ALL_ALL_PARAMETERS) (key : string) (elseVal : bool) : bool :=
  match ParamsBool m !! key with Some val => val | None => elseVal end.

(** func (m) IntValueOrElse *)
Definition IntValueOrElse (m : ALL_ALL_PARAMETERS) (key : string) (elseVal : Z) : Z :=
  match ParamsInt m !! key with Some val => val | None => elseVal end.

(** func (m) StringValueOrElse *)
Definition StringValueOrElse (m : ALL_ALL_PARAMETERS) (key : string) (elseVal : string) : string :=
  match ParamsStr m !! key with Some val => val | None => elseVal end.

(** A parameter that was added last is what the three readers return, each in
    the name space of its type; other keys and types are untouched. *)
Lemma Add_read m key val :
  (∀ k d, IntValueOrElse (Add m key val) k d
     = match val with PInt z => if decide (k = key) then z else IntValueOrElse m k d
       | _ => IntValueOrElse m k d end)
  ∧ (∀ k d, BoolValueOrElse (Add m key val) k d
     = match val with PBool b => if decide (k = key) then b else BoolValueOrElse m k d
       | _ => BoolValueOrElse m k d end)
  ∧ (∀ k d, StringValueOrElse (Add m key val) k d
     = match val with PStr s => if decide (k = key) then s else StringValueOrElse m k d
       | _ => StringValueOrElse m k d end).
Proof.
  unfold IntValueOrElse, BoolValueOrElse, StringValueOrElse.
  split_and!; intros k d; destruct val; cbn; try done;
    (destruct (decide (k = key)) as [->|Hne];
     [by rewrite lookup_insert_eq | by rewrite lookup_insert_ne by done]).
Qed.
End params.

Arguments ALL_ALL_PARAMETERS CS : clear implicits.

(** ** Every message, as the values the entities send and receive *)

Inductive message {CS : CryptoSuite} :=
| MParameters (m : ALL_ALL_PARAMETERS CS)
| MShutdown
| MTellPkEph (m : CLI_REL_TELL_PK_AND_EPH_PK CS)
| MUpstream (m : CLI_REL_UPSTREAM_DATA)
| MOpenClosed (m : CLI_REL_OPENCLOSED_DATA)
| MDownstream (m : REL_CLI_DOWNSTREAM_DATA)
| MDownstreamUDP (m : REL_CLI_DOWNSTREAM_DATA)
| MTellEphPks (m : REL_CLI_TELL_EPH_PKS_AND_TRUSTEES_SIG CS)
| MTellClients (m : REL_TRU_TELL_CLIENTS_PKS_AND_EPH_PKS_AND_BASE CS)
| MTranscript (m : REL_TRU_TELL_TRANSCRIPT CS)
| MDCCipher (m : TRU_REL_DC_CIPHER)
| MShuffleSig (m : TRU_REL_SHUFFLE_SIG)
| MRateChange (m : REL_TRU_TELL_RATE_CHANGE)
| MNewBase (m : TRU_REL_TELL_NEW_BASE_AND_EPH_PKS CS)
| MTellPk (m : TRU_REL_TELL_PK CS)
| MDisruptedRound (m : REL_CLI_DISRUPTED_ROUND)
| MBlame (m : CLI_REL_DISRUPTION_BLAME CS)
| MReveal (m : REL_ALL_DISRUPTION_REVEAL CS)
| MClientReveal (m : CLI_REL_DISRUPTION_REVEAL CS)
| MTrusteeReveal (m : TRU_REL_DISRUPTION_REVEAL CS)
| MRevealSecrets (m : REL_ALL_REVEAL_SHARED_SECRETS)
| MClientSecret (m : CLI_REL_SHARED_SECRET CS)
| MTrusteeSecret (m : TRU_REL_SHARED_SECRET CS).

Arguments message CS : clear implicits.

(** ** The UDP encoding of downstream data *)

Definition flag_u32 (b : bool) : Z := if b then 1 else 0.

(** func (m) ToBytes of REL_CLI_DOWNSTREAM_DATA_UDP *)
Definition UDP_ToBytes (m : REL_CLI_DOWNSTREAM_DATA) : go bytes :=
  let hashLen := len (dd_HashOfPreviousUpstreamData m) in
  buf ← make_bytes (4 + 4 + 4 + hashLen + len (dd_Data m) + 4 + 4);
  let resyncInt := flag_u32 (dd_FlagResync m) in
  let openclosedInt := flag_u32 (dd_FlagOpenClosedRequest m) in
  buf ← copy_into buf 0 4 (put_u32 (u32 (dd_RoundID m)));
  buf ← copy_into buf 4 8 (put_u32 (u32 (dd_OwnershipID m)));
  buf ← copy_into buf 8 12 (put_u32 (u32 hashLen));
  '(buf, startIndex) ←
     (if 0 <? hashLen then
        buf ← copy_into buf 12 (12 + hashLen) (dd_HashOfPreviousUpstreamData m);
        Ret (buf, 12 + hashLen)
      else Ret (buf, 12));
  buf ← copy_into buf (len buf - 8) (len buf - 4) (put_u32 (u32 resyncInt));
  buf ← copy_into buf (len buf - 4) (len buf) (put_u32 (u32 openclosedInt));
  copy_into buf startIndex (len buf - 8) (dd_Data m).

(** func (m) FromBytes of REL_CLI_DOWNSTREAM_DATA_UDP *)
Definition UDP_FromBytes (buffer : bytes) : go (result REL_CLI_DOWNSTREAM_DATA) :=
  if len buffer <? 8
  then Ret (Err "Messages.go : FromBytes() : cannot decode, smaller than 8 bytes") else
  b0 ← slice buffer 0 4;
  b1 ← slice buffer 4 8;
  b2 ← slice buffer 8 12;
  b3 ← slice buffer (len buffer - 8) (len buffer - 4);
  b4 ← slice_from buffer (len buffer - 4);
  let roundID := i32 (be_decode b0) in
  let ownerShipID := be_decode b1 in
  let hashLen := be_decode b2 in
  let flagResyncInt := be_decode b3 in
  let flagOpenClosedInt := be_decode b4 in
  hashOfPreviousUpstreamData ← slice buffer 12 (12 + hashLen);
  data ← slice buffer (12 + hashLen) (len buffer - 8);
  Ret (Ok (mkDownstream roundID ownerShipID hashOfPreviousUpstreamData data
             (flagResyncInt =? 1) (flagOpenClosedInt =? 1))).

Definition UDP_layout (m : REL_CLI_DOWNSTREAM_DATA) : bytes :=
  put_u32 (u32 (dd_RoundID m)) ++ put_u32 (u32 (dd_OwnershipID m))
  ++ put_u32 (u32 (len (dd_HashOfPreviousUpstreamData m)))
  ++ dd_HashOfPreviousUpstreamData m ++ dd_Data m
  ++ put_u32 (flag_u32 (dd_FlagResync m)) ++ put_u32 (flag_u32 (dd_FlagOpenClosedRequest m)).

(** [copy_into] between three known parts, with a buffer grouped otherwise. *)
Lemma copy_into_parts buf (a b c src : bytes) lo hi out :
  buf = a ++ b ++ c → lo = len a → hi = len a + len b → length src = length b →
  out = a ++ src ++ c → copy_into buf lo hi src = Ret out.
Proof. intros -> ?? Hs ->. by apply copy_into_mid. Qed.

Lemma zeros_app a b : zeros (a + b) = zeros a ++ zeros b.
Proof. apply replicate_add. Qed.

Lemma UDP_ToBytes_layout m : UDP_ToBytes m = Ret (UDP_layout m).
Proof.
  destruct m as [rid oid h d fr fo]. unfold UDP_ToBytes, UDP_layout.
  cbn [dd_RoundID dd_OwnershipID dd_HashOfPreviousUpstreamData dd_Data dd_FlagResync
       dd_FlagOpenClosedRequest].
  pose proof (len_nonneg h). pose proof (len_nonneg d).
  rewrite make_bytes_ret by lia. cbn [mbind go_bind].
  replace (Z.to_nat (4 + 4 + 4 + len h + len d + 4 + 4))
    with (4 + (4 + (4 + (length h + (length d + (4 + 4))))))%nat by (unfold len; lia).
  rewrite !zeros_app.
  set (z0 := zeros 4). set (zh := zeros (length h)). set (zd := zeros (length d)).
  assert (length z0 = 4%nat) as Hz0 by apply length_zeros.
  assert (length zh = length h) as Hzh by apply length_zeros.
  assert (length zd = length d) as Hzd by apply length_zeros.
  set (r := put_u32 (u32 rid)). set (o := put_u32 (u32 oid)). set (n := put_u32 (u32 (len h))).
  assert (length r = 4%nat ∧ length o = 4%nat ∧ length n = 4%nat) as (Hr & Ho & Hn)
    by (repeat split; apply length_be_encode).
  rewrite (copy_into_parts _ [] z0 (z0 ++ z0 ++ zh ++ zd ++ z0 ++ z0) r _ _
    (r ++ z0 ++ z0 ++ zh ++ zd ++ z0 ++ z0)) by (done || slen). cbn [mbind go_bind].
  rewrite (copy_into_parts _ r z0 (z0 ++ zh ++ zd ++ z0 ++ z0) o _ _
    (r ++ o ++ z0 ++ zh ++ zd ++ z0 ++ z0)) by (done || slen). cbn [mbind go_bind].
  rewrite (copy_into_parts _ (r ++ o) z0 (zh ++ zd ++ z0 ++ z0) n _ _
    (r ++ o ++ n ++ zh ++ zd ++ z0 ++ z0)) by (rewrite <- ?app_assoc; done || slen).
  cbn [mbind go_bind].
  assert ((if 0 <? len h
     then buf ← copy_into (r ++ o ++ n ++ zh ++ zd ++ z0 ++ z0) 12 (12 + len h) h;
          Ret (buf, 12 + len h)
     else Ret (r ++ o ++ n ++ zh ++ zd ++ z0 ++ z0, 12))
    = Ret (r ++ o ++ n ++ h ++ zd ++ z0 ++ z0, 12 + len h)) as ->.
  { destruct (Z.ltb_spec 0 (len h)).
    - rewrite (copy_into_parts _ (r ++ o ++ n) zh (zd ++ z0 ++ z0) h _ _
        (r ++ o ++ n ++ h ++ zd ++ z0 ++ z0)) by (rewrite <- ?app_assoc; done || slen). done.
    - destruct h; [|unfold len in *; simpl in *; lia]. done. }
  cbn [mbind go_bind].
  rewrite (copy_into_parts _ (r ++ o ++ n ++ h ++ zd) z0 z0 (put_u32 (u32 (flag_u32 fr))) _ _
    (r ++ o ++ n ++ h ++ zd ++ put_u32 (u32 (flag_u32 fr)) ++ z0))
    by (rewrite <- ?app_assoc; done || slen). cbn [mbind go_bind].
  rewrite (copy_into_parts _ (r ++ o ++ n ++ h ++ zd ++ put_u32 (u32 (flag_u32 fr))) z0 []
    (put_u32 (u32 (flag_u32 fo))) _ _
    (r ++ o ++ n ++ h ++ zd ++ put_u32 (u32 (flag_u32 fr)) ++ put_u32 (u32 (flag_u32 fo))))
    by (rewrite <- ?app_assoc, ?app_nil_r; done || slen). cbn [mbind go_bind].
  rewrite (copy_into_parts _ (r ++ o ++ n ++ h) zd
    (put_u32 (u32 (flag_u32 fr)) ++ put_u32 (u32 (flag_u32 fo))) d _ _
    (r ++ o ++ n ++ h ++ d ++ put_u32 (u32 (flag_u32 fr)) ++ put_u32 (u32 (flag_u32 fo))))
    by (rewrite <- ?app_assoc; done || slen).
  by destruct fr, fo.
Qed.

(** Decoding the layout, field by field. *)
Lemma UDP_FromBytes_parts (r o n h d fr fo : bytes) :
  length r = 4%nat → length o = 4%nat → length n = 4%nat → length fr = 4%nat → length fo = 4%nat →
  be_decode n = len h →
  UDP_FromBytes (r ++ o ++ n ++ h ++ d ++ fr ++ fo)
  = Ret (Ok (mkDownstream (i32 (be_decode r)) (be_decode o) h d
               (be_decode fr =? 1) (be_decode fo =? 1))).
Proof.
  intros Hr Ho Hn Hfr Hfo Hlen. unfold UDP_FromBytes.
  destruct (Z.ltb_spec (len (r ++ o ++ n ++ h ++ d ++ fr ++ fo)) 8) as [Hs|_]; [slen|].
  assert (∀ a b c lo hi (l : bytes), l = a ++ b ++ c → lo = len a → hi = len a + len b →
    slice l lo hi = Ret b) as Hslice by (intros ?????? -> ??; by apply slice_app_mid).
  rewrite (Hslice [] r (o ++ n ++ h ++ d ++ fr ++ fo) 0 4) by (done || slen). cbn [mbind go_bind].
  rewrite (Hslice r o (n ++ h ++ d ++ fr ++ fo) 4 8) by (done || slen). cbn [mbind go_bind].
  rewrite (Hslice (r ++ o) n (h ++ d ++ fr ++ fo) 8 12) by (rewrite <- ?app_assoc; done || slen).
  cbn [mbind go_bind].
  rewrite (Hslice (r ++ o ++ n ++ h ++ d) fr fo (_ - 8) (_ - 4)) by (rewrite <- ?app_assoc; done || slen).
  cbn [mbind go_bind]. unfold slice_from.
  rewrite (Hslice (r ++ o ++ n ++ h ++ d ++ fr) fo [] (_ - 4) (len _))
    by (rewrite <- ?app_assoc, ?app_nil_r; done || slen).
  cbn [mbind go_bind]. rewrite Hlen.
  rewrite (Hslice (r ++ o ++ n) h (d ++ fr ++ fo) 12 (12 + len h)) by (rewrite <- ?app_assoc; done || slen).
  cbn [mbind go_bind].
  rewrite (Hslice (r ++ o ++ n ++ h) d (fr ++ fo)) by (rewrite <- ?app_assoc; done || slen).
  done.
Qed.

(** A downstream message survives the UDP encoding: the round number
    (any int32), the hash, the data and both flags come back unchanged, and the
    owner comes back as an unsigned 32-bit number, so "no owner" (-1) is read as
    4294967295. *)
Theorem UDP_roundtrip m :
  - 2147483648 ≤ dd_RoundID m < 2147483648 → len (dd_HashOfPreviousUpstreamData m) < 2 ^ 32 →
  (buf ← UDP_ToBytes m; UDP_FromBytes buf)
  = Ret (Ok (mkDownstream (dd_RoundID m) (u32 (dd_OwnershipID m))
      (dd_HashOfPreviousUpstreamData m) (dd_Data m)
      (dd_FlagResync m) (dd_FlagOpenClosedRequest m))).
Proof.
  intros Hr Hh. rewrite UDP_ToBytes_layout. cbn [mbind go_bind]. unfold UDP_layout.
  pose proof (len_nonneg (dd_HashOfPreviousUpstreamData m)).
  rewrite UDP_FromBytes_parts; [|apply length_be_encode..|].
  2:{ rewrite be_u32. by rewrite !(wrap_u_small 32 (len _)) by lia. }
  rewrite !be_u32, !(wrap_u_small 32 (wrap_u 32 _)) by (by apply wrap_u_range).
  rewrite i32_u32 by done. by destruct (dd_FlagResync m), (dd_FlagOpenClosedRequest m).
Qed.

Lemma UDP_roundtrip_witness :
  (buf ← UDP_ToBytes (mkDownstream 7 (-1) [1; 2] [3; 4; 5] false true); UDP_FromBytes buf)
  = Ret (Ok (mkDownstream 7 4294967295 [1; 2] [3; 4; 5] false true)).
Proof. apply (UDP_roundtrip (mkDownstream 7 (-1) [1; 2] [3; 4; 5] false true)); [cbn; lia | done]. Defined.

(** The length guard of the UDP decoder is too weak: a datagram of 8 to 11
    bytes passes it and the decoder reads beyond its end. *)
Theorem UDP_FromBytes_short buffer :
  (len buffer < 8 → ∃ e, UDP_FromBytes buffer = Ret (Err e))
  ∧ (8 ≤ len buffer < 12 → UDP_FromBytes buffer = Crash RuntimeError).
Proof.
  unfold UDP_FromBytes. split; intros Hl.
  - rewrite (proj2 (Z.ltb_lt _ _) Hl). by eexists.
  - rewrite (proj2 (Z.ltb_ge _ _)) by lia. rewrite (slice_ret buffer 0 4), (slice_ret buffer 4 8) by lia.
    cbn [mbind go_bind].
    by rewrite (slice_crash buffer 8 12) by lia.
Qed.

Lemma UDP_FromBytes_short_witness : UDP_FromBytes (zeros 9) = Crash RuntimeError.
Proof. apply UDP_FromBytes_short. vm_compute. split; congruence. Defined.
