(* ===== verification/StateMachine.v ===== *)
(** * State machine of an entity (prifi-lib/utils/statemachine.go)

    Each protocol entity is guarded by a current state, one of a fixed list of
    names; the log functions have no effect on the protocol. *)

From S2P Require Import Prelude.

Open Scope Z_scope.

(** type StateMachine *)
Record StateMachine := mkStateMachine {
  entity : string;
  currentState : string;
  states : list string
}.

#[export] Instance eta_StateMachine : Eta StateMachine := λ s,
  mkStateMachine (entity s) (currentState s) (states s).

(** func allowedState *)
Definition allowedState (states : list string) (input : string) : bool :=
  existsb (λ s, String.eqb s input) states.

(** func (s) Init; the initial state is states[0] *)
Definition Init (states : list string) : go StateMachine :=
  match states with
  | [] => Crash RuntimeError
  | s0 :: _ => Ret (mkStateMachine "" s0 states)
  end.

(** func (s) SetEntity *)
Definition SetEntity (s : StateMachine) (e : string) : StateMachine := s <| entity := e |>.

(** func (s) AssertState *)
Definition AssertState (s : StateMachine) (state : string) : bool :=
  if negb (allowedState (states s) state) then false
  else if negb (String.eqb (currentState s) state) then false
  else true.

(** func (s) AssertStateOrState *)
Definition AssertStateOrState (s : StateMachine) (state1 state2 : string) : bool :=
  if negb (allowedState (states s) state1) then false
  else if negb (allowedState (states s) state2) then false
  else if negb (String.eqb (currentState s) state1) && negb (String.eqb (currentState s) state2)
  then false else true.

(** func (s) ChangeState *)
Definition ChangeState (s : StateMachine) (newState : string) : StateMachine :=
  if negb (allowedState (states s) newState) then s else s <| currentState := newState |>.

(** func (s) State *)
Definition State (s : StateMachine) : string := currentState s.

(** The current state is always one of the declared states. *)
Definition sm_wf (s : StateMachine) : Prop := currentState s ∈ states s.

Lemma allowedState_spec l x : allowedState l x = true ↔ x ∈ l.
Proof.
  unfold allowedState. rewrite existsb_exists. split.
  - intros (y & Hy & ->%String.eqb_eq). by apply list_elem_of_In.
  - intros Hx. exists x. split; [by apply list_elem_of_In | apply String.eqb_refl].
Qed.

Lemma ChangeState_wf s x : sm_wf s → sm_wf (ChangeState s x).
Proof.
  unfold ChangeState, sm_wf. destruct (allowedState (states s) x) eqn:E; [|done].
  intros _. by apply allowedState_spec.
Qed.

Lemma ChangeState_states s x : states (ChangeState s x) = states s.
Proof. unfold ChangeState. by destruct (allowedState _ _). Qed.

Lemma ChangeState_allowed s x : x ∈ states s → currentState (ChangeState s x) = x.
Proof. intros Hx%allowedState_spec. unfold ChangeState. by rewrite Hx. Qed.

Lemma AssertState_true s x : AssertState s x = true ↔ x ∈ states s ∧ currentState s = x.
Proof.
  unfold AssertState. rewrite <- allowedState_spec.
  destruct (allowedState _ _); cbn; [|intuition congruence].
  destruct (String.eqb_spec (currentState s) x); cbn; intuition congruence.
Qed.

Lemma AssertStateOrState_true s x y :
  AssertStateOrState s x y = true
  ↔ x ∈ states s ∧ y ∈ states s ∧ (currentState s = x ∨ currentState s = y).
Proof.
  unfold AssertStateOrState. rewrite <- !allowedState_spec.
  destruct (allowedState _ x), (allowedState _ y); cbn; try intuition congruence.
  destruct (String.eqb_spec (currentState s) x), (String.eqb_spec (currentState s) y); cbn;
    intuition congruence.
Qed.
