(* ===== verification/Measurements.v ===== *)
(** * Measurement payloads (prifi-lib/log, prifi-lib/utils)

    Latency-test messages a client embeds in its own slots and recognises when
    they come back, the markers of replayed packet captures, the relay's log of
    them, and the bounded buffer of timing statistics.  A [time.Time] is its
    number of nanoseconds; successive readings of the clock are given by a
    function of their rank. *)

From S2P Require Import Prelude Bytes.

Open Scope Z_scope.

(** func MsTimeStamp: t.UnixNano() / int64(time.Millisecond) *)
Definition MsTimeStamp (t : Z) : Z := Z.quot t 1000000.

(** ** Latency messages (log/latencymsg.go) *)

Definition pattern : Z := 43690.
Definition latencyMsgLength : Z := 12.

(** type LatencyTestToSend *)
Record LatencyTestToSend := mkLatencyTest { CreatedAt : Z }.

(** func genLatencyMessagePayload *)
Definition genLatencyMessagePayload (creationTime roundID : Z) : bytes :=
  let currTime := MsTimeStamp creationTime in
  put_u32 (u32 roundID) ++ put_u64 (u64 currTime).

(** [copy(buffer[pos:], b)] *)
Definition copy_from (buffer : bytes) (pos : Z) (b : bytes) : go bytes :=
  tail ← slice_from buffer pos;
  Ret (take (Z.to_nat pos) buffer ++ copy_bytes tail b).

(** The packing loop of LatencyMessagesToBytes: the buffer, the messages left,
    the number packed, and the values reported; [clock k] is the k-th reading *)
Fixpoint packLatency (clock : nat → Z) (k : nat) (msgs : list LatencyTestToSend)
    (roundID payLoadLength : Z) (buffer : bytes) (posInBuffer packed : Z) (reports : list Z)
    : go (bytes * list LatencyTestToSend * Z * list Z) :=
  match msgs with
  | m :: msgs' =>
    if posInBuffer + latencyMsgLength <=? payLoadLength then
      let b := genLatencyMessagePayload (CreatedAt m) roundID in
      buffer ← copy_from buffer posInBuffer b;
      packLatency clock (S k) msgs' roundID payLoadLength buffer (posInBuffer + latencyMsgLength)
        (u16 (packed + 1)) (reports ++ [clock k - MsTimeStamp (CreatedAt m)])
    else Ret (buffer, msgs, packed, reports)
  | [] => Ret (buffer, msgs, packed, reports)
  end.

(** func LatencyMessagesToBytes, with the values given to reportFunction *)
Definition LatencyMessagesToBytes (clock : nat → Z) (msgs : list LatencyTestToSend)
    (clientID roundID payLoadLength : Z) : go (bytes * list LatencyTestToSend * list Z) :=
  if len msgs =? 0 then Ret ([], msgs, []) else
  if payLoadLength <? 18
  then Crash (Panicked "Trying to do a Latency test, but payload is smaller than 18 bytes.") else
  buffer ← make_bytes payLoadLength;
  buffer ← copy_into buffer 0 2 (put_u16 pattern);
  buffer ← copy_into buffer 4 6 (put_u16 (u16 clientID));
  '(buffer, msgs, packed, reports) ← packLatency clock 0 msgs roundID payLoadLength buffer 6 0 [];
  buffer ← copy_into buffer 2 4 (put_u16 packed);
  Ret (buffer, msgs, reports).

(** The decoding loop: the arguments of the calls to actionFunction *)
Fixpoint unpackLatency (clock : nat → Z) (buffer : bytes) (receptionRoundID : Z) (i todo : nat)
    : go (list (Z * Z * Z)) :=
  match todo with
  | O => Ret []
  | S todo =>
    let startPos := 6 + Z.of_nat i * latencyMsgLength in
    r ← slice buffer startPos (startPos + 4);
    t ← slice buffer (startPos + 4) (startPos + 12);
    let originalRoundID := i32 (be_decode r) in
    let timestamp := i64 (be_decode t) in
    let diff := i64 (clock i - timestamp) in
    let roundDiff := i32 (receptionRoundID - originalRoundID) in
    rest ← unpackLatency clock buffer receptionRoundID (S i) todo;
    Ret ((originalRoundID, roundDiff, diff) :: rest)
  end.

(** func DecodeLatencyMessages *)
Definition DecodeLatencyMessages (clock : nat → Z) (buffer : bytes)
    (clientID receptionRoundID : Z) : go (list (Z * Z * Z)) :=
  p ← slice buffer 0 2;
  let patternComp := be_decode p in
  if negb (patternComp =? pattern) then Ret [] else
  n ← slice buffer 2 4;
  let nMessages := be_decode n in
  if len buffer <? 4 + nMessages * latencyMsgLength
  then Crash (Panicked "Invalid message") else
  c ← slice buffer 4 6;
  let clientIDcomp := be_decode c in
  if negb (clientIDcomp =? clientID) then Ret [] else
  unpackLatency clock buffer receptionRoundID 0 (Z.to_nat nMessages).

(** *** Round trip *)

Definition encodeAll (roundID : Z) (msgs : list LatencyTestToSend) : bytes :=
  mjoin ((λ m, genLatencyMessagePayload (CreatedAt m) roundID) <$> msgs).

Lemma length_genLatency t r : length (genLatencyMessagePayload t r) = 12%nat.
Proof. unfold genLatencyMessagePayload. rewrite length_app, !length_be_encode. done. Qed.

Lemma length_encodeAll r msgs : length (encodeAll r msgs) = (12 * length msgs)%nat.
Proof.
  induction msgs as [|m msgs IH]; [done|].
  change (encodeAll r (m :: msgs))
    with (genLatencyMessagePayload (CreatedAt m) r ++ encodeAll r msgs).
  rewrite length_app, length_genLatency, IH. simpl. lia.
Qed.

Lemma copy_from_mid (a b c src : bytes) pos :
  pos = len a → length src = length b → copy_from (a ++ b ++ c) pos src = Ret (a ++ src ++ c).
Proof.
  intros -> Hl. unfold copy_from. rewrite slice_from_app by done. cbn [mbind go_bind].
  rewrite to_nat_len, take_app_length. do 2 f_equal. unfold copy_bytes.
  rewrite take_ge by (rewrite length_app; lia). by rewrite Hl, drop_app_length.
Qed.

(** As many messages are packed as fit. *)
Definition packable (payLoadLength pos : Z) (msgs : list LatencyTestToSend) : nat :=
  Nat.min (length msgs) (Z.to_nat ((payLoadLength - pos) / 12)).

Lemma packLatency_ok clock msgs : ∀ k roundID L (front rest : bytes) packed reports,
  len front + len rest = L → 0 ≤ packed → packed + len msgs < 2 ^ 16 →
  let n := packable L (len front) msgs in
  packLatency clock k msgs roundID L (front ++ rest) (len front) packed reports
  = Ret (front ++ encodeAll roundID (take n msgs) ++ drop (12 * n) rest, drop n msgs,
         packed + Z.of_nat n,
         reports ++ imap (λ i m, clock (k + i)%nat - MsTimeStamp (CreatedAt m)) (take n msgs)).
Proof.
  induction msgs as [|m msgs IH]; intros k roundID L front rest packed reports HL Hp Hb; cbn zeta.
  - unfold packable. simpl. by rewrite app_nil_r, Z.add_0_r.
  - cbn [packLatency]. unfold latencyMsgLength. pose proof (len_nonneg rest).
    destruct (Z.leb_spec (len front + 12) L) as [Hfit|Hno].
    + assert (12 ≤ length rest)%nat as Hr by (unfold len in *; lia).
      rewrite <- (take_drop 12 rest).
      rewrite copy_from_mid; [|done|by rewrite length_genLatency, length_take; lia].
      cbn [mbind go_bind]. rewrite app_assoc.
      set (g := genLatencyMessagePayload (CreatedAt m) roundID).
      assert (length g = 12%nat) as Hg by apply length_genLatency.
      replace (len front + 12) with (len (front ++ g)) by (rewrite len_app; unfold len; lia).
      rewrite (wrap_u_small 16) by (unfold len in *; simpl in *; lia).
      rewrite IH; cbn zeta.
      2:{ rewrite len_app. unfold len in *. rewrite length_drop. lia. }
      2-3: unfold len in *; simpl in *; lia.
      assert (packable L (len front) (m :: msgs) = S (packable L (len (front ++ g)) msgs)) as ->.
      { unfold packable. rewrite len_app. replace (len g) with 12 by (unfold len; lia).
        replace (L - len front) with (L - (len front + 12) + 1 * 12) by lia.
        rewrite Z.div_add by lia. pose proof (Z.div_pos (L - (len front + 12)) 12).
        cbn [length]. lia. }
      set (n := packable L (len (front ++ g)) msgs). f_equal. f_equal; [f_equal; [f_equal|]|].
      * cbn [take]. change (encodeAll roundID (m :: take n msgs)) with (g ++ encodeAll roundID (take n msgs)).
        rewrite <- !app_assoc, drop_drop, take_drop. do 4 f_equal. lia.
      * lia.
      * rewrite <- app_assoc. f_equal. cbn. f_equal; [by rewrite Nat.add_0_r|].
        apply imap_ext. intros i x _. cbn. by rewrite Nat.add_succ_r.
    + assert (packable L (len front) (m :: msgs) = 0%nat) as ->.
      { unfold packable.
        assert ((L - len front) / 12 < 1) by (apply Z.div_lt_upper_bound; lia). lia. }
      by rewrite Z.add_0_r, app_nil_r.
Qed.

Lemma MsTimeStamp_range t : - 2 ^ 63 ≤ t < 2 ^ 63 → - 2 ^ 63 ≤ MsTimeStamp t < 2 ^ 63.
Proof.
  intros Ht. unfold MsTimeStamp.
  pose proof (Z.quot_rem' t 1000000). pose proof (Z.rem_bound_abs t 1000000). lia.
Qed.

Lemma unpackLatency_ok clock recv roundID msgs : ∀ i (front tail : bytes),
  - 2147483648 ≤ roundID < 2147483648 →
  Forall (λ m, - 2 ^ 63 ≤ CreatedAt m < 2 ^ 63) msgs → len front = 6 + Z.of_nat i * 12 →
  unpackLatency clock (front ++ encodeAll roundID msgs ++ tail) recv i (length msgs)
  = Ret (imap (λ k m, (roundID, i32 (recv - roundID),
                       i64 (clock (i + k)%nat - MsTimeStamp (CreatedAt m)))) msgs).
Proof.
  induction msgs as [|m msgs IH]; intros i front tail Hr Hm Hf; [done|].
  apply Forall_cons in Hm as [Hm Hms]. cbn [unpackLatency length]. unfold latencyMsgLength.
  change (encodeAll roundID (m :: msgs))
    with (genLatencyMessagePayload (CreatedAt m) roundID ++ encodeAll roundID msgs).
  unfold genLatencyMessagePayload.
  set (a := put_u32 (u32 roundID)). set (b := put_u64 (u64 (MsTimeStamp (CreatedAt m)))).
  assert (length a = 4%nat ∧ length b = 8%nat) as [Ha Hb] by (split; apply length_be_encode).
  rewrite <- !app_assoc.
  rewrite (slice_app_mid front a (b ++ encodeAll roundID msgs ++ tail) (6 + Z.of_nat i * 12)
    (6 + Z.of_nat i * 12 + 4)) by (unfold len in *; lia).
  cbn [mbind go_bind].
  replace (front ++ a ++ b ++ encodeAll roundID msgs ++ tail)
    with ((front ++ a) ++ b ++ encodeAll roundID msgs ++ tail) by by rewrite <- app_assoc.
  rewrite (slice_app_mid (front ++ a) b) by (rewrite len_app; unfold len in *; lia).
  cbn [mbind go_bind].
  replace ((front ++ a) ++ b ++ encodeAll roundID msgs ++ tail)
    with ((front ++ a ++ b) ++ encodeAll roundID msgs ++ tail) by by rewrite <- !app_assoc.
  rewrite IH by (done || (rewrite !len_app; unfold len in *; lia)). cbn [mbind go_bind].
  unfold a, b. rewrite be_u32, be_u64, (wrap_u_small 32 (wrap_u 32 _)), (wrap_u_small 64 (wrap_u 64 _))
    by (by apply wrap_u_range).
  rewrite i32_u32, i64_u64 by (done || by apply MsTimeStamp_range).
  cbn. rewrite Nat.add_0_r. do 2 f_equal. apply imap_ext. intros k x _. cbn.
  by rewrite Nat.add_succ_r.
Qed.

(** The bytes of a latency message: pattern, count, client, then the entries. *)
Definition latencyLayout (clientID roundID L : Z) (msgs : list LatencyTestToSend) : bytes :=
  put_u16 pattern ++ put_u16 (len msgs) ++ put_u16 (u16 clientID) ++ encodeAll roundID msgs
  ++ zeros (Z.to_nat (L - 6) - 12 * length msgs).

Lemma LatencyMessagesToBytes_layout clock msgs clientID roundID L :
  msgs ≠ [] → 18 ≤ L → len msgs < 2 ^ 16 →
  let n := packable L 6 msgs in
  ∃ reports, LatencyMessagesToBytes clock msgs clientID roundID L
    = Ret (latencyLayout clientID roundID L (take n msgs), drop n msgs, reports).
Proof.
  intros Hne HL Hlen n.
  assert (1 ≤ length msgs)%nat as Hl1 by (destruct msgs; [done | simpl; lia]).
  unfold LatencyMessagesToBytes.
  rewrite (proj2 (Z.eqb_neq _ _)) by (unfold len; lia). rewrite (proj2 (Z.ltb_ge _ _)) by lia.
  rewrite make_bytes_ret by lia. cbn [mbind go_bind].
  replace (Z.to_nat L) with (2 + (2 + (2 + Z.to_nat (L - 6))))%nat by lia.
  rewrite !(λ a b, replicate_add a b 0 : zeros (a + b) = zeros a ++ zeros b).
  set (z2 := zeros 2). set (zr := zeros (Z.to_nat (L - 6))).
  assert (length z2 = 2%nat) as Hz2 by apply length_zeros.
  assert (len zr = L - 6) as Hzr by (unfold zr; rewrite len_zeros; lia).
  set (P := put_u16 pattern). set (C := put_u16 (u16 clientID)).
  assert (length P = 2%nat ∧ length C = 2%nat) as [HP HC] by (split; apply length_be_encode).
  rewrite (copy_into_mid [] z2 (z2 ++ z2 ++ zr) P) by (unfold len; simpl; lia). cbn [mbind go_bind app].
  replace (P ++ z2 ++ z2 ++ zr) with ((P ++ z2) ++ z2 ++ zr) by by rewrite <- app_assoc.
  rewrite (copy_into_mid (P ++ z2) z2 zr C) by (rewrite ?len_app; unfold len; lia). cbn [mbind go_bind].
  assert (len ((P ++ z2) ++ C) = 6) as H6 by (rewrite !len_app; unfold len; lia).
  rewrite (app_assoc (P ++ z2) C zr).
  pose proof (packLatency_ok clock msgs 0 roundID L ((P ++ z2) ++ C) zr 0 []) as HK.
  cbn zeta in HK. rewrite H6 in HK. rewrite HK by lia. fold n.
  cbn [mbind go_bind]. rewrite Z.add_0_l, <- !app_assoc.
  rewrite (copy_into_mid P z2 (C ++ _) (put_u16 (Z.of_nat n)))
    by (rewrite ?length_be_encode; unfold len; lia).
  cbn [mbind go_bind]. eexists. unfold latencyLayout. fold P C.
  assert (len (take n msgs) = Z.of_nat n) as ->.
  { unfold len. rewrite length_take. unfold n, packable. lia. }
  assert (length (take n msgs) = n) as ->.
  { rewrite length_take. unfold n, packable. lia. }
  unfold zr. do 7 f_equal. unfold zeros. by rewrite drop_replicate.
Qed.

Lemma DecodeLatencyMessages_layout clock msgs clientID roundID recv L :
  12 * len msgs ≤ L - 6 → len msgs < 2 ^ 16 → 0 ≤ clientID < 2 ^ 16 →
  - 2147483648 ≤ roundID < 2147483648 →
  Forall (λ m, - 2 ^ 63 ≤ CreatedAt m < 2 ^ 63) msgs →
  DecodeLatencyMessages clock (latencyLayout clientID roundID L msgs) clientID recv
    = Ret (imap (λ k m, (roundID, i32 (recv - roundID),
                         i64 (clock k - MsTimeStamp (CreatedAt m)))) msgs).
Proof.
  intros Hfit Hlen Hc Hr Hm. unfold DecodeLatencyMessages, latencyLayout.
  set (P := put_u16 pattern). set (C := put_u16 (u16 clientID)). set (N := put_u16 (len msgs)).
  assert (length P = 2%nat ∧ length C = 2%nat ∧ length N = 2%nat) as (HP & HC & HN)
    by (repeat split; apply length_be_encode).
  pose proof (len_nonneg msgs).
  assert (len (encodeAll roundID msgs) = 12 * len msgs) as HE
    by (unfold len; rewrite length_encodeAll; lia).
  rewrite (slice_app_l P _ 2) by (unfold len; lia). cbn [mbind go_bind].
  assert (be_decode P = pattern) as -> by (unfold P; rewrite be_u16; by apply wrap_u_small).
  rewrite Z.eqb_refl. cbn [negb].
  rewrite (slice_app_mid P N _ 2 4) by (unfold len; lia). cbn [mbind go_bind].
  assert (be_decode N = len msgs) as ->
    by (unfold N; rewrite be_u16; apply wrap_u_small; lia).
  unfold latencyMsgLength. rewrite (proj2 (Z.ltb_ge _ _))
    by (rewrite !len_app, HE; unfold len; lia).
  rewrite (app_assoc P N). rewrite (slice_app_mid (P ++ N) C _ 4 6) by (rewrite ?len_app; unfold len; lia).
  cbn [mbind go_bind].
  assert (be_decode C = clientID) as ->
    by (unfold C; rewrite be_u16, !(wrap_u_small 16) by (rewrite ?wrap_u_small; lia); done).
  rewrite Z.eqb_refl, to_nat_len. cbn [negb]. rewrite (app_assoc (P ++ N) C).
  rewrite (unpackLatency_ok clock recv roundID msgs 0); [done | done | done |].
  rewrite !len_app. unfold len. lia.
Qed.

(** Latency messages survive the trip: as many of the waiting messages as
    fit are packed (at least one) and the others stay in the queue in order;
    when the bytes come back, the same client recovers one measurement per
    packed message, in order, with the round it was sent in, the number of
    rounds since, and the time since its creation. *)
Theorem latency_roundtrip clock clock' msgs clientID roundID recv L :
  msgs ≠ [] → 18 ≤ L → len msgs < 2 ^ 16 → 0 ≤ clientID < 2 ^ 16 →
  - 2147483648 ≤ roundID < 2147483648 →
  Forall (λ m, - 2 ^ 63 ≤ CreatedAt m < 2 ^ 63) msgs →
  let n := Nat.min (length msgs) (Z.to_nat ((L - 6) / 12)) in
  (1 ≤ n)%nat ∧
  ∃ buf reports, LatencyMessagesToBytes clock msgs clientID roundID L
    = Ret (buf, drop n msgs, reports) ∧ len buf = L ∧
  DecodeLatencyMessages clock' buf clientID recv
    = Ret (imap (λ k m, (roundID, i32 (recv - roundID),
                         i64 (clock' k - MsTimeStamp (CreatedAt m)))) (take n msgs)).
Proof.
  intros Hne HL Hlen Hc Hr Hm n.
  assert (1 ≤ length msgs)%nat as Hl1 by (destruct msgs; [done | simpl; lia]).
  assert (1 ≤ (L - 6) / 12) as Hq by (apply Z.div_le_lower_bound; lia).
  assert (12 * Z.of_nat n ≤ L - 6) as Hfit by (pose proof (Z.mul_div_le (L - 6) 12); lia).
  assert (length (take n msgs) = n) as Hn by (rewrite length_take; lia).
  split; [lia|].
  destruct (LatencyMessagesToBytes_layout clock msgs clientID roundID L) as [reports E]; [done..|].
  exists (latencyLayout clientID roundID L (take n msgs)), reports. split; [exact E|]. split.
  - unfold latencyLayout. rewrite !len_app, len_zeros, !len_be_encode.
    unfold len. rewrite length_encodeAll, Hn. lia.
  - apply DecodeLatencyMessages_layout; try done; [unfold len in *; lia.. | by apply Forall_take].
Qed.

Lemma latency_roundtrip_witness :
  ∃ buf reports, LatencyMessagesToBytes (λ _, 50) [mkLatencyTest 1000000; mkLatencyTest 7000000;
      mkLatencyTest 9000000] 3 5 30 = Ret (buf, [mkLatencyTest 9000000], reports) ∧ len buf = 30 ∧
  DecodeLatencyMessages (λ k, 60 + Z.of_nat k) buf 3 8 = Ret [(5, 3, 59); (5, 3, 54)].
Proof.
  apply (latency_roundtrip (λ _, 50) (λ k, 60 + Z.of_nat k)
    [mkLatencyTest 1000000; mkLatencyTest 7000000; mkLatencyTest 9000000] 3 5 8 30);
    [done | lia | done | lia | lia |].
  repeat constructor; cbn; lia.
Defined.

(** The size check of the latency decoder is two bytes too weak: a buffer
    for this client that announces one message and carries 16 or 17 bytes
    passes it and the decoder reads beyond the end. *)
Theorem latency_decode_overrun clock (rest : bytes) clientID recv :
  0 ≤ clientID < 2 ^ 16 → (length rest = 10 ∨ length rest = 11)%nat →
  DecodeLatencyMessages clock (put_u16 pattern ++ put_u16 1 ++ put_u16 clientID ++ rest) clientID recv
  = Crash RuntimeError.
Proof.
  intros Hc Hl. unfold DecodeLatencyMessages.
  set (P := put_u16 pattern). set (N := put_u16 1). set (C := put_u16 clientID).
  assert (length P = 2%nat ∧ length C = 2%nat ∧ length N = 2%nat) as (HP & HC & HN)
    by (repeat split; apply length_be_encode).
  rewrite (slice_app_l P _ 2) by (unfold len; lia). cbn [mbind go_bind].
  assert (be_decode P = pattern) as -> by done. rewrite Z.eqb_refl. cbn [negb].
  rewrite (slice_app_mid P N _ 2 4) by (unfold len; lia). cbn [mbind go_bind].
  assert (be_decode N = 1) as -> by done. unfold latencyMsgLength.
  assert (len (P ++ N ++ C ++ rest) = 6 + len rest) as Hlen by (rewrite !len_app; unfold len; lia).
  rewrite (proj2 (Z.ltb_ge _ _)) by (rewrite Hlen; unfold len; lia).
  rewrite (app_assoc P N). rewrite (slice_app_mid (P ++ N) C _ 4 6) by (rewrite ?len_app; unfold len; lia).
  cbn [mbind go_bind].
  assert (be_decode C = clientID) as -> by (unfold C; rewrite be_u16; apply wrap_u_small; lia).
  rewrite Z.eqb_refl. cbn [negb]. change (Z.to_nat 1) with 1%nat. cbn [unpackLatency].
  unfold latencyMsgLength. rewrite <- (app_assoc P N).
  rewrite (slice_ret _ (6 + Z.of_nat 0 * 12) (6 + Z.of_nat 0 * 12 + 4)) by (rewrite ?Hlen; unfold len; lia).
  cbn [mbind go_bind].
  rewrite slice_crash by (rewrite ?Hlen; unfold len; lia). done.
Qed.

Lemma latency_decode_overrun_witness :
  DecodeLatencyMessages (λ _, 0) (put_u16 pattern ++ put_u16 1 ++ put_u16 0 ++ zeros 10) 0 0
  = Crash RuntimeError.
Proof. apply latency_decode_overrun; [lia | by left]. Defined.

(** ** Packet captures (utils/pcap_parser.go) *)

Module Pcap.
Definition pattern : Z := 21845.
Definition metaMessageLength : Z := 15.

(** type Packet *)
Record Packet := mkPacket {
  ID : Z;
  MsSinceBeginningOfCapture : Z;
  Header : bytes;
  RealLength : Z
}.

(** func metaBytes; [length] is ignored *)
Definition metaBytes (length clientID packetID timeSentInPcap : Z) (isFinalPacket : bool) : bytes :=
  put_u16 pattern ++ put_u16 clientID ++ put_u32 packetID ++ put_u64 timeSentInPcap
  ++ [if isFinalPacket then 1 else 0].

(** The loop that splits one captured packet into fragments of at most
    [maxPayloadLength] bytes; it does not end when that is not positive *)
Fixpoint fragments (fuel : nat) (id clientID t remainingLen maxPayloadLength : Z)
    : go (list Packet) :=
  match fuel with
  | O => Crash Diverges
  | S fuel =>
    if maxPayloadLength <? remainingLen then
      let p2 := mkPacket id t (metaBytes maxPayloadLength clientID id t false) maxPayloadLength in
      rest ← fragments fuel id clientID t (remainingLen - maxPayloadLength) maxPayloadLength;
      Ret (p2 :: rest)
    else
      let remainingLen := if remainingLen <? metaMessageLength then metaMessageLength
                          else remainingLen in
      Ret [mkPacket id t (metaBytes remainingLen clientID id t true) remainingLen]
  end.

(** The loop of ParsePCAP over the parsed packets (timestamp in nanoseconds,
    included length); each packet loses at least one byte per fragment *)
Fixpoint parsePackets (id : Z) (time0 random_offset maxPayloadLength clientID : Z)
    (parsed : list (Z * Z)) : go (list Packet) :=
  match parsed with
  | [] => Ret []
  | (timestamp, includedLen) :: parsed =>
    let t := u64 (u64 (Z.quot (timestamp - time0) 1000000) + random_offset) in
    ps ← fragments (S (Z.to_nat includedLen)) (u32 id) clientID t includedLen maxPayloadLength;
    rest ← parsePackets (id + 1) time0 random_offset maxPayloadLength clientID parsed;
    Ret (ps ++ rest)
  end.

(** func ParsePCAP: [opened] and [parsed] are the answers of os.Open and
    gopcap.Parse, [random_offset] the random number of milliseconds *)
Definition ParsePCAP (opened : result unit) (parsed : result (list (Z * Z))) (random_offset : Z)
    (maxPayloadLength clientID : Z) : go (result (list Packet)) :=
  match opened with
  | Err e => Ret (Err e)
  | Ok _ =>
    match parsed with
    | Err e => Ret (Err e)
    | Ok [] => Ret (Ok [])
    | Ok (((timestamp0, _) :: _) as packets) =>
      out ← parsePackets 0 timestamp0 random_offset maxPayloadLength clientID packets;
      Ret (Ok out)
    end
  end.

Definition is_final (p : Packet) : bool := bool_decide (Header p !! 16%nat = Some 1).

Lemma metaBytes_final l c i t b : bool_decide (metaBytes l c i t b !! 16%nat = Some 1) = b.
Proof.
  unfold metaBytes. rewrite !app_assoc, lookup_app_r by (rewrite !length_app, !length_be_encode; lia).
  rewrite !length_app, !length_be_encode. by destruct b.
Qed.

(** [n] bytes are split into full fragments and a last one with the bytes that are
    left, at least one of them unless there is none, and padded to the length of a
    meta-message; exactly the last one carries the final-fragment flag, and the loop
    ends. *)
Lemma fragments_ok id clientID t maxPayloadLength : ∀ n fuel,
  0 < maxPayloadLength → 0 ≤ n → (Z.to_nat n < fuel)%nat →
  ∃ ps p, fragments fuel id clientID t n maxPayloadLength = Ret (ps ++ [p])
  ∧ Forall (λ q, is_final q = false ∧ RealLength q = maxPayloadLength) ps ∧ is_final p = true
  ∧ ∃ rest, n = Z.of_nat (length ps) * maxPayloadLength + rest ∧ 0 ≤ rest ≤ maxPayloadLength
    ∧ (n ≠ 0 → 0 < rest) ∧ RealLength p = Z.max metaMessageLength rest.
Proof.
  intros n fuel Hm. revert n. induction fuel as [|fuel IH]; intros n Hn Hf; [lia|].
  cbn [fragments]. destruct (Z.ltb_spec maxPayloadLength n) as [Hlt|Hge].
  - destruct (IH (n - maxPayloadLength)) as (ps & p & E & HF & Hp & rest & Hs & Hr & Hnz & Hl); [lia..|].
    rewrite E. cbn [mbind go_bind].
    eexists (mkPacket id t (metaBytes maxPayloadLength clientID id t false) maxPayloadLength :: ps), p.
    split; [done|]. split.
    { constructor; [|done]. split; [|done]. unfold is_final. apply metaBytes_final. }
    split; [done|]. exists rest. cbn [length]. split_and!; [lia | lia | lia | lia | done].
  - eexists [], _. split; [done|]. split; [done|]. split; [apply metaBytes_final|]. exists n.
    unfold metaMessageLength. cbn. destruct (Z.ltb_spec n 15); cbn; lia.
Qed.

Lemma fragments_fields id clientID t maxPayloadLength fuel : ∀ n ps,
  fragments fuel id clientID t n maxPayloadLength = Ret ps →
  Forall (λ p, ID p = id ∧ MsSinceBeginningOfCapture p = t
               ∧ take 16 (Header p) = put_u16 pattern ++ put_u16 clientID ++ put_u32 id ++ put_u64 t) ps.
Proof.
  assert (∀ l b, take 16 (metaBytes l clientID id t b)
                 = put_u16 pattern ++ put_u16 clientID ++ put_u32 id ++ put_u64 t) as Hm.
  { intros l b. unfold metaBytes. rewrite !app_assoc.
    rewrite take_app_length'; [done | by rewrite !length_app, !length_be_encode]. }
  induction fuel as [|fuel IH]; intros n ps; cbn [fragments]; [done|].
  destruct (maxPayloadLength <? n).
  - intros H. go_inv H. injection H as <-. constructor; [done|]. by eapply IH.
  - intros [= <-]. by repeat constructor.
Qed.

(** ** The relay's log of replayed packets (utils/pcap_logger.go) *)

(** type PCAPReceivedPacket *)
Record PCAPReceivedPacket := mkReceived {
  rp_ID : Z; rp_clientID : Z; ReceivedAt : Z; SentAt : Z; Delay : Z; DataLen : Z;
  IsFinalFragment : bool
}.

(** type PCAPLog *)
Record PCAPLog := mkPCAPLog {
  reportID : Z;
  receivedPackets : list PCAPReceivedPacket;
  nextReport : Z;
  period : Z
}.

#[export] Instance eta_PCAPLog : Eta PCAPLog := λ l,
  mkPCAPLog (reportID l) (receivedPackets l) (nextReport l) (period l).

(** func NewPCAPLog *)
Definition NewPCAPLog (now : Z) : PCAPLog := mkPCAPLog 0 [] now 5000000000.

(** func (pl) Print: the statistics are only logged *)
Definition Print_ (pl : PCAPLog) : PCAPLog :=
  pl <| reportID := reportID pl + 1 |> <| receivedPackets := [] |>.

(** func (pl) ReceivedPcap; [msNow] and [now] are its two readings of the clock *)
Definition ReceivedPcap (msNow now : Z) (pl : PCAPLog) (ID clientID : Z) (frag : bool)
    (tsSent tsExperimentStart dataLen : Z) : PCAPLog :=
  let receptionTime := u64 (u64 msNow - tsExperimentStart) in
  let p := mkReceived ID clientID receptionTime tsSent (u64 (receptionTime - tsSent)) dataLen frag in
  let pl := pl <| receivedPackets := receivedPackets pl ++ [p] |> in
  if nextReport pl <? now then (Print_ pl) <| nextReport := now + period pl |> else pl.
End Pcap.

(** ** Timing statistics (log/time_statistics.go) *)

Definition MAX_LATENCY_STORED : Z := 100.

(** type TimeStatistics *)
Record TimeStatistics := mkTimeStatistics {
  ts_nextReport : Z;
  ts_period : Z;
  ts_reportNo : Z;
  totalValuesAdded : Z;
  times : list Z
}.

#[export] Instance eta_TimeStatistics : Eta TimeStatistics := λ s,
  mkTimeStatistics (ts_nextReport s) (ts_period s) (ts_reportNo s) (totalValuesAdded s) (times s).

(** func NewTimeStatistics *)
Definition NewTimeStatistics (now : Z) : TimeStatistics := mkTimeStatistics now 5000000000 0 0 [].

(** func (stats) AddTime *)
Definition AddTime (stats : TimeStatistics) (latency : Z) : TimeStatistics :=
  let stats := stats <| times := times stats ++ [latency] |>
                     <| totalValuesAdded := totalValuesAdded stats + 1 |> in
  if MAX_LATENCY_STORED <? len (times stats) then
    let start := len (times stats) - MAX_LATENCY_STORED in
    stats <| times := drop (Z.to_nat start) (times stats) |>
  else stats.

(** func (stats) ReportWithInfo: whether a report was printed *)
Definition ReportWithInfo (now : Z) (stats : TimeStatistics) : bool * TimeStatistics :=
  if ts_nextReport stats <? now then
    (true, stats <| ts_nextReport := now + ts_period stats |>
                 <| ts_reportNo := ts_reportNo stats + 1 |>)
  else (false, stats).

(** The statistics keep exactly the last 100 values added, in order, and
    count all of them. *)
Theorem AddTime_last_100 now ls :
  times (foldl AddTime (NewTimeStatistics now) ls) = drop (length ls - 100) ls
  ∧ totalValuesAdded (foldl AddTime (NewTimeStatistics now) ls) = len ls.
Proof.
  induction ls as [|x ls IH] using rev_ind; [done|].
  rewrite foldl_snoc. set (s := foldl AddTime (NewTimeStatistics now) ls) in *.
  destruct IH as [IHt IHn]. unfold AddTime. cbn zeta. rewrite len_app, length_app. cbn [length].
  destruct (Z.ltb_spec MAX_LATENCY_STORED (len (times (s <| times := times s ++ [x] |>
      <| totalValuesAdded := totalValuesAdded s + 1 |>)))) as [Hlt|Hge];
    cbn [times totalValuesAdded set_field] in *; rewrite IHt, IHn in *; clear IHt IHn;
    unfold MAX_LATENCY_STORED, len in *; rewrite ?length_app, ?length_drop in *; cbn [length] in *;
    (split; [|lia]).
  - rewrite !drop_app, drop_drop, length_drop. f_equal; f_equal; lia.
  - rewrite drop_app_le by lia. do 2 f_equal. lia.
Qed.
