(* ===== verification/Pkts.v ===== *)
(** * Packet traces in text form (utils/pcap_parser.go)

    A .pkts file has one line [time, bytes, npackets] per packet, the time as
    [h:mm:ss.ms].  ParsePKTS turns it into the fragments a client replays; the
    helpers below it in the same file are modelled too. *)

From Stdlib Require Import Ascii.
From stdpp Require Import pretty.
From S2P Require Import Prelude GoStrings Bytes Messages Measurements.
Import Pcap.

Open Scope Z_scope.

Module Pkts.

(** ** time.Parse with the layout 15:04:05 *)

(** A number of two digits; of one when it is not [fixed] *)
Definition getnum (fixed : bool) (s : string) : option (Z * string) :=
  match s with
  | String a (String b s' as rest) =>
    if isDigit a then
      if isDigit b then Some (digit a * 10 + digit b, s')
      else if fixed then None else Some (digit a, rest)
    else None
  | String a EmptyString => if isDigit a && negb fixed then Some (digit a, EmptyString) else None
  | EmptyString => None
  end.

Definition skip (c : ascii) (s : string) : option string :=
  match s with String x s => if Ascii.eqb x c then Some s else None | EmptyString => None end.

Definition below (bound : Z) (r : Z * string) : option (Z * string) :=
  if r.1 <? bound then Some r else None.

(** Hour, minute and second; [None] is an error *)
Definition time_Parse (s : string) : option (Z * Z * Z) :=
  '(h, s) ← getnum false s ≫= below 24;
  s ← skip ":" s;
  '(m, s) ← getnum true s ≫= below 60;
  s ← skip ":" s;
  '(sec, s) ← getnum true s ≫= below 60;
  if String.eqb s "" then Some (h, m, sec) else None.

(** ** func ParsePKTS *)

(** One line.  Errors of Atoi and Parse are only logged: what they return is used. *)
Definition parseLine (packetID maxPayloadLength clientID : Z) (text : string) : go (list Packet) :=
  let line := Remove "009" text in
  let parts := Split "," line in
  part0 ← index parts 0;
  let parts2 := Split "." (TrimSpace part0) in
  time_str ← index parts2 0;
  time_ms ← index parts2 1;
  let time_ms_i := (Atoi (TrimSpace time_ms)).1 in
  part1 ← index parts 1;
  let '(h, m, s) := default (0, 0, 0) (time_Parse (TrimSpace time_str)) in
  let packet_time_ms :=
    u64 (u64 (h * 3600 * 1000) + u64 (m * 60 * 1000) + u64 (s * 1000) + u64 time_ms_i) in
  let n := (Atoi (TrimSpace part1)).1 in
  fragments (S (Z.to_nat n)) packetID clientID packet_time_ms n maxPayloadLength.

Fixpoint parseLines (packetID maxPayloadLength clientID : Z) (lines : list string) : go (list Packet) :=
  match lines with
  | [] => Ret []
  | line :: lines =>
    ps ← parseLine packetID maxPayloadLength clientID line;
    rest ← parseLines (u32 (packetID + 1)) maxPayloadLength clientID lines;
    Ret (ps ++ rest)
  end.

(** [file] is what os.Open and the reads give: the contents, or the error *)
Definition ParsePKTS (file : result string) (maxPayloadLength clientID : Z)
    : go (result (list Packet)) :=
  match file with
  | Err e => Ret (Err e)
  | Ok text =>
    let '(lines, tooLong) := scanLines text in
    out ← parseLines 0 maxPayloadLength clientID lines;
    Ret (if tooLong : bool then Err "bufio.Scanner: token too long" else Ok out)
  end.

(** ** The other helpers of the file *)

(** func getPayloadOrRandom: the data of the captured packet is never used *)
Definition getPayloadOrRandom (includedLen clientID packetID msSinceBeginningOfCapture : Z) : bytes :=
  metaBytes includedLen clientID packetID msSinceBeginningOfCapture false.

(** func recognizableBytes: the packet's number, repeated up to [length] *)
Fixpoint repeatPattern (fuel : nat) (pattern : bytes) (length pos : Z) (out : bytes) : go bytes :=
  match fuel with
  | O => Crash Diverges
  | S fuel =>
    if pos <? length then
      let copyEndPos := Z.min (pos + len pattern) length in
      src ← slice pattern 0 (copyEndPos - pos);
      out ← copy_into out pos copyEndPos src;
      repeatPattern fuel pattern length copyEndPos out
    else Ret out
  end.
Definition recognizableBytes (length packetID : Z) : go bytes :=
  if length =? 0 then Ret [] else
  out ← make_bytes length;
  repeatPattern (S (Z.to_nat length)) (put_u32 packetID) length 0 out.

(** func randomBytes; [draw] is what rand.Read writes and returns.  The test of
    the error is the wrong way round. *)
Definition randomBytes (draw : Z → bytes * Z * option string) (n : Z) : go bytes :=
  if n =? 0 then Ret [] else
  let '(out, written, err) := draw n in
  match err with
  | None => Crash (Fatal "Could not generate a random packet of length")
  | Some _ => if u32 written =? n then Ret out
              else Crash (Fatal "Could not generate a random packet of length")
  end.

(** The repository's sample has two packets of 562 bytes. *)
Definition sampleFile : string :=
  "0:00:13.0,	562,	1" +:+ String "010" ("0:00:22.999,	562,	1" +:+ String "010" EmptyString).

Lemma sample_parsed :
  ∃ ps, ParsePKTS (Ok sampleFile) 100 0 = Ret (Ok ps) ∧ length ps = 12%nat
  ∧ MsSinceBeginningOfCapture <$> ps = replicate 6 13000 ++ replicate 6 22999.
Proof. eexists. split; [vm_compute; reflexivity | split; reflexivity]. Qed.

(** ** Printing a trace and parsing it *)

Definition pad2 (z : Z) : string := if z <? 10 then "0" +:+ pretty z else pretty z.

Record entry := mkPktsEntry { en_h : Z; en_m : Z; en_s : Z; en_ms : Z; en_bytes : Z; en_n : Z }.

Definition printTime (e : entry) : string :=
  pretty (en_h e) +:+ String ":" (pad2 (en_m e) +:+ String ":" (pad2 (en_s e))).
Definition printLine (e : entry) : string :=
  printTime e +:+ String "." (pretty (en_ms e) +:+ String "," (String "009" (pretty (en_bytes e)
    +:+ String "," (String "009" (pretty (en_n e)))))).
Definition printFile (l : list entry) : string :=
  foldr (λ e s, printLine e +:+ String "010" s) EmptyString l.

Definition entryTime (e : entry) : Z :=
  en_h e * 3600000 + en_m e * 60000 + en_s e * 1000 + en_ms e.

Record entry_ok (e : entry) : Prop := {
  eo_h : 0 ≤ en_h e < 24;
  eo_m : 0 ≤ en_m e < 60;
  eo_s : 0 ≤ en_s e < 60;
  eo_ms : 0 ≤ en_ms e < 1000;
  eo_bytes : 0 ≤ en_bytes e < 2 ^ 62;
  eo_n : 0 ≤ en_n e;
  eo_line : (String.length (printLine e) < 65536)%nat
}.

(** *** Times *)

Lemma below_100 (P : Z → Prop) :
  Forall P (seqZ 0 100) → ∀ z, 0 ≤ z < 100 → P z.
Proof. rewrite Forall_forall. intros H z Hz. apply H, elem_of_seqZ. lia. Qed.

(** One or two digits, and what they are worth *)
Definition two_digits (z : Z) (s : string) : Prop :=
  match s with
  | String a (String b EmptyString) => isDigit a = true ∧ isDigit b = true ∧ digit a * 10 + digit b = z
  | _ => False
  end.

Lemma pad2_two z : 0 ≤ z < 100 → two_digits z (pad2 z).
Proof.
  revert z. apply below_100. repeat (apply Forall_cons; split; [by vm_compute|]). apply Forall_nil_2.
Qed.

Definition colon_hour (z : Z) : Prop :=
  ∀ rest, getnum false (pretty z +:+ String ":" rest) = Some (z, String ":" rest).
Lemma hour_read z : 0 ≤ z < 100 → colon_hour z.
Proof.
  revert z. apply below_100.
  repeat (apply Forall_cons; split; [intros rest; reflexivity|]). apply Forall_nil_2.
Qed.

Lemma getnum_pad2 z rest : 0 ≤ z < 100 → getnum true (pad2 z +:+ rest) = Some (z, rest).
Proof.
  intros Hz. pose proof (pad2_two _ Hz) as H. destruct (pad2 z) as [|a [|b [|? ?]]]; try done.
  destruct H as (Ha & Hb & <-). rewrite !app_String. cbn. by rewrite Ha, Hb.
Qed.

Lemma pad2_digits z : 0 ≤ z → allChars isDigit (pad2 z) = true.
Proof.
  intros Hz. unfold pad2. destruct (z <? 10); [|by apply pretty_digits].
  rewrite allChars_app. by rewrite pretty_digits.
Qed.

Lemma time_Parse_print e : entry_ok e → time_Parse (printTime e) = Some (en_h e, en_m e, en_s e).
Proof.
  intros [Hh Hm Hs _ _ _ _]. unfold time_Parse, printTime.
  rewrite hour_read by lia. unfold below. cbn [mbind option_bind fst].
  destruct (Z.ltb_spec (en_h e) 24); [|lia]. cbn [mbind option_bind skip]. rewrite Ascii.eqb_refl.
  cbn [mbind option_bind]. rewrite getnum_pad2 by lia. cbn [mbind option_bind fst].
  destruct (Z.ltb_spec (en_m e) 60); [|lia]. cbn [mbind option_bind skip]. rewrite Ascii.eqb_refl.
  cbn [mbind option_bind]. replace (pad2 (en_s e)) with (pad2 (en_s e) +:+ EmptyString).
  - rewrite getnum_pad2 by lia. cbn [mbind option_bind fst].
    destruct (Z.ltb_spec (en_s e) 60); [|lia]. done.
  - clear. induction (pad2 (en_s e)) as [|c s IH]; [done|]. by rewrite app_String, IH.
Qed.

(** *** Lines *)

Lemma digit_isNot c x : isDigit c = false → isDigit x = true → isNot c x = true.
Proof. intros Hc Hx. unfold isNot. destruct (Ascii.eqb_spec x c) as [->|]; [congruence | done]. Qed.

Definition timeChar (c : ascii) : bool := isDigit c || Ascii.eqb c ":".

Lemma digits_timeChars s : allChars isDigit s = true → allChars timeChar s = true.
Proof. apply allChars_weaken. intros c Hc. unfold timeChar. by rewrite Hc. Qed.

Lemma printTime_chars e : entry_ok e → allChars timeChar (printTime e) = true.
Proof.
  intros [Hh Hm Hs _ _ _ _]. unfold printTime. rewrite allChars_app. cbn. rewrite allChars_app. cbn.
  by rewrite !digits_timeChars by (apply pretty_digits + apply pad2_digits; lia).
Qed.

Lemma timeChar_isNot c s :
  timeChar c = false → allChars timeChar s = true → allChars (isNot c) s = true.
Proof.
  intros Hc. apply allChars_weaken. intros x Hx. unfold isNot.
  destruct (Ascii.eqb_spec x c) as [->|]; [congruence | done].
Qed.

Lemma timeChar_trim s : allChars timeChar s = true → TrimSpace s = s.
Proof.
  intros H. apply TrimSpace_none. revert H. apply allChars_weaken. intros c.
  unfold timeChar. intros [Hc|Hc]%orb_prop; [by rewrite digit_no_space|].
  apply Ascii.eqb_eq in Hc as ->. done.
Qed.

(** The first column: the time, a dot and the milliseconds *)
Definition printStamp (e : entry) : string := printTime e +:+ String "." (pretty (en_ms e)).

Lemma app_assoc_string a b c : (a +:+ b) +:+ c = a +:+ (b +:+ c).
Proof. induction a as [|x a IH]; [done|]. by rewrite !app_String, IH. Qed.

Lemma printStamp_isNot c e :
  entry_ok e → timeChar c = false → Ascii.eqb "." c = false →
  allChars (isNot c) (printStamp e) = true.
Proof.
  intros He Hc Hd. unfold printStamp. rewrite allChars_app. cbn. unfold isNot at 2. rewrite Hd. cbn.
  rewrite timeChar_isNot by (done || by apply printTime_chars).
  rewrite timeChar_isNot; [done | done | apply digits_timeChars, pretty_digits]. apply He.
Qed.

Lemma printStamp_trim e : entry_ok e → TrimSpace (printStamp e) = printStamp e.
Proof.
  intros He. apply TrimSpace_none. unfold printStamp. rewrite allChars_app. cbn.
  assert (∀ s, allChars timeChar s = true → allChars (λ c, negb (isSpace c)) s = true) as Hs.
  { intros s. apply allChars_weaken. intros c. unfold timeChar.
    intros [Hc|Hc]%orb_prop; [by rewrite digit_no_space|]. by apply Ascii.eqb_eq in Hc as ->. }
  rewrite Hs by (by apply printTime_chars).
  rewrite Hs; [done | apply digits_timeChars, pretty_digits]. apply He.
Qed.

(** Without its tabs a line is its three columns. *)
Lemma columns e :
  entry_ok e →
  Split "," (Remove "009" (printLine e)) = [printStamp e; pretty (en_bytes e); pretty (en_n e)].
Proof.
  intros He. assert (printLine e = printStamp e +:+ String "," (String "009" (pretty (en_bytes e)
    +:+ String "," (String "009" (pretty (en_n e)))))) as ->.
  { unfold printLine, printStamp. rewrite app_assoc_string, app_String. done. }
  rewrite Remove_app, Remove_none by (by apply printStamp_isNot). cbn [Remove].
  change (Ascii.eqb "," "009") with false. change (Ascii.eqb "009" "009") with true. cbn iota.
  rewrite Remove_app. rewrite Remove_none by (apply digits_isNot, pretty_digits; [done | apply He]).
  cbn [Remove]. change (Ascii.eqb "," "009") with false. change (Ascii.eqb "009" "009") with true.
  cbn iota. rewrite Remove_none by (apply digits_isNot, pretty_digits; [done | apply He]).
  rewrite Split_app by (by apply printStamp_isNot).
  rewrite Split_app by (apply digits_isNot, pretty_digits; [done | apply He]).
  by rewrite Split_none by (apply digits_isNot, pretty_digits; [done | apply He]).
Qed.

Lemma parseLine_print id maxPayloadLength clientID e :
  entry_ok e →
  parseLine id maxPayloadLength clientID (printLine e)
  = fragments (S (Z.to_nat (en_bytes e))) id clientID (entryTime e) (en_bytes e) maxPayloadLength.
Proof.
  intros He. unfold parseLine. rewrite columns by done. cbn [index].
  change (index [printStamp e; pretty (en_bytes e); pretty (en_n e)] 0) with (Ret (printStamp e)).
  change (index [printStamp e; pretty (en_bytes e); pretty (en_n e)] 1) with (Ret (pretty (en_bytes e))).
  cbn [mbind go_bind]. rewrite printStamp_trim by done. unfold printStamp.
  rewrite Split_app by (apply timeChar_isNot; [done | by apply printTime_chars]).
  rewrite Split_none by (apply digits_isNot, pretty_digits; [done | apply He]).
  change (index [printTime e; pretty (en_ms e)] 0) with (Ret (printTime e)).
  change (index [printTime e; pretty (en_ms e)] 1) with (Ret (pretty (en_ms e))).
  cbn [mbind go_bind]. rewrite timeChar_trim by (by apply printTime_chars).
  rewrite time_Parse_print by done. cbn [default from_option].
  rewrite !digits_trim by (apply pretty_digits, He).
  destruct He as [Hh Hm Hs Hms Hb _ _].
  rewrite !Atoi_Itoa by (unfold MinInt64, MaxInt64; lia). cbn [fst].
  f_equal. unfold entryTime.
  rewrite (wrap_u_small _ (en_h e * _ * _)), (wrap_u_small _ (en_m e * _ * _)),
    (wrap_u_small _ (en_s e * _)), (wrap_u_small _ (en_ms e)) by lia.
  rewrite wrap_u_small; lia.
Qed.

(** *** Files *)

Lemma dropCR_last s c : Ascii.eqb c "013" = false → dropCR (s +:+ String c EmptyString) = s +:+ String c EmptyString.
Proof.
  intros Hc. induction s as [|x s IH].
  { change (EmptyString +:+ String c EmptyString) with (String c EmptyString). cbn. by rewrite Hc. }
  rewrite app_String. cbn [dropCR].
  rewrite IH. by destruct s.
Qed.

Lemma digits_last s :
  s ≠ EmptyString → allChars isDigit s = true → ∃ s' c, s = s' +:+ String c EmptyString ∧ isDigit c = true.
Proof.
  induction s as [|x s IH]; [done|]. intros _ [Hx Hs]%andb_prop. destruct s as [|y s].
  - by exists EmptyString, x.
  - destruct IH as (s' & c & E & Hc); [done..|]. exists (String x s'), c. by rewrite app_String, <- E.
Qed.

Lemma printLine_dropCR e : entry_ok e → dropCR (printLine e) = printLine e.
Proof.
  intros He. destruct (digits_last (pretty (en_n e))) as (s & c & E & Hc);
    [apply pretty_nonempty | apply pretty_digits, He|].
  assert (∃ a, printLine e = a +:+ String c EmptyString) as [a ->].
  { exists (printStamp e +:+ String "," (String "009" (pretty (en_bytes e)
            +:+ String "," (String "009" s)))).
    unfold printLine, printStamp. rewrite E, !app_assoc_string, !app_String, !app_assoc_string, !app_String.
    done. }
  apply dropCR_last. apply Ascii.eqb_neq. by intros ->.
Qed.

Lemma printLine_one_line e : entry_ok e → allChars (isNot "010") (printLine e) = true.
Proof.
  intros He. unfold printLine. rewrite allChars_app. cbn. rewrite !allChars_app. cbn. rewrite allChars_app. cbn.
  rewrite timeChar_isNot by (done || by apply printTime_chars).
  by rewrite !digits_isNot by (done || apply pretty_digits, He).
Qed.

Lemma scanLines_print l : Forall entry_ok l → scanLines (printFile l) = (printLine <$> l, false).
Proof.
  unfold scanLines. induction 1 as [|e l He HF IH]; [done|]. cbn [printFile foldr].
  rewrite Split_app by (by apply printLine_one_line). cbn [fmap list_fmap].
  fold (printFile l). destruct (Split "010" (printFile l)) as [|w ws] eqn:Es.
  - by destruct l as [|e' l]; [|cbn in Es; destruct (Split "010" _)].
  - cbn [scan]. cbn [scan] in IH. rewrite IH. destruct (Nat.leb_spec 65536 (String.length (printLine e))) as [Hl|Hl].
    + pose proof (eo_line _ He). lia.
    + by rewrite printLine_dropCR.
Qed.

(** The packets a client replays for the [i]-th line *)
Record replays (maxPayloadLength clientID : Z) (i : nat) (e : entry) (ps : list Packet) : Prop := {
  rep_fields : Forall (λ p, ID p = Z.of_nat i ∧ MsSinceBeginningOfCapture p = entryTime e
    ∧ take 16 (Header p) = put_u16 pattern ++ put_u16 clientID ++ put_u32 (Z.of_nat i)
                           ++ put_u64 (entryTime e)) ps;
  rep_lengths : ∃ qs q rest, ps = qs ++ [q] ∧ is_final q = true
    ∧ Forall (λ p, is_final p = false ∧ RealLength p = maxPayloadLength) qs
    ∧ en_bytes e = Z.of_nat (length qs) * maxPayloadLength + rest ∧ 0 ≤ rest ≤ maxPayloadLength
    ∧ (en_bytes e ≠ 0 → 0 < rest) ∧ RealLength q = Z.max metaMessageLength rest
}.

Lemma parseLine_replays maxPayloadLength clientID i e :
  0 < maxPayloadLength → entry_ok e →
  ∃ ps, parseLine (Z.of_nat i) maxPayloadLength clientID (printLine e) = Ret ps
        ∧ replays maxPayloadLength clientID i e ps.
Proof.
  intros Hm He. rewrite parseLine_print by done.
  destruct (fragments_ok (Z.of_nat i) clientID (entryTime e) maxPayloadLength (en_bytes e)
              (S (Z.to_nat (en_bytes e)))) as (qs & q & E & HF & Hq & rest & HS);
    [done | apply He | lia|].
  exists (qs ++ [q]). split; [done|]. split; [by eapply fragments_fields | by exists qs, q, rest].
Qed.

Lemma parseLines_replays maxPayloadLength clientID l : ∀ i,
  0 < maxPayloadLength → Forall entry_ok l → Z.of_nat (i + length l) ≤ 2 ^ 32 →
  ∃ pss, parseLines (u32 (Z.of_nat i)) maxPayloadLength clientID (printLine <$> l) = Ret (concat pss)
         ∧ Forall2 (λ '(k, e) ps, replays maxPayloadLength clientID (i + k) e ps) (imap pair l) pss.
Proof.
  induction l as [|e l IH]; intros i Hm HF Hlen; [exists []; by split|].
  apply Forall_cons in HF as [He HF]. cbn [length] in Hlen.
  rewrite wrap_u_small by lia.
  destruct (parseLine_replays maxPayloadLength clientID i e) as (ps & E & Hps); [done..|].
  destruct (IH (S i)) as (pss & E' & Hpss); [done | done | lia|].
  exists (ps :: pss). split.
  - cbn [fmap list_fmap parseLines]. rewrite E. cbn [mbind go_bind].
    replace (Z.of_nat i + 1) with (Z.of_nat (S i)) by lia. by rewrite E'.
  - cbn [imap]. constructor; [by rewrite Nat.add_0_r|].
    rewrite Forall2_lookup in *. intros k. specialize (Hpss k). rewrite list_lookup_imap in *.
    destruct (l !! k); cbn in Hpss |- *; inversion Hpss; constructor.
    by replace (i + S k)%nat with (S i + k)%nat by lia.
Qed.

(** C39: A trace written line by line as [h:mm:ss.ms, bytes, n] and parsed by
    ParsePKTS comes back as one group of fragments per line, in order: every
    fragment carries the line's number, its time of day in milliseconds and the
    header the relay recognises, exactly the last is marked final, all but the last
    are full, and the last has the bytes of the line that are left, or 15 if there
    are fewer (a short last fragment is padded to the length of a meta-message, so
    the lengths of a line can add up to more than the line says). *)
Theorem pkts_roundtrip maxPayloadLength clientID l :
  0 < maxPayloadLength → Forall entry_ok l → Z.of_nat (length l) ≤ 2 ^ 32 →
  ∃ pss, ParsePKTS (Ok (printFile l)) maxPayloadLength clientID = Ret (Ok (concat pss))
         ∧ Forall2 (λ '(i, e) ps, replays maxPayloadLength clientID i e ps) (imap pair l) pss.
Proof.
  intros Hm HF Hl. unfold ParsePKTS. rewrite scanLines_print by done.
  destruct (parseLines_replays maxPayloadLength clientID l 0) as (pss & E & HP); [done..|].
  exists pss. split; [|done]. change (u32 (Z.of_nat 0)) with 0 in E. by rewrite E.
Qed.

(** A line of 505 bytes in cells of 100: the 5 bytes that are left become 15. *)
Lemma padded_line :
  ∃ ps, ParsePKTS (Ok (printFile [mkPktsEntry 0 0 1 0 505 1])) 100 0 = Ret (Ok ps)
        ∧ RealLength <$> ps = [100; 100; 100; 100; 100; 15].
Proof. eexists. split; [vm_compute; reflexivity | reflexivity]. Qed.

Definition trace2 : list entry := [mkPktsEntry 0 0 13 0 562 1; mkPktsEntry 23 59 7 999 30 2].

Lemma pkts_roundtrip_witness :
  printFile trace2 = "0:00:13.0,	562,	1" +:+ String "010" ("23:59:07.999,	30,	2" +:+ String "010" EmptyString)
  ∧ ∃ pss, ParsePKTS (Ok (printFile trace2)) 100 0 = Ret (Ok (concat pss))
           ∧ Forall2 (λ '(i, e) ps, replays 100 0 i e ps) (imap pair trace2) pss.
Proof.
  split; [vm_compute; reflexivity|]. apply (pkts_roundtrip 100 0 trace2).
  - lia.
  - apply Forall_cons; split; [|apply Forall_singleton];
      (split; [cbn; lia..|]); apply Nat.ltb_lt; vm_compute; reflexivity.
  - vm_compute. discriminate.
Defined.
End Pkts.
