(* ===== verification/Statistics.v ===== *)
(** * Counters for experiment reports (prifi-lib/log, utils/timing.go)

    The relay's bitrate and schedule statistics and the named stopwatches.
    The text of a report is not modelled: a report is whether one was printed
    and the counters it was printed from. *)

From S2P Require Import Prelude Bytes Measurements.

Open Scope Z_scope.

(** ** Stopwatches (utils/timing.go); the package variable startTimes *)

(** func StartMeasure: a running measure is not restarted *)
Definition StartMeasure (now : Z) (name : string) (startTimes : gmap string Z) : gmap string Z :=
  match startTimes !! name with Some _ => startTimes | None => <[name := now]> startTimes end.

(** func StopMeasure *)
Definition StopMeasure (now : Z) (name : string) (startTimes : gmap string Z)
    : Z * gmap string Z :=
  match startTimes !! name with
  | Some start => (now - start, delete name startTimes)
  | None => (0, startTimes)
  end.

(** ** Bitrates (log/bw_statistics.go) *)

(** type BitrateStatistics *)
Record BitrateStatistics := mkBitrate {
  bw_begin : Z;
  bw_nextReport : Z;
  bw_period : Z;
  cellSize : Z;
  totalUpstreamCells : Z;
  totalUpstreamBytes : Z;
  totalDownstreamCells : Z;
  totalDownstreamBytes : Z;
  instantUpstreamCells : Z;
  instantUpstreamBytes : Z;
  instantDownstreamBytes : Z;
  totalDownstreamUDPCells : Z;
  totalDownstreamUDPBytes : Z;
  instantDownstreamUDPBytes : Z;
  totalDownstreamRetransmitCells : Z;
  totalDownstreamRetransmitBytes : Z;
  instantDownstreamRetransmitBytes : Z;
  bw_reportNo : Z
}.

#[export] Instance eta_Bitrate : Eta BitrateStatistics := λ s,
  mkBitrate (bw_begin s) (bw_nextReport s) (bw_period s) (cellSize s) (totalUpstreamCells s)
    (totalUpstreamBytes s) (totalDownstreamCells s) (totalDownstreamBytes s)
    (instantUpstreamCells s) (instantUpstreamBytes s) (instantDownstreamBytes s)
    (totalDownstreamUDPCells s) (totalDownstreamUDPBytes s) (instantDownstreamUDPBytes s)
    (totalDownstreamRetransmitCells s) (totalDownstreamRetransmitBytes s)
    (instantDownstreamRetransmitBytes s) (bw_reportNo s).

(** func NewBitRateStatistics *)
Definition NewBitRateStatistics (now cellSize : Z) : BitrateStatistics :=
  mkBitrate now now 5000000000 cellSize 0 0 0 0 0 0 0 0 0 0 0 0 0 0.

(** func (stats) AddDownstreamCell *)
Definition AddDownstreamCell (s : BitrateStatistics) (nBytes : Z) : BitrateStatistics :=
  s <| totalDownstreamCells := i64 (totalDownstreamCells s + 1) |>
    <| totalDownstreamBytes := i64 (totalDownstreamBytes s + nBytes) |>
    <| instantDownstreamBytes := i64 (instantDownstreamBytes s + nBytes) |>.

(** func (stats) AddDownstreamUDPCell; the number of clients is not used *)
Definition AddDownstreamUDPCell (s : BitrateStatistics) (nBytes nclients : Z) : BitrateStatistics :=
  s <| totalDownstreamUDPCells := i64 (totalDownstreamUDPCells s + 1) |>
    <| totalDownstreamUDPBytes := i64 (totalDownstreamUDPBytes s + nBytes) |>
    <| instantDownstreamUDPBytes := i64 (instantDownstreamUDPBytes s + nBytes) |>.

(** func (stats) AddDownstreamRetransmitCell *)
Definition AddDownstreamRetransmitCell (s : BitrateStatistics) (nBytes : Z) : BitrateStatistics :=
  s <| totalDownstreamRetransmitCells := i64 (totalDownstreamRetransmitCells s + 1) |>
    <| totalDownstreamRetransmitBytes := i64 (totalDownstreamRetransmitBytes s + nBytes) |>
    <| instantDownstreamRetransmitBytes := i64 (instantDownstreamRetransmitBytes s + nBytes) |>.

(** func (stats) AddUpstreamCell *)
Definition AddUpstreamCell (s : BitrateStatistics) (nBytes : Z) : BitrateStatistics :=
  s <| totalUpstreamCells := i64 (totalUpstreamCells s + 1) |>
    <| totalUpstreamBytes := i64 (totalUpstreamBytes s + nBytes) |>
    <| instantUpstreamCells := i64 (instantUpstreamCells s + 1) |>
    <| instantUpstreamBytes := i64 (instantUpstreamBytes s + nBytes) |>.

(** func (stats) Report, ReportWithInfo: the counters the report shows (upstream
    cells, upstream, downstream, UDP and retransmitted bytes), if one is due *)
Definition bw_Report (now : Z) (s : BitrateStatistics) : option (list Z) * BitrateStatistics :=
  if bw_nextReport s <? now then
    (Some [instantUpstreamCells s; instantUpstreamBytes s; instantDownstreamBytes s;
           instantDownstreamUDPBytes s; instantDownstreamRetransmitBytes s],
     s <| instantUpstreamCells := 0 |> <| instantUpstreamBytes := 0 |>
       <| instantDownstreamBytes := 0 |> <| instantDownstreamUDPBytes := 0 |>
       <| instantDownstreamRetransmitBytes := 0 |>
       <| bw_nextReport := now + bw_period s |> <| bw_reportNo := bw_reportNo s + 1 |>)
  else (None, s).

(** ** Schedules (log/schedules_statistics.go) *)

(** type SchedulesStatistics *)
Record SchedulesStatistics := mkSchedules {
  sc_begin : Z;
  sc_nextReport : Z;
  sc_period : Z;
  sc_reportNo : Z;
  scheduleLengthRepartitions : gmap Z Z
}.

#[export] Instance eta_Schedules : Eta SchedulesStatistics := λ s,
  mkSchedules (sc_begin s) (sc_nextReport s) (sc_period s) (sc_reportNo s)
    (scheduleLengthRepartitions s).

(** func NewSchedulesStatistics *)
Definition NewSchedulesStatistics (now : Z) : SchedulesStatistics :=
  mkSchedules now now 5000000000 0 ∅.

(** func (stats) AddSchedule *)
Definition AddSchedule (s : SchedulesStatistics) (newSchedule : gmap Z bool) : SchedulesStatistics :=
  let scheduleLength := len (filter (λ p : Z * bool, p.2 = true) (map_to_list newSchedule)) in
  let m := scheduleLengthRepartitions s in
  s <| scheduleLengthRepartitions :=
         <[scheduleLength := default 0 (m !! scheduleLength) + 1]> m |>.

(** func (stats) Report, ReportWithInfo: the distribution shown, if one is due *)
Definition sc_Report (now : Z) (s : SchedulesStatistics)
    : option (gmap Z Z) * SchedulesStatistics :=
  if sc_nextReport s <? now then
    (Some (scheduleLengthRepartitions s),
     s <| sc_nextReport := now + sc_period s |> <| sc_reportNo := sc_reportNo s + 1 |>)
  else (None, s).
