(* ===== verification/RoundManager.v ===== *)
(** * The relay's round manager (prifi-lib/relay/bufferableRoundManager.go)

    Buffers the ciphers of clients and trustees per round, opens and closes
    rounds, chooses slot owners, and tells trustees to stop or resume sending.
    Every exported method holds the mutex for its whole body, so each is one
    atomic operation on the state. *)

From S2P Require Import Prelude Bytes Messages.

Open Scope Z_scope.

(** A call of stopFunction or resumeFunction with a trustee's ID *)
Inductive rateEvent := StopTrustee (trusteeID : Z) | ResumeTrustee (trusteeID : Z).

#[export] Instance rateEvent_eq_dec : EqDecision rateEvent.
Proof. solve_decision. Defined.

(** type BufferableRoundManager.  A nil schedule and an empty one are treated
    alike by the code; a missing inner map reads as empty. *)
Record BufferableRoundManager := mkRoundManager {
  nClients : Z;
  nTrustees : Z;
  maxNumberOfConcurrentRounds : Z;
  clientAckMap : gmap Z bool;
  trusteeAckMap : gmap Z bool;
  bufferedClientCiphers : gmap Z (gmap Z bytes);
  bufferedTrusteeCiphers : gmap Z (gmap Z bytes);
  lastRoundClosed : Z;
  lastOwner : Z;
  nextOCSlotRound : Z;
  dataAlreadySent : gmap Z (option REL_CLI_DOWNSTREAM_DATA);
  openRounds : gmap Z Z;
  storedOwnerSchedule : gmap Z bool;
  DoSendStopResumeMessages : bool;
  LowBound : Z;
  HighBound : Z;
  stopSent : gmap Z bool;
  resumeSent : gmap Z bool
}.

#[export] Instance eta_RoundManager : Eta BufferableRoundManager := λ b,
  mkRoundManager (nClients b) (nTrustees b) (maxNumberOfConcurrentRounds b) (clientAckMap b)
    (trusteeAckMap b) (bufferedClientCiphers b) (bufferedTrusteeCiphers b) (lastRoundClosed b)
    (lastOwner b) (nextOCSlotRound b) (dataAlreadySent b) (openRounds b) (storedOwnerSchedule b)
    (DoSendStopResumeMessages b) (LowBound b) (HighBound b) (stopSent b) (resumeSent b).

(** [for i := 0; i < n; i++] *)
Definition ids (n : Z) : list Z := Z.of_nat <$> seq 0 (Z.to_nat n).

(** [buffer[entityID]], the zero value of a missing entry being a nil map *)
Definition bufferOf (buffer : gmap Z (gmap Z bytes)) (entityID : Z) : gmap Z bytes :=
  default ∅ (buffer !! entityID).

(** [m[k]] of a map of bools *)
Definition boolAt (m : gmap Z bool) (k : Z) : bool := default false (m !! k).

(** One of the two loops of resetACKmaps and AddRateLimiter *)
Definition allFalse (n : Z) : gmap Z bool := foldl (λ m i, <[i := false]> m) ∅ (ids n).

(** func (b) resetACKmaps *)
Definition resetACKmaps (b : BufferableRoundManager) : BufferableRoundManager :=
  b <| clientAckMap := allFalse (nClients b) |> <| trusteeAckMap := allFalse (nTrustees b) |>.

(** The loops that acknowledge the ciphers already buffered for a round *)
Definition ackBuffered (buffer : gmap Z (gmap Z bytes)) (n roundID : Z) (acks : gmap Z bool) :=
  foldl (λ m i, match bufferOf buffer i !! roundID with
                | Some _ => <[i := true]> m | None => m end) acks (ids n).

Definition useBufferedCiphers (b : BufferableRoundManager) (roundID : Z) : BufferableRoundManager :=
  b <| clientAckMap := ackBuffered (bufferedClientCiphers b) (nClients b) roundID (clientAckMap b) |>
    <| trusteeAckMap := ackBuffered (bufferedTrusteeCiphers b) (nTrustees b) roundID (trusteeAckMap b) |>.

(** [for i := 0; i < n; i++ { delete(buffer[i], roundID) }] *)
Definition discardRound (buffer : gmap Z (gmap Z bytes)) (n roundID : Z) :=
  foldl (λ m i, alter (delete roundID) i m) buffer (ids n).

(** func NewBufferableRoundManager *)
Definition NewBufferableRoundManager (nC nT maxRounds : Z) : go BufferableRoundManager :=
  if nC + nT =? 0
  then Crash (Fatal "Can't init a BufferableRoundManager with no clients nor trustees") else
  Ret (resetACKmaps (mkRoundManager nC nT maxRounds ∅ ∅ ∅ ∅ (-1) (-1) 1 ∅ ∅ ∅ false 0 0 ∅ ∅)).

(** func (b) currentRound: the smallest open round *)
Definition currentRound (b : BufferableRoundManager) : bool * Z :=
  if (size (openRounds b) =? 0)%nat then (false, -1) else
  (true, map_fold (λ k _ min, if k <? min then k else min) 2147483647 (openRounds b)).

(** func (b) CurrentRound *)
Definition CurrentRound (b : BufferableRoundManager) : go Z :=
  let '(anyRoundOpen, round) := currentRound b in
  if negb anyRoundOpen
  then Crash (Fatal "Tried to get CurrentRound(), but no round opened !") else Ret round.

(** [for found { nextRoundCandidate++; ... }] *)
Fixpoint firstNotOpen (fuel : nat) (rounds : gmap Z Z) (candidate : Z) : go Z :=
  match fuel with
  | O => Crash Diverges
  | S fuel =>
    match rounds !! candidate with
    | Some _ => firstNotOpen fuel rounds (i32 (candidate + 1))
    | None => Ret candidate
    end
  end.

(** func (b) nextRoundToOpen; a window of [size] open rounds is left after at
    most [size] steps *)
Definition nextRoundToOpen (b : BufferableRoundManager) : go Z :=
  let '(anyRoundOpen, current) := currentRound b in
  let nextRoundCandidate :=
    if negb anyRoundOpen then i32 (lastRoundClosed b + 1) else i32 (current + 1) in
  firstNotOpen (S (size (openRounds b))) (openRounds b) nextRoundCandidate.

(** The search loop of updateAndGetNextOwnerID; the result -1 is [None] *)
Fixpoint nextOpenOwner (fuel : nat) (schedule : gmap Z bool) (n candidate loopCount : Z)
    : go (option Z) :=
  match fuel with
  | O => Crash Diverges
  | S fuel =>
    match schedule !! candidate with
    | Some false =>
      let candidate := Z.rem (candidate + 1) n in
      if loopCount =? Z.of_nat (size schedule) then Ret None
      else nextOpenOwner fuel schedule n candidate (loopCount + 1)
    | _ => Ret (Some candidate)
    end
  end.

(** func (b) updateAndGetNextOwnerID *)
Definition updateAndGetNextOwnerID (b : BufferableRoundManager) : go (Z * BufferableRoundManager) :=
  if nClients b =? 0 then Crash RuntimeError else
  let nextOwnerIDCandidate := Z.rem (lastOwner b + 1) (nClients b) in
  if (size (storedOwnerSchedule b) =? 0)%nat
  then Ret (nextOwnerIDCandidate, b <| lastOwner := nextOwnerIDCandidate |>) else
  found ← nextOpenOwner (S (S (size (storedOwnerSchedule b)))) (storedOwnerSchedule b) (nClients b)
            nextOwnerIDCandidate 0;
  match found with
  | None => Ret (-1, b)
  | Some o => Ret (o, b <| lastOwner := o |>)
  end.

(** func (b) OpenNextRound; [now] is the clock reading *)
Definition OpenNextRound (b : BufferableRoundManager) (now : Z) : go (Z * BufferableRoundManager) :=
  if maxNumberOfConcurrentRounds b <=? Z.of_nat (size (openRounds b))
  then Crash (Fatal "Tried to OpenNextRound(), but we have already rounds opened") else
  let anyRoundOpen := (0 <? size (openRounds b))%nat in
  roundID ← nextRoundToOpen b;
  let b := b <| dataAlreadySent := <[roundID := None]> (dataAlreadySent b) |>
             <| openRounds := <[roundID := now]> (openRounds b) |> in
  let b := if negb anyRoundOpen then useBufferedCiphers (resetACKmaps b) roundID else b in
  Ret (roundID, b).

(** func (b) hasAllCiphersForCurrentRound *)
Definition hasAllCiphersForCurrentRound (b : BufferableRoundManager) : bool :=
  forallb snd (map_to_list (clientAckMap b)) && forallb snd (map_to_list (trusteeAckMap b)).

(** func (b) CollectRoundData; a missing cipher is a nil slice *)
Definition CollectRoundData (b : BufferableRoundManager)
    : result (list (option bytes) * list (option bytes)) * BufferableRoundManager :=
  let '(anyRoundOpen, currentRoundID) := currentRound b in
  if negb anyRoundOpen then (Err "Cannot collect round, none opened !", b) else
  if negb (hasAllCiphersForCurrentRound b)
  then (Err "Cannot collect round yet, missing ciphers.", b) else
  let clientsOut :=
    (λ i, bufferOf (bufferedClientCiphers b) i !! currentRoundID) <$> ids (nClients b) in
  let trusteesOut :=
    (λ i, bufferOf (bufferedTrusteeCiphers b) i !! currentRoundID) <$> ids (nTrustees b) in
  (Ok (clientsOut, trusteesOut),
   b <| bufferedClientCiphers := discardRound (bufferedClientCiphers b) (nClients b) currentRoundID |>
     <| bufferedTrusteeCiphers :=
          discardRound (bufferedTrusteeCiphers b) (nTrustees b) currentRoundID |>).

(** func (b) NumberOfBufferedCiphers *)
Definition NumberOfBufferedCiphers (b : BufferableRoundManager) (trusteeID : Z) : Z :=
  Z.of_nat (size (bufferOf (bufferedTrusteeCiphers b) trusteeID)).

(** func (b) sendRateChangeIfNeeded *)
Definition sendRateChangeIfNeeded (b : BufferableRoundManager) (trusteeID : Z)
    : list rateEvent * BufferableRoundManager :=
  if DoSendStopResumeMessages b then
    let n := NumberOfBufferedCiphers b trusteeID in
    if (HighBound b <=? n) && negb (boolAt (stopSent b) trusteeID) then
      ([StopTrustee trusteeID],
       b <| stopSent := <[trusteeID := true]> (stopSent b) |>
         <| resumeSent := <[trusteeID := false]> (resumeSent b) |>)
    else if (n <=? LowBound b) && negb (boolAt (resumeSent b) trusteeID) then
      ([ResumeTrustee trusteeID],
       b <| stopSent := <[trusteeID := false]> (stopSent b) |>
         <| resumeSent := <[trusteeID := true]> (resumeSent b) |>)
    else ([], b)
  else ([], b).

(** [for trusteeID := range b.bufferedTrusteeCiphers]: the keys of the map *)
Definition sendRateChanges (b : BufferableRoundManager) (trusteeIDs : list Z)
    : list rateEvent * BufferableRoundManager :=
  foldl (λ '(evs, b) t, let '(ev, b) := sendRateChangeIfNeeded b t in (evs ++ ev, b))
        ([], b) trusteeIDs.

(** func (b) closeRound *)
Definition closeRound (b : BufferableRoundManager)
    : result unit * list rateEvent * BufferableRoundManager :=
  let '(anyRoundOpen, currentRoundID) := currentRound b in
  if negb anyRoundOpen then (Err "Cannot close round, none opened !", [], b) else
  let b := b <| dataAlreadySent := delete currentRoundID (dataAlreadySent b) |>
             <| openRounds := delete currentRoundID (openRounds b) |>
             <| bufferedClientCiphers :=
                  discardRound (bufferedClientCiphers b) (nClients b) currentRoundID |>
             <| bufferedTrusteeCiphers :=
                  discardRound (bufferedTrusteeCiphers b) (nTrustees b) currentRoundID |> in
  let '(evs, b) := sendRateChanges b (fst <$> map_to_list (bufferedTrusteeCiphers b)) in
  let b := b <| lastRoundClosed := currentRoundID |> in
  let b := resetACKmaps b in
  let '(anyRoundOpen, newRoundID) := currentRound b in
  let b := if anyRoundOpen then useBufferedCiphers b newRoundID else b in
  (Ok tt, evs, b).

(** func (b) CloseRound *)
Definition CloseRound (b : BufferableRoundManager)
    : result unit * list rateEvent * BufferableRoundManager :=
  let '(anyRoundOpen, currentRoundID) := currentRound b in
  if negb anyRoundOpen then (Err "Cannot close round, none opened !", [], b) else
  if negb (hasAllCiphersForCurrentRound b)
  then (Err "Cannot close round, does not have all ciphers", [], b) else
  closeRound b.

(** func (b) ForceCloseRound *)
Definition ForceCloseRound (b : BufferableRoundManager)
    : result unit * list rateEvent * BufferableRoundManager := closeRound b.

(** func (b) isRoundOpen, func (b) IsRoundOpenend *)
Definition isRoundOpen (b : BufferableRoundManager) (roundID : Z) : bool :=
  match openRounds b !! roundID with Some _ => true | None => false end.

(** func (b) TimeSpentInRound *)
Definition TimeSpentInRound (b : BufferableRoundManager) (now roundID : Z) : Z :=
  match openRounds b !! roundID with Some startTime => now - startTime | None => 0 end.

(** func (b) IsNextDownstreamRoundForOpenClosedRequest *)
Definition IsNextDownstreamRoundForOpenClosedRequest (b : BufferableRoundManager) : go bool :=
  r ← nextRoundToOpen b; Ret (r =? nextOCSlotRound b).

(** func (b) NextDownstreamRoundForOpenClosedRequest *)
Definition NextDownstreamRoundForOpenClosedRequest (b : BufferableRoundManager) : Z :=
  nextOCSlotRound b.

(** func (b) SetStoredRoundSchedule *)
Definition SetStoredRoundSchedule (b : BufferableRoundManager) (s : gmap Z bool)
    : BufferableRoundManager :=
  let numberOfOpenSlots := len (filter (λ p : Z * bool, p.2 = true) (map_to_list s)) in
  let '(_, currentRoundID) := currentRound b in
  b <| storedOwnerSchedule := s |> <| lastOwner := -1 |>
    <| nextOCSlotRound := i32 (currentRoundID + i32 numberOfOpenSlots
                               + i32 (maxNumberOfConcurrentRounds b) + 1) |>.

(** func (b) SetDataAlreadySent *)
Definition SetDataAlreadySent (b : BufferableRoundManager) (roundID : Z)
    (data : option REL_CLI_DOWNSTREAM_DATA) : go BufferableRoundManager :=
  if negb (isRoundOpen b roundID)
  then Crash (Fatal "Called SetDataAlreadySent, but round is already closed.") else
  Ret (b <| dataAlreadySent := <[roundID := data]> (dataAlreadySent b) |>).

(** func (b) GetDataAlreadySent *)
Definition GetDataAlreadySent (b : BufferableRoundManager) (roundID : Z)
    : go (option REL_CLI_DOWNSTREAM_DATA) :=
  match dataAlreadySent b !! roundID with
  | Some data => Ret data
  | None => Crash (Fatal "Requested data already sent for round, but round has been closed already")
  end.

(** func (b) addToBuffer *)
Definition addToBuffer (buffer : gmap Z (gmap Z bytes)) (roundID entityID : Z) (data : bytes) :=
  <[entityID := <[roundID := data]> (bufferOf buffer entityID)]> buffer.

(** func (b) AddTrusteeCipher; [None] is a nil slice *)
Definition AddTrusteeCipher (b : BufferableRoundManager) (roundID trusteeID : Z)
    (data : option bytes) : result unit * list rateEvent * BufferableRoundManager :=
  let '(_, currentRound) := currentRound b in
  match data with
  | None => (Err "Can't accept a nil trustee cipher", [], b)
  | Some data =>
    if roundID <? currentRound then (Err "Can't accept a trustee cipher in the past", [], b) else
    let b := b <| bufferedTrusteeCiphers :=
                    addToBuffer (bufferedTrusteeCiphers b) roundID trusteeID data |> in
    let b := if roundID =? currentRound
             then b <| trusteeAckMap := <[trusteeID := true]> (trusteeAckMap b) |> else b in
    let '(evs, b) := sendRateChangeIfNeeded b trusteeID in
    (Ok tt, evs, b)
  end.

(** func (b) AddClientCipher *)
Definition AddClientCipher (b : BufferableRoundManager) (roundID clientID : Z)
    (data : option bytes) : go (result unit * BufferableRoundManager) :=
  let '(anyRoundOpened, currentRound) := currentRound b in
  if negb anyRoundOpened then Crash (Fatal "Can't add client cipher, no round opened") else
  match data with
  | None => Ret (Err "Can't accept a nil client cipher", b)
  | Some data =>
    if roundID <? currentRound then Ret (Err "Can't accept a client cipher in the past", b) else
    let b := b <| bufferedClientCiphers :=
                    addToBuffer (bufferedClientCiphers b) roundID clientID data |> in
    let b := if roundID =? currentRound
             then b <| clientAckMap := <[clientID := true]> (clientAckMap b) |> else b in
    Ret (Ok tt, b)
  end.

(** func (b) MissingCiphersForCurrentRound *)
Definition MissingCiphersForCurrentRound (b : BufferableRoundManager) : list Z * list Z :=
  (fst <$> filter (λ p : Z * bool, p.2 = false) (map_to_list (clientAckMap b)),
   fst <$> filter (λ p : Z * bool, p.2 = false) (map_to_list (trusteeAckMap b))).

(** func (b) AddRateLimiter; the two callbacks are present or nil *)
Definition AddRateLimiter (b : BufferableRoundManager) (lowBound highBound : Z)
    (stopFunction resumeFunction : bool) : result unit * BufferableRoundManager :=
  if (lowBound <? 0) || (highBound <? lowBound)
  then (Err "Lowbound must be > 0 and < highBound", b) else
  if highBound <? lowBound then (Err "Highbound must be > lowBound", b) else
  if negb stopFunction then (Err "Can't initiate a RateLimiter without a stop function", b) else
  if negb resumeFunction then (Err "Can't initiate a RateLimiter without a resume function", b) else
  (Ok tt,
   b <| DoSendStopResumeMessages := true |> <| LowBound := lowBound |> <| HighBound := highBound |>
     <| stopSent := allFalse (nTrustees b) |> <| resumeSent := allFalse (nTrustees b) |>).

(** func (b) MemoryUsage: the counters it logs, as (number, bytes) for trustees
    and for clients; both loops read bufferedClientCiphers *)
Definition MemoryUsage (b : BufferableRoundManager) : (Z * Z) * (Z * Z) :=
  let count n := foldl (λ '(num, sz) i,
    let ciphers := bufferOf (bufferedClientCiphers b) i in
    (u32 (num + u32 (Z.of_nat (size ciphers))),
     u64 (sz + foldl (λ acc v, u64 (acc + len v)) 0 (snd <$> map_to_list ciphers))))
    (0, 0) (ids n) in
  (count (nTrustees b), count (nClients b)).
