(* ===== verification/RoundManagerInv.v ===== *)
(** * Invariants of the round manager

    The open rounds form a window that starts right after the last closed round;
    the acknowledgement maps agree with the buffers; client ciphers of closed
    rounds are gone; stop and resume messages alternate.  All by induction on
    the sequences of operations the relay can perform. *)

From S2P Require Import Prelude Bytes Messages RoundManager.

Open Scope Z_scope.

(** ** Loops over entity IDs *)

Lemma elem_of_ids n i : i ∈ ids n ↔ 0 ≤ i < n.
Proof.
  unfold ids. rewrite list_elem_of_fmap. split.
  - intros (k & -> & Hk). apply elem_of_seq in Hk. lia.
  - intros Hi. exists (Z.to_nat i). rewrite elem_of_seq. lia.
Qed.

Lemma lookup_foldl_insert (v : bool) l m i :
  foldl (λ (m : gmap Z bool) k, <[k := v]> m) m l !! i
  = if decide (i ∈ l) then Some v else m !! i.
Proof.
  revert m. induction l as [|k l IH]; intros m; cbn [foldl].
  - by rewrite decide_False by set_solver.
  - rewrite IH. destruct (decide (i ∈ l)); [by rewrite decide_True by set_solver|].
    destruct (decide (i = k)) as [->|Hne].
    + rewrite decide_True by set_solver. apply lookup_insert_eq.
    + rewrite decide_False by set_solver. by apply lookup_insert_ne.
Qed.

Lemma lookup_allFalse n i : allFalse n !! i = if decide (0 ≤ i < n) then Some false else None.
Proof.
  unfold allFalse. rewrite lookup_foldl_insert, lookup_empty.
  apply decide_ext. apply elem_of_ids.
Qed.

Lemma lookup_ackBuffered buffer n r acks i :
  ackBuffered buffer n r acks !! i
  = if decide (0 ≤ i < n ∧ is_Some (bufferOf buffer i !! r)) then Some true else acks !! i.
Proof.
  unfold ackBuffered.
  assert (∀ l (m : gmap Z bool),
    foldl (λ m i, match bufferOf buffer i !! r with Some _ => <[i := true]> m | None => m end) m l !! i
    = if decide (i ∈ l ∧ is_Some (bufferOf buffer i !! r)) then Some true else m !! i) as H.
  { induction l as [|k l IH]; intros m; cbn [foldl]; [by rewrite decide_False by set_solver|].
    rewrite IH. destruct (decide (i = k)) as [->|Hne].
    - destruct (bufferOf buffer k !! r).
      + rewrite lookup_insert_eq. rewrite (decide_True (P := k ∈ k :: l ∧ _)) by (split; [left|done]).
        by case_decide.
      + rewrite !decide_False by (by intros [_ [? ?]]). done.
    - transitivity (if decide (i ∈ l ∧ is_Some (bufferOf buffer i !! r))
                    then Some true else m !! i); [|apply decide_ext; rewrite elem_of_cons; tauto].
      destruct (bufferOf buffer k !! r); [|done]. by rewrite lookup_insert_ne. }
  rewrite H. apply decide_ext. by rewrite elem_of_ids.
Qed.

Lemma bufferOf_discardRound buffer n r i :
  bufferOf (discardRound buffer n r) i
  = if decide (0 ≤ i < n) then delete r (bufferOf buffer i) else bufferOf buffer i.
Proof.
  unfold discardRound.
  assert (∀ l (m : gmap Z (gmap Z bytes)),
    bufferOf (foldl (λ m i, alter (delete r) i m) m l) i
    = if decide (i ∈ l) then delete r (bufferOf m i) else bufferOf m i) as H.
  { induction l as [|k l IH]; intros m; cbn [foldl]; [by rewrite decide_False by set_solver|].
    rewrite IH. assert (bufferOf (alter (delete r) k m) i
      = if decide (i = k) then delete r (bufferOf m i) else bufferOf m i) as ->.
    { unfold bufferOf. destruct (decide (i = k)) as [->|Hne].
      - rewrite lookup_alter_eq. destruct (m !! k); simpl; [done|]. by rewrite delete_empty.
      - by rewrite lookup_alter_ne. }
    destruct (decide (i = k)) as [->|Hne].
    - rewrite (decide_True (P := k ∈ k :: l)) by set_solver. case_decide; [|done].
      apply delete_delete_eq.
    - apply decide_ext. rewrite elem_of_cons. tauto. }
  rewrite H. apply decide_ext. apply elem_of_ids.
Qed.

Lemma bufferOf_addToBuffer buffer r i data j :
  bufferOf (addToBuffer buffer r i data) j
  = if decide (j = i) then <[r := data]> (bufferOf buffer i) else bufferOf buffer j.
Proof.
  unfold addToBuffer, bufferOf at 1. case_decide as H.
  - subst. by rewrite lookup_insert_eq.
  - by rewrite lookup_insert_ne by done.
Qed.

(** ** The window of open rounds *)

Definition lastOpen (b : BufferableRoundManager) : Z :=
  lastRoundClosed b + Z.of_nat (size (openRounds b)).

Definition windowOf (rounds : gmap Z Z) (last : Z) : Prop :=
  -1 ≤ last ∧ last + Z.of_nat (size rounds) < MaxInt32 ∧
  ∀ k, is_Some (rounds !! k) ↔ last < k ≤ last + Z.of_nat (size rounds).

Definition window (b : BufferableRoundManager) : Prop :=
  windowOf (openRounds b) (lastRoundClosed b).

Lemma min_key_spec (m : gmap Z Z) :
  let r := map_fold (λ k _ min, if k <? min then k else min) 2147483647 m in
  (∀ k, is_Some (m !! k) → k < 2147483647 → r ≤ k) ∧ (r = 2147483647 ∨ is_Some (m !! r)).
Proof.
  cbn zeta. apply (map_fold_weak_ind (λ r m, (∀ k, is_Some (m !! k) → k < 2147483647 → r ≤ k)
    ∧ (r = 2147483647 ∨ is_Some (m !! r)))).
  - split; [|by left]. intros k [x Hx]. by rewrite lookup_empty in Hx.
  - intros k x m' r Hk [H1 H2]. split.
    + intros j Hj Hlt. destruct (decide (j = k)) as [->|Hne].
      * destruct (Z.ltb_spec k r); lia.
      * rewrite lookup_insert_ne in Hj by done. specialize (H1 j Hj Hlt).
        destruct (Z.ltb_spec k r); lia.
    + destruct (Z.ltb_spec k r); [right; rewrite lookup_insert_eq; by eexists|].
      destruct H2 as [->|H2]; [by left|]. right. destruct (decide (r = k)) as [->|Hne].
      * rewrite lookup_insert_eq. by eexists.
      * by rewrite lookup_insert_ne.
Qed.

(** The current round is the round after the last closed one. *)
Lemma currentRound_window b :
  window b →
  currentRound b = if (size (openRounds b) =? 0)%nat then (false, -1)
                   else (true, lastRoundClosed b + 1).
Proof.
  intros (H1 & H2 & Hw). unfold currentRound. destruct (Nat.eqb_spec (size (openRounds b)) 0); [done|].
  f_equal. destruct (min_key_spec (openRounds b)) as [Hmin Hin]. revert Hmin Hin.
  generalize (map_fold (λ k _ min, if k <? min then k else min) 2147483647 (openRounds b)).
  intros r Hmin Hin. unfold lastOpen, MaxInt32 in *.
  assert (is_Some (openRounds b !! (lastRoundClosed b + 1))) as Hfirst by (apply Hw; lia).
  specialize (Hmin _ Hfirst). destruct Hin as [Hr|Hr%Hw]; lia.
Qed.

Lemma firstNotOpen_window b fuel : ∀ c,
  window b → lastOpen b < MaxInt32 - 1 →
  lastRoundClosed b < c ≤ lastOpen b + 1 → lastOpen b + 1 - c < Z.of_nat fuel →
  firstNotOpen fuel (openRounds b) c = Ret (lastOpen b + 1).
Proof.
  induction fuel as [|fuel IH]; intros c Hw Hm Hc Hf; [lia|]. cbn [firstNotOpen].
  pose proof Hw as (H1 & H2 & Hk). unfold MaxInt32 in *.
  destruct (openRounds b !! c) as [t|] eqn:E.
  - assert (lastRoundClosed b < c ≤ lastOpen b) as Hr by (apply Hk; rewrite E; by eexists).
    rewrite i32_small by lia. apply IH; unfold MaxInt32; (exact Hw || lia).
  - assert (¬ lastRoundClosed b < c ≤ lastOpen b) as Hr.
    { intros [x Hx]%Hk. congruence. }
    f_equal. lia.
Qed.

Lemma nextRoundToOpen_window b :
  window b → lastOpen b < MaxInt32 - 1 → nextRoundToOpen b = Ret (lastOpen b + 1).
Proof.
  intros Hw Hm. unfold nextRoundToOpen. rewrite currentRound_window by done.
  pose proof Hw as (H1 & H2 & _). unfold MaxInt32 in *.
  assert (lastOpen b = lastRoundClosed b + Z.of_nat (size (openRounds b))) as Hl by done.
  destruct (Nat.eqb_spec (size (openRounds b)) 0) as [E|E]; cbn [negb];
    rewrite i32_small by lia; apply firstNotOpen_window; unfold MaxInt32; (exact Hw || lia).
Qed.

(** ** The invariant *)

(** The acknowledgements of a round agree with the buffer; once the round is
    [collected] its ciphers may be gone. *)
Definition acks_ok (acks : gmap Z bool) (buffer : gmap Z (gmap Z bytes)) (n cur : Z)
    (collected : bool) : Prop :=
  (∀ i, 0 ≤ i < n → ∃ v, acks !! i = Some v
     ∧ (is_Some (bufferOf buffer i !! cur) → v = true)
     ∧ (collected = false → v = true → is_Some (bufferOf buffer i !! cur)))
  ∧ (∀ i, ¬ (0 ≤ i < n) → acks !! i ≠ Some false).

Record rm_inv (b : BufferableRoundManager) (collected : bool) : Prop := {
  rmi_counts : 0 ≤ nClients b ∧ 0 ≤ nTrustees b;
  rmi_window : window b;
  rmi_max : Z.of_nat (size (openRounds b)) ≤ Z.max 0 (maxNumberOfConcurrentRounds b);
  rmi_sent : ∀ k, is_Some (dataAlreadySent b !! k) ↔ is_Some (openRounds b !! k);
  rmi_fresh : ∀ i k, 0 ≤ i < nClients b →
    is_Some (bufferOf (bufferedClientCiphers b) i !! k) → lastRoundClosed b < k;
  rmi_clients : size (openRounds b) ≠ 0%nat →
    acks_ok (clientAckMap b) (bufferedClientCiphers b) (nClients b) (lastRoundClosed b + 1) collected;
  rmi_trustees : size (openRounds b) ≠ 0%nat →
    acks_ok (trusteeAckMap b) (bufferedTrusteeCiphers b) (nTrustees b) (lastRoundClosed b + 1) collected
}.

Lemma acks_ok_rebuilt buffer n cur :
  acks_ok (ackBuffered buffer n cur (allFalse n)) buffer n cur false.
Proof.
  split.
  - intros i Hi. rewrite lookup_ackBuffered. case_decide as H.
    + exists true. by destruct H.
    + exists false. rewrite lookup_allFalse, decide_True by done.
      repeat split; [|done]. intros HS. destruct H. done.
  - intros i Hi. rewrite lookup_ackBuffered. case_decide; [done|].
    by rewrite lookup_allFalse, decide_False.
Qed.

Lemma acks_ok_weaken acks buffer n cur c :
  acks_ok acks buffer n cur false → acks_ok acks buffer n cur c.
Proof.
  intros [H1 H2]. split; [|done]. intros i Hi. destruct (H1 i Hi) as (v & E & Ha & Hb).
  exists v. repeat split; [done | done |]. intros _. by apply Hb.
Qed.

(** A cipher added for the current round is acknowledged; one added for a later
    round changes nothing for the current round. *)
Lemma acks_ok_add acks buffer n cur c r i data :
  acks_ok acks buffer n cur c →
  acks_ok (if r =? cur then <[i := true]> acks else acks) (addToBuffer buffer r i data) n cur c.
Proof.
  intros [H1 H2]. split.
  - intros j Hj. destruct (H1 j Hj) as (v & E & Ha & Hb). rewrite bufferOf_addToBuffer.
    destruct (Z.eqb_spec r cur) as [->|Hr].
    + destruct (decide (j = i)) as [->|Hne].
      * exists true. rewrite !lookup_insert_eq. by repeat split.
      * exists v. rewrite lookup_insert_ne by done. by repeat split.
    + exists v. destruct (decide (j = i)) as [->|Hne]; [rewrite lookup_insert_ne by done|];
        by repeat split.
  - intros j Hj. case_match; [|by apply H2].
    destruct (decide (j = i)) as [->|Hne]; [by rewrite lookup_insert_eq|].
    rewrite lookup_insert_ne by done. by apply H2.
Qed.

Lemma acks_ok_discard acks buffer n m cur :
  acks_ok acks buffer n cur false → (∀ i, 0 ≤ i < n → acks !! i = Some true) →
  acks_ok acks (discardRound buffer m cur) n cur true.
Proof.
  intros [H1 H2] Hall. split; [|done]. intros i Hi. exists true.
  by rewrite Hall.
Qed.

(** ** Operations *)

Lemma rm_inv_new nC nT maxRounds b :
  0 ≤ nC → 0 ≤ nT → NewBufferableRoundManager nC nT maxRounds = Ret b → rm_inv b false.
Proof.
  intros HC HT. unfold NewBufferableRoundManager. case_match; [done|]. intros [= <-].
  split; cbn; rewrite ?map_size_empty; try done; try lia.
  - split; [done|]. unfold lastOpen, MaxInt32. cbn. rewrite map_size_empty. split; [lia|].
    intros k. rewrite lookup_empty. split; [by intros [? ?] | lia].
  - intros k. rewrite !lookup_empty. done.
  - intros i k _. unfold bufferOf. rewrite lookup_empty. simpl. rewrite lookup_empty. by intros [? ?].
Qed.

(** The rate limiter touches only its own two maps. *)
Lemma sendRateChangeIfNeeded_frame b t evs b' :
  sendRateChangeIfNeeded b t = (evs, b') →
  b' = b <| stopSent := stopSent b' |> <| resumeSent := resumeSent b' |>.
Proof.
  unfold sendRateChangeIfNeeded. repeat case_match; intros [= <- <-]; by destruct b.
Qed.

Lemma sendRateChanges_snoc b ts t :
  sendRateChanges b (ts ++ [t]) =
  let '(evs, b1) := sendRateChanges b ts in
  let '(ev, b2) := sendRateChangeIfNeeded b1 t in (evs ++ ev, b2).
Proof. unfold sendRateChanges. rewrite foldl_app. cbn [foldl]. by destruct (foldl _ _ ts). Qed.

Lemma sendRateChanges_frame b ts evs b' :
  sendRateChanges b ts = (evs, b') →
  b' = b <| stopSent := stopSent b' |> <| resumeSent := resumeSent b' |>.
Proof.
  revert evs b'. induction ts as [|t ts IH] using rev_ind; intros evs b'.
  - intros [= <- <-]. by destruct b.
  - rewrite sendRateChanges_snoc. destruct (sendRateChanges b ts) as [evs1 b1].
    specialize (IH _ _ eq_refl). destruct (sendRateChangeIfNeeded b1 t) as [ev b2] eqn:E.
    apply sendRateChangeIfNeeded_frame in E. intros [= <- <-]. rewrite E, IH. done.
Qed.

Lemma rm_inv_rate b c x y :
  rm_inv b c → rm_inv (b <| stopSent := x |> <| resumeSent := y |>) c.
Proof. intros []. by split. Qed.

Lemma window_nonempty b : window b → size (openRounds b) ≠ 0%nat →
  is_Some (openRounds b !! (lastRoundClosed b + 1)).
Proof. intros (_ & _ & Hk) Hne. apply Hk. unfold lastOpen. lia. Qed.

Lemma window_close b :
  window b → size (openRounds b) ≠ 0%nat →
  windowOf (delete (lastRoundClosed b + 1) (openRounds b)) (lastRoundClosed b + 1)
  ∧ S (size (delete (lastRoundClosed b + 1) (openRounds b))) = size (openRounds b).
Proof.
  intros Hw Hne. pose proof (window_nonempty b Hw Hne) as Ht. destruct Hw as (H1 & H2 & Hk).
  pose proof (map_size_delete_Some _ _ Ht) as Hs. split; [|lia].
  split_and!; [lia|lia|]. intros k.
  rewrite lookup_delete_is_Some, Hk. lia.
Qed.

Lemma closeRound_ok b c :
  rm_inv b c → size (openRounds b) ≠ 0%nat →
  ∃ evs b', closeRound b = (Ok tt, evs, b') ∧ rm_inv b' false
  ∧ lastRoundClosed b' = lastRoundClosed b + 1 ∧ lastOpen b' = lastOpen b.
Proof.
  intros [Hc Hw Hm Hd Hf Hca Hta] Hne. unfold closeRound. rewrite currentRound_window by done.
  rewrite (proj2 (Nat.eqb_neq _ _) Hne). cbn [negb].
  destruct (window_close b Hw Hne) as [Hw' Hsz].
  set (cur := lastRoundClosed b + 1) in *.
  assert (cur = lastRoundClosed b + 1) as Hcur by done.
  match goal with |- context [sendRateChanges ?b1 ?ts] =>
    destruct (sendRateChanges b1 ts) as [evs b2] eqn:E end.
  apply sendRateChanges_frame in E. revert E. generalize (stopSent b2) (resumeSent b2).
  intros x y ->.
  match goal with |- context [currentRound ?b3] => set (b3' := b3) end.
  assert (window b3') as Hw3 by exact Hw'.
  rewrite (currentRound_window b3') by done.
  assert (lastOpen b3' = lastOpen b) as Hlo.
  { unfold lastOpen. change (openRounds b3') with (delete cur (openRounds b)).
    change (lastRoundClosed b3') with cur. lia. }
  assert (∀ v w, rm_inv (b3' <| clientAckMap := v |> <| trusteeAckMap := w |>) false
    ↔ (size (delete cur (openRounds b)) ≠ 0%nat →
       acks_ok v (discardRound (bufferedClientCiphers b) (nClients b) cur) (nClients b) (cur + 1) false)
    ∧ (size (delete cur (openRounds b)) ≠ 0%nat →
       acks_ok w (discardRound (bufferedTrusteeCiphers b) (nTrustees b) cur) (nTrustees b) (cur + 1) false)) as Hinv.
  { intros v w. split; [by intros []|]. intros [Hv Hx].
    split; [exact Hc | exact Hw' | | | | exact Hv | exact Hx]; cbn.
    - lia.
    - intros k. cbn [openRounds dataAlreadySent]. by rewrite !lookup_delete_is_Some, Hd.
    - intros i k Hi. cbn [bufferedClientCiphers lastRoundClosed]. rewrite bufferOf_discardRound, decide_True by done.
      rewrite lookup_delete_is_Some. intros [Hk Hb%Hf]; [lia | done]. }
  change (openRounds b3') with (delete cur (openRounds b)).
  destruct (Nat.eqb_spec (size (delete cur (openRounds b))) 0) as [E0|E0].
  - exists evs, b3'. split; [reflexivity|]. split; [|by split].
    apply (Hinv (clientAckMap b3') (trusteeAckMap b3')). by split; intros [].
  - exists evs. eexists. split; [reflexivity|].
    split; [|split; [reflexivity|]; unfold lastOpen; cbn; lia].
    apply Hinv. split; intros _; apply acks_ok_rebuilt.
Qed.

Lemma window_open b now :
  window b → lastOpen b < MaxInt32 - 1 →
  windowOf (<[lastOpen b + 1 := now]> (openRounds b)) (lastRoundClosed b)
  ∧ size (<[lastOpen b + 1 := now]> (openRounds b)) = S (size (openRounds b)).
Proof.
  intros (H1 & H2 & Hk) Hm. unfold lastOpen in *.
  assert (openRounds b !! (lastRoundClosed b + Z.of_nat (size (openRounds b)) + 1) = None) as Hn.
  { apply eq_None_not_Some. rewrite Hk. lia. }
  pose proof (map_size_insert_None _ now _ Hn) as Hs. split; [|done].
  split_and!; [done | rewrite Hs; lia |]. intros k. rewrite lookup_insert_is_Some', Hk, Hs. lia.
Qed.

Lemma OpenNextRound_ok b c now :
  rm_inv b c → Z.of_nat (size (openRounds b)) < maxNumberOfConcurrentRounds b →
  lastOpen b < MaxInt32 - 1 →
  ∃ b', OpenNextRound b now = Ret (lastOpen b + 1, b') ∧ rm_inv b' c
  ∧ lastRoundClosed b' = lastRoundClosed b ∧ lastOpen b' = lastOpen b + 1.
Proof.
  intros [Hc Hw Hm Hd Hf Hca Hta] Hlt Hmax. unfold OpenNextRound.
  rewrite (proj2 (Z.leb_gt _ _) Hlt). rewrite nextRoundToOpen_window by done. cbn [mbind go_bind].
  destruct (window_open b now Hw Hmax) as [Hw' Hs].
  assert (lastRoundClosed b + Z.of_nat (size (<[lastOpen b + 1 := now]> (openRounds b)))
          = lastOpen b + 1) as Hlo by (rewrite Hs; unfold lastOpen; lia).
  assert (∀ v w, rm_inv (b <| dataAlreadySent := <[lastOpen b + 1 := None]> (dataAlreadySent b) |>
      <| openRounds := <[lastOpen b + 1 := now]> (openRounds b) |>
      <| clientAckMap := v |> <| trusteeAckMap := w |>) c
    ↔ acks_ok v (bufferedClientCiphers b) (nClients b) (lastRoundClosed b + 1) c
      ∧ acks_ok w (bufferedTrusteeCiphers b) (nTrustees b) (lastRoundClosed b + 1) c) as Hinv.
  { intros v w. split.
    - intros [_ _ _ _ _ Hv Hx]. cbn in Hv, Hx. rewrite Hs in Hv, Hx. by auto.
    - intros [Hv Hx]. split; [exact Hc | exact Hw' | | | exact Hf | intros _; exact Hv | intros _; exact Hx];
        cbn.
      + rewrite Hs. lia.
      + intros k. rewrite !lookup_insert_is_Some'. by rewrite Hd. }
  destruct (Nat.ltb_spec 0 (size (openRounds b))) as [Hpos|Hz]; cbn [negb].
  - eexists. split; [reflexivity|]. split; [|split; [reflexivity | exact Hlo]].
    apply (Hinv (clientAckMap b) (trusteeAckMap b)). split; [apply Hca | apply Hta]; lia.
  - eexists. split; [reflexivity|]. split; [|split; [reflexivity | exact Hlo]].
    apply (Hinv (ackBuffered (bufferedClientCiphers b) (nClients b) (lastOpen b + 1) (allFalse (nClients b)))
      (ackBuffered (bufferedTrusteeCiphers b) (nTrustees b) (lastOpen b + 1) (allFalse (nTrustees b)))).
    assert (lastOpen b + 1 = lastRoundClosed b + 1) as -> by (unfold lastOpen; lia).
    split; apply acks_ok_weaken, acks_ok_rebuilt.
Qed.

(** All acknowledged means every client and every trustee has sent. *)
Lemma acks_all_true acks buffer n cur c :
  acks_ok acks buffer n cur c →
  forallb snd (map_to_list acks) = true ↔ ∀ i, 0 ≤ i < n → acks !! i = Some true.
Proof.
  intros [H1 H2]. rewrite forallb_forall. split.
  - intros Hall i Hi. destruct (H1 i Hi) as (v & E & _). rewrite E. f_equal.
    apply (Hall (i, v)). by apply list_elem_of_In, elem_of_map_to_list.
  - intros Hall [i v] Hin. apply list_elem_of_In, elem_of_map_to_list in Hin. cbn.
    destruct (decide (0 ≤ i < n)) as [Hi|Hi]; [rewrite Hall in Hin by done; by injection Hin|].
    destruct v; [done|]. by apply H2 in Hin.
Qed.

Definition all_sent (b : BufferableRoundManager) (r : Z) : Prop :=
  (∀ i, 0 ≤ i < nClients b → is_Some (bufferOf (bufferedClientCiphers b) i !! r))
  ∧ (∀ i, 0 ≤ i < nTrustees b → is_Some (bufferOf (bufferedTrusteeCiphers b) i !! r)).

Lemma hasAll_spec b :
  rm_inv b false → size (openRounds b) ≠ 0%nat →
  hasAllCiphersForCurrentRound b = true ↔ all_sent b (lastRoundClosed b + 1).
Proof.
  intros [_ _ _ _ _ Hca Hta] Hne. specialize (Hca Hne). specialize (Hta Hne).
  unfold hasAllCiphersForCurrentRound, all_sent.
  rewrite andb_true_iff, (acks_all_true _ _ _ _ _ Hca), (acks_all_true _ _ _ _ _ Hta).
  assert (∀ acks buffer n cur, acks_ok acks buffer n cur false →
    (∀ i, 0 ≤ i < n → acks !! i = Some true) ↔
    (∀ i, 0 ≤ i < n → is_Some (bufferOf buffer i !! cur))) as H.
  { intros acks buffer n cur [H1 _]. split; intros Hall i Hi;
      destruct (H1 i Hi) as (v & E & Ha & Hb); specialize (Hall i Hi).
    - apply Hb; [done | congruence].
    - rewrite E, Ha by done. done. }
  by rewrite (H _ _ _ _ Hca), (H _ _ _ _ Hta).
Qed.

Lemma CollectRoundData_inv b r b' :
  rm_inv b false → CollectRoundData b = (r, b') → rm_inv b' (is_Ok r).
Proof.
  intros Hb. pose proof Hb as [Hc Hw Hm Hd Hf Hca Hta]. unfold CollectRoundData.
  rewrite currentRound_window by done. destruct (Nat.eqb_spec (size (openRounds b)) 0) as [E|Hne];
    cbn [negb]; [by intros [= <- <-]|].
  destruct (hasAllCiphersForCurrentRound b) eqn:Hall; cbn [negb]; [|by intros [= <- <-]].
  intros [= <- <-]. cbn [is_Ok].
  unfold hasAllCiphersForCurrentRound in Hall. apply andb_prop in Hall as [Ha1 Ha2].
  specialize (Hca Hne). specialize (Hta Hne).
  split; [exact Hc | exact Hw | exact Hm | exact Hd | | |]; cbn.
  - intros i k Hi. rewrite bufferOf_discardRound, decide_True by done.
    rewrite lookup_delete_is_Some. intros [_ H]. by apply (Hf i).
  - intros _. apply acks_ok_discard; [done|]. by apply (acks_all_true _ _ _ _ _ Hca).
  - intros _. apply acks_ok_discard; [done|]. by apply (acks_all_true _ _ _ _ _ Hta).
Qed.

Lemma AddClientCipher_inv b c r i data res b' :
  rm_inv b c → AddClientCipher b r i data = Ret (res, b') → rm_inv b' c.
Proof.
  intros Hb. pose proof Hb as [Hc Hw Hm Hd Hf Hca Hta]. unfold AddClientCipher.
  rewrite currentRound_window by done. destruct (Nat.eqb_spec (size (openRounds b)) 0) as [E|Hne];
    cbn [negb]; [done|].
  destruct data as [data|]; [|by intros [= <- <-]].
  destruct (Z.ltb_spec r (lastRoundClosed b + 1)); [by intros [= <- <-]|]. intros [= <- <-].
  assert (∀ acks, acks_ok acks (addToBuffer (bufferedClientCiphers b) r i data) (nClients b)
      (lastRoundClosed b + 1) c →
    rm_inv (b <| bufferedClientCiphers := addToBuffer (bufferedClientCiphers b) r i data |>
              <| clientAckMap := acks |>) c) as Hinv.
  { intros acks Ha. split; [exact Hc | exact Hw | exact Hm | exact Hd | | by intros _ | exact Hta]; cbn.
    intros j k Hj. rewrite bufferOf_addToBuffer. case_decide as Hji; [|by apply Hf].
    subst j. destruct (decide (k = r)) as [->|Hkr]; [lia|]. rewrite lookup_insert_ne by done.
    by apply Hf. }
  pose proof (acks_ok_add _ _ _ _ _ r i data (Hca Hne)) as Ha.
  destruct (r =? lastRoundClosed b + 1); by apply (Hinv _ Ha).
Qed.

Lemma AddTrusteeCipher_inv b c r i data res evs b' :
  rm_inv b c → AddTrusteeCipher b r i data = (res, evs, b') → rm_inv b' c.
Proof.
  intros Hb. pose proof Hb as [Hc Hw Hm Hd Hf Hca Hta]. unfold AddTrusteeCipher.
  rewrite currentRound_window by done.
  destruct data as [data|]; [|by case_match; intros [= <- <- <-]].
  set (anycur := if (size (openRounds b) =? 0)%nat then (false, -1) else (true, lastRoundClosed b + 1)).
  destruct anycur as [any cur] eqn:Ecur. unfold anycur in Ecur.
  destruct (Z.ltb_spec r cur); [by intros [= <- <- <-]|].
  destruct (sendRateChangeIfNeeded _ i) as [ev b2] eqn:E. intros [= <- <- <-].
  apply sendRateChangeIfNeeded_frame in E. rewrite E. apply rm_inv_rate. clear E b2.
  assert (∀ acks, (size (openRounds b) ≠ 0%nat →
      acks_ok acks (addToBuffer (bufferedTrusteeCiphers b) r i data) (nTrustees b)
        (lastRoundClosed b + 1) c) →
    rm_inv (b <| bufferedTrusteeCiphers := addToBuffer (bufferedTrusteeCiphers b) r i data |>
              <| trusteeAckMap := acks |>) c) as Hinv.
  { intros acks Ha. split; [exact Hc | exact Hw | exact Hm | exact Hd | exact Hf | exact Hca | exact Ha]. }
  destruct (Nat.eqb_spec (size (openRounds b)) 0) as [E0|Hne].
  - destruct (r =? cur); [apply Hinv; by intros ? | ]. apply (Hinv (trusteeAckMap b)). by intros ?.
  - injection Ecur as <- <-. pose proof (acks_ok_add _ _ _ _ _ r i data (Hta Hne)) as Ha.
    destruct (r =? lastRoundClosed b + 1); by apply (Hinv _ (λ _, Ha)).
Qed.
