(* ===== verification/RoundManagerSpec.v ===== *)
(** * What the round manager promises

    Reachability of its states by the operations of the relay, and the theorems
    about them: the invariant, the order of rounds, complete collection, the
    choice of slot owners and the stop/resume messages. *)

From S2P Require Import Prelude Bytes Messages RoundManager RoundManagerInv.

Open Scope Z_scope.

(** States reachable from a new manager, with a flag that the current round was
    collected and the rate events since the limiter was configured.  Rounds are
    numbered below 2^31 - 1. *)
Inductive rm_reach (nC nT maxRounds : Z) : BufferableRoundManager → bool → list rateEvent → Prop :=
| reach_new b :
    0 ≤ nC → 0 ≤ nT → NewBufferableRoundManager nC nT maxRounds = Ret b →
    rm_reach nC nT maxRounds b false []
| reach_limiter b c evs lo hi b' :
    rm_reach nC nT maxRounds b c evs → AddRateLimiter b lo hi true true = (Ok tt, b') →
    rm_reach nC nT maxRounds b' c []
| reach_open b c evs now r b' :
    rm_reach nC nT maxRounds b c evs → lastOpen b < MaxInt32 - 1 →
    OpenNextRound b now = Ret (r, b') → rm_reach nC nT maxRounds b' c evs
| reach_collect b evs r b' :
    rm_reach nC nT maxRounds b false evs → CollectRoundData b = (r, b') →
    rm_reach nC nT maxRounds b' (is_Ok r) evs
| reach_close b c evs r ev b' :
    rm_reach nC nT maxRounds b c evs → CloseRound b = (r, ev, b') →
    rm_reach nC nT maxRounds b' (if is_Ok r then false else c) (evs ++ ev)
| reach_force b c evs r ev b' :
    rm_reach nC nT maxRounds b c evs → ForceCloseRound b = (r, ev, b') →
    rm_reach nC nT maxRounds b' (if is_Ok r then false else c) (evs ++ ev)
| reach_client b c evs round i data r b' :
    rm_reach nC nT maxRounds b c evs → AddClientCipher b round i data = Ret (r, b') →
    rm_reach nC nT maxRounds b' c evs
| reach_trustee b c evs round i data r ev b' :
    rm_reach nC nT maxRounds b c evs → AddTrusteeCipher b round i data = (r, ev, b') →
    rm_reach nC nT maxRounds b' c (evs ++ ev)
| reach_schedule b c evs s :
    rm_reach nC nT maxRounds b c evs → rm_reach nC nT maxRounds (SetStoredRoundSchedule b s) c evs
| reach_owner b c evs o b' :
    rm_reach nC nT maxRounds b c evs → updateAndGetNextOwnerID b = Ret (o, b') →
    rm_reach nC nT maxRounds b' c evs
| reach_data b c evs round data b' :
    rm_reach nC nT maxRounds b c evs → SetDataAlreadySent b round data = Ret b' →
    rm_reach nC nT maxRounds b' c evs.

(** ** The invariant *)

Lemma closeRound_inv b c r ev b' :
  rm_inv b c → closeRound b = (r, ev, b') → rm_inv b' (if is_Ok r then false else c).
Proof.
  intros Hb H. destruct (decide (size (openRounds b) = 0%nat)) as [E|Hne].
  - unfold closeRound in H. rewrite currentRound_window in H by apply Hb. rewrite E in H.
    by injection H as <- <- <-.
  - destruct (closeRound_ok b c Hb Hne) as (evs & b1 & E & Hb1 & _). rewrite E in H.
    by injection H as <- <- <-.
Qed.

Lemma CloseRound_cases b :
  (∃ e, CloseRound b = (Err e, [], b)) ∨ CloseRound b = closeRound b.
Proof. unfold CloseRound. destruct (currentRound b). repeat case_match; eauto. Qed.

Lemma SetStoredRoundSchedule_inv b c s : rm_inv b c → rm_inv (SetStoredRoundSchedule b s) c.
Proof. intros []. unfold SetStoredRoundSchedule. destruct (currentRound b). by split. Qed.

Lemma updateAndGetNextOwnerID_frame b o b' :
  updateAndGetNextOwnerID b = Ret (o, b') → b' = b <| lastOwner := lastOwner b' |>.
Proof.
  unfold updateAndGetNextOwnerID. case_match; [done|]. case_match.
  - intros [= <- <-]. done.
  - intros Hr. go_inv Hr. case_match; injection Hr as <- <-; by destruct b.
Qed.

Lemma rm_inv_owner b c o : rm_inv b c → rm_inv (b <| lastOwner := o |>) c.
Proof. intros []. by split. Qed.

Lemma SetDataAlreadySent_inv b c r d b' :
  rm_inv b c → SetDataAlreadySent b r d = Ret b' → rm_inv b' c.
Proof.
  intros [Hc Hw Hm Hd Hf Hca Hta]. unfold SetDataAlreadySent, isRoundOpen.
  destruct (openRounds b !! r) as [t|] eqn:E; [|done]. cbn [negb]. intros [= <-].
  split; [exact Hc | exact Hw | exact Hm | | exact Hf | exact Hca | exact Hta]. cbn.
  intros k. rewrite lookup_insert_is_Some', Hd. split; [|by right].
  intros [<-|?]; [by eexists | done].
Qed.

Lemma AddRateLimiter_inv b c lo hi s r res b' :
  rm_inv b c → AddRateLimiter b lo hi s r = (res, b') → rm_inv b' c.
Proof.
  intros Hb. unfold AddRateLimiter. repeat case_match; intros [= <- <-]; try done.
  destruct Hb. by split.
Qed.

Lemma OpenNextRound_inv b c now r b' :
  rm_inv b c → lastOpen b < MaxInt32 - 1 → OpenNextRound b now = Ret (r, b') →
  rm_inv b' c ∧ r = lastOpen b + 1 ∧ lastOpen b' = lastOpen b + 1.
Proof.
  intros Hb Hm H. destruct (Z.lt_ge_cases (Z.of_nat (size (openRounds b)))
    (maxNumberOfConcurrentRounds b)) as [Hlt|Hge].
  - destruct (OpenNextRound_ok b c now Hb Hlt Hm) as (b1 & E & Hb1 & _ & Hl). rewrite E in H.
    by injection H as <- <-.
  - unfold OpenNextRound in H. by rewrite (proj2 (Z.leb_le _ _) Hge) in H.
Qed.

Lemma rm_reach_inv nC nT maxRounds b c evs : rm_reach nC nT maxRounds b c evs → rm_inv b c.
Proof.
  induction 1 as [b ?? H | b c evs lo hi b' _ IH H | b c evs now r b' _ IH Hm H | b evs r b' _ IH H
    | b c evs r ev b' _ IH H | b c evs r ev b' _ IH H | b c evs round i data r b' _ IH H
    | b c evs round i data r ev b' _ IH H | b c evs s _ IH | b c evs o b' _ IH H
    | b c evs round data b' _ IH H].
  - by apply (rm_inv_new nC nT maxRounds).
  - by eapply AddRateLimiter_inv.
  - by apply (OpenNextRound_inv _ _ _ _ _ IH Hm H).
  - by eapply CollectRoundData_inv.
  - destruct (CloseRound_cases b) as [[e E]|E]; rewrite E in H; [by injection H as <- <- <-|].
    by eapply closeRound_inv.
  - by eapply closeRound_inv.
  - by eapply AddClientCipher_inv.
  - by eapply AddTrusteeCipher_inv.
  - by apply SetStoredRoundSchedule_inv.
  - apply updateAndGetNextOwnerID_frame in H. rewrite H. by apply rm_inv_owner.
  - by eapply SetDataAlreadySent_inv.
Qed.

(** ** Order of rounds *)

(** The claims below restate the invariant on the level of the operations. *)

(** C13: In every reachable state the open rounds are exactly the rounds after
    the last closed one, without a gap and at most as many as allowed; data
    already sent is kept for exactly these rounds; the next round to open is
    found and is the round after the window. *)
Theorem round_window nC nT maxRounds b c evs :
  rm_reach nC nT maxRounds b c evs →
  let n := Z.of_nat (size (openRounds b)) in
  n ≤ Z.max 0 (maxNumberOfConcurrentRounds b)
  ∧ (∀ k, isRoundOpen b k = true ↔ lastRoundClosed b < k ≤ lastRoundClosed b + n)
  ∧ (∀ k, is_Some (dataAlreadySent b !! k) ↔ isRoundOpen b k = true)
  ∧ (0 < n → currentRound b = (true, lastRoundClosed b + 1))
  ∧ (lastRoundClosed b + n < MaxInt32 - 1 →
     nextRoundToOpen b = Ret (lastRoundClosed b + n + 1)).
Proof.
  intros Hr%rm_reach_inv n. pose proof Hr as [_ Hw Hm Hd _ _ _].
  assert (∀ k, isRoundOpen b k = true ↔ is_Some (openRounds b !! k)) as Hopen.
  { intros k. unfold isRoundOpen. rewrite is_Some_alt. by destruct (openRounds b !! k). }
  split_and!; [done | | | |].
  - intros k. rewrite Hopen. apply Hw.
  - intros k. by rewrite Hopen, Hd.
  - intros Hn. rewrite currentRound_window by done.
    destruct (Nat.eqb_spec (size (openRounds b)) 0); [unfold n in Hn; lia | done].
  - intros Hlt. by rewrite nextRoundToOpen_window.
Qed.

(** Closing removes the ciphers of the closed round from the buffers, and no others. *)
Lemma closeRound_forgets b c ev b' :
  rm_inv b c → closeRound b = (Ok tt, ev, b') →
  let r := lastRoundClosed b + 1 in
  (∀ i, 0 ≤ i < nClients b →
     bufferOf (bufferedClientCiphers b') i = delete r (bufferOf (bufferedClientCiphers b) i))
  ∧ (∀ j, 0 ≤ j < nTrustees b →
     bufferOf (bufferedTrusteeCiphers b') j = delete r (bufferOf (bufferedTrusteeCiphers b) j)).
Proof.
  intros Hb H r. unfold closeRound in H. rewrite currentRound_window in H by apply Hb.
  destruct (_ =? 0)%nat; cbn [negb] in H; [done|]. fold r in H.
  destruct (sendRateChanges _ _) as [evs b1] eqn:E. apply sendRateChanges_frame in E.
  destruct (currentRound _) as [any2 cur2]. injection H as _ <-. rewrite E.
  split; intros i Hi.
  - transitivity (bufferOf (discardRound (bufferedClientCiphers b) (nClients b) r) i); [by destruct any2|].
    by rewrite bufferOf_discardRound, decide_True.
  - transitivity (bufferOf (discardRound (bufferedTrusteeCiphers b) (nTrustees b) r) i); [by destruct any2|].
    by rewrite bufferOf_discardRound, decide_True.
Qed.

(** C23: Rounds are opened and closed in order, one by one: opening opens the
    round after the last open one, closing (forced or not) closes the round
    after the last closed one, does not change the last open one, and removes the
    ciphers of that round (and no others) from the buffer of every client and
    every trustee. *)
Theorem rounds_in_order nC nT maxRounds b c evs :
  rm_reach nC nT maxRounds b c evs →
  (∀ now r b', lastOpen b < MaxInt32 - 1 → OpenNextRound b now = Ret (r, b') →
     r = lastOpen b + 1 ∧ lastOpen b' = r ∧ isRoundOpen b' r = true)
  ∧ (∀ ev b', ForceCloseRound b = (Ok tt, ev, b') ∨ CloseRound b = (Ok tt, ev, b') →
     lastRoundClosed b' = lastRoundClosed b + 1 ∧ lastOpen b' = lastOpen b
     ∧ isRoundOpen b (lastRoundClosed b + 1) = true
     ∧ isRoundOpen b' (lastRoundClosed b + 1) = false
     ∧ (∀ i, 0 ≤ i < nClients b → bufferOf (bufferedClientCiphers b') i
          = delete (lastRoundClosed b + 1) (bufferOf (bufferedClientCiphers b) i))
     ∧ (∀ j, 0 ≤ j < nTrustees b → bufferOf (bufferedTrusteeCiphers b') j
          = delete (lastRoundClosed b + 1) (bufferOf (bufferedTrusteeCiphers b) j))).
Proof.
  intros Hr%rm_reach_inv. split.
  - intros now r b' Hm H. destruct (OpenNextRound_inv _ _ _ _ _ Hr Hm H) as (Hb' & -> & Hl).
    split_and!; [done..|]. destruct Hb' as [_ (H1 & _ & Hk) _ _ _ _ _]. pose proof Hr as [_ (H1' & _) _ _ _ _ _].
    unfold isRoundOpen. destruct (openRounds b' !! (lastOpen b + 1)) eqn:E; [done|].
    destruct (proj2 (Hk (lastOpen b + 1))) as [? ?]; [|congruence].
    assert (lastRoundClosed b' = lastRoundClosed b) as Hlc.
    { revert H. unfold OpenNextRound. case_match; [done|]. intros Ho. go_inv Ho.
      injection Ho as _ <-. by case_match. }
    unfold lastOpen in *. lia.
  - intros ev b' H.
    assert (closeRound b = (Ok tt, ev, b')) as Hcl.
    { destruct H as [H|H]; [done|]. destruct (CloseRound_cases b) as [[e E]|E]; congruence. }
    clear H. pose proof (closeRound_forgets b c ev b' Hr Hcl) as [Hfc Hft].
    destruct (decide (size (openRounds b) = 0%nat)) as [E|Hne].
    { unfold closeRound in Hcl. rewrite currentRound_window in Hcl by apply Hr. by rewrite E in Hcl. }
    destruct (closeRound_ok b c Hr Hne) as (evs' & b1 & E & Hb1 & H1 & H2).
    rewrite E in Hcl. injection Hcl as <- <-. split_and!; [done..| | |done|done].
    + unfold isRoundOpen. by destruct (window_nonempty b (rmi_window _ _ Hr) Hne) as [? ->].
    + unfold isRoundOpen. destruct (openRounds b1 !! (lastRoundClosed b + 1)) eqn:E1; [|done].
      destruct Hb1 as [_ (_ & _ & Hk) _ _ _ _ _].
      assert (is_Some (openRounds b1 !! (lastRoundClosed b + 1))) as Hs%Hk by (rewrite E1; by eexists).
      lia.
Qed.

(** ** Collection *)

(** A cipher added for the current round becomes the buffered one. *)
Lemma added_replaces b c :
  rm_inv b c → size (openRounds b) ≠ 0%nat →
  let r := lastRoundClosed b + 1 in
  (∀ i data, ∃ b', AddClientCipher b r i (Some data) = Ret (Ok tt, b')
    ∧ bufferOf (bufferedClientCiphers b') i = <[r := data]> (bufferOf (bufferedClientCiphers b) i))
  ∧ (∀ j data, ∃ ev b', AddTrusteeCipher b r j (Some data) = (Ok tt, ev, b')
    ∧ bufferOf (bufferedTrusteeCiphers b') j = <[r := data]> (bufferOf (bufferedTrusteeCiphers b) j)).
Proof.
  intros Hb Hne r. unfold AddClientCipher, AddTrusteeCipher. rewrite currentRound_window by apply Hb.
  rewrite (proj2 (Nat.eqb_neq _ _) Hne). fold r. cbn [negb]. rewrite Z.ltb_irrefl, Z.eqb_refl.
  assert (∀ buffer i data, bufferOf (addToBuffer buffer r i data) i = <[r := data]> (bufferOf buffer i)) as Hbuf.
  { intros buffer i data. unfold bufferOf at 1, addToBuffer. by rewrite lookup_insert_eq. }
  split.
  - intros i data. eexists. split; [reflexivity|]. apply Hbuf.
  - intros j data. destruct (sendRateChangeIfNeeded _ j) as [ev b'] eqn:E. exists ev, b'. split; [done|].
    apply sendRateChangeIfNeeded_frame in E. rewrite E. apply Hbuf.
Qed.

(** C24: While a round is open and not yet collected, collecting succeeds if
    and only if every client and every trustee has sent a cipher for it; it then
    returns exactly the buffered ciphers of the round, in the order of the IDs,
    none of them missing.  A cipher that is added for the round is accepted and
    becomes the buffered one, whether or not one was buffered before: what is
    collected is the last contribution of each. *)
Theorem CollectRoundData_complete nC nT maxRounds b evs :
  rm_reach nC nT maxRounds b false evs → size (openRounds b) ≠ 0%nat →
  let r := lastRoundClosed b + 1 in
  (is_Ok (CollectRoundData b).1 = true ↔ all_sent b r)
  ∧ (∀ cs ts b', CollectRoundData b = (Ok (cs, ts), b') →
      cs = (λ i, bufferOf (bufferedClientCiphers b) i !! r) <$> ids (nClients b)
      ∧ ts = (λ i, bufferOf (bufferedTrusteeCiphers b) i !! r) <$> ids (nTrustees b)
      ∧ Forall is_Some cs ∧ Forall is_Some ts)
  ∧ (∀ i data, ∃ b', AddClientCipher b r i (Some data) = Ret (Ok tt, b')
      ∧ bufferOf (bufferedClientCiphers b') i = <[r := data]> (bufferOf (bufferedClientCiphers b) i))
  ∧ (∀ j data, ∃ ev b', AddTrusteeCipher b r j (Some data) = (Ok tt, ev, b')
      ∧ bufferOf (bufferedTrusteeCiphers b') j = <[r := data]> (bufferOf (bufferedTrusteeCiphers b) j)).
Proof.
  intros Hb%rm_reach_inv Hne r. pose proof (hasAll_spec b Hb Hne) as Hall.
  pose proof (added_replaces b false Hb Hne) as Hadd. fold r in Hadd.
  unfold CollectRoundData. rewrite currentRound_window by apply Hb.
  rewrite (proj2 (Nat.eqb_neq _ _) Hne). cbn [negb]. fold r in Hall |- *.
  destruct (hasAllCiphersForCurrentRound b); cbn [negb fst is_Ok].
  - split; [by rewrite <- Hall|]. split; [|exact Hadd]. intros cs ts b' [= <- <- _].
    destruct (proj1 Hall eq_refl) as [H1 H2]. split_and!; [done..| |].
    + apply Forall_fmap, Forall_forall. intros i Hi%elem_of_ids. by apply H1.
    + apply Forall_fmap, Forall_forall. intros i Hi%elem_of_ids. by apply H2.
  - split; [by rewrite <- Hall|]. by split.
Qed.

(** ** Slot owners *)

(** A schedule that says something of every slot, as the relay stores it. *)
Definition full_schedule (n : Z) (s : gmap Z bool) : Prop :=
  ∀ k, is_Some (s !! k) ↔ 0 ≤ k < n.

(** The slots in the order in which they come up after [start - 1]. *)
Definition slots_from (n : nat) (start : Z) : list Z :=
  (λ d, (start + Z.of_nat d) mod Z.of_nat n) <$> seq 0 n.

Definition slot_open (s : gmap Z bool) (k : Z) : bool := boolAt s k.

Lemma full_schedule_size n s : full_schedule (Z.of_nat n) s → size s = n.
Proof.
  intros Hs. rewrite <- size_dom.
  assert (dom s = list_to_set (ids (Z.of_nat n))) as ->.
  { apply set_eq. intros k. rewrite elem_of_dom, elem_of_list_to_set, elem_of_ids. apply Hs. }
  rewrite size_list_to_set.
  - unfold ids. by rewrite length_fmap, length_seq, Nat2Z.id.
  - unfold ids. apply NoDup_fmap_2; [intros ???; lia | apply NoDup_seq].
Qed.

Lemma nextOpenOwner_find n s start fuel : ∀ j,
  (0 < n)%nat → 0 ≤ start → full_schedule (Z.of_nat n) s → (j ≤ n)%nat → (n - j < fuel)%nat →
  (j ≠ 0%nat → s !! (start mod Z.of_nat n) = Some false) →
  nextOpenOwner fuel s (Z.of_nat n) ((start + Z.of_nat j) mod Z.of_nat n) (Z.of_nat j)
  = Ret (find (slot_open s)
          ((λ d, (start + Z.of_nat d) mod Z.of_nat n) <$> seq j (n - j))).
Proof.
  induction fuel as [|fuel IH]; intros j Hn Hst Hs Hj Hf Hfirst; [lia|]. cbn [nextOpenOwner].
  set (c := (start + Z.of_nat j) mod Z.of_nat n).
  assert (0 ≤ c < Z.of_nat n) as Hc by (apply Z.mod_pos_bound; lia).
  destruct (proj2 (Hs c) Hc) as [v Hv]. rewrite Hv, (full_schedule_size n s Hs).
  assert (Z.rem (c + 1) (Z.of_nat n) = (start + Z.of_nat (S j)) mod Z.of_nat n) as Hnext.
  { rewrite Z.rem_mod_nonneg by lia. unfold c. rewrite Zplus_mod_idemp_l. f_equal. lia. }
  destruct (decide (j = n)) as [->|Hne].
  - assert (c = start mod Z.of_nat n) as Ec.
    { unfold c. rewrite <- Zplus_mod_idemp_r, Z_mod_same_full. f_equal. lia. }
    rewrite Ec, Hfirst in Hv by lia. injection Hv as <-. rewrite Z.eqb_refl.
    by rewrite Nat.sub_diag.
  - replace (n - j)%nat with (S (n - S j)) by lia. cbn [seq]. rewrite fmap_cons. cbn [find].
    change ((start + Z.of_nat j) mod Z.of_nat n) with c.
    unfold slot_open at 1, boolAt. rewrite Hv. simpl default. destruct v; [done|].
    destruct (Z.eqb_spec (Z.of_nat j) (Z.of_nat n)); [lia|].
    rewrite Hnext. replace (Z.of_nat j + 1) with (Z.of_nat (S j)) by lia.
    apply IH; try done; try lia. intros _. destruct (decide (j = 0)%nat) as [->|]; [|by apply Hfirst].
    unfold c in Hv. by rewrite Z.add_0_r in Hv.
Qed.

(** C25: The next slot owner is chosen round-robin: the first open slot after
    the last owner, or the next slot when no schedule is stored; -1, with the
    last owner kept, exactly when the schedule has no open slot.  The search
    always ends. *)
Theorem next_owner_round_robin n b :
  nClients b = Z.of_nat n → (0 < n)%nat → -1 ≤ lastOwner b →
  storedOwnerSchedule b = ∅ ∨ full_schedule (nClients b) (storedOwnerSchedule b) →
  let slots := slots_from n (lastOwner b + 1) in
  updateAndGetNextOwnerID b = Ret
    (if decide (storedOwnerSchedule b = ∅)
     then ((lastOwner b + 1) mod nClients b, b <| lastOwner := (lastOwner b + 1) mod nClients b |>)
     else match find (slot_open (storedOwnerSchedule b)) slots with
          | Some o => (o, b <| lastOwner := o |>)
          | None => (-1, b)
          end)
  ∧ (find (slot_open (storedOwnerSchedule b)) slots = None ↔
     ∀ k, 0 ≤ k < nClients b → slot_open (storedOwnerSchedule b) k = false).
Proof.
  intros Hn Hpos Hlast Hs slots. split.
  - unfold updateAndGetNextOwnerID. destruct (Z.eqb_spec (nClients b) 0); [lia|].
    rewrite Z.rem_mod_nonneg by lia. case_decide as He.
    + rewrite He, map_size_empty. done.
    + destruct Hs as [?|Hs]; [done|]. rewrite (proj2 (Nat.eqb_neq _ _)) by (by rewrite map_size_empty_iff).
      rewrite Hn in Hs |- *. rewrite (full_schedule_size n _ Hs).
      pose proof (nextOpenOwner_find n (storedOwnerSchedule b) (lastOwner b + 1) (S (S n)) 0) as Hf.
      rewrite Z.add_0_r, Nat.sub_0_r in Hf. change (Z.of_nat 0) with 0 in Hf.
      rewrite Hf by (done || lia). cbn [mbind go_bind]. unfold slots, slots_from. by case_match.
  - assert (∀ l, find (slot_open (storedOwnerSchedule b)) l = None
              ↔ ∀ k, k ∈ l → slot_open (storedOwnerSchedule b) k = false) as Hfind.
    { induction l as [|x l IH]; cbn [find]; [set_solver|].
      destruct (slot_open (storedOwnerSchedule b) x) eqn:E.
      - split; [done|]. intros H. specialize (H x (list_elem_of_here _ _)). congruence.
      - rewrite IH. split; [|intros H k Hk; apply H; by right].
        intros H k [->|Hk]%elem_of_cons; [done | by apply H]. }
    rewrite Hfind. unfold slots, slots_from. rewrite Hn. split; intros H k Hk.
    + apply H, list_elem_of_fmap. exists (Z.to_nat ((k - (lastOwner b + 1)) mod Z.of_nat n)).
      pose proof (Z.mod_pos_bound (k - (lastOwner b + 1)) (Z.of_nat n)). split.
      * rewrite Z2Nat.id by lia. rewrite Zplus_mod_idemp_r, Z.mod_small; lia.
      * apply elem_of_seq. lia.
    + apply list_elem_of_fmap in Hk as (d & -> & _). apply H, Z.mod_pos_bound. lia.
Qed.

(** ** Stop and resume messages *)

(** The messages to trustee [t]: [true] for stop. *)
Definition event_to (t : Z) (e : rateEvent) : list bool :=
  match e with
  | StopTrustee t' => if t' =? t then [true] else []
  | ResumeTrustee t' => if t' =? t then [false] else []
  end.
Definition events_to (t : Z) (evs : list rateEvent) : list bool := flat_map (event_to t) evs.

Fixpoint alternating (l : list bool) : bool :=
  match l with
  | x :: (y :: _) as l' => negb (Bool.eqb x y) && alternating l'
  | _ => true
  end.

Lemma alternating_snoc l x :
  alternating (l ++ [x]) = alternating l && match last l with None => true | Some y => negb (Bool.eqb y x) end.
Proof.
  induction l as [|y [|z l] IH]; [done | by cbn; rewrite andb_true_r |].
  change (negb (Bool.eqb y z) && alternating ((z :: l) ++ [x])
    = negb (Bool.eqb y z) && alternating (z :: l)
      && match last (z :: l) with None => true | Some y => negb (Bool.eqb y x) end).
  by rewrite IH, andb_assoc.
Qed.

(** The two flags of a trustee record the last message sent to it. *)
Definition flags_ok (b : BufferableRoundManager) (evs : list rateEvent) : Prop :=
  ∀ t, alternating (events_to t evs) = true
  ∧ match last (events_to t evs) with
    | None => boolAt (stopSent b) t = false ∧ boolAt (resumeSent b) t = false
    | Some s => boolAt (stopSent b) t = s ∧ boolAt (resumeSent b) t = negb s
    end.

Lemma events_to_app t l k : events_to t (l ++ k) = events_to t l ++ events_to t k.
Proof. apply flat_map_app. Qed.

Lemma boolAt_insert m k v j : boolAt (<[k := v]> m) j = if k =? j then v else boolAt m j.
Proof.
  unfold boolAt. destruct (Z.eqb_spec k j) as [->|Hne]; [by rewrite lookup_insert_eq|].
  by rewrite lookup_insert_ne.
Qed.

(** Sending [s] to [t] when the last message to [t] was not [s]. *)
Lemma flags_ok_send b b' evs t (s : bool) :
  flags_ok b evs → boolAt (if s then stopSent b else resumeSent b) t = false →
  stopSent b' = <[t := s]> (stopSent b) → resumeSent b' = <[t := negb s]> (resumeSent b) →
  flags_ok b' (evs ++ [if s then StopTrustee t else ResumeTrustee t]).
Proof.
  intros H Hflag Hst Hre u. destruct (H u) as [Ha Hl]. rewrite events_to_app, Hst, Hre, !boolAt_insert.
  destruct (Z.eqb_spec t u) as [->|Hne].
  - assert (events_to u [if s then StopTrustee u else ResumeTrustee u] = [s]) as ->.
    { destruct s; cbn; by rewrite Z.eqb_refl. }
    rewrite last_snoc, alternating_snoc, Ha. split; [|done].
    destruct (last (events_to u evs)) as [x|]; [|done]. destruct Hl as [H1 H2].
    destruct s, x; cbn in *; congruence.
  - assert (events_to u [if s then StopTrustee t else ResumeTrustee t] = []) as ->.
    { destruct s; cbn; by rewrite (proj2 (Z.eqb_neq _ _) Hne). }
    by rewrite app_nil_r.
Qed.

Lemma flags_ok_ext b b' evs :
  stopSent b' = stopSent b → resumeSent b' = resumeSent b → flags_ok b evs → flags_ok b' evs.
Proof. intros H1 H2 H t. rewrite H1, H2. apply H. Qed.

Lemma sendRateChangeIfNeeded_flags b t evs ev b' :
  flags_ok b evs → sendRateChangeIfNeeded b t = (ev, b') → flags_ok b' (evs ++ ev).
Proof.
  intros H. unfold sendRateChangeIfNeeded.
  destruct (DoSendStopResumeMessages b); [|intros [= <- <-]; by rewrite app_nil_r].
  destruct ((HighBound b <=? NumberOfBufferedCiphers b t) && negb (boolAt (stopSent b) t)) eqn:E1.
  { apply andb_prop in E1 as [_ E1%negb_true_iff]. intros [= <- <-].
    by apply (flags_ok_send b _ evs t true). }
  destruct ((NumberOfBufferedCiphers b t <=? LowBound b) && negb (boolAt (resumeSent b) t)) eqn:E2;
    [|intros [= <- <-]; by rewrite app_nil_r].
  apply andb_prop in E2 as [_ E2%negb_true_iff]. intros [= <- <-].
  by apply (flags_ok_send b _ evs t false).
Qed.

Lemma sendRateChanges_flags b ts evs ev b' :
  flags_ok b evs → sendRateChanges b ts = (ev, b') → flags_ok b' (evs ++ ev).
Proof.
  intros H. revert ev b'. induction ts as [|t ts IH] using rev_ind; intros ev b'.
  - intros [= <- <-]. by rewrite app_nil_r.
  - rewrite sendRateChanges_snoc. destruct (sendRateChanges b ts) as [ev1 b1].
    specialize (IH _ _ eq_refl). destruct (sendRateChangeIfNeeded b1 t) as [ev2 b2] eqn:E.
    intros [= <- <-]. rewrite app_assoc. by eapply sendRateChangeIfNeeded_flags.
Qed.

Lemma closeRound_flags b evs r ev b' :
  flags_ok b evs → closeRound b = (r, ev, b') → flags_ok b' (evs ++ ev).
Proof.
  intros H. unfold closeRound. destruct (currentRound b) as [any cur].
  destruct any; cbn [negb]; [|intros [= <- <- <-]; by rewrite app_nil_r].
  match goal with |- context [sendRateChanges ?b1 _] => set (b1' := b1) end.
  destruct (sendRateChanges b1' _) as [ev1 b2] eqn:E.
  assert (flags_ok b1' evs) as H1 by (by apply (flags_ok_ext b)).
  pose proof (sendRateChanges_flags _ _ _ _ _ H1 E) as H2.
  cbv beta iota zeta.
  match goal with |- context [currentRound ?b3] => destruct (currentRound b3) as [any new] end.
  intros [= <- <- <-]. apply (flags_ok_ext b2); [by destruct any..|done].
Qed.

Lemma AddTrusteeCipher_flags b r i data evs res ev b' :
  flags_ok b evs → AddTrusteeCipher b r i data = (res, ev, b') → flags_ok b' (evs ++ ev).
Proof.
  intros H. unfold AddTrusteeCipher. destruct (currentRound b) as [any cur].
  destruct data as [data|]; [|intros [= <- <- <-]; by rewrite app_nil_r].
  destruct (r <? cur); [intros [= <- <- <-]; by rewrite app_nil_r|].
  destruct (sendRateChangeIfNeeded _ i) as [ev1 b2] eqn:E. intros [= <- <- <-].
  eapply sendRateChangeIfNeeded_flags; [|exact E]. apply (flags_ok_ext b); [by case_match..|done].
Qed.

Lemma allFalse_at n t : boolAt (allFalse n) t = false.
Proof. unfold boolAt. rewrite lookup_allFalse. by case_decide. Qed.

Lemma rm_reach_flags nC nT maxRounds b c evs :
  rm_reach nC nT maxRounds b c evs → flags_ok b evs.
Proof.
  induction 1 as [b ?? H | b c evs lo hi b' _ IH H | b c evs now r b' _ IH Hm H | b evs r b' _ IH H
    | b c evs r ev b' _ IH H | b c evs r ev b' _ IH H | b c evs round i data r b' _ IH H
    | b c evs round i data r ev b' _ IH H | b c evs s _ IH | b c evs o b' _ IH H
    | b c evs round data b' _ IH H].
  - unfold NewBufferableRoundManager in H. case_match; [done|]. injection H as <-. by intros t.
  - unfold AddRateLimiter in H. repeat case_match; try done. injection H as <-. intros t. cbn.
    by rewrite !allFalse_at.
  - unfold OpenNextRound in H. case_match; [done|]. go_inv H. injection H as <- <-.
    by case_match; apply (flags_ok_ext b).
  - unfold CollectRoundData in H. destruct (currentRound b). repeat case_match; injection H as <- <-;
      by apply (flags_ok_ext b).
  - destruct (CloseRound_cases b) as [[e E]|E]; rewrite E in H.
    + injection H as <- <- <-. by rewrite app_nil_r.
    + by eapply closeRound_flags.
  - by eapply closeRound_flags.
  - unfold AddClientCipher in H. destruct (currentRound b). repeat case_match; try done;
      injection H as <- <-; by apply (flags_ok_ext b).
  - by eapply AddTrusteeCipher_flags.
  - unfold SetStoredRoundSchedule. destruct (currentRound b). by apply (flags_ok_ext b).
  - apply updateAndGetNextOwnerID_frame in H. rewrite H. by apply (flags_ok_ext b).
  - unfold SetDataAlreadySent in H. case_match; [done|]. injection H as <-. by apply (flags_ok_ext b).
Qed.

(** C29: The stop and resume messages to each trustee alternate, and after a
    cipher of a trustee was accepted the last message to it is "stop" if its
    buffer has reached the high bound, and "resume" if it is at or below the low
    bound. *)
Theorem rate_limiter_alternates nC nT maxRounds b c evs round t data ev b' :
  rm_reach nC nT maxRounds b c evs → DoSendStopResumeMessages b = true → LowBound b < HighBound b →
  AddTrusteeCipher b round t (Some data) = (Ok tt, ev, b') →
  alternating (events_to t (evs ++ ev)) = true
  ∧ (HighBound b ≤ NumberOfBufferedCiphers b' t → last (events_to t (evs ++ ev)) = Some true)
  ∧ (NumberOfBufferedCiphers b' t ≤ LowBound b → last (events_to t (evs ++ ev)) = Some false).
Proof.
  intros Hr%rm_reach_flags Hdo Hlow H.
  destruct (AddTrusteeCipher_flags _ _ _ _ _ _ _ _ Hr H t) as [Halt Hlast]. split; [done|].
  revert H. unfold AddTrusteeCipher. destruct (currentRound b) as [any cur].
  destruct (round <? cur); [done|].
  match goal with |- context [sendRateChangeIfNeeded ?b1 t] => set (b1' := b1) end.
  assert (DoSendStopResumeMessages b1' = true ∧ LowBound b1' = LowBound b ∧ HighBound b1' = HighBound b)
    as (H1 & H2 & H3) by (unfold b1'; by destruct (round =? cur)).
  unfold sendRateChangeIfNeeded. rewrite H1, H2, H3.
  assert (boolAt (stopSent b') t = true → last (events_to t (evs ++ ev)) = Some true) as Hstop.
  { intros Hs. destruct (last _) as [[]|]; destruct Hlast; congruence. }
  assert (boolAt (resumeSent b') t = true → last (events_to t (evs ++ ev)) = Some false) as Hresume.
  { intros Hs. destruct (last _) as [[]|]; cbn in Hlast; destruct Hlast; congruence. }
  destruct (Z.leb_spec (HighBound b) (NumberOfBufferedCiphers b1' t)) as [Hhi|Hhi];
    destruct (boolAt (stopSent b1') t) eqn:Est;
    destruct (Z.leb_spec (NumberOfBufferedCiphers b1' t) (LowBound b)) as [Hlo|Hlo]; try lia;
    destruct (boolAt (resumeSent b1') t) eqn:Ere; cbn; intros [= _ <-];
    split; intros Hn; unfold NumberOfBufferedCiphers in *; cbn in Hn; try lia;
    (apply Hstop || apply Hresume); cbn; rewrite ?boolAt_insert, ?Z.eqb_refl; done.
Qed.

(** While no round is open, a trustee's cipher for a round that was already
    closed is accepted and stays buffered (the guard compares with round -1). *)
Theorem stale_trustee_cipher_accepted b round t data :
  size (openRounds b) = 0%nat → DoSendStopResumeMessages b = false → -1 ≤ round →
  ∃ b', AddTrusteeCipher b round t (Some data) = (Ok tt, [], b')
  ∧ bufferOf (bufferedTrusteeCiphers b') t !! round = Some data
  ∧ lastRoundClosed b' = lastRoundClosed b.
Proof.
  intros Hs Hd Hr. unfold AddTrusteeCipher, currentRound. rewrite Hs. cbn [Nat.eqb].
  destruct (Z.ltb_spec round (-1)); [lia|]. unfold sendRateChangeIfNeeded.
  destruct (round =? -1); cbn; rewrite Hd; eexists; (split; [reflexivity|]); cbn;
    by rewrite bufferOf_addToBuffer, decide_True, lookup_insert_eq.
Qed.

(** ** A concrete run

    Two clients, one trustee, a window of two rounds: the limiter is set, two
    rounds are opened and all ciphers of round 0 arrive. *)

Module RMDemo.
Definition out {A} (d : A) (m : go A) : A := match m with Ret a => a | Crash _ => d end.
Definition empty : BufferableRoundManager :=
  mkRoundManager 0 0 0 ∅ ∅ ∅ ∅ 0 0 0 ∅ ∅ ∅ false 0 0 ∅ ∅.

Definition b0 := out empty (NewBufferableRoundManager 2 1 2).
Definition b1 := (AddRateLimiter b0 0 1 true true).2.
Definition b2 := (out (0, empty) (OpenNextRound b1 10)).2.
Definition b3 := (out (0, empty) (OpenNextRound b2 11)).2.
Definition b4 := (out (Ok tt, empty) (AddClientCipher b3 0 0 (Some [1]))).2.
Definition b5 := (out (Ok tt, empty) (AddClientCipher b4 0 1 (Some [2]))).2.
Definition b6 := (AddTrusteeCipher b5 0 0 (Some [3])).2.

Lemma reach3 : rm_reach 2 1 2 b3 false [].
Proof.
  apply (reach_open _ _ _ b2 _ _ 11 1); [|vm_compute; done | vm_compute; reflexivity].
  apply (reach_open _ _ _ b1 _ _ 10 0); [|vm_compute; done | vm_compute; reflexivity].
  apply (reach_limiter _ _ _ b0 _ [] 0 1); [|reflexivity].
  apply reach_new; [lia | lia | reflexivity].
Qed.

Lemma reach5 : rm_reach 2 1 2 b5 false [].
Proof.
  apply (reach_client _ _ _ b4 _ _ 0 1 (Some [2]) (Ok tt)); [|vm_compute; reflexivity].
  apply (reach_client _ _ _ b3 _ _ 0 0 (Some [1]) (Ok tt)); [|vm_compute; reflexivity].
  apply reach3.
Qed.

Lemma reach6 : rm_reach 2 1 2 b6 false [StopTrustee 0].
Proof.
  apply (reach_trustee _ _ _ b5 _ [] 0 0 (Some [3]) (Ok tt)); [|vm_compute; reflexivity].
  apply reach5.
Qed.
End RMDemo.

Lemma round_window_witness :
  currentRound RMDemo.b6 = (true, 0) ∧ nextRoundToOpen RMDemo.b6 = Ret 2
  ∧ (∀ k, isRoundOpen RMDemo.b6 k = true ↔ -1 < k ≤ 1).
Proof.
  pose proof (round_window 2 1 2 _ _ _ RMDemo.reach6) as (_ & Ho & _ & Hc & Hn).
  split; [by apply Hc; vm_compute|]. split; [by apply Hn; vm_compute|].
  intros k. rewrite Ho. vm_compute. tauto.
Defined.

Lemma rounds_in_order_witness :
  ∃ ev b', CloseRound RMDemo.b6 = (Ok tt, ev, b') ∧ lastRoundClosed b' = 0
  ∧ isRoundOpen b' 0 = false
  ∧ is_Some (bufferOf (bufferedClientCiphers RMDemo.b6) 1 !! 0) ∧ bufferOf (bufferedClientCiphers b') 1 !! 0 = None.
Proof.
  exists (CloseRound RMDemo.b6).1.2, (CloseRound RMDemo.b6).2. split; [vm_compute; reflexivity|].
  pose proof (rounds_in_order 2 1 2 _ _ _ RMDemo.reach6) as [_ H].
  destruct (H (CloseRound RMDemo.b6).1.2 (CloseRound RMDemo.b6).2) as (H1 & _ & _ & H2 & H3 & _).
  { right. vm_compute. reflexivity. }
  split; [exact H1|]. split; [exact H2|]. split; [vm_compute; by eexists|].
  rewrite H3 by (vm_compute; split; congruence). apply lookup_delete_eq.
Defined.

Lemma CollectRoundData_complete_witness :
  is_Ok (CollectRoundData RMDemo.b6).1 = true ∧ is_Ok (CollectRoundData RMDemo.b5).1 = false.
Proof.
  destruct (CollectRoundData_complete 2 1 2 RMDemo.b6 _ RMDemo.reach6) as [H _];
    [vm_compute; congruence|].
  split; [|vm_compute; reflexivity]. apply H. split; intros i Hi.
  - assert (i = 0 ∨ i = 1) as [-> | ->] by (change (0 ≤ i < 2) in Hi; lia); vm_compute; by eexists.
  - assert (i = 0) as -> by (change (0 ≤ i < 1) in Hi; lia). vm_compute. by eexists.
Defined.

Lemma next_owner_round_robin_witness :
  let s := <[0 := false]> (<[1 := true]> ∅) in
  ∃ b', updateAndGetNextOwnerID (SetStoredRoundSchedule RMDemo.b6 s) = Ret (1, b').
Proof.
  intros s. destruct (next_owner_round_robin 2 (SetStoredRoundSchedule RMDemo.b6 s)) as [H _].
  - reflexivity.
  - lia.
  - vm_compute. congruence.
  - right. intros k. change (is_Some (s !! k) ↔ 0 ≤ k < 2). unfold s.
    rewrite !lookup_insert_is_Some', lookup_empty. split; [|lia].
    intros [?|[?|[? [=]]]]; lia.
  - rewrite H. rewrite decide_False by (intros E; by vm_compute in E).
    assert (find (slot_open (storedOwnerSchedule (SetStoredRoundSchedule RMDemo.b6 s)))
      (slots_from 2 (lastOwner (SetStoredRoundSchedule RMDemo.b6 s) + 1)) = Some 1) as ->
      by (vm_compute; reflexivity).
    eexists. reflexivity.
Defined.

Lemma rate_limiter_alternates_witness :
  last (events_to 0 ([] ++ [StopTrustee 0])) = Some true.
Proof.
  apply (rate_limiter_alternates 2 1 2 RMDemo.b5 false [] 0 0 [3] [StopTrustee 0] RMDemo.b6);
    [apply RMDemo.reach5 | vm_compute; reflexivity..| vm_compute; congruence].
Defined.

Lemma stale_trustee_cipher_accepted_witness :
  let b := RMDemo.b0 <| lastRoundClosed := 5 |> in
  ∃ b', AddTrusteeCipher b 3 0 (Some [9]) = (Ok tt, [], b')
  ∧ bufferOf (bufferedTrusteeCiphers b') 0 !! 3 = Some [9] ∧ lastRoundClosed b' = lastRoundClosed b.
Proof.
  apply (stale_trustee_cipher_accepted (RMDemo.b0 <| lastRoundClosed := 5 |>) 3 0 [9]);
    [vm_compute; done | done | done].
Defined.
