(* ===== verification/NeffShuffle.v ===== *)
(** * The Neff shuffle (prifi-lib/scheduler/neff*.go, prifi-lib/crypto)

    The trustees shuffle the clients' ephemeral keys in turn, each multiplying
    base and keys by a secret coefficient; all sign the last permutation; each
    client finds its slot as the position of its key in the last base.  The
    proof of the shuffle is not implemented by the code (50 zero bytes). *)

From S2P Require Import Prelude Bytes Crypto Messages.

Open Scope Z_scope.

Section neff.
Context {CS : CryptoSuite}.
Abbreviation keys := (list (option Point)).

(** func NewKeyPair; [s] is the scalar picked from the suite's random stream *)
Definition NewKeyPair (s : Scalar) : Point * Scalar :=
  let base := Point_Base in
  let priv := s in
  let pub := Point_Mul priv base in
  (pub, priv).

(** [Point().Mul(s, k)]: a nil point stands for the base point *)
Definition MulKey (s : Scalar) (k : option Point) : option Point :=
  Some (Point_Mul s (default Point_Base k)).

(** [a.Equal(b)]: a nil receiver or argument panics *)
Definition pointEqual (a b : option Point) : go bool :=
  match a, b with Some p, Some q => Ret (Point_Equal p q) | _, _ => Crash RuntimeError end.

(** [k.MarshalBinary()]; the inner [None] is the error result *)
Definition marshalKey (k : option Point) : go (option bytes) :=
  match k with Some p => Ret (Point_MarshalBinary p) | None => Crash RuntimeError end.

(** [for i, v := range perm { out[v] = in[i] }] *)
Definition scatter {A} (inp : list A) (perm : list nat) (out : list (option A))
    : go (list (option A)) :=
  go_fold (λ out '(v, x), set_index out (Z.of_nat v) (Some x)) out (zip perm inp).

(** The block of NeffShuffle that shuffles the array *)
Definition shufflePositions (perm : list nat) (publicKeys2 : keys) : go keys :=
  publicKeys3 ← scatter publicKeys2 perm (replicate (length publicKeys2) None);
  Ret (map (default None) publicKeys3).

(** func NeffShuffle; [secretCoeff] comes from the suite's random stream and
    [perm] from rand.Perm *)
Definition NeffShuffle_ (secretCoeff : Scalar) (perm : list nat) (publicKeys : option keys)
    (base : option Point) (doShufflePositions : bool)
    : go (result (keys * option Point * Scalar * bytes)) :=
  match base with
  | None => Ret (Err "Cannot perform a shuffle is base is nil")
  | Some _ =>
    match publicKeys with
    | None => Ret (Err "Cannot perform a shuffle is publicKeys is nil")
    | Some publicKeys =>
      if (length publicKeys =? 0)%nat
      then Ret (Err "Cannot perform a shuffle is len(publicKeys) is 0") else
      let newBase := MulKey secretCoeff base in
      let publicKeys2 : keys := MulKey secretCoeff <$> publicKeys in
      publicKeys2 ← (if doShufflePositions then shufflePositions perm publicKeys2
                     else Ret publicKeys2);
      let proof := zeros 50 in
      Ret (Ok (publicKeys2, newBase, secretCoeff, proof))
    end
  end.

(** ** The relay's view *)

(** type NeffShuffleRelay *)
Record NeffShuffleRelay := mkNeffRelay {
  NTrustees : Z;
  InitialBase : option Point;
  Bases : list (option Point);
  ShuffledPublicKeys : list (option keys);
  Proofs : list (option bytes);
  Signatures : list (option bytes);
  SignatureCount : Z;
  PublicKeyBeingShuffled : option keys;
  LastBase : option Point;
  currentTrusteeShuffling : Z;
  CannotAddNewKeys : bool
}.

#[export] Instance eta_NeffRelay : Eta NeffShuffleRelay := λ r,
  mkNeffRelay (NTrustees r) (InitialBase r) (Bases r) (ShuffledPublicKeys r) (Proofs r)
    (Signatures r) (SignatureCount r) (PublicKeyBeingShuffled r) (LastBase r)
    (currentTrusteeShuffling r) (CannotAddNewKeys r).

(** new(NeffShuffleRelay) *)
Definition newNeffRelay : NeffShuffleRelay :=
  mkNeffRelay 0 None [] [] [] [] 0 None None 0 false.

(** func (r) Init *)
Definition Relay_Init (r : NeffShuffleRelay) (nTrustees : Z) : result unit * NeffShuffleRelay :=
  if nTrustees <? 1 then (Err "Cannot prepare a shuffle for less than one trustee", r) else
  let n := Z.to_nat nTrustees in
  (Ok tt, r <| Bases := replicate n None |> <| ShuffledPublicKeys := replicate n None |>
            <| Proofs := replicate n None |> <| Signatures := replicate n None |>
            <| currentTrusteeShuffling := 0 |> <| NTrustees := nTrustees |>
            <| InitialBase := Some Point_Base |> <| LastBase := Some Point_Base |>).

(** func (r) AddClient *)
Definition AddClient (r : NeffShuffleRelay) (publicKey : option Point)
    : result unit * NeffShuffleRelay :=
  match publicKey with
  | None => (Err "Cannot shuffle a nil key, refusing to add public key.", r)
  | Some _ =>
    if CannotAddNewKeys r then (Err "Cannot add key, the shuffling already started.", r) else
    (Ok tt, r <| PublicKeyBeingShuffled :=
                   Some (default [] (PublicKeyBeingShuffled r) ++ [publicKey]) |>)
  end.

(** func (r) SendToNextTrustee *)
Definition SendToNextTrustee (r : NeffShuffleRelay)
    : result (REL_TRU_TELL_CLIENTS_PKS_AND_EPH_PKS_AND_BASE CS * Z) * NeffShuffleRelay :=
  match PublicKeyBeingShuffled r with
  | None => (Err "RelayView's public keys is nil", r)
  | Some ks =>
    if (length ks =? 0)%nat then (Err "RelayView's public key array is empty", r) else
    let r := r <| CannotAddNewKeys := true |> in
    let msg := mkTellClients None (PublicKeyBeingShuffled r) (LastBase r) in
    (Ok (msg, currentTrusteeShuffling r), r)
  end.

(** func (r) ReceivedShuffleFromTrustee *)
Definition ReceivedShuffleFromTrustee (r : NeffShuffleRelay) (newBase : option Point)
    (newPublicKeys : option keys) (proof : option bytes)
    : go (result bool * NeffShuffleRelay) :=
  match newBase with
  | None => Ret (Err "Received a shuffle from the trustee, but newShares is nil", r)
  | Some _ =>
    match newPublicKeys with
    | None => Ret (Err "Received a shuffle from the trustee, but newPublicKeys is nil", r)
    | Some ks =>
      match proof with
      | None => Ret (Err "Received a shuffle from the trustee, but proof is nil", r)
      | Some _ =>
        if (length ks =? 0)%nat
        then Ret (Err "Received a shuffle from the trustee, but len(newPublicKeys) is 0", r) else
        let j := currentTrusteeShuffling r in
        spk ← set_index (ShuffledPublicKeys r) j newPublicKeys;
        prf ← set_index (Proofs r) j proof;
        bs ← set_index (Bases r) j newBase;
        let r := r <| ShuffledPublicKeys := spk |> <| Proofs := prf |> <| Bases := bs |>
                   <| PublicKeyBeingShuffled := newPublicKeys |> <| LastBase := newBase |>
                   <| currentTrusteeShuffling := j + 1 |> in
        Ret (Ok (currentTrusteeShuffling r =? NTrustees r), r)
      end
    end
  end.

(** func (r) SendTranscript *)
Definition SendTranscript (r : NeffShuffleRelay) : result (REL_TRU_TELL_TRANSCRIPT CS) :=
  if negb (length (Bases r) =? length (ShuffledPublicKeys r))%nat
     || negb (length (Bases r) =? length (Proofs r))%nat
  then Err "Size not matching" else
  if (length (ShuffledPublicKeys r) =? 0)%nat
  then Err "Cannot send a transcript of empty array of public keys" else
  Ok (mkTranscript (Bases r) (ShuffledPublicKeys r) (Proofs r)).

(** func (r) ReceivedSignatureFromTrustee *)
Definition ReceivedSignatureFromTrustee (r : NeffShuffleRelay) (trusteeID : Z)
    (signature : option bytes) : go (result bool * NeffShuffleRelay) :=
  match signature with
  | None => Ret (Err "Received a signature from a trustee, but sig is nil", r)
  | Some _ =>
    if trusteeID <? 0
    then Ret (Err "Received a signature from a trustee, trusteeId is invalid", r) else
    sigs ← set_index (Signatures r) trusteeID signature;
    let r := r <| Signatures := sigs |> <| SignatureCount := SignatureCount r + 1 |> in
    Ret (Ok (SignatureCount r =? NTrustees r), r)
  end.

(** The blob that is signed: the base and the first [n] keys, marshalled one
    after the other; [None] when marshalling fails *)
Definition signedBlob (base : option Point) (ks : keys) (n : nat) : go (option bytes) :=
  g ← marshalKey base;
  match g with
  | None => Ret None
  | Some g =>
    go_fold (λ acc j,
      match acc with
      | None => Ret None
      | Some M => k ← index ks (Z.of_nat j); b ← marshalKey k; Ret (match b with Some b => Some (M ++ b) | None => None end)
      end) (Some g) (seq 0 n)
  end.

(** The loop over the signatures; the number of the first bad one *)
Fixpoint verifyAll (pks : keys) (M : bytes) (sigs : list (option bytes)) : go bool :=
  match pks, sigs with
  | pk :: pks, sig :: sigs =>
    match pk with
    | None => Crash RuntimeError
    | Some p => if schnorr_Verify p M (default [] sig) then verifyAll pks M sigs else Ret false
    end
  | _, _ => Ret true
  end.

(** func multiSigVerify *)
Definition multiSigVerify (trusteesPublicKeys : keys) (lastBase : option Point)
    (shuffledPublicKeys : option keys) (signatures : option (list (option bytes)))
    : go (result unit) :=
  if (length trusteesPublicKeys =? 0)%nat
  then Ret (Err "no point in calling multiSigVerify is we have 0 public keys from trustees") else
  match lastBase, shuffledPublicKeys, signatures with
  | None, _, _ => Ret (Err "lastBase is nil")
  | _, None, _ => Ret (Err "shuffledPublicKeys is nil")
  | _, _, None => Ret (Err "signatures is nil")
  | Some _, Some ks, Some sigs =>
    if negb (length trusteesPublicKeys =? length sigs)%nat
    then Ret (Err "len(trusteesPublicKeys) not matching len(signatures)") else
    blob ← signedBlob lastBase ks (length ks);
    match blob with
    | None => Ret (Err "Can't marshall the last base...")
    | Some M =>
      ok ← verifyAll trusteesPublicKeys M sigs;
      Ret (if ok : bool then Ok tt else Err "Can't verify sig")
    end
  end.

(** func (r) VerifySigsAndSendToClients *)
Definition VerifySigsAndSendToClients (r : NeffShuffleRelay) (trusteesPublicKeys : option keys)
    : go (result (REL_CLI_TELL_EPH_PKS_AND_TRUSTEES_SIG CS)) :=
  match trusteesPublicKeys with
  | None => Ret (Err "shuffledPublicKeys is nil")
  | Some pks =>
    if negb (length pks =? length (Bases r))%nat
       || negb (length pks =? length (ShuffledPublicKeys r))%nat
       || negb (length pks =? length (Signatures r))%nat
    then Ret (Err "Some size mismatch") else
    let lastPermutationIndex := NTrustees r - 1 in
    lastBase ← index (Bases r) lastPermutationIndex;
    ephPubKeys ← index (ShuffledPublicKeys r) lastPermutationIndex;
    let signatures := Signatures r in
    success ← multiSigVerify pks lastBase ephPubKeys (Some signatures);
    match success with
    | Err e => Ret (Err e)
    | Ok _ => Ret (Ok (mkTellEphPks lastBase ephPubKeys signatures))
    end
  end.

(** ** A trustee's view *)

(** type NeffShuffleTrustee *)
Record NeffShuffleTrustee := mkNeffTrustee {
  TrusteeID : Z;
  PrivateKey : option Scalar;
  PublicKey : option Point;
  SecretCoeff : option Scalar;
  NewBase : option Point;
  Proof_ : option bytes;
  EphemeralKeys : option keys
}.

#[export] Instance eta_NeffTrustee : Eta NeffShuffleTrustee := λ t,
  mkNeffTrustee (TrusteeID t) (PrivateKey t) (PublicKey t) (SecretCoeff t) (NewBase t)
    (Proof_ t) (EphemeralKeys t).

(** new(NeffShuffleTrustee) *)
Definition newNeffTrustee : NeffShuffleTrustee := mkNeffTrustee 0 None None None None None None.

(** func (t) Init *)
Definition Trustee_Init (t : NeffShuffleTrustee) (trusteeID : Z) (private : option Scalar)
    (public : option Point) : result unit * NeffShuffleTrustee :=
  if trusteeID <? 0 then (Err "Cannot shuffle without a valid id (>= 0)", t) else
  match private, public with
  | None, _ => (Err "Cannot shuffle without a private key.", t)
  | _, None => (Err "Cannot shuffle without a public key.", t)
  | Some _, Some _ =>
    (Ok tt, t <| TrusteeID := trusteeID |> <| PrivateKey := private |> <| PublicKey := public |>)
  end.

(** func (t) ReceivedShuffleFromRelay *)
Definition ReceivedShuffleFromRelay (secretCoeff : Scalar) (perm : list nat)
    (t : NeffShuffleTrustee) (lastBase : option Point) (clientPublicKeys : option keys)
    (shuffleKeyPositions : bool) (vkey : bytes)
    : go (result (TRU_REL_TELL_NEW_BASE_AND_EPH_PKS CS) * NeffShuffleTrustee) :=
  match lastBase, clientPublicKeys with
  | None, _ => Ret (Err "Cannot perform a shuffle is lastBase is nil", t)
  | _, None => Ret (Err "Cannot perform a shuffle is clientPublicKeys is nil", t)
  | Some _, Some ks =>
    if (length ks =? 0)%nat
    then Ret (Err "Cannot perform a shuffle is len(clientPublicKeys) is 0", t) else
    res ← NeffShuffle_ secretCoeff perm clientPublicKeys lastBase shuffleKeyPositions;
    match res with
    | Err e => Ret (Err e, t)
    | Ok (shuffledKeys, newBase, secretCoeff, proof) =>
      let t := t <| SecretCoeff := Some secretCoeff |> <| NewBase := newBase |>
                 <| EphemeralKeys := Some shuffledKeys |> <| Proof_ := Some proof |> in
      Ret (Ok (mkNewBase newBase (Some shuffledKeys) (Some proof) vkey), t)
    end
  end.

(** [for k := 0; k < nClients; k++] comparing two key arrays, until the first
    difference *)
Fixpoint sameKeys (nClients : nat) (k : Z) (own theirs : keys) : go bool :=
  match nClients with
  | O => Ret true
  | S nClients =>
    a ← index own k;
    b ← index theirs k;
    eq ← pointEqual a b;
    if eq : bool then sameKeys nClients (k + 1) own theirs else Ret false
  end.

(** The loop that looks for the trustee's own permutation *)
Fixpoint findOwn (nClients : nat) (newBase : option Point) (proof : bytes) (own : keys)
    (bases : keys) (allKeys : list keys) (proofs : list bytes) (found : bool) : go bool :=
  match bases, allKeys, proofs with
  | b :: bases, ks :: allKeys, p :: proofs =>
    eqB ← pointEqual b newBase;
    found ← (if eqB && bool_decide (proof = p) then
               same ← sameKeys nClients 0 own ks; Ret (found || same)
             else Ret found);
    findOwn nClients newBase proof own bases allKeys proofs found
  | _, _, _ => Ret found
  end.

(** func (t) ReceivedTranscriptFromRelay; [rnd] is the signer's nonce stream.
    The loop that should verify the shuffles of the other trustees sets
    [verify = true] and checks nothing; it only indexes shuffledPublicKeys. *)
Definition ReceivedTranscriptFromRelay (rnd : XOF) (t : NeffShuffleTrustee)
    (bases : keys) (shuffledPublicKeys : list keys) (proofs : list bytes)
    : go (result TRU_REL_SHUFFLE_SIG) :=
  match NewBase t, EphemeralKeys t, Proof_ t with
  | None, _, _ => Ret (Err "Cannot verify the shuffle, we didn't store the base")
  | _, None, _ => Ret (Err "Cannot verify the shuffle, we didn't store the ephemeral keys")
  | Some _, Some own, proof =>
    if (length own =? 0)%nat
    then Ret (Err "Cannot verify the shuffle, we didn't store the ephemeral keys") else
    match proof with
    | None => Ret (Err "Cannot verify the shuffle, we didn't store the proof")
    | Some proof =>
      if negb (length bases =? length shuffledPublicKeys)%nat
         || negb (length bases =? length proofs)%nat
      then Ret (Err "Size not matching") else
      first ← index shuffledPublicKeys 0;
      let nClients := length first in
      ownPermutationFound ← findOwn nClients (NewBase t) proof own bases shuffledPublicKeys proofs false;
      if negb ownPermutationFound
      then Ret (Err "Could not locate our own permutation in the transcript...") else
      let lastPerm := len bases - 1 in
      lastBase ← index bases lastPerm;
      lastKeys ← index shuffledPublicKeys lastPerm;
      blob ← signedBlob lastBase lastKeys nClients;
      match blob with
      | None => Ret (Err "Can't marshall the last shares...")
      | Some blob =>
        match PrivateKey t with
        | None => Crash RuntimeError
        | Some sk =>
          match schnorr_Sign rnd sk blob with
          | Err _ => Crash (Panicked "Could not schnorr-sign the transcript:")
          | Ok signature => Ret (Ok (mkShuffleSig (TrusteeID t) signature))
          end
        end
      end
    end
  end.

(** ** The client *)

(** The loop that locates the client's key: the last position that matches *)
Fixpoint locate (mine : option Point) (ks : keys) (j slot : Z) : go Z :=
  match ks with
  | [] => Ret slot
  | k :: ks =>
    eq ← pointEqual k mine;
    locate mine ks (j + 1) (if eq : bool then j else slot)
  end.

(** func (n) ClientVerifySigAndRecognizeSlot *)
Definition ClientVerifySigAndRecognizeSlot (privateKey : option Scalar)
    (trusteesPublicKeys : option keys) (lastBase : option Point)
    (shuffledPublicKeys : option keys) (signatures : option (list (option bytes)))
    : go (result Z) :=
  match privateKey, trusteesPublicKeys, signatures, shuffledPublicKeys, lastBase with
  | None, _, _, _, _ => Ret (Err "Can't verify without private key")
  | _, None, _, _, _ => Ret (Err "Can't verify without trustee's public keys")
  | _, _, None, _, _ => Ret (Err "Can't verify without trustee's public signatures")
  | _, _, _, None, _ => Ret (Err "Can't verify without ephemeral public keys")
  | _, _, _, _, None => Ret (Err "Can't verify without last base")
  | Some sk, Some pks, Some sigs, Some ks, Some base =>
    if len ks <? 1 then Ret (Err "Can't verify without ephemeral public keys (len=0)") else
    if negb (length sigs =? length pks)%nat
    then Ret (Err "Can't verify if len(sig) != len(trusteesPublicKeys)") else
    success ← multiSigVerify pks lastBase shuffledPublicKeys signatures;
    match success with
    | Err e => Ret (Err e)
    | Ok _ =>
      let publicKeyInNewBase := MulKey sk lastBase in
      mySlot ← locate publicKeyInNewBase ks 0 (-1);
      Ret (if mySlot =? -1 then Err "Could not locate my slot" else Ok mySlot)
    end
  end.
End neff.

Arguments NeffShuffleRelay CS : clear implicits.
Arguments NeffShuffleTrustee CS : clear implicits.
