(* ===== verification/NeffShuffleSpec.v ===== *)
(** * Correctness of the Neff shuffle

    A complete run between an honest relay, honest trustees and the clients
    gives every client a slot of its own; and a client accepts a slot only if
    every trustee signed the permutation it is taken from. *)

From S2P Require Import Prelude Bytes Crypto Messages NeffShuffle.
From Stdlib Require Import Permutation.

Open Scope Z_scope.

(** ** Scattering along a permutation *)

Section scatter.
Context {A : Type}.

Definition scatterAll (out : list (option A)) (ps : list (nat * A)) : list (option A) :=
  foldl (λ out p, <[p.1 := Some p.2]> out) out ps.

Lemma length_scatterAll out ps : length (scatterAll out ps) = length out.
Proof.
  revert out. induction ps as [|p ps IH]; intros out; [done|].
  unfold scatterAll in *. cbn [foldl]. rewrite IH. apply length_insert.
Qed.

Lemma scatter_run inp perm out :
  Forall (λ v, (v < length out)%nat) perm →
  scatter inp perm out = Ret (scatterAll out (zip perm inp)).
Proof.
  unfold scatter. revert inp out.
  induction perm as [|v perm IH]; intros [|x inp] out Hp; try done.
  apply Forall_cons in Hp as [Hv Hp]. cbn [zip zip_with]. rewrite go_fold_cons.
  rewrite set_index_ret by (unfold len; lia). cbn [mbind go_bind]. rewrite Nat2Z.id.
  rewrite IH; [done|]. by rewrite length_insert.
Qed.

Lemma lookup_scatterAll ps : ∀ out v x,
  NoDup ps.*1 → (v, x) ∈ ps → (v < length out)%nat → scatterAll out ps !! v = Some (Some x).
Proof.
  induction ps as [|[w y] ps IH]; intros out v x Hnd Hin Hv; [by apply elem_of_nil in Hin|].
  cbn in Hnd. apply NoDup_cons in Hnd as [Hw Hnd]. unfold scatterAll in *. cbn [foldl fst snd].
  apply elem_of_cons in Hin as [[= -> ->]|Hin].
  - assert (∀ ps out, w ∉ ps.*1 → (w < length out)%nat → out !! w = Some (Some y) →
      foldl (λ out p, <[p.1 := Some p.2]> out) out ps !! w = Some (Some y)) as Hkeep.
    { clear. induction ps as [|[u z] ps IH]; intros out Hni Hl Ho; [done|].
      cbn [foldl fst snd]. cbn in Hni. apply not_elem_of_cons in Hni as [Hne Hni].
      apply IH; [done | by rewrite length_insert |]. by rewrite list_lookup_insert_ne. }
    apply Hkeep; [done | by rewrite length_insert |]. by apply list_lookup_insert_eq.
  - apply IH; [done | done | by rewrite length_insert].
Qed.

Lemma map_default_Some (l : list (option A)) : map (default None) (Some <$> l) = l.
Proof. induction l as [|k l IH]; [done|]. rewrite fmap_cons. cbn [map]. by rewrite IH. Qed.

Lemma scatter_perm (inp : list A) perm n :
  length inp = n → perm ≡ₚ seq 0 n →
  ∃ l' : list A, scatter inp perm (replicate n None) = Ret (Some <$> l') ∧ l' ≡ₚ inp.
Proof.
  intros Hl Hp. pose proof (Permutation_length Hp) as Hlp. rewrite length_seq in Hlp.
  rewrite scatter_run.
  2:{ apply Forall_forall. intros v Hv. rewrite Hp in Hv. apply elem_of_seq in Hv.
      rewrite length_replicate. lia. }
  set (ps := zip perm inp).
  assert (ps.*1 = perm) as H1 by (apply fst_zip; lia).
  assert (ps.*2 = inp) as H2 by (apply snd_zip; lia).
  assert (seq 0 n ≡ₚ map fst ps) as Hm.
  { change (map fst ps) with (ps.*1). by rewrite H1, Hp. }
  destruct (Permutation_map_inv _ _ Hm) as (ps' & Hseq & Hps).
  assert (length ps' = n) as Hlen.
  { apply (f_equal length) in Hseq. rewrite length_seq, length_map in Hseq. done. }
  exists (ps'.*2). split; [|by rewrite <- H2, Hps]. f_equal.
  apply list_eq_same_length with n.
  - by rewrite !length_fmap.
  - by rewrite length_scatterAll, length_replicate.
  - intros i a b Hi Ha Hb. rewrite list_lookup_fmap, list_lookup_fmap in Hb.
    destruct (ps' !! i) as [[v x]|] eqn:E; [|done]. injection Hb as <-.
    assert (v = i) as ->.
    { assert (map fst ps' !! i = Some v) as Hv by (change (map fst ps') with (ps'.*1);
        rewrite list_lookup_fmap, E; done).
      rewrite <- Hseq in Hv. apply lookup_seq in Hv. lia. }
    rewrite (lookup_scatterAll ps _ i x) in Ha; [by injection Ha| | |].
    + rewrite H1, Hp. apply NoDup_seq.
    + rewrite Hps. by eapply list_elem_of_lookup_2.
    + rewrite length_replicate. apply lookup_lt_Some in E. lia.
Qed.
End scatter.

(** ** A run of the protocol *)

(** Sequencing calls that return an error value: the first error ends the run. *)
Definition rbind {A B} (m : go (result A)) (f : A → go (result B)) : go (result B) :=
  x ← m; match x with Ok a => f a | Err e => Ret (Err e) end.
Notation "x ⇐ m ; k" := (rbind m (λ x, k)) (at level 20, m at level 100, k at level 200).
Notation "' x ⇐ m ; k" := (rbind m (λ x, k)) (at level 20, x pattern, m at level 100, k at level 200).

Section run.
Context {CS : CryptoSuite} {CL : CryptoLaws CS}.

(** What trustee [j] brings: its private key, its secret coefficient, its
    permutation, whether it shuffles positions, and its signing nonce. *)
Record trusteeInput := mkTrusteeInput {
  ti_sk : Scalar;
  ti_coeff : Scalar;
  ti_perm : list nat;
  ti_positions : bool;
  ti_nonce : XOF
}.

Definition ti_pk (ti : trusteeInput) : Point := (NewKeyPair (ti_sk ti)).1.

(** One trustee's turn: the relay sends it the current keys, it shuffles them
    and answers. *)
Definition trusteeTurn (r : NeffShuffleRelay CS) (j : Z) (ti : trusteeInput)
    : go (result (NeffShuffleRelay CS * NeffShuffleTrustee CS)) :=
  let '(sent, r) := SendToNextTrustee r in
  '(msg, _) ⇐ Ret sent;
  let '(init, t) := Trustee_Init newNeffTrustee j (Some (ti_sk ti)) (Some (ti_pk ti)) in
  _ ⇐ Ret init;
  '(res, t) ← ReceivedShuffleFromRelay (ti_coeff ti) (ti_perm ti) t (tb_Base msg) (tb_EphPks msg)
                (ti_positions ti) [];
  ans ⇐ Ret res;
  '(res, r) ← ReceivedShuffleFromTrustee r (nb_NewBase ans) (nb_NewEphPks ans) (nb_Proof ans);
  _ ⇐ Ret res;
  Ret (Ok (r, t)).

(** The relay passes the keys from trustee to trustee. *)
Fixpoint shuffleAll (r : NeffShuffleRelay CS) (j : Z) (ts : list trusteeInput)
    : go (result (NeffShuffleRelay CS * list (NeffShuffleTrustee CS))) :=
  match ts with
  | [] => Ret (Ok (r, []))
  | ti :: ts =>
    '(r, t) ⇐ trusteeTurn r j ti;
    '(r, rest) ⇐ shuffleAll r (j + 1) ts;
    Ret (Ok (r, t :: rest))
  end.

(** Every trustee checks and signs the transcript. *)
Fixpoint signAll (r : NeffShuffleRelay CS) (tr : REL_TRU_TELL_TRANSCRIPT CS)
    (ts : list (NeffShuffleTrustee CS * XOF)) : go (result (NeffShuffleRelay CS)) :=
  match ts with
  | [] => Ret (Ok r)
  | (t, nonce) :: ts =>
    sig ⇐ ReceivedTranscriptFromRelay nonce t (tt_Bases tr) (GetKeys tr) (GetProofs tr);
    '(res, r) ← ReceivedSignatureFromTrustee r (ss_TrusteeID sig) (Some (ss_Sig sig));
    _ ⇐ Ret res;
    signAll r tr ts
  end.

Fixpoint addClients (r : NeffShuffleRelay CS) (pks : list Point) : go (result (NeffShuffleRelay CS)) :=
  match pks with
  | [] => Ret (Ok r)
  | pk :: pks => let '(res, r) := AddClient r (Some pk) in _ ⇐ Ret res; addClients r pks
  end.

(** The whole protocol: the slots the clients with private keys [xs] obtain. *)
Fixpoint slotsOf (xs : list Scalar) (pks : list (option Point))
    (msg : REL_CLI_TELL_EPH_PKS_AND_TRUSTEES_SIG CS) : go (result (list Z)) :=
  match xs with
  | [] => Ret (Ok [])
  | x :: xs =>
    s ⇐ ClientVerifySigAndRecognizeSlot (Some x) (Some pks) (te_Base msg) (te_EphPks msg)
          (Some (GetSignatures msg));
    rest ⇐ slotsOf xs pks msg;
    Ret (Ok (s :: rest))
  end.

Definition runShuffle (xs : list Scalar) (ts : list trusteeInput) : go (result (list Z)) :=
  let '(init, r) := Relay_Init newNeffRelay (len ts) in
  _ ⇐ Ret init;
  r ⇐ addClients r ((λ x, (NewKeyPair x).1) <$> xs);
  '(r, trustees) ⇐ shuffleAll r 0 ts;
  tr ⇐ Ret (SendTranscript r);
  r ⇐ signAll r tr (zip trustees (ti_nonce <$> ts));
  let pks := (λ ti, Some (ti_pk ti)) <$> ts in
  msg ⇐ VerifySigsAndSendToClients r (Some pks);
  slotsOf xs pks msg.

(** *** Keys labelled with the clients they belong to *)

Context (xs : list Scalar).
Abbreviation n := (length xs).
Abbreviation x i := (nth i xs Scalar_Zero).

Definition labelled (base : Point) (σ : list nat) : list (option Point) :=
  (λ i, Some (Point_Mul (x i) base)) <$> σ.

(** The keys of the clients are different in this base. *)
Definition distinct_in (base : Point) : Prop :=
  ∀ i j, (i < n)%nat → (j < n)%nat → Point_Mul (x i) base = Point_Mul (x j) base → i = j.

Definition coeff_ok (c : Scalar) : Prop := ∀ P Q, Point_Mul c P = Point_Mul c Q → P = Q.

Lemma Point_Mul_swap a b P : Point_Mul a (Point_Mul b P) = Point_Mul b (Point_Mul a P).
Proof. by rewrite !Point_Mul_Mul, Scalar_Mul_comm. Qed.

Lemma distinct_in_mul c base : coeff_ok c → distinct_in base → distinct_in (Point_Mul c base).
Proof.
  intros Hc Hd i j Hi Hj E. apply (Hd i j Hi Hj), Hc.
  by rewrite Point_Mul_swap, E, Point_Mul_swap.
Qed.

Lemma MulKey_labelled c base σ :
  MulKey c <$> labelled base σ = labelled (Point_Mul c base) σ.
Proof.
  unfold labelled. rewrite <- list_fmap_compose. apply list_fmap_ext. intros k i _. cbn.
  unfold MulKey. simpl. by rewrite Point_Mul_swap.
Qed.

Lemma NeffShuffle_labelled c perm base σ positions :
  σ ≡ₚ seq 0 n → (0 < n)%nat → (positions = true → perm ≡ₚ seq 0 n) →
  ∃ σ', σ' ≡ₚ seq 0 n ∧
  NeffShuffle_ c perm (Some (labelled base σ)) (Some base) positions
  = Ret (Ok (labelled (Point_Mul c base) σ', Some (Point_Mul c base), c, zeros 50)).
Proof.
  intros Hσ Hn Hperm. pose proof (Permutation_length Hσ) as Hl. rewrite length_seq in Hl.
  unfold NeffShuffle_. assert (length (labelled base σ) = n) as Hlab.
  { unfold labelled. by rewrite length_fmap. }
  rewrite Hlab. destruct (Nat.eqb_spec n 0) as [|_]; [lia|].
  rewrite MulKey_labelled. destruct positions; cbn [mbind go_bind].
  - unfold shufflePositions. assert (length (labelled (Point_Mul c base) σ) = n) as Hlab2.
    { unfold labelled. by rewrite length_fmap. }
    destruct (scatter_perm (labelled (Point_Mul c base) σ) perm n Hlab2 (Hperm eq_refl))
      as (l' & E & Hp).
    rewrite Hlab2, E. cbn [mbind go_bind].
    destruct (Permutation_map_inv _ _ Hp) as (σ' & -> & Hσ').
    exists σ'. split; [by rewrite <- Hσ'|]. by rewrite map_default_Some.
  - exists σ. split; [done|]. done.
Qed.

(** *** The relay's transcript *)

(** One shuffle of the transcript: its base and the order of the clients. *)
Abbreviation shuffleRec := (Point * list nat)%type.

Definition rec_ok (rec : shuffleRec) : Prop := rec.2 ≡ₚ seq 0 n ∧ distinct_in rec.1.
Definition recBase (rec : shuffleRec) : option Point := Some rec.1.
Definition recKeys (rec : shuffleRec) : list (option Point) := labelled rec.1 rec.2.

Definition ti_ok (ti : trusteeInput) : Prop :=
  coeff_ok (ti_coeff ti) ∧ (ti_positions ti = true → ti_perm ti ≡ₚ seq 0 n).

(** The state of trustee [j] after its shuffle. *)
Definition trusteeAfter (j : Z) (p : trusteeInput * shuffleRec) : NeffShuffleTrustee CS :=
  mkNeffTrustee j (Some (ti_sk p.1)) (Some (ti_pk p.1)) (Some (ti_coeff p.1)) (recBase p.2)
    (Some (zeros 50)) (Some (recKeys p.2)).

Lemma set_index_app {A} (l k : list A) a b j :
  j = len l → set_index (l ++ a :: k) j b = Ret (l ++ b :: k).
Proof.
  intros ->. rewrite set_index_ret by (rewrite len_app; unfold len; simpl; lia).
  rewrite to_nat_len. f_equal. by rewrite insert_app_r_alt, Nat.sub_diag by lia.
Qed.

Lemma length_recKeys rec : rec_ok rec → length (recKeys rec) = n.
Proof.
  intros [Hp _]. unfold recKeys, labelled. rewrite length_fmap, (Permutation_length Hp).
  apply length_seq.
Qed.

Record shuffle_inv (r : NeffShuffleRelay CS) (todo : nat) (rec : shuffleRec)
    (done_ : list shuffleRec) : Prop := {
  si_rec : rec_ok rec;
  si_keys : PublicKeyBeingShuffled r = Some (recKeys rec);
  si_base : LastBase r = recBase rec;
  si_cur : currentTrusteeShuffling r = len done_;
  si_bases : Bases r = (recBase <$> done_) ++ replicate todo None;
  si_shuffled : ShuffledPublicKeys r = ((λ d, Some (recKeys d)) <$> done_) ++ replicate todo None;
  si_proofs : Proofs r = replicate (length done_) (Some (zeros 50)) ++ replicate todo None
}.

(** One trustee's turn. *)
Lemma shuffle_turn r todo rec done_ ti j :
  (0 < n)%nat → 0 ≤ j → ti_ok ti → shuffle_inv r (S todo) rec done_ →
  ∃ rec' r', trusteeTurn r j ti = Ret (Ok (r', trusteeAfter j (ti, rec')))
  ∧ shuffle_inv r' todo rec' (done_ ++ [rec'])
  ∧ Signatures r' = Signatures r ∧ SignatureCount r' = SignatureCount r ∧ NTrustees r' = NTrustees r.
Proof.
  intros Hn Hj [Hc Hperm] [Hrec Hk Hb Hcur HB HS HP]. destruct rec as [base σ].
  pose proof Hrec as [Hσ Hd]. cbn in Hσ, Hd.
  destruct (NeffShuffle_labelled (ti_coeff ti) (ti_perm ti) base σ (ti_positions ti) Hσ Hn Hperm)
    as (σ' & Hσ' & E).
  set (rec' := (Point_Mul (ti_coeff ti) base, σ')).
  assert (rec_ok rec') as Hrec' by (split; [done | by apply distinct_in_mul]).
  assert (length (recKeys (base, σ)) = n) as Hl by (by apply length_recKeys).
  assert (length (recKeys rec') = n) as Hl' by (by apply length_recKeys).
  exists rec'. eexists. split.
  - unfold trusteeTurn, SendToNextTrustee. rewrite Hk, Hl. destruct (Nat.eqb_spec n 0) as [|_]; [lia|].
    cbn [rbind mbind go_bind]. unfold Trustee_Init. rewrite (proj2 (Z.ltb_ge j 0)) by done.
    cbn [rbind mbind go_bind tb_Base tb_EphPks]. cbn [LastBase PublicKeyBeingShuffled set_field].
    unfold ReceivedShuffleFromRelay. rewrite Hb, Hk. cbn [recBase fst]. rewrite Hl.
    destruct (Nat.eqb_spec n 0) as [|_]; [lia|].
    change (recKeys (base, σ)) with (labelled base σ).
    change (recBase (base, σ)) with (Some base). rewrite E. cbn [rbind mbind go_bind].
    cbn [nb_NewBase nb_NewEphPks nb_Proof]. unfold ReceivedShuffleFromTrustee.
    change (labelled (Point_Mul (ti_coeff ti) base) σ') with (recKeys rec'). rewrite Hl'.
    destruct (Nat.eqb_spec n 0) as [|_]; [lia|].
    cbn [ShuffledPublicKeys Proofs Bases currentTrusteeShuffling set_field].
    rewrite HB, HS, HP, Hcur. cbn [replicate].
    rewrite set_index_app by (unfold len; by rewrite length_fmap). cbn [mbind go_bind].
    rewrite set_index_app by (unfold len; by rewrite length_replicate). cbn [mbind go_bind].
    rewrite set_index_app by (unfold len; by rewrite length_fmap). cbn [mbind go_bind rbind].
    reflexivity.
  - split; [|done]. split; cbn; try done.
    + unfold len. rewrite length_app. simpl. lia.
    + by rewrite fmap_app, <- app_assoc.
    + by rewrite fmap_app, <- app_assoc.
    + rewrite length_app. cbn [length]. by rewrite replicate_add, <- app_assoc.
Qed.

Lemma shuffleAll_ok ts : ∀ r j rec done_,
  (0 < n)%nat → 0 ≤ j → Forall ti_ok ts → shuffle_inv r (length ts) rec done_ →
  ∃ r' recs,
    shuffleAll r j ts = Ret (Ok (r', imap (λ k p, trusteeAfter (j + Z.of_nat k) p) (zip ts recs)))
  ∧ length recs = length ts ∧ Forall rec_ok recs
  ∧ Bases r' = recBase <$> (done_ ++ recs)
  ∧ ShuffledPublicKeys r' = (λ d, Some (recKeys d)) <$> (done_ ++ recs)
  ∧ Proofs r' = replicate (length (done_ ++ recs)) (Some (zeros 50))
  ∧ Signatures r' = Signatures r ∧ SignatureCount r' = SignatureCount r ∧ NTrustees r' = NTrustees r.
Proof.
  induction ts as [|ti ts IH]; intros r j rec done_ Hn Hj Hts Hinv.
  - exists r, []. rewrite app_nil_r. destruct Hinv as [? ? ? ? HB HS HP].
    cbn [length replicate] in *. rewrite app_nil_r in HB, HS, HP. split; [done|].
    split_and!; try done. 
  - apply Forall_cons in Hts as [Hti Hts].
    destruct (shuffle_turn r (length ts) rec done_ ti j Hn Hj Hti Hinv)
      as (rec' & r1 & E & Hinv1 & Hs1 & Hs2 & Hs3).
    destruct (IH r1 (j + 1) rec' (done_ ++ [rec']) Hn ltac:(lia) Hts Hinv1)
      as (r2 & recs & E2 & Hl & Hok & HB & HS & HP & Hs1' & Hs2' & Hs3').
    exists r2, (rec' :: recs). split.
    + cbn [shuffleAll]. rewrite E. cbn [rbind mbind go_bind].
      rewrite E2. cbn [rbind mbind go_bind zip zip_with imap]. do 3 f_equal.
      f_equal; [by rewrite Z.add_0_r|]. apply imap_ext. intros k p _. cbn. f_equal. lia.
    + rewrite <- app_assoc in HB, HS, HP. cbn [app] in HB, HS, HP.
      split_and!; try done; try congruence; [simpl; lia|].
      constructor; [apply (si_rec _ _ _ _ Hinv1) | done].
Qed.

(** *** Signatures *)

(** The blob of a base and its keys always exists. *)
Lemma signedBlob_ok base σ : ∃ M, signedBlob (Some base) (labelled base σ) (length σ) = Ret (Some M).
Proof.
  unfold signedBlob. cbn [marshalKey mbind go_bind]. destruct (Point_Marshal_Some base) as [g ->].
  assert (∀ l acc, (∀ j, j ∈ l → (j < length σ)%nat) → ∃ M, go_fold (λ acc j,
    match acc with
    | None => Ret None
    | Some M => k ← index (labelled base σ) (Z.of_nat j); b ← marshalKey k;
                Ret (match b with Some b => Some (M ++ b) | None => None end)
    end) (Some acc) l = Ret (Some M)) as H.
  { induction l as [|j l IH]; intros acc Hl; [by exists acc|]. rewrite go_fold_cons.
    destruct (lookup_lt_is_Some_2 σ j) as [i Hi]; [apply Hl; left|].
    rewrite (index_lookup _ _ (Some (Point_Mul (x i) base)));
      [|lia | unfold labelled; by rewrite list_lookup_fmap, Nat2Z.id, Hi].
    cbn [mbind go_bind marshalKey]. destruct (Point_Marshal_Some (Point_Mul (x i) base)) as [b ->].
    apply IH. intros k Hk. apply Hl. by right. }
  apply H. intros j Hj. apply elem_of_seq in Hj. lia.
Qed.

Lemma sameKeys_run k a σ b τ : ∀ j,
  (j + k ≤ length σ)%nat → (j + k ≤ length τ)%nat →
  ∃ e, sameKeys k (Z.of_nat j) (labelled a σ) (labelled b τ) = Ret e ∧ (a = b → σ = τ → e = true).
Proof.
  induction k as [|k IH]; intros j H1 H2; cbn [sameKeys]; [by exists true|].
  destruct (lookup_lt_is_Some_2 σ j) as [i Hi]; [lia|].
  destruct (lookup_lt_is_Some_2 τ j) as [i' Hi']; [lia|].
  rewrite (index_lookup (labelled a σ) _ (Some (Point_Mul (x i) a)));
    [|lia | unfold labelled; by rewrite list_lookup_fmap, Nat2Z.id, Hi].
  cbn [mbind go_bind]. rewrite (index_lookup (labelled b τ) _ (Some (Point_Mul (x i') b)));
    [|lia | unfold labelled; by rewrite list_lookup_fmap, Nat2Z.id, Hi'].
  cbn [mbind go_bind pointEqual]. destruct (Point_Equal _ _) eqn:E.
  - replace (Z.of_nat j + 1) with (Z.of_nat (S j)) by lia. apply IH; lia.
  - exists false. split; [done|]. intros -> ->. rewrite Hi in Hi'. injection Hi' as ->.
    rewrite <- E. by apply Point_Equal_eq.
Qed.

(** A trustee finds its own shuffle in the transcript. *)
Lemma findOwn_ok own recs found :
  rec_ok own → Forall rec_ok recs → found = true ∨ own ∈ recs →
  findOwn n (recBase own) (zeros 50) (recKeys own) (recBase <$> recs) (recKeys <$> recs)
    (replicate (length recs) (zeros 50)) found = Ret true.
Proof.
  intros Hown Hrecs. revert found. induction Hrecs as [|rec recs Hrec _ IH]; intros found Hin.
  - destruct Hin as [->|Hin]; [done | by apply elem_of_nil in Hin].
  - rewrite !fmap_cons. cbn [length replicate findOwn].
    change (pointEqual (recBase rec) (recBase own)) with (Ret (Point_Equal rec.1 own.1)).
    cbn [mbind go_bind].
    rewrite bool_decide_eq_true_2, andb_true_r by done.
    destruct (sameKeys_run n own.1 own.2 rec.1 rec.2 0) as (e & E & He).
    { destruct Hown as [H _]. rewrite (Permutation_length H), length_seq. lia. }
    { destruct Hrec as [H _]. rewrite (Permutation_length H), length_seq. lia. }
    change (labelled own.1 own.2) with (recKeys own) in E.
    change (labelled rec.1 rec.2) with (recKeys rec) in E. change (Z.of_nat 0) with 0 in E.
    destruct (Point_Equal rec.1 own.1) eqn:EB.
    + rewrite E. cbn [mbind go_bind]. apply IH. destruct Hin as [->|Hin]; [by left|].
      apply elem_of_cons in Hin as [->|Hin]; [|by right]. left. rewrite He by done. apply orb_true_r.
    + cbn [mbind go_bind]. apply IH. destruct Hin as [->|Hin]; [by left|].
      apply elem_of_cons in Hin as [->|Hin]; [|by right].
      assert (Point_Equal rec.1 rec.1 = true) by (by apply Point_Equal_eq). congruence.
Qed.

Lemma ReceivedTranscript_ok recs lastRec M j p nonce :
  (0 < n)%nat → Forall rec_ok recs → p.2 ∈ recs → last recs = Some lastRec →
  signedBlob (recBase lastRec) (recKeys lastRec) n = Ret (Some M) →
  ∃ sig, ReceivedTranscriptFromRelay nonce (trusteeAfter j p) (recBase <$> recs) (recKeys <$> recs)
    (replicate (length recs) (zeros 50)) = Ret (Ok (mkShuffleSig j sig))
  ∧ schnorr_Verify (ti_pk p.1) M sig = true.
Proof.
  intros Hn Hrecs Hin Hlast HM. unfold ReceivedTranscriptFromRelay.
  cbn [trusteeAfter NewBase EphemeralKeys Proof_ recBase].
  assert (rec_ok p.2) as Hp by (by apply (proj1 (Forall_forall _ _) Hrecs)).
  rewrite (length_recKeys p.2 Hp). destruct (Nat.eqb_spec n 0) as [|_]; [lia|].
  rewrite !length_fmap, length_replicate, Nat.eqb_refl. cbn [negb orb].
  destruct recs as [|r0 recs']; [done|].
  change (index (recKeys <$> r0 :: recs') 0) with (Ret (recKeys r0)).
  cbn [mbind go_bind]. apply Forall_cons in Hrecs as Hr0. destruct Hr0 as [Hr0 _].
  rewrite (length_recKeys r0 Hr0).
  pose proof (findOwn_ok p.2 (r0 :: recs') false Hp Hrecs (or_intror Hin)) as HF.
  unfold recBase in HF |- *. rewrite HF.
  cbn [mbind go_bind negb].
  assert (∀ A (f : shuffleRec → A), 
    index (f <$> r0 :: recs') (len ((λ rec, Some rec.1) <$> r0 :: recs') - 1) = Ret (f lastRec)) as Hidx.
  { intros A f. apply index_lookup.
    - unfold len. rewrite length_fmap. simpl. lia.
    - rewrite list_lookup_fmap. unfold len. rewrite length_fmap.
      replace (Z.to_nat _) with (pred (length (r0 :: recs'))) by (simpl; lia).
      rewrite <- last_lookup, Hlast. done. }
  rewrite !Hidx. cbn [mbind go_bind]. unfold recBase in HM. rewrite HM.
  unfold trusteeAfter. cbn [mbind go_bind PrivateKey TrusteeID].
  destruct (schnorr_Sign_Verify nonce (ti_sk p.1) M) as (sig & -> & Hv). by exists sig.
Qed.

Lemma signAll_ok recs lastRec M tr ps : ∀ r j sigs,
  (0 < n)%nat → Forall rec_ok recs → last recs = Some lastRec →
  signedBlob (recBase lastRec) (recKeys lastRec) n = Ret (Some M) →
  tt_Bases tr = recBase <$> recs → GetKeys tr = recKeys <$> recs →
  GetProofs tr = replicate (length recs) (zeros 50) →
  Forall (λ p, p.2 ∈ recs) ps →
  j = length sigs → Signatures r = sigs ++ replicate (length ps) None →
  ∃ r' new,
    signAll r tr (zip (imap (λ k p, trusteeAfter (Z.of_nat (j + k)) p) ps) (ti_nonce ∘ fst <$> ps))
    = Ret (Ok r')
  ∧ Signatures r' = sigs ++ (Some <$> new)
  ∧ Forall2 (λ p sig, schnorr_Verify (ti_pk p.1) M sig = true) ps new
  ∧ Bases r' = Bases r ∧ ShuffledPublicKeys r' = ShuffledPublicKeys r ∧ NTrustees r' = NTrustees r.
Proof.
  induction ps as [|p ps IH]; intros r j sigs Hn Hrecs Hlast HM HB HK HP Hps Hj Hsigs.
  - exists r, []. cbn in *. by rewrite Hsigs.
  - apply Forall_cons in Hps as [Hp Hps]. cbn [imap zip zip_with]. rewrite fmap_cons. cbn [signAll].
    rewrite HB, HK, HP, Nat.add_0_r.
    destruct (ReceivedTranscript_ok recs lastRec M (Z.of_nat j) p ((ti_nonce ∘ fst) p)) as (sig & -> & Hv);
      [done..|].
    cbn [rbind mbind go_bind ss_TrusteeID ss_Sig]. unfold ReceivedSignatureFromTrustee.
    rewrite (proj2 (Z.ltb_ge _ _)) by lia. rewrite Hsigs. cbn [length replicate].
    rewrite set_index_app by (unfold len; lia). cbn [mbind go_bind rbind].
    edestruct (IH (r <| Signatures := sigs ++ Some sig :: replicate (length ps) None |>
                     <| SignatureCount := SignatureCount r + 1 |>) (S j) (sigs ++ [Some sig]))
      as (r' & new & E & HS & HF & HB' & HK' & HN'); [done..| | |].
    { rewrite length_app. simpl. lia. }
    { cbn. by rewrite <- app_assoc. }
    exists r', (sig :: new). rewrite <- E. split_and!; try done.
    + do 2 f_equal. apply imap_ext. intros k q _. cbn. f_equal. lia.
    + rewrite HS, <- app_assoc. done.
    + by constructor.
Qed.

Lemma verifyAll_ok M (tis : list trusteeInput) sigs :
  Forall2 (λ ti sig, schnorr_Verify (ti_pk ti) M sig = true) tis sigs →
  verifyAll ((λ ti, Some (ti_pk ti)) <$> tis) M (Some <$> sigs) = Ret true.
Proof.
  induction 1 as [|ti sig tis sigs Hv _ IH]; [done|]. rewrite !fmap_cons. cbn [verifyAll].
  change (default [] (Some sig)) with sig. by rewrite Hv.
Qed.

Lemma multiSigVerify_ok lastRec M tis sigs :
  tis ≠ [] → rec_ok lastRec → signedBlob (recBase lastRec) (recKeys lastRec) n = Ret (Some M) →
  Forall2 (λ ti sig, schnorr_Verify (ti_pk ti) M sig = true) tis sigs →
  multiSigVerify ((λ ti, Some (ti_pk ti)) <$> tis) (recBase lastRec) (Some (recKeys lastRec))
    (Some (Some <$> sigs)) = Ret (Ok tt).
Proof.
  intros Hne Hrec HM Hv. unfold multiSigVerify. rewrite !length_fmap.
  destruct (Nat.eqb_spec (length tis) 0) as [Hl|_]; [by destruct tis|].
  cbn [recBase]. rewrite (Forall2_length _ _ _ Hv), Nat.eqb_refl. cbn [negb].
  change (Some lastRec.1) with (recBase lastRec). rewrite (length_recKeys _ Hrec), HM.
  cbn [mbind go_bind]. by rewrite verifyAll_ok.
Qed.

(** *** Slots *)

Lemma locate_ok base i σ : ∀ j slot p,
  distinct_in base → (i < n)%nat → NoDup σ → (∀ k, k ∈ σ → (k < n)%nat) → σ !! p = Some i →
  locate (Some (Point_Mul (x i) base)) (labelled base σ) j slot = Ret (j + Z.of_nat p).
Proof.
  assert (∀ σ j slot, distinct_in base → (i < n)%nat → (∀ k, k ∈ σ → (k < n)%nat) → i ∉ σ →
    locate (Some (Point_Mul (x i) base)) (labelled base σ) j slot = Ret slot) as Hskip.
  { induction σ0 as [|k σ0 IH]; intros j slot Hd Hi Hσ Hni; [done|].
    unfold labelled in *. rewrite fmap_cons. cbn [locate pointEqual mbind go_bind].
    destruct (Point_Equal _ _) eqn:E.
    - apply Point_Equal_eq, Hd in E; [|apply Hσ; left|done]. subst k. destruct Hni. left.
    - apply IH; [done | done | intros; apply Hσ; by right | intros ?; apply Hni; by right]. }
  induction σ as [|k σ IH]; intros j slot p Hd Hi Hnd Hσ Hp; [done|].
  apply NoDup_cons in Hnd as [Hk Hnd]. unfold labelled in *. rewrite fmap_cons.
  cbn [locate pointEqual mbind go_bind]. destruct p as [|p]; cbn in Hp.
  - injection Hp as ->. assert (Point_Equal (Point_Mul (x i) base) (Point_Mul (x i) base) = true) as ->
      by (by apply Point_Equal_eq).
    rewrite Hskip; [f_equal; lia | done | done | intros; apply Hσ; by right | done].
  - rewrite (IH _ _ p); [f_equal; lia | done..| intros; apply Hσ; by right | done].
Qed.

Lemma slotsOf_ok lastRec M tis sigs idx :
  (0 < n)%nat → tis ≠ [] → rec_ok lastRec →
  signedBlob (recBase lastRec) (recKeys lastRec) n = Ret (Some M) →
  Forall2 (λ ti sig, schnorr_Verify (ti_pk ti) M sig = true) tis sigs →
  (∀ i, i ∈ idx → (i < n)%nat) →
  ∃ ps, slotsOf ((λ i, x i) <$> idx) ((λ ti, Some (ti_pk ti)) <$> tis)
          (mkTellEphPks (recBase lastRec) (Some (recKeys lastRec)) (Some <$> sigs))
        = Ret (Ok (Z.of_nat <$> ps))
  ∧ Forall2 (λ i p, lastRec.2 !! p = Some i) idx ps.
Proof.
  intros Hn Hne Hrec HM Hv. induction idx as [|i idx IH]; intros Hidx; [by exists []|].
  destruct IH as (ps & E & HF); [intros; apply Hidx; by right|].
  assert ((i < n)%nat) as Hi by (apply Hidx; left).
  pose proof Hrec as [Hσ Hd].
  assert (i ∈ lastRec.2) as [p Hp]%list_elem_of_lookup by (rewrite Hσ; apply elem_of_seq; lia).
  exists (p :: ps). split; [|by constructor].
  rewrite fmap_cons. cbn [slotsOf]. unfold ClientVerifySigAndRecognizeSlot.
  cbn [te_Base te_EphPks GetSignatures te_TrusteesSigs recBase].
  change (Some lastRec.1) with (recBase lastRec).
  rewrite (proj2 (Z.ltb_ge _ _)) by (unfold len; rewrite length_recKeys by done; lia).
  rewrite !length_fmap, (Forall2_length _ _ _ Hv), Nat.eqb_refl. cbn [negb].
  rewrite (multiSigVerify_ok lastRec M) by done. cbn [mbind go_bind rbind].
  assert (locate (MulKey (x i) (recBase lastRec)) (recKeys lastRec) 0 (-1)
          = Ret (0 + Z.of_nat p)) as ->.
  { apply (locate_ok lastRec.1 i lastRec.2 0 (-1) p); [done | done | | | done].
    - rewrite Hσ. apply NoDup_seq.
    - intros k Hk. rewrite Hσ in Hk. apply elem_of_seq in Hk. lia. }
  cbn [mbind go_bind rbind]. destruct (Z.eqb_spec (0 + Z.of_nat p) (-1)); [lia|].
  cbn [mbind go_bind rbind]. rewrite E. done.
Qed.

Lemma addClients_ok pks : ∀ r ks,
  CannotAddNewKeys r = false → PublicKeyBeingShuffled r = Some ks →
  addClients r pks = Ret (Ok (r <| PublicKeyBeingShuffled := Some (ks ++ (Some <$> pks)) |>)).
Proof.
  induction pks as [|pk pks IH]; intros r ks Hc Hk; cbn [addClients].
  - rewrite app_nil_r, <- Hk. by destruct r.
  - unfold AddClient. rewrite Hc, Hk. cbn [rbind mbind go_bind].
    change (default [] (Some ks)) with ks.
    rewrite (IH _ (ks ++ [Some pk])) by done. do 2 f_equal. cbn. by rewrite <- app_assoc.
Qed.

Lemma addClients_first pks r :
  pks ≠ [] → CannotAddNewKeys r = false → PublicKeyBeingShuffled r = None →
  addClients r pks = Ret (Ok (r <| PublicKeyBeingShuffled := Some (Some <$> pks) |>)).
Proof.
  intros Hne Hc Hk. destruct pks as [|pk pks]; [done|]. cbn [addClients]. unfold AddClient. rewrite Hc, Hk. cbn [rbind mbind go_bind].
  rewrite (addClients_ok _ _ [Some pk]) by done. done.
Qed.

Lemma NoDup_positions (σ idx ps : list nat) :
  NoDup idx → Forall2 (λ (i : nat) p, σ !! p = Some i) idx ps → NoDup ps.
Proof.
  intros Hnd HF. induction HF as [|i p idx ps Hp HF IH]; [constructor|].
  apply NoDup_cons in Hnd as [Hi Hnd]. apply NoDup_cons. split; [|by apply IH].
  intros Hin. apply list_elem_of_lookup in Hin as [k Hk].
  destruct (Forall2_lookup_r _ _ _ _ _ HF Hk) as (j & Hj & Hpj).
  apply Hi. assert (i = j) as -> by congruence. by eapply list_elem_of_lookup_2.
Qed.

(** The second half of a run: the signatures, and the slots of the clients. *)
Lemma sign_and_locate ts recs r1 :
  (0 < n)%nat → ts ≠ [] → length recs = length ts → Forall rec_ok recs →
  Bases r1 = recBase <$> recs → ShuffledPublicKeys r1 = (λ d, Some (recKeys d)) <$> recs →
  Proofs r1 = replicate (length recs) (Some (zeros 50)) →
  Signatures r1 = replicate (length ts) None → NTrustees r1 = len ts →
  ∃ ps : list nat,
    (tr ⇐ Ret (SendTranscript r1);
     r ⇐ signAll r1 tr (zip (imap (λ k p, trusteeAfter (0 + Z.of_nat k) p) (zip ts recs))
                            (ti_nonce <$> ts));
     msg ⇐ VerifySigsAndSendToClients r (Some ((λ ti, Some (ti_pk ti)) <$> ts));
     slotsOf xs ((λ ti, Some (ti_pk ti)) <$> ts) msg) = Ret (Ok (Z.of_nat <$> ps))
  ∧ ∃ σ : list nat, Forall2 (λ (i : nat) (p : nat), σ !! p = Some i) (seq 0 n) ps ∧ Forall (λ p, (p < n)%nat) ps.
Proof.
  intros Hn Hne Hl Hok HB HS HP Hsg HN.
  assert (length recs ≠ 0%nat) as Hz by (destruct ts; [done | simpl in *; lia]).
  destruct (last recs) as [lastRec|] eqn:Hlast; [|apply last_None in Hlast; by subst].
  rewrite last_lookup in Hlast.
  assert (rec_ok lastRec) as HrecL
    by (apply (proj1 (Forall_forall _ _) Hok); by eapply list_elem_of_lookup_2).
  assert (length lastRec.2 = n) as HlenL
    by (destruct HrecL as [Hσ _]; by rewrite (Permutation_length Hσ), length_seq).
  destruct (signedBlob_ok lastRec.1 lastRec.2) as [M HM]. rewrite HlenL in HM.
  unfold SendTranscript. rewrite HB, HS, HP, !length_fmap, length_replicate, Nat.eqb_refl.
  cbn [negb orb]. rewrite (proj2 (Nat.eqb_neq _ _) Hz). cbn [rbind mbind go_bind].
  destruct (signAll_ok recs lastRec M (mkTranscript (recBase <$> recs)
    ((λ d, Some (recKeys d)) <$> recs) (replicate (length recs) (Some (zeros 50)))) (zip ts recs) r1 0 [])
    as (r2 & sigs & E & HS2 & HF & HB2 & HK2 & HN2); try done.
  { by rewrite last_lookup. }
  { unfold GetKeys. cbn. by rewrite <- list_fmap_compose. }
  { unfold GetProofs. cbn. by rewrite fmap_replicate. }
  { apply Forall_forall. intros [ti rec] Hin. cbn. by apply elem_of_zip_r in Hin. }
  { rewrite Hsg, length_zip_with. cbn. f_equal. lia. }
  assert (ti_nonce ∘ fst <$> zip ts recs = ti_nonce <$> ts) as Hnonce
    by (rewrite list_fmap_compose, fst_zip by lia; done).
  rewrite Hnonce in E.
  change (λ (k : nat) p, trusteeAfter (0 + Z.of_nat k) p)
    with (λ (k : nat) p, trusteeAfter (Z.of_nat (0 + k)) p).
  rewrite E. cbn [rbind mbind go_bind]. clear E.
  assert (Forall2 (λ ti sig, schnorr_Verify (ti_pk ti) M sig = true) ts sigs) as HV.
  { rewrite <- (fst_zip ts recs) by lia. by apply Forall2_fmap_l. }
  unfold VerifySigsAndSendToClients. rewrite HB2, HK2, HN2, HB, HS, HN, HS2, !length_fmap, Hl.
  cbn [app]. rewrite length_fmap, (Forall2_length _ _ _ HV), Nat.eqb_refl. cbn [negb orb].
  assert (Z.to_nat (len ts - 1) = pred (length recs)) as Hidx by (unfold len; lia).
  assert (0 ≤ len ts - 1 < len recs) as Hin by (unfold len; lia).
  rewrite (index_lookup (recBase <$> recs) _ (recBase lastRec)),
    (index_lookup ((λ d, Some (recKeys d)) <$> recs) _ (Some (recKeys lastRec)));
    try lia; try by rewrite Hidx, list_lookup_fmap, Hlast.
  cbn [mbind go_bind]. rewrite (multiSigVerify_ok lastRec M) by done. cbn [rbind mbind go_bind].
  destruct (slotsOf_ok lastRec M ts sigs (seq 0 n)) as (ps & E & HFs); try done.
  { intros i Hi. apply elem_of_seq in Hi. lia. }
  rewrite <- (fmap_nth_seq Scalar_Zero xs) in E.
  exists ps. split; [exact E|]. exists lastRec.2. split; [done|].
  apply Forall_forall. intros p [k Hk]%list_elem_of_lookup.
  destruct (Forall2_lookup_r _ _ _ _ _ HFs Hk) as (i & _ & Hp). apply lookup_lt_Some in Hp. lia.
Qed.

(** C12: An honest run of the Neff shuffle succeeds and gives each of the n
    clients a slot between 0 and n-1, no two clients the same, whatever
    coefficients and permutations the trustees choose. *)
Theorem neff_shuffle_slots ts :
  (0 < n)%nat → ts ≠ [] → Forall ti_ok ts → distinct_in Point_Base →
  ∃ slots, runShuffle xs ts = Ret (Ok slots)
  ∧ length slots = n ∧ NoDup slots ∧ Forall (λ s, 0 ≤ s < Z.of_nat n) slots.
Proof.
  intros Hn Hne Hts Hd. unfold runShuffle, Relay_Init.
  assert (1 ≤ len ts) as Hlen by (destruct ts; [done | unfold len; simpl; lia]).
  rewrite (proj2 (Z.ltb_ge _ _)) by lia. cbn [rbind mbind go_bind]. rewrite to_nat_len.
  assert ((λ x, (NewKeyPair x).1) <$> xs = (λ i, Point_Mul (x i) Point_Base) <$> seq 0 n) as Hpks.
  { rewrite (fmap_nth_seq Scalar_Zero xs) at 1. by rewrite <- list_fmap_compose. }
  rewrite Hpks, addClients_first; [|intros E%(f_equal length); rewrite length_fmap, length_seq in E;
    simpl in E; lia | done | done].
  cbn [rbind mbind go_bind].
  match goal with |- context [shuffleAll ?r0 0 ts] =>
    destruct (shuffleAll_ok ts r0 0 (Point_Base, seq 0 n) [] Hn) as
      (r1 & recs & E1 & Hl & Hok & HB & HS & HP & Hsg & _ & HN); [done | done | |] end.
  { split; cbn; [by split | | done | done | done | done | done]. unfold recKeys, labelled. cbn.
    by rewrite <- list_fmap_compose. }
  rewrite E1. cbn [rbind mbind go_bind]. cbn [app] in HB, HS, HP. clear E1.
  destruct (sign_and_locate ts recs r1 Hn Hne Hl Hok HB HS HP Hsg HN) as (ps & E & σ & HF & Hlt).
  exists (Z.of_nat <$> ps).
  split; [exact E|]. clear E. pose proof (Forall2_length _ _ _ HF) as Hlps.
  rewrite length_seq in Hlps. split_and!.
  - by rewrite length_fmap.
  - apply NoDup_fmap_2; [intros a b; lia|]. eapply NoDup_positions; [apply NoDup_seq | exact HF].
  - apply Forall_fmap. eapply Forall_impl; [exact Hlt|]. intros p Hp. cbn in *. lia.
Qed.
End run.

(** ** What a client's acceptance implies *)

Section accept.
Context {CS : CryptoSuite} {CL : CryptoLaws CS}.

Lemma verifyAll_true M : ∀ pks sigs, length pks = length sigs → verifyAll pks M sigs = Ret true →
  Forall2 (λ pk sig, ∃ p, pk = Some p ∧ schnorr_Verify p M (default [] sig) = true) pks sigs.
Proof.
  induction pks as [|pk pks IH]; intros [|sig sigs] Hl H; [constructor | done | done |].
  cbn [verifyAll] in H. destruct pk as [p|]; [|done].
  destruct (schnorr_Verify p M (default [] sig)) eqn:E; [|done].
  constructor; [by exists p|]. apply IH; [by injection Hl | done].
Qed.

Lemma locate_found mine : ∀ ks j slot s, 0 ≤ j → locate mine ks j slot = Ret s →
  s = slot ∨ (j ≤ s ∧ ∃ k, ks !! Z.to_nat (s - j) = Some k ∧ pointEqual k mine = Ret true).
Proof.
  induction ks as [|k ks IH]; intros j slot s Hj H; cbn [locate] in H; [left; by injection H|].
  destruct (pointEqual k mine) as [eq|] eqn:E; [|done]. cbn [mbind go_bind] in H.
  apply IH in H as [->|(Hle & k' & Hk & He)]; [|right | lia].
  - destruct eq; [|by left]. right. split; [lia|]. exists k. by rewrite Z.sub_diag.
  - split; [lia|]. exists k'. split; [|done].
    replace (Z.to_nat (s - j)) with (S (Z.to_nat (s - (j + 1)))) by lia. done.
Qed.

Lemma pointEqual_true a b : pointEqual a b = Ret true → ∃ p, a = Some p ∧ b = Some p.
Proof.
  destruct a as [p|], b as [q|]; try done. cbn. intros [= H]. apply Point_Equal_eq in H as ->. by exists q.
Qed.

Lemma multiSigVerify_true pks lastBase ks sigs :
  multiSigVerify pks lastBase (Some ks) (Some sigs) = Ret (Ok tt) →
  pks ≠ [] ∧ ∃ M, signedBlob lastBase ks (length ks) = Ret (Some M) ∧
  Forall2 (λ pk sig, ∃ p, pk = Some p ∧ schnorr_Verify p M (default [] sig) = true) pks sigs.
Proof.
  unfold multiSigVerify. destruct (Nat.eqb_spec (length pks) 0) as [|Hne]; [done|].
  destruct lastBase as [b|]; [|done]. destruct (Nat.eqb_spec (length pks) (length sigs)); [|done].
  cbn [negb]. destruct (signedBlob (Some b) ks (length ks)) as [[M|]|] eqn:EM; try done.
  cbn [mbind go_bind]. destruct (verifyAll pks M sigs) as [[|]|] eqn:EV; try done. intros _.
  split; [by intros ->|]. exists M. split; [done|]. by apply verifyAll_true.
Qed.

(** The slot a client recognises is the place of its key. *)
Lemma recognized_slot sk pks lastBase ks sigs s :
  ClientVerifySigAndRecognizeSlot sk pks lastBase ks sigs = Ret (Ok s) →
  ∃ x base l, sk = Some x ∧ lastBase = Some base ∧ ks = Some l
    ∧ 0 ≤ s ∧ l !! Z.to_nat s = Some (Some (Point_Mul x base)).
Proof.
  unfold ClientVerifySigAndRecognizeSlot. intros H.
  destruct sk as [x|], pks as [pks|], sigs as [sigs|], ks as [l|], lastBase as [base|]; try done.
  destruct (len l <? 1); [done|]. destruct (negb _); [done|].
  destruct (multiSigVerify _ _ _ _) as [[[]|e]|]; try done. cbn [mbind go_bind] in H.
  destruct (locate _ _ _ _) as [s'|] eqn:EL; [|done]. cbn [mbind go_bind] in H.
  destruct (Z.eqb_spec s' (-1)) as [|Hs]; [done|]. injection H as <-. exists x, base, l. do 3 (split; [done|]).
  apply locate_found in EL as [|(Hle & k & Hk & He)]; [done | | done].
  rewrite Z.sub_0_r in Hk. apply pointEqual_true in He as (p & -> & Hp). cbn in Hp. injection Hp as <-. by split.
Qed.

(** C27: A client accepts slot [s] only if there is at least one trustee, every
    trustee's signature verifies, under that trustee's key, on the marshalled
    last base followed by all the shuffled keys, and the key in position [s] of
    that permutation is the client's own private key times the last base. *)
Theorem client_slot_sound sk pks lastBase ks sigs s :
  ClientVerifySigAndRecognizeSlot sk (Some pks) lastBase (Some ks) (Some sigs) = Ret (Ok s) →
  ∃ x base M, sk = Some x ∧ lastBase = Some base ∧ pks ≠ [] ∧
    signedBlob lastBase ks (length ks) = Ret (Some M) ∧
    Forall2 (λ pk sig, ∃ p, pk = Some p ∧ schnorr_Verify p M (default [] sig) = true) pks sigs ∧
    0 ≤ s ∧ ks !! Z.to_nat s = Some (Some (Point_Mul x base)).
Proof.
  intros H. destruct (recognized_slot _ _ _ _ _ _ H) as (x & base & l & -> & -> & [= <-] & Hs & Hk).
  unfold ClientVerifySigAndRecognizeSlot in H. destruct (len ks <? 1); [done|]. destruct (negb _); [done|].
  destruct (multiSigVerify _ _ _ _) as [[[]|e]|] eqn:EV; try done.
  destruct (multiSigVerify_true _ _ _ _ EV) as (Hne & M & HM & HF). by exists x, base, M.
Qed.

Lemma sameKeys_true m : ∀ k own theirs, 0 ≤ k → sameKeys m k own theirs = Ret true →
  ∀ i, (i < m)%nat → ∃ p, own !! (Z.to_nat k + i)%nat = Some (Some p)
                         ∧ theirs !! (Z.to_nat k + i)%nat = Some (Some p).
Proof.
  induction m as [|m IH]; intros k own theirs Hk H i Hi; [lia|]. cbn [sameKeys] in H.
  go_inv H. go_inv H. go_inv H. destruct a1; [|done].
  apply index_ret in E as [_ E]. apply index_ret in E0 as [_ E0].
  apply pointEqual_true in E1 as (p & -> & ->).
  destruct i as [|i]; [exists p; by rewrite Nat.add_0_r|].
  destruct (IH (k + 1) own theirs ltac:(lia) H i ltac:(lia)) as (q & H1 & H2).
  exists q. by replace (Z.to_nat k + S i)%nat with (Z.to_nat (k + 1) + i)%nat by lia.
Qed.

Lemma findOwn_true m newBase proof own : ∀ bases allKeys proofs,
  findOwn m newBase proof own bases allKeys proofs false = Ret true →
  ∃ k base ks, newBase = Some base ∧ bases !! k = Some (Some base)
    ∧ allKeys !! k = Some ks ∧ proofs !! k = Some proof ∧ sameKeys m 0 own ks = Ret true.
Proof.
  induction bases as [|b bases IH]; intros [|ks allKeys] [|p proofs] H; try done.
  cbn [findOwn] in H. go_inv H. go_inv H.
  assert ((a0 = false ∧ findOwn m newBase proof own bases allKeys proofs false = Ret true)
    ∨ (a = true ∧ proof = p ∧ sameKeys m 0 own ks = Ret true)) as [[_ H']|(-> & -> & HS)].
  { destruct a; cbn [andb] in E0.
    - destruct (bool_decide_reflect (proof = p)) as [->|]; [|injection E0 as <-; by left].
      go_inv E0. injection E0 as <-. destruct a; cbn [orb] in *; [by right | by left].
    - injection E0 as <-. by left. }
  - destruct (IH _ _ H') as (k & base & ks' & ?). by exists (S k), base, ks'.
  - apply pointEqual_true in E as (q & -> & ->). by exists 0%nat, q, ks.
Qed.

(** Keys that agree at every position of the shorter list *)
Lemma keys_prefix (own ks : list (option Point)) n :
  (∀ i, (i < n)%nat → ∃ p, own !! i = Some (Some p) ∧ ks !! i = Some (Some p)) →
  (n ≤ length own)%nat ∧ ((length own ≤ n)%nat → own `prefix_of` ks).
Proof.
  intros H. split.
  - destruct (decide (n ≤ length own)%nat) as [|Hn]; [done|]. exfalso.
    destruct (H (length own)) as (p & Hp & _); [lia|]. apply lookup_lt_Some in Hp. lia.
  - intros Hn. exists (drop (length own) ks). rewrite <- (take_drop (length own) ks) at 1. f_equal.
    apply list_eq. intros i. destruct (decide (i < length own)%nat) as [Hi|Hi].
    + rewrite lookup_take_lt by done. destruct (H i) as (p & -> & ->); [lia | done].
    + rewrite lookup_take_ge by lia. symmetry. apply lookup_ge_None. lia.
Qed.

(** C31: A trustee signs a transcript only if some step of it has the trustee's
    base, its proof and, at every position of the key list of the FIRST step, its
    shuffled key; so if that list is not shorter than the keys the trustee
    shuffled, all of them are in the transcript.  The keys beyond it are neither
    compared nor signed: what the trustee signs is the last base followed by as
    many of the last keys. *)
Theorem trustee_signs_own_shuffle rnd t bases allKeys proofs sig :
  ReceivedTranscriptFromRelay rnd t bases allKeys proofs = Ret (Ok sig) →
  ∃ base own proof first k ks,
    NewBase t = Some base ∧ EphemeralKeys t = Some own ∧ Proof_ t = Some proof
    ∧ allKeys !! 0%nat = Some first
    ∧ bases !! k = Some (Some base) ∧ proofs !! k = Some proof ∧ allKeys !! k = Some ks
    ∧ (∀ i, (i < length first)%nat → ∃ p, own !! i = Some (Some p) ∧ ks !! i = Some (Some p))
    ∧ (length first ≤ length own)%nat ∧ ((length own ≤ length first)%nat → own `prefix_of` ks)
    ∧ ∃ lastBase lastKeys sk M,
        last bases = Some lastBase ∧ last allKeys = Some lastKeys ∧ PrivateKey t = Some sk
        ∧ signedBlob lastBase lastKeys (length first) = Ret (Some M)
        ∧ sig = mkShuffleSig (TrusteeID t) (ss_Sig sig) ∧ schnorr_Sign rnd sk M = Ok (ss_Sig sig).
Proof.
  unfold ReceivedTranscriptFromRelay. intros H.
  destruct (NewBase t) as [base|] eqn:EB; [|done]. destruct (EphemeralKeys t) as [own|]; [|done].
  destruct (length own =? 0)%nat; [done|]. destruct (Proof_ t) as [proof|]; [|done].
  destruct (Nat.eqb_spec (length bases) (length allKeys)) as [Hl|]; [|done].
  destruct (_ || _); [done|]. go_inv H. go_inv H. destruct a0; [|done].
  go_inv H. go_inv H. go_inv H. destruct a2 as [M|]; [|done].
  destruct (PrivateKey t) as [sk|]; [|done].
  destruct (schnorr_Sign rnd sk M) as [sg|] eqn:ES; [|done]. injection H as <-.
  apply findOwn_true in E0 as (k & b & ks & [= <-] & Hb & Hk & Hp & HS).
  apply index_ret in E as [_ E]. apply index_ret in E1 as [Hz E1]. apply index_ret in E2 as [_ E2].
  assert (∀ i, (i < length a)%nat → ∃ p, own !! i = Some (Some p) ∧ ks !! i = Some (Some p)) as Hkeys.
  { intros i Hi. destruct (sameKeys_true _ _ _ _ (Z.le_refl 0) HS i Hi) as (p & ? & ?). by exists p. }
  destruct (keys_prefix own ks (length a) Hkeys) as [Hshort Hall].
  exists base, own, proof, a, k, ks. split_and!; try done.
  - exists a0, a1, sk, M. rewrite !last_lookup, <- Hl.
    replace (Nat.pred (length bases)) with (Z.to_nat (len bases - 1)) by (unfold len; lia).
    by split_and!.
Qed.
End accept.

(** ** A concrete run: three clients, two trustees *)

Module NeffDemo.
Import ToySuite.

Lemma invertible_ok (c d : fp) : mul d c = fp_of 1 → @coeff_ok suite c.
Proof.
  intros H P Q E. change (mul c P = mul c Q) in E.
  assert (∀ a : fp, mul d (mul c a) = a) as Hi.
  { intros a. rewrite (@Point_Mul_Mul suite laws d c a : mul d (mul c a) = mul (mul d c) a), H.
    apply fp_eq. cbn [mul fp_of fp_val]. rewrite (Z.mod_small 1), Z.mul_1_l by lia.
    apply Z.mod_small, fp_range. }
  rewrite <- (Hi P), <- (Hi Q). by f_equal.
Qed.

Definition clientKeys : list fp := [fp_of 11; fp_of 22; fp_of 33].
Definition trustees : list (@trusteeInput suite) :=
  [ @mkTrusteeInput suite (fp_of 7) (fp_of 5) [2; 0; 1]%nat true ([1], 0);
    @mkTrusteeInput suite (fp_of 9) (fp_of 3) [1; 0; 2]%nat true ([2], 0) ].
Definition pks : list (option fp) := [Some (fp_of 7); Some (fp_of 9)].
(** the last base 15 and the shuffled keys 15*33, 15*22, 15*11 with their signatures *)
Definition lastKeys : list (option fp) := [Some (fp_of 495); Some (fp_of 330); Some (fp_of 165)].
Definition sigs : list (option bytes) :=
  let M := default [] (marshal (fp_of 15)) ++ mjoin ((λ k, default [] (k ≫= marshal)) <$> lastKeys) in
  (λ sk, Some (fp_val sk :: be_encode 8 (checksum M))) <$> [fp_of 7; fp_of 9].

Lemma neff_shuffle_slots_witness :
  ∃ slots, @runShuffle suite clientKeys trustees = Ret (Ok slots)
  ∧ length slots = 3%nat ∧ NoDup slots ∧ Forall (λ s, 0 ≤ s < 3) slots.
Proof.
  apply (@neff_shuffle_slots suite laws clientKeys trustees).
  - cbn. lia.
  - done.
  - repeat apply Forall_cons_2; [| | by constructor]; split; cbn.
    + exact (invertible_ok (fp_of 5) (fp_of 201) ltac:(by apply fp_eq)).
    + intros _. by apply (bool_decide_unpack _).
    + exact (invertible_ok (fp_of 3) (fp_of 84) ltac:(by apply fp_eq)).
    + intros _. by apply (bool_decide_unpack _).
  - intros i j Hi Hj E. cbn in Hi, Hj. apply (f_equal fp_val) in E.
    destruct i as [|[|[|i]]], j as [|[|[|j]]]; try lia; vm_compute in E; done.
Defined.

Lemma client_slot_sound_witness :
  @ClientVerifySigAndRecognizeSlot suite (Some (fp_of 22)) (Some pks) (Some (fp_of 15)) (Some lastKeys)
    (Some sigs) = Ret (Ok 1) ∧
  ∃ M, @signedBlob suite (Some (fp_of 15)) lastKeys 3 = Ret (Some M) ∧
    Forall2 (λ pk sig, ∃ p : fp, pk = Some p ∧ verify p M (default [] sig) = true) pks sigs.
Proof.
  assert (@ClientVerifySigAndRecognizeSlot suite (Some (fp_of 22)) (Some pks) (Some (fp_of 15))
    (Some lastKeys) (Some sigs) = Ret (Ok 1)) as H by (vm_compute; reflexivity).
  split; [exact H|].
  destruct (@client_slot_sound suite laws _ _ _ _ _ _ H) as (x & base & M & _ & _ & _ & HM & HF & _).
  exists M. split; [exact HM | exact HF].
Defined.

(** Trustee 1 shuffled last: base 15, the keys above. *)
Definition lastTrustee : NeffShuffleTrustee suite :=
  @mkNeffTrustee suite 1 (Some (fp_of 9)) (Some (fp_of 9)) (Some (fp_of 3)) (Some (fp_of 15))
    (Some (zeros 50)) (Some lastKeys).
Definition theBases : list (option fp) := [Some (fp_of 5); Some (fp_of 15)].
Definition theKeys : list (list (option fp)) :=
  [[Some (fp_of 110); Some (fp_of 165); Some (fp_of 55)]; lastKeys].

Lemma trustee_signs_own_shuffle_witness :
  ∃ sig, @ReceivedTranscriptFromRelay suite ([9], 0) lastTrustee theBases theKeys
           [zeros 50; zeros 50] = Ret (Ok sig) ∧
  ∃ k ks, theKeys !! k = Some ks ∧ theBases !! k = Some (Some (fp_of 15))
    ∧ lastKeys `prefix_of` ks.
Proof.
  eexists. split; [vm_compute; reflexivity|].
  destruct (@trustee_signs_own_shuffle suite laws ([9], 0) lastTrustee theBases theKeys
    [zeros 50; zeros 50] (mkShuffleSig 1 (9 :: be_encode 8 (checksum
      (default [] (marshal (fp_of 15)) ++ mjoin ((λ k, default [] (k ≫= marshal)) <$> lastKeys))))))
    as (base & own & proof & first & k & ks & [= <-] & [= <-] & _ & [= <-] & Hb & _ & Hk & _ & _ & HF & _).
  { vm_compute. reflexivity. }
  exists k, ks. split; [exact Hk|]. split; [exact Hb|]. apply HF. cbn. lia.
Defined.

(** A transcript whose lists of keys are empty is signed too, though it has none
    of the keys the trustee shuffled. *)
Lemma empty_transcript_signed :
  ∃ sig, @ReceivedTranscriptFromRelay suite ([9], 0) lastTrustee theBases [[]; []] [zeros 50; zeros 50] = Ret (Ok sig).
Proof. eexists. vm_compute. reflexivity. Qed.
End NeffDemo.
