(* ===== verification/Network.v ===== *)
(** * Effects of the protocol entities

    A handler of an entity reads and writes the entity's state, sends messages
    through a MessageSenderWrapper (prifi-lib/net/message_sender.go), and may
    stop the process.  [handler S A] is that effect: state passing over [S] and
    a trace of what the outside world observes.  The network itself, the clock
    and the proof system of kyber/proof are parameters. *)

From S2P Require Import Prelude Bytes Crypto Messages StateMachine.

Open Scope Z_scope.

Inductive dest := ToRelay | ToClient (i : Z) | ToTrustee (i : Z) | ToAllClients.

#[export] Instance dest_eq_dec : EqDecision dest.
Proof. solve_decision. Defined.

(** What the outside world observes of an entity. *)
Inductive event {CS : CryptoSuite} :=
| Sent (d : dest) (m : message CS)       (* the network accepted the message *)
| SendFailed (d : dest) (m : message CS) (* the network reported an error *)
| NetworkError (e : string)              (* networkErrorHappened was called *)
| Slept (ms : Z)                         (* time.Sleep *)
| Spawned (what : string) (args : list Z) (* a goroutine was started *)
| Delivered (data : bytes)               (* data handed to the application *)
| ToChannel (what : string) (args : list Z) (* a value sent to another goroutine *)
| Measured (what : string) (v : Z)       (* a value handed to the statistics *)
| TimedOut (clients trustees : list Z).  (* the relay's timeoutHandler was called *)
Arguments event CS : clear implicits.

(** The environment: what the network answers to a send (the error text, or
    nil), given everything observed before. *)
Class Network (CS : CryptoSuite) := {
  net_send : list (event CS) → dest → message CS → option string
}.

(** time.Now in nanoseconds, given everything observed before: two readings
    differ only if something observable happened in between. *)
Class Clock (CS : CryptoSuite) := {
  time_Now : list (event CS) → Z
}.

(** kyber/proof: predicates are terms, proofs are made and checked by the
    library.  [HashProve] takes the prover's randomness and the Or choices. *)
Inductive Predicate :=
| Rep (P x B : string)
| And (l : list Predicate)
| Or (l : list Predicate).

Class ProofSystem (CS : CryptoSuite) := {
  HashProve : XOF → string → Predicate → gmap string Scalar → gmap string (option Point) →
              option nat → result bytes;
  HashVerify : string → Predicate → gmap string (option Point) → bytes → bool
}.

(** ** The handler monad *)

Section handler.
Context {CS : CryptoSuite}.

Definition handler (S A : Type) : Type := S * list (event CS) → go (A * (S * list (event CS))).

#[export] Instance handler_ret {S} : MRet (handler S) := λ A a w, Ret (a, w).
#[export] Instance handler_bind {S} : MBind (handler S) := λ A B f m w,
  match m w with Ret (a, w) => f a w | Crash c => Crash c end.

Definition lift {S A} (m : go A) : handler S A := λ w,
  match m with Ret a => Ret (a, w) | Crash c => Crash c end.
Definition get {S} : handler S S := λ w, Ret (w.1, w).
Definition put {S} (s : S) : handler S unit := λ w, Ret (tt, (s, w.2)).
Definition modify {S} (f : S → S) : handler S unit := λ w, Ret (tt, (f w.1, w.2)).
Definition emit {S} (e : event CS) : handler S unit := λ w, Ret (tt, (w.1, w.2 ++ [e])).

(** [for _, x := range l { f(x) }] *)
Fixpoint forEach {S X} (f : X → handler S unit) (l : list X) : handler S unit :=
  match l with
  | [] => mret tt
  | x :: l => _ ← f x; forEach f l
  end.

(** The steps of a handler, for symbolic evaluation. *)
Lemma run_ret {S A} (a : A) (w : S * list (event CS)) : (mret a : handler S A) w = Ret (a, w).
Proof. done. Qed.

Lemma run_bind {S A B} (m : handler S A) (f : A → handler S B) w :
  (m ≫= f) w = match m w with Ret (a, w) => f a w | Crash c => Crash c end.
Proof. done. Qed.

Lemma run_lift {S A} (m : go A) (w : S * list (event CS)) :
  (lift m : handler S A) w = match m with Ret a => Ret (a, w) | Crash c => Crash c end.
Proof. done. Qed.

Lemma handler_bind_inv {S A B} (m : handler S A) (f : A → handler S B) w b w' :
  (m ≫= f) w = Ret (b, w') → ∃ a w1, m w = Ret (a, w1) ∧ f a w1 = Ret (b, w').
Proof. unfold mbind, handler_bind. destruct (m w) as [[a w1]|]; [eauto | done]. Qed.

(** Handlers whose trace only grows, and grows by events that satisfy [P]. *)
Definition emits {S A} (P : event CS → Prop) (m : handler S A) : Prop :=
  ∀ s tr a s' tr', m (s, tr) = Ret (a, (s', tr')) → ∃ new, tr' = tr ++ new ∧ Forall P new.

Lemma emits_ret {S A} P (a : A) : emits P (mret a : handler S A).
Proof. intros s tr a' s' tr' [= <- <- <-]. exists []. by rewrite app_nil_r. Qed.

Lemma emits_bind {S A B} P (m : handler S A) (f : A → handler S B) :
  emits P m → (∀ a, emits P (f a)) → emits P (m ≫= f).
Proof.
  intros Hm Hf s tr b s' tr' H. apply handler_bind_inv in H as (a & [s1 tr1] & H1 & H2).
  apply Hm in H1 as (n1 & -> & HP1). apply Hf in H2 as (n2 & -> & HP2).
  exists (n1 ++ n2). rewrite app_assoc. split; [done|]. by apply Forall_app.
Qed.

Lemma emits_lift {S A} P (m : go A) : emits P (lift m : handler S A).
Proof. intros s tr a s' tr'. unfold lift. destruct m; [|done]. intros [= <- <- <-]. exists []. by rewrite app_nil_r. Qed.

Lemma emits_get {S} P : emits P (get : handler S S).
Proof. intros s tr a s' tr' [= <- <- <-]. exists []. by rewrite app_nil_r. Qed.

Lemma emits_put {S} P (s : S) : emits P (put s).
Proof. intros s0 tr a s' tr' [= <- <-]. exists []. by rewrite app_nil_r. Qed.

Lemma emits_modify {S} P (f : S → S) : emits P (modify f).
Proof. intros s0 tr a s' tr' [= <- <-]. exists []. by rewrite app_nil_r. Qed.

Lemma emits_emit {S} (P : event CS → Prop) e : P e → emits P (emit e : handler S unit).
Proof. intros He s0 tr a s' tr' [= <- <-]. exists [e]. split; [done|]. by constructor. Qed.

Lemma emits_weaken {S A} (P Q : event CS → Prop) (m : handler S A) :
  (∀ e, P e → Q e) → emits P m → emits Q m.
Proof.
  intros HPQ Hm s tr a s' tr' H. apply Hm in H as (n & -> & HP). exists n.
  split; [done|]. by eapply Forall_impl.
Qed.

Lemma emits_forEach {S X} P (f : X → handler S unit) l :
  (∀ x, x ∈ l → emits P (f x)) → emits P (forEach f l).
Proof.
  induction l as [|x l IH]; intros Hf; [apply emits_ret|].
  apply emits_bind; [apply Hf; set_solver|]. intros _. apply IH. set_solver.
Qed.

(** Handlers that leave a part of the state alone. *)
Definition keeps_proj {S A T} (proj : S → T) (m : handler S A) : Prop :=
  ∀ s tr a s' tr', m (s, tr) = Ret (a, (s', tr')) → proj s' = proj s.

Section keeps.
Context {S T : Type} (proj : S → T).

Lemma keeps_ret {A} (a : A) : keeps_proj proj (mret a : handler S A).
Proof. by intros s tr a' s' tr' [= <- <- <-]. Qed.

Lemma keeps_bind {A B} (m : handler S A) (f : A → handler S B) :
  keeps_proj proj m → (∀ a, keeps_proj proj (f a)) → keeps_proj proj (m ≫= f).
Proof.
  intros Hm Hf s tr b s' tr' H. apply handler_bind_inv in H as (a & [s1 tr1] & H1 & H2).
  apply Hm in H1. apply Hf in H2. congruence.
Qed.

Lemma keeps_lift {A} (m : go A) : keeps_proj proj (lift m : handler S A).
Proof. intros s tr a s' tr'. unfold lift. destruct m; [|done]. by intros [= <- <- <-]. Qed.

Lemma keeps_get : keeps_proj proj (get : handler S S).
Proof. by intros s tr a s' tr' [= <- <- <-]. Qed.

Lemma keeps_modify (f : S → S) : (∀ s, proj (f s) = proj s) → keeps_proj proj (modify f).
Proof. intros Hf s tr a s' tr' [= <- <-]. apply Hf. Qed.

Lemma keeps_emit e : keeps_proj proj (emit e : handler S unit).
Proof. by intros s tr a s' tr' [= <- <-]. Qed.

Lemma keeps_forEach {X} (f : X → handler S unit) l :
  (∀ x, x ∈ l → keeps_proj proj (f x)) → keeps_proj proj (forEach f l).
Proof.
  induction l as [|x l IH]; intros Hf; [apply keeps_ret|].
  apply keeps_bind; [apply Hf; set_solver|]. intros _. apply IH. set_solver.
Qed.
End keeps.
End handler.

Arguments handler {CS} S A.

Create HintDb emits.
#[export] Hint Resolve emits_ret emits_bind emits_lift emits_get emits_put emits_modify emits_emit
  : emits.

(** ** Sending (MessageSenderWrapper) *)

Section sender.
Context {CS : CryptoSuite} `{!Network CS}.

(** func (m) sendToWithLog and sendToWithLog2: the answer is true iff the
    network reported no error; otherwise networkErrorHappened is told *)
Definition sendToWithLog {S} (d : dest) (msg : message CS) : handler S bool := λ w,
  match net_send w.2 d msg with
  | Some err => (_ ← emit (SendFailed d msg);
                 _ ← emit (NetworkError err);
                 mret false) w
  | None => (_ ← emit (Sent d msg); mret true) w
  end.

(** func (m) SendToRelayWithLog, SendToClientWithLog, SendToTrusteeWithLog and
    BroadcastToAllClientsWithLog *)
Definition SendToRelayWithLog {S} (msg : message CS) : handler S bool := sendToWithLog ToRelay msg.
Definition SendToClientWithLog {S} (i : Z) (msg : message CS) : handler S bool :=
  sendToWithLog (ToClient i) msg.
Definition SendToTrusteeWithLog {S} (i : Z) (msg : message CS) : handler S bool :=
  sendToWithLog (ToTrustee i) msg.
Definition BroadcastToAllClientsWithLog {S} (msg : message CS) : handler S bool :=
  sendToWithLog ToAllClients msg.

Lemma emits_send {S} (P : event CS → Prop) d m :
  P (Sent d m) → P (SendFailed d m) → (∀ e, P (NetworkError e)) →
  emits P (sendToWithLog d m : handler S bool).
Proof.
  intros H1 H2 H3 s tr a s' tr'. unfold sendToWithLog. cbn [snd fst].
  destruct (net_send tr d m) as [err|].
  - intros [= <- <- <-]. exists [SendFailed d m; NetworkError err]. rewrite <- app_assoc.
    split; [done|]. by repeat constructor.
  - intros [= <- <- <-]. exists [Sent d m]. split; [done|]. by repeat constructor.
Qed.

Lemma send_inv {S} d m (w : S * list (event CS)) b w' :
  sendToWithLog d m w = Ret (b, w') → w'.1 = w.1.
Proof. unfold sendToWithLog. destruct (net_send w.2 d m); by intros [= <- <-]. Qed.

Lemma keeps_send {S T} (proj : S → T) d m : keeps_proj proj (sendToWithLog d m : handler S bool).
Proof. intros s tr b s' tr' H. apply send_inv in H. cbn in H. by subst. Qed.

(** A successful send adds one event, a failed one two. *)
Lemma send_trace {S} d m (s : S) tr b w' :
  sendToWithLog d m (s, tr) = Ret (b, w') →
  w' = (s, tr ++ match net_send tr d m with
                 | None => [Sent d m] | Some err => [SendFailed d m; NetworkError err] end)
  ∧ b = match net_send tr d m with None => true | Some _ => false end.
Proof.
  unfold sendToWithLog. cbn [snd fst]. destruct (net_send tr d m) as [err|].
  - intros [= <- <-]. cbn. by rewrite <- app_assoc.
  - by intros [= <- <-].
Qed.
End sender.

#[export] Hint Resolve emits_send : emits.

(** [t := time.Now()] *)
Definition now {CS : CryptoSuite} `{!Clock CS} {S} : handler S Z := λ w, Ret (time_Now w.2, w).

Lemma emits_now {CS : CryptoSuite} `{!Clock CS} {S} (P : event CS → Prop) :
  emits P (now : handler S Z).
Proof. intros s tr a s' tr' [= <- <- <-]. exists []. by rewrite app_nil_r. Qed.

Lemma keeps_now {CS : CryptoSuite} `{!Clock CS} {S T} (proj : S → T) :
  keeps_proj proj (now : handler S Z).
Proof. by intros s tr a s' tr' [= <- <- <-]. Qed.

(** [solve_emits] and [solve_keeps] go through the structure of a handler;
    [solve_emits_with] and [solve_keeps_with] try a tactic of the caller first. *)
Ltac solve_emits_with tac :=
  repeat first
    [ solve [tac] | apply emits_ret | apply emits_lift | apply emits_get | apply emits_put | apply emits_modify
    | apply emits_now | apply emits_forEach; intros ? _
    | apply emits_send; done | apply emits_emit; done | apply emits_bind; [|intros ?]
    | match goal with
      | |- emits _ (if ?b then _ else _) => destruct b
      | |- emits _ (match ?x with _ => _ end) => destruct x
      end ].
Ltac solve_emits := solve_emits_with fail.
Ltac solve_keeps_with tac :=
  repeat first
    [ solve [tac] | apply keeps_ret | apply keeps_lift | apply keeps_get | apply keeps_modify; done
    | apply keeps_send | apply keeps_emit | apply keeps_now | apply keeps_forEach; intros ? _ | apply keeps_bind; [|intros ?]
    | match goal with
      | |- keeps_proj _ (if ?b then _ else _) => destruct b
      | |- keeps_proj _ (match ?x with _ => _ end) => destruct x
      end ].
Ltac solve_keeps := solve_keeps_with fail.

(** [h_run H] runs a handler backwards: from [H : m (s, tr) = Ret (a, w')] to
    the equations of its primitive steps. *)
Ltac h_step H :=
  lazymatch type of H with
  | mbind _ _ _ = Ret _ =>
    let a := fresh "a" in let s := fresh "s" in let t := fresh "tr" in let E := fresh "E" in
    apply handler_bind_inv in H; destruct H as (a & [s t] & E & H);
    repeat h_step E
  | mret _ _ = Ret _ => symmetry in H; injection H as ?; subst
  | get _ = Ret _ => symmetry in H; injection H as ?; subst
  | put _ _ = Ret _ => symmetry in H; injection H as ?; subst
  | modify _ _ = Ret _ => symmetry in H; injection H as ?; subst
  | now _ = Ret _ => symmetry in H; injection H as ?; subst
  | emit _ _ = Ret _ => symmetry in H; injection H as ?; subst
  | lift ?m _ = Ret _ =>
    let E := fresh "E" in
    unfold lift in H; destruct m eqn:E; [symmetry in H; injection H as ?; subst | discriminate H]
  | sendToWithLog _ _ _ = Ret _ =>
    let Hb := fresh "Hsent" in apply send_trace in H; destruct H as [H Hb];
    injection H as ?; subst
  | (match ?x with _ => _ end) _ = Ret _ =>
    lazymatch type of x with prod _ _ =>
      first [is_var x; destruct x | let E := fresh "E" in destruct x eqn:E] end
  end.
Ltac h_run H := repeat h_step H.
(** ... all hypotheses, after a case split unblocked some of them *)
Ltac h_go := repeat match goal with H : _ = Ret _ |- _ => h_step H end.

(** ** State machines that exit the process

    The entities install an error function that calls log.Fatal
    on every failed assertion but those made in state SHUTDOWN. *)

Definition assertOrFatal (sm : StateMachine) (state : string) : go bool :=
  if AssertState sm state then Ret true
  else if allowedState (states sm) state && String.eqb (currentState sm) "SHUTDOWN"
  then Ret false else Crash (Fatal "Required State").

Definition assertOrFatal2 (sm : StateMachine) (state1 state2 : string) : go bool :=
  if AssertStateOrState sm state1 state2 then Ret true
  else if allowedState (states sm) state1 && allowedState (states sm) state2
          && String.eqb (currentState sm) "SHUTDOWN"
  then Ret false else Crash (Fatal "Required State").

Definition changeOrFatal (sm : StateMachine) (newState : string) : go StateMachine :=
  if allowedState (states sm) newState then Ret (ChangeState sm newState)
  else Crash (Fatal "Cannot change state").

Lemma assertOrFatal_true sm x : assertOrFatal sm x = Ret true → currentState sm = x.
Proof.
  unfold assertOrFatal. destruct (AssertState sm x) eqn:E; [by apply AssertState_true in E as [_ ?]|].
  by destruct (_ && _).
Qed.

Lemma assertOrFatal2_true sm x y :
  assertOrFatal2 sm x y = Ret true → currentState sm = x ∨ currentState sm = y.
Proof.
  unfold assertOrFatal2. destruct (AssertStateOrState sm x y) eqn:E;
    [by apply AssertStateOrState_true in E as (_ & _ & ?)|]. by destruct (_ && _).
Qed.

Lemma changeOrFatal_ret sm x sm' :
  changeOrFatal sm x = Ret sm' → currentState sm' = x ∧ states sm' = states sm.
Proof.
  unfold changeOrFatal. destruct (allowedState _ _) eqn:E; [|done]. intros [= <-].
  apply allowedState_spec in E. by rewrite ChangeState_allowed, ChangeState_states.
Qed.
