(* ===== verification/HandlerLogic.v ===== *)
(** * A Hoare logic for handlers

    [wp C m Q w]: running [m] from the world [w] either returns and satisfies
    [Q], or stops the process with a crash that [C] allows.  With [C] empty this
    is total correctness; with [C] everything it is partial correctness. *)

From S2P Require Import Prelude Bytes Crypto Messages StateMachine Network.

Open Scope Z_scope.

Section wp.
Context {CS : CryptoSuite} (C : crash → Prop).

Definition wp {S A} (m : handler S A) (Q : A → S * list (event CS) → Prop)
    (w : S * list (event CS)) : Prop :=
  match m w with Ret (a, w') => Q a w' | Crash c => C c end.

Lemma wp_inv {S A} (m : handler S A) Q w a w' : wp m Q w → m w = Ret (a, w') → Q a w'.
Proof. unfold wp. intros H E. by rewrite E in H. Qed.

Lemma wp_mono {S A} (m : handler S A) (Q Q' : A → S * list (event CS) → Prop) w :
  (∀ a w', Q a w' → Q' a w') → wp m Q w → wp m Q' w.
Proof. unfold wp. intros HQ. destruct (m w) as [[a w']|c]; [apply HQ | done]. Qed.

Lemma wp_ret {S A} (a : A) (Q : A → S * list (event CS) → Prop) w : Q a w → wp (mret a) Q w.
Proof. done. Qed.

Lemma wp_bind {S A B} (m : handler S A) (f : A → handler S B) Q w :
  wp m (λ a, wp (f a) Q) w → wp (m ≫= f) Q w.
Proof. unfold wp, mbind, handler_bind. by destruct (m w) as [[a w']|c]. Qed.

Lemma wp_lift {S A} (m : go A) (Q : A → S * list (event CS) → Prop) w :
  (∀ a, m = Ret a → Q a w) → (∀ c, m = Crash c → C c) → wp (lift m) Q w.
Proof. unfold wp, lift. destruct m; intros H1 H2; [by apply H1 | by apply H2]. Qed.

Lemma wp_lift_ret {S A} (m : go A) a (Q : A → S * list (event CS) → Prop) w :
  m = Ret a → Q a w → wp (lift m) Q w.
Proof. by intros ->. Qed.

Lemma wp_crash {S A} c (Q : A → S * list (event CS) → Prop) w : C c → wp (lift (Crash c)) Q w.
Proof. done. Qed.

Lemma wp_get {S} (Q : S → S * list (event CS) → Prop) s tr : Q s (s, tr) → wp get Q (s, tr).
Proof. done. Qed.

Lemma wp_modify {S} (f : S → S) (Q : unit → S * list (event CS) → Prop) s tr :
  Q tt (f s, tr) → wp (modify f) Q (s, tr).
Proof. done. Qed.

Lemma wp_emit {S} e (Q : unit → S * list (event CS) → Prop) s tr :
  Q tt (s, tr ++ [e]) → wp (emit e) Q (s, tr).
Proof. done. Qed.

Lemma wp_now `{!Clock CS} {S} (Q : Z → S * list (event CS) → Prop) w :
  (∀ t, Q t w) → wp now Q w.
Proof. intros H. apply H. Qed.

Lemma wp_send `{!Network CS} {S} d m (Q : bool → S * list (event CS) → Prop) s tr :
  (∀ b evs, evs = [Sent d m] ∨ (∃ e, evs = [SendFailed d m; NetworkError e]) →
            Q b (s, tr ++ evs)) →
  wp (sendToWithLog d m) Q (s, tr).
Proof.
  intros H. unfold wp, sendToWithLog. cbn [fst snd].
  destruct (net_send tr d m) as [e|].
  - change (Q false (s, (tr ++ [SendFailed d m]) ++ [NetworkError e])).
    rewrite <- app_assoc. apply H. right. by exists e.
  - change (Q true (s, tr ++ [Sent d m])). apply H. by left.
Qed.

(** A loop: the invariant is indexed by the items done. *)
Lemma wp_forEach {S X} (f : X → handler S unit) (I : list X → S * list (event CS) → Prop) l :
  (∀ done x todo w, l = done ++ x :: todo → I done w → wp (f x) (λ _, I (done ++ [x])) w) →
  ∀ w, I [] w → wp (forEach f l) (λ _, I l) w.
Proof.
  intros Hstep.
  assert (∀ todo done w, l = done ++ todo → I done w → wp (forEach f todo) (λ _, I l) w) as H.
  { induction todo as [|x todo IH]; intros done w Hl HI.
    - rewrite app_nil_r in Hl. subst. by apply wp_ret.
    - cbn [forEach]. apply wp_bind. eapply wp_mono; [|by eapply Hstep].
      cbn. intros _ w' HI'. apply (IH (done ++ [x])); [by rewrite <- app_assoc | done]. }
  intros w HI. by apply (H l []).
Qed.
End wp.

(** [wp_step]: one primitive step of the goal. *)
Ltac wp_step :=
  lazymatch goal with
  | |- wp _ (mbind _ _) _ _ => apply wp_bind
  | |- wp _ (mret _) _ _ => apply wp_ret
  | |- wp _ get _ _ => apply wp_get
  | |- wp _ (modify _) _ _ => apply wp_modify
  | |- wp _ (emit _) _ _ => apply wp_emit
  | |- wp _ now _ _ => apply wp_now; intros ?
  | |- wp _ (sendToWithLog _ _) _ _ => apply wp_send; intros ? ? ?
  end.
