(* ===== verification/Trustee.v ===== *)
(** * The trustee (prifi-lib/trustee)

    State, message handlers and the goroutine that sends DC-net ciphers.  Keys,
    coefficients, permutations and nonces drawn from random streams are
    arguments of the handlers that draw them. *)

From stdpp Require Import pretty.
From S2P Require Import Prelude Bytes Crypto DCNetCipher Equivocation DCNet.
From S2P Require Import Messages StateMachine NeffShuffle Network.

Open Scope Z_scope.

(** The sending rates, int16 constants *)
Definition TRUSTEE_KILL_SEND_PROCESS : Z := 0.
Definition TRUSTEE_RATE_ACTIVE : Z := 1.
Definition TRUSTEE_RATE_HALVED : Z := 2.

(** The capacity of the channel sendingRate *)
Definition sendingRateCapacity : nat := 10.

(** strconv.Itoa *)
Definition Itoa (z : Z) : string := pretty z.

Section trustee.
Context {CS : CryptoSuite} `{!Network CS} `{!ProofSystem CS}.

(** type TrusteeState; the channel [t_sendingRate] is the list of its buffered
    values.  MessageHistory is never used. *)
Record TrusteeState := mkTrusteeState {
  t_DCNet : option (DCNetEntity CS);
  t_ClientPublicKeys : list (option Point);
  t_ID : Z;
  t_Name : string;
  t_nClients : Z;
  t_neffShuffle : NeffShuffleTrustee CS;
  t_nTrustees : Z;
  t_PayloadSize : Z;
  t_privateKey : Scalar;
  t_PublicKey : Point;
  t_sendingRate : list Z;
  t_sharedSecrets : list (option Point);
  t_TrusteeID : Z;
  t_BaseSleepTime : Z;
  t_AlwaysSlowDown : bool;
  t_NeverSlowDown : bool;
  t_EquivocationProtectionEnabled : bool
}.

#[export] Instance eta_TrusteeState : Eta TrusteeState := λ s,
  mkTrusteeState (t_DCNet s) (t_ClientPublicKeys s) (t_ID s) (t_Name s) (t_nClients s)
    (t_neffShuffle s) (t_nTrustees s) (t_PayloadSize s) (t_privateKey s) (t_PublicKey s)
    (t_sendingRate s) (t_sharedSecrets s) (t_TrusteeID s) (t_BaseSleepTime s)
    (t_AlwaysSlowDown s) (t_NeverSlowDown s) (t_EquivocationProtectionEnabled s).

(** type PriFiLibTrusteeInstance; of the message sender only the entity name is
    state *)
Record PriFiLibTrusteeInstance := mkTrusteeInstance {
  t_messageSender : string;
  trusteeState : TrusteeState;
  t_stateMachine : StateMachine
}.

#[export] Instance eta_TrusteeInstance : Eta PriFiLibTrusteeInstance := λ p,
  mkTrusteeInstance (t_messageSender p) (trusteeState p) (t_stateMachine p).

Abbreviation trusteeH := (handler PriFiLibTrusteeInstance).

Definition setT (f : TrusteeState → TrusteeState) : trusteeH unit :=
  modify (λ p, p <| trusteeState := f (trusteeState p) |>).

Definition trusteeStates : list string :=
  ["BEFORE_INIT"; "INITIALIZING"; "SHUFFLE_DONE"; "READY"; "BLAMING"; "SHUTDOWN"].

(** func NewTrustee; [s] is the random scalar of NewKeyPair *)
Definition NewTrustee (s : Scalar) (neverSlowDown alwaysSlowDown : bool) (baseSleepTime : Z)
    : go PriFiLibTrusteeInstance :=
  let '(PublicKey, privateKey) := NewKeyPair s in
  if neverSlowDown && alwaysSlowDown
  then Crash (Fatal "Cannot have alwaysSlowDown=true && neverSlowDown=true") else
  let st := mkTrusteeState None [] 0 "" 0 newNeffTrustee 0 0 privateKey PublicKey [] [] 0
              baseSleepTime alwaysSlowDown neverSlowDown false in
  sm ← Init trusteeStates;
  Ret (mkTrusteeInstance "UnknownSource" st sm).

(** p.stateMachine.ChangeState *)
Definition t_ChangeState (newState : string) : trusteeH unit :=
  p ← get;
  sm ← lift (changeOrFatal (t_stateMachine p) newState);
  put (p <| t_stateMachine := sm |>).

(** p.stateMachine.AssertState *)
Definition t_AssertState (state : string) : trusteeH bool :=
  p ← get; lift (assertOrFatal (t_stateMachine p) state).

(** [p.trusteeState.sendingRate <- rate] *)
Definition t_sendRate (rate : Z) : trusteeH unit :=
  p ← get;
  let ch := t_sendingRate (trusteeState p) in
  if (sendingRateCapacity <=? length ch)%nat then lift (Crash Blocks)
  else setT (λ s, s <| t_sendingRate := ch ++ [rate] |>).

(** func (p) Received_ALL_ALL_SHUTDOWN *)
Definition t_Received_ALL_ALL_SHUTDOWN : trusteeH (result unit) :=
  _ ← t_sendRate TRUSTEE_KILL_SEND_PROCESS;
  _ ← t_ChangeState "SHUTDOWN";
  mret (Ok tt).

(** func (p) Send_TRU_REL_PK *)
Definition Send_TRU_REL_PK : trusteeH (result unit) :=
  p ← get;
  _ ← SendToRelayWithLog (MTellPk (mkTellPk (t_ID (trusteeState p))
                                     (Some (t_PublicKey (trusteeState p)))));
  mret (Ok tt).

(** func (p) Received_ALL_ALL_PARAMETERS *)
Definition t_Received_ALL_ALL_PARAMETERS (msg : ALL_ALL_PARAMETERS CS) : trusteeH (result unit) :=
  let startNow := BoolValueOrElse msg "StartNow" false in
  let trusteeID := IntValueOrElse msg "NextFreeTrusteeID" (-1) in
  let e := ("Trustee " +:+ Itoa trusteeID)%string in
  _ ← modify (λ p, p <| t_stateMachine := SetEntity (t_stateMachine p) e |>
                     <| t_messageSender := e |>);
  p ← get;
  let nTrustees := IntValueOrElse msg "NTrustees" (t_nTrustees (trusteeState p)) in
  let nClients := IntValueOrElse msg "NClients" (t_nClients (trusteeState p)) in
  let payloadSize := IntValueOrElse msg "PayloadSize" (t_PayloadSize (trusteeState p)) in
  let dcNetType := StringValueOrElse msg "DCNetType" "not initilaized" in
  let equivProtection := BoolValueOrElse msg "EquivocationProtectionEnabled" false in
  if trusteeID <? -1 then mret (Err "trusteeID cannot be negative") else
  if nTrustees <? 1 then mret (Err "nTrustees cannot be smaller than 1") else
  if nClients <? 1 then mret (Err "nClients cannot be smaller than 1") else
  if payloadSize <? 1 then mret (Err "payloadSize cannot be 0") else
  if String.eqb dcNetType "Verifiable" then lift (Crash (Panicked "not supported yet")) else
  _ ← setT (λ s,
    s <| t_ID := trusteeID |> <| t_Name := ("Trustee-" +:+ Itoa trusteeID)%string |>
      <| t_nClients := nClients |> <| t_nTrustees := nTrustees |>
      <| t_PayloadSize := payloadSize |> <| t_TrusteeID := trusteeID |>
      <| t_EquivocationProtectionEnabled := equivProtection |>
      <| t_neffShuffle := (Trustee_Init (t_neffShuffle s) trusteeID
                             (Some (t_privateKey s)) (Some (t_PublicKey s))).2 |>
      <| t_ClientPublicKeys := replicate (Z.to_nat nClients) None |>
      <| t_sharedSecrets := replicate (Z.to_nat nClients) None |>);
  _ ← (if startNow then Send_TRU_REL_PK else mret (Ok tt));
  _ ← t_ChangeState "INITIALIZING";
  mret (Ok tt).

(** func (p) Received_REL_TRU_TELL_RATE_CHANGE *)
Definition Received_REL_TRU_TELL_RATE_CHANGE (msg : REL_TRU_TELL_RATE_CHANGE)
    : trusteeH (result unit) :=
  _ ← (if WindowCapacity msg =? 0 then t_sendRate TRUSTEE_RATE_HALVED
       else t_sendRate TRUSTEE_RATE_ACTIVE);
  mret (Ok tt).

(** The loop that fills in the clients' keys and the secrets shared with them *)
Definition fillKeys (privateKey : Scalar) (clientsPks : list (option Point))
    (pks secrets : list (option Point)) : go (list (option Point) * list (option Point)) :=
  go_fold (λ '(pks, secrets) '(i, pk),
    pks ← set_index pks (Z.of_nat i) pk;
    secrets ← set_index secrets (Z.of_nat i) (MulKey privateKey pk);
    Ret (pks, secrets)) (pks, secrets) (imap pair clientsPks).

(** func (p) Received_REL_TRU_TELL_CLIENTS_PKS_AND_EPH_PKS_AND_BASE *)
Definition Received_REL_TRU_TELL_CLIENTS (rnd1 rnd2 : bytes) (secretCoeff : Scalar)
    (perm : list nat) (msg : REL_TRU_TELL_CLIENTS_PKS_AND_EPH_PKS_AND_BASE CS)
    : trusteeH (result unit) :=
  let clientsPks := default [] (tb_Pks msg) in
  let clientsEphemeralPks := default [] (tb_EphPks msg) in
  if len clientsPks <? 1 then mret (Err "len(clientsPks) must be >= 1") else
  if len clientsEphemeralPks <? 1
  then mret (Err "len(clientsEphemeralPks) must be >= 1") else
  if negb (len clientsPks =? len clientsEphemeralPks)
  then mret (Err "len(clientsPks) must be == len(clientsEphemeralPks)") else
  p ← get;
  let s := trusteeState p in
  '(pks, secrets) ← lift (fillKeys (t_privateKey s) clientsPks (t_ClientPublicKeys s)
                            (t_sharedSecrets s));
  _ ← setT (λ s, s <| t_ClientPublicKeys := pks |> <| t_sharedSecrets := secrets |>);
  d ← lift (NewDCNetEntity rnd1 rnd2 (t_ID s) DCNET_TRUSTEE (t_PayloadSize s)
              (t_EquivocationProtectionEnabled s) secrets);
  _ ← setT (λ s, s <| t_DCNet := Some d |>);
  let vkey := zeros 1 in
  '(res, n) ← lift (ReceivedShuffleFromRelay secretCoeff perm (t_neffShuffle s) (tb_Base msg)
                      (tb_EphPks msg) true vkey);
  _ ← setT (λ s, s <| t_neffShuffle := n |>);
  match res with
  | Err e => mret (Err ("Could not do ReceivedShuffleFromRelay, error is " +:+ e)%string)
  | Ok toSend =>
    _ ← SendToRelayWithLog (MNewBase toSend);
    _ ← t_ChangeState "SHUFFLE_DONE";
    mret (Ok tt)
  end.

(** func (p) Received_REL_TRU_TELL_TRANSCRIPT; the goroutine it starts is
    [senderStep] below *)
Definition Received_REL_TRU_TELL_TRANSCRIPT (nonce : XOF) (msg : REL_TRU_TELL_TRANSCRIPT CS)
    : trusteeH (result unit) :=
  p ← get;
  res ← lift (ReceivedTranscriptFromRelay nonce (t_neffShuffle (trusteeState p)) (tt_Bases msg)
                (GetKeys msg) (GetProofs msg));
  match res with
  | Err e => mret (Err ("Could not do ReceivedTranscriptFromRelay, error is " +:+ e)%string)
  | Ok toSend =>
    _ ← SendToRelayWithLog (MShuffleSig toSend);
    _ ← t_ChangeState "READY";
    _ ← emit (Spawned "Send_TRU_REL_DC_CIPHER" []);
    mret (Ok tt)
  end.

(** ** Disruption *)

(** The statement proved about the pads of a round: for each pad i the point
    T_i is the pad, as a scalar t_i, times the base B *)
Definition padStatement (PRGs : list bytes)
    : Predicate * gmap string Scalar * gmap string (option Point) :=
  let B := Point_Base in
  foldl (λ '(pred, sval, pval) '(i, prg),
      let i_string := Itoa (Z.of_nat i) in
      let p_i := Scalar_SetBytes prg in
      let P_i := Point_Mul p_i B in
      (match pred with And l => And (l ++ [Rep ("T" +:+ i_string) ("t" +:+ i_string) "B"]) | q => q end,
       <[("t" +:+ i_string)%string := p_i]> sval,
       <[("T" +:+ i_string)%string := Some P_i]> pval))
    (And [], ∅, {["B" := Some B]}) (imap pair PRGs).

(** The bits GetBitsOfRound returns, as the map the messages carry *)
Definition bitsMap (bits : list Z) : gmap Z Z :=
  list_to_map (imap (λ i b, (Z.of_nat i, b)) bits).

(** func (p) Received_REL_ALL_DISRUPTION_REVEAL: the proof is made and checked,
    the result of the check only logged, and the proof is not sent *)
Definition t_Received_REL_ALL_DISRUPTION_REVEAL (proverRnd : XOF)
    (msg : REL_ALL_DISRUPTION_REVEAL CS) : trusteeH (result unit) :=
  p ← get;
  match t_DCNet (trusteeState p) with
  | None => lift (Crash RuntimeError)
  | Some d =>
    '(r, d) ← lift (GetBitsOfRound d (i32 (rv_RoundID msg)) (i32 (rv_BitPos msg)));
    _ ← setT (λ s, s <| t_DCNet := Some d |>);
    let bitMap := bitsMap <$> (fst <$> r) in
    let PRGs := default [] (snd <$> r) in
    let '(pred, sval, pval) := padStatement PRGs in
    let NIZK := match HashProve proverRnd "DISRUPTION" pred sval pval None with
                | Ok b => b | Err _ => [] end in
    let _verified := HashVerify "DISRUPTION" pred pval NIZK in
    _ ← SendToRelayWithLog (MTrusteeReveal (mkTrusteeReveal (t_ID (trusteeState p)) bitMap [] ∅));
    mret (Ok tt)
  end.

(** The statement proved about a shared secret: log_B X0 = log_BT T *)
Definition secretStatement (publicKey : option Point) (BT T : option Point)
    : Predicate * gmap string (option Point) :=
  (Or [And [Rep "X[0]" "x" "B"; Rep "T" "x" "BT"]],
   <["X[0]" := publicKey]> (<["T" := T]> (<["BT" := BT]> {["B" := Some Point_Base]}))).

(** func (p) Received_REL_ALL_REVEAL_SHARED_SECRETS *)
Definition t_Received_REL_ALL_REVEAL_SHARED_SECRETS (proverRnd : XOF)
    (msg : REL_ALL_REVEAL_SHARED_SECRETS) : trusteeH (result unit) :=
  p ← get;
  let s := trusteeState p in
  secret ← lift (index (t_sharedSecrets s) (rs_EntityID msg));
  BT ← lift (index (t_ClientPublicKeys s) (rs_EntityID msg));
  let sec := {["x" := t_privateKey s]} in
  let '(pred, pub) := secretStatement (Some (t_PublicKey s)) BT secret in
  let NIZK := match HashProve proverRnd "SHAREDKEY" pred sec pub (Some 0%nat) with
              | Ok b => b | Err _ => [] end in
  let _verified := HashVerify "SHAREDKEY" pred pub NIZK in
  _ ← SendToRelayWithLog (MTrusteeSecret
         (mkTrusteeSecret (t_ID s) (rs_EntityID msg) secret NIZK pub));
  mret (Ok tt).

(** ** The sending goroutine *)

(** func sendData *)
Definition sendData (roundID : Z) : trusteeH (result Z * Z) :=
  p ← get;
  match t_DCNet (trusteeState p) with
  | None => lift (Crash RuntimeError)
  | Some d =>
    '(data, d) ← lift (TrusteeEncodeForRound d roundID);
    _ ← setT (λ s, s <| t_DCNet := Some d |>);
    sent ← SendToRelayWithLog (MDCCipher (mkDCCipher roundID (t_ID (trusteeState p)) (Some data)));
    if negb sent then mret (Err "Could not send", -1) else
    mret (Ok (i32 (roundID + 1)), i32 (roundID + 1))
  end.

(** The local variables of Send_TRU_REL_DC_CIPHER *)
Record senderVars := mkSender {
  sv_stop : bool;
  sv_currentRate : Z;
  sv_roundID : Z
}.

#[export] Instance eta_senderVars : Eta senderVars := λ v,
  mkSender (sv_stop v) (sv_currentRate v) (sv_roundID v).

Definition senderStart : senderVars := mkSender false TRUSTEE_RATE_ACTIVE 0.

(** One iteration of the loop of Send_TRU_REL_DC_CIPHER: the select takes a
    buffered rate when there is one, and its default case otherwise *)
Definition senderStep (v : senderVars) : trusteeH senderVars :=
  p ← get;
  let s := trusteeState p in
  match t_sendingRate s with
  | newRate :: rest =>
    _ ← setT (λ s, s <| t_sendingRate := rest |>);
    let v := if negb (sv_currentRate v =? newRate) then v <| sv_currentRate := newRate |> else v in
    mret (if newRate =? TRUSTEE_KILL_SEND_PROCESS then v <| sv_stop := true |> else v)
  | [] =>
    if sv_currentRate v =? TRUSTEE_RATE_ACTIVE then
      _ ← (if t_AlwaysSlowDown s then emit (Slept (t_BaseSleepTime s)) else mret tt);
      '(res, newRoundID) ← sendData (sv_roundID v);
      let v := match res with Err _ => v <| sv_stop := true |> | Ok _ => v end in
      mret (v <| sv_roundID := newRoundID |>)
    else if sv_currentRate v =? TRUSTEE_RATE_HALVED then
      _ ← (if negb (t_NeverSlowDown s) then emit (Slept (t_BaseSleepTime s)) else mret tt);
      mret v
    else mret v
  end.

(** ** Dispatch *)

(** The random draws of one handler call *)
Record trusteeDraws := mkTrusteeDraws {
  td_rnd1 : bytes; td_rnd2 : bytes; td_coeff : Scalar; td_perm : list nat; td_xof : XOF
}.

(** func (p) ReceivedMessage *)
Definition t_ReceivedMessage (d : trusteeDraws) (msg : message CS) : trusteeH (result unit) :=
  let guarded (state : string) (h : trusteeH (result unit)) : trusteeH (result unit) :=
    ok ← t_AssertState state; if ok : bool then h else mret (Ok tt) in
  match msg with
  | MParameters m =>
    if ForceParams m then t_Received_ALL_ALL_PARAMETERS m
    else guarded "BEFORE_INIT" (t_Received_ALL_ALL_PARAMETERS m)
  | MShutdown => t_Received_ALL_ALL_SHUTDOWN
  | MTellClients m =>
    guarded "INITIALIZING"
      (Received_REL_TRU_TELL_CLIENTS (td_rnd1 d) (td_rnd2 d) (td_coeff d) (td_perm d) m)
  | MTranscript m => guarded "SHUFFLE_DONE" (Received_REL_TRU_TELL_TRANSCRIPT (td_xof d) m)
  | MRateChange m => guarded "READY" (Received_REL_TRU_TELL_RATE_CHANGE m)
  | MReveal m => guarded "READY" (t_Received_REL_ALL_DISRUPTION_REVEAL (td_xof d) m)
  | MRevealSecrets m => guarded "READY" (t_Received_REL_ALL_REVEAL_SHARED_SECRETS (td_xof d) m)
  | _ => mret (Err "Unrecognized message, type")
  end.
End trustee.

Arguments TrusteeState CS : clear implicits.
Arguments PriFiLibTrusteeInstance CS : clear implicits.
