(* ===== verification/TrusteeSpec.v ===== *)
(** * What a trustee sends

    The trustee as a transition system: message handlers interleaved with the
    iterations of the sending goroutine.  In every run without forced
    re-initialisation and without disruption queries, the ciphers it sends are
    those of rounds 0, 1, 2, ... in order, whatever the rate changes. *)

From S2P Require Import Prelude Bytes Crypto DCNetCipher Equivocation DCNet DCNetRound DCNetSession.
From S2P Require Import Messages StateMachine NeffShuffle Network Trustee.

Open Scope Z_scope.

Section system.
Context {CS : CryptoSuite} {CL : CryptoLaws CS} `{!Network CS} `{!ProofSystem CS}.
Abbreviation inst := (PriFiLibTrusteeInstance CS).
Abbreviation trace := (list (event CS)).

(** ** The transition system *)

Definition is_spawn (e : event CS) : bool :=
  match e with Spawned _ _ => true | _ => false end.
Definition spawns (tr : trace) : nat := length (List.filter is_spawn tr).

(** A trustee process: its instance, what it has done, its sending goroutines. *)
Record tconf := mkTConf {
  tc_inst : inst;
  tc_trace : trace;
  tc_senders : list senderVars
}.

Inductive tstep (allowed : inst → message CS → Prop) : tconf → tconf → Prop :=
| tstep_receive d msg p tr ss r p' tr' :
    allowed p msg → t_ReceivedMessage d msg (p, tr) = Ret (r, (p', tr')) →
    tstep allowed (mkTConf p tr ss)
      (mkTConf p' tr' (ss ++ replicate (spawns tr' - spawns tr) senderStart))
| tstep_send i v p tr ss v' p' tr' :
    ss !! i = Some v → sv_stop v = false → senderStep v (p, tr) = Ret (v', (p', tr')) →
    tstep allowed (mkTConf p tr ss) (mkTConf p' tr' (<[i := v']> ss)).

Definition treach (allowed : inst → message CS → Prop) : tconf → tconf → Prop := rtc (tstep allowed).

(** The messages of a normal run: parameters that do not force a second
    initialisation (the relay forces the first one), no disruption query. *)
Definition normal_msg (p : inst) (m : message CS) : Prop :=
  match m with
  | MParameters m => ForceParams m = false ∨ currentState (t_stateMachine p) = "BEFORE_INIT"
  | MReveal _ => False
  | _ => True
  end.

(** ** The ciphers of a trace *)

Definition cipher_event (e : event CS) : option TRU_REL_DC_CIPHER :=
  match e with
  | Sent _ (MDCCipher c) | SendFailed _ (MDCCipher c) => Some c
  | _ => None
  end.
Definition ciphers (tr : trace) : list TRU_REL_DC_CIPHER := omap cipher_event tr.

Definition no_cipher (e : event CS) : Prop := cipher_event e = None.

Lemma ciphers_app tr tr' : ciphers (tr ++ tr') = ciphers tr ++ ciphers tr'.
Proof. apply omap_app. Qed.

Lemma ciphers_none tr : Forall no_cipher tr → ciphers tr = [].
Proof. induction 1 as [|e tr He _ IH]; [done|]. cbn. by rewrite He. Qed.

(** The cell of round [r] of a trustee's DC-net entity. *)
Definition trusteeCell (e : DCNetEntity CS) (r : Z) : bytes :=
  match TrusteeEncodeForRound e r with Ret (c, _) => c | Crash _ => [] end.
Definition cipherOf (id : Z) (e : DCNetEntity CS) (r : nat) : TRU_REL_DC_CIPHER :=
  mkDCCipher (Z.of_nat r) id (Some (trusteeCell e (Z.of_nat r))).

Lemma ReceivedMessage_no_cipher d msg : emits no_cipher (t_ReceivedMessage d msg).
Proof.
  unfold t_ReceivedMessage, t_AssertState.
  destruct msg; unfold t_Received_ALL_ALL_PARAMETERS, t_Received_ALL_ALL_SHUTDOWN,
    Received_REL_TRU_TELL_CLIENTS, Received_REL_TRU_TELL_TRANSCRIPT,
    Received_REL_TRU_TELL_RATE_CHANGE, t_Received_REL_ALL_DISRUPTION_REVEAL,
    t_Received_REL_ALL_REVEAL_SHARED_SECRETS, Send_TRU_REL_PK, t_sendRate, t_ChangeState, setT,
    SendToRelayWithLog, padStatement; solve_emits.
Qed.

(** ** The invariant *)

Context (s0 : Scalar).

(** A shared secret is absent or made from the client's key in the same place. *)
Definition keyed (pk secret : option Point) : Prop := secret = None ∨ secret = MulKey s0 pk.

(** The form of the cells *)
Definition cellConfig (p : inst) : Z * bool :=
  (t_PayloadSize (trusteeState p), t_EquivocationProtectionEnabled (trusteeState p)).

(** The DC-net entity a trustee builds from its secrets. *)
Record made (p : inst) (e0 : DCNetEntity CS) : Prop := {
  made_synced : synced e0;
  made_round : currentRound e0 = 0;
  made_kind : Entity e0 = DCNET_TRUSTEE;
  made_equiv : EquivocationProtectionEnabled e0 = true → is_Some (equivocationProtection e0);
  made_keys : sharedKeys e0 = MulKey s0 <$> t_ClientPublicKeys (trusteeState p);
  made_config : (DCNetPayloadSize e0, EquivocationProtectionEnabled e0) = cellConfig p
}.

Record tinv (c : tconf) : Prop := {
  ti_states : states (t_stateMachine (tc_inst c)) = trusteeStates;
  ti_priv : t_privateKey (trusteeState (tc_inst c)) = s0;
  ti_keyed : Forall2 keyed (t_ClientPublicKeys (trusteeState (tc_inst c)))
               (t_sharedSecrets (trusteeState (tc_inst c)));
  ti_phase :
    (tc_senders c = [] ∧ ciphers (tc_trace c) = []
     ∧ currentState (t_stateMachine (tc_inst c)) ≠ "READY"
     ∧ (currentState (t_stateMachine (tc_inst c)) = "SHUFFLE_DONE" →
        ∃ e0, made (tc_inst c) e0 ∧ t_DCNet (trusteeState (tc_inst c)) = Some e0))
    ∨ ∃ v e0 r, tc_senders c = [v] ∧ made (tc_inst c) e0
     ∧ (currentState (t_stateMachine (tc_inst c)) = "READY"
        ∨ currentState (t_stateMachine (tc_inst c)) = "SHUTDOWN")
     ∧ t_DCNet (trusteeState (tc_inst c)) = Some (at_round e0 (Z.of_nat r))
     ∧ ciphers (tc_trace c) = cipherOf (t_ID (trusteeState (tc_inst c))) e0 <$> seq 0 r
     ∧ (sv_stop v = false → sv_roundID v = Z.of_nat r)
}.

(** *** The keys *)

Lemma fillKeys_keyed clientsPks pks secrets pks' secrets' :
  Forall2 keyed pks secrets → fillKeys s0 clientsPks pks secrets = Ret (pks', secrets') →
  Forall2 keyed pks' secrets'.
Proof.
  unfold fillKeys. generalize (imap pair clientsPks) as l. intros l. revert pks secrets.
  induction l as [|[i pk] l IH]; intros pks secrets HF H; [by injection H as <- <-|].
  rewrite go_fold_cons in H. go_inv H as [pks1 secrets1]. go_inv E. go_inv E. injection E as <- <-.
  refine (IH _ _ _ H). clear IH H.
  unfold set_index in E0, E1. destruct (Z.of_nat i <? 0); [done|].
  destruct (len pks <=? Z.of_nat i); [done|]. destruct (len secrets <=? Z.of_nat i); [done|].
  injection E0 as <-. injection E1 as <-. apply Forall2_insert; [done|]. by right.
Qed.

Lemma NewDCNetEntity_made rnd1 rnd2 id size equiv pks secrets e :
  Forall2 keyed pks secrets →
  NewDCNetEntity rnd1 rnd2 id DCNET_TRUSTEE size equiv secrets = Ret e →
  synced e ∧ currentRound e = 0 ∧ Entity e = DCNET_TRUSTEE
  ∧ (EquivocationProtectionEnabled e = true → is_Some (equivocationProtection e))
  ∧ sharedKeys e = MulKey s0 <$> pks
  ∧ (DCNetPayloadSize e, EquivocationProtectionEnabled e) = (size, equiv).
Proof.
  intros HF H. assert (DCNET_TRUSTEE ≠ DCNET_RELAY) as Hne by done.
  destruct (NewDCNetEntity_Ret_keys _ _ _ _ _ _ _ _ Hne H) as [Hk Hs].
  destruct (NewDCNetEntity_synced rnd1 rnd2 id DCNET_TRUSTEE size equiv secrets)
    as (e' & E & ? & ? & ? & HK & ? & Hq & Heq); [done..|].
  rewrite H in E. injection E as <-. split_and!; try done.
  - rewrite Hq. intros Ht. rewrite (Heq Ht). by eexists.
  - rewrite HK. clear -HF Hk. induction HF as [|pk sec pks secs Hps _ IH]; [done|].
    apply Forall_cons in Hk as [Hsec Hk]. rewrite fmap_cons, <- IH by done. f_equal.
    destruct Hps as [->| ->]; [by destruct Hsec | done].
  - congruence.
Qed.

(** *** Effects of the handlers on the instance *)

Lemma ChangeState_effect x p tr r p' tr' :
  t_ChangeState x (p, tr) = Ret (r, (p', tr')) →
  ∃ sm, p' = p <| t_stateMachine := sm |> ∧ tr' = tr ∧ currentState sm = x
  ∧ states sm = states (t_stateMachine p).
Proof.
  unfold t_ChangeState. intros H. h_run H. use changeOrFatal_ret as [? ?]. eauto.
Qed.

Lemma sendRate_effect x p tr r p' tr' :
  t_sendRate x (p, tr) = Ret (r, (p', tr')) →
  p' = p <| trusteeState := (trusteeState p)
              <| t_sendingRate := t_sendingRate (trusteeState p) ++ [x] |> |> ∧ tr' = tr.
Proof.
  unfold t_sendRate, setT. intros H. h_run H. destruct (_ <=? _)%nat; [done|]. h_run H. done.
Qed.

(** What stays the same under a handler that does not touch the keys. *)
Definition same_keys (p p' : inst) : Prop :=
  t_privateKey (trusteeState p') = t_privateKey (trusteeState p)
  ∧ t_ClientPublicKeys (trusteeState p') = t_ClientPublicKeys (trusteeState p)
  ∧ t_sharedSecrets (trusteeState p') = t_sharedSecrets (trusteeState p)
  ∧ t_DCNet (trusteeState p') = t_DCNet (trusteeState p)
  ∧ t_ID (trusteeState p') = t_ID (trusteeState p)
  ∧ states (t_stateMachine p') = states (t_stateMachine p)
  ∧ cellConfig p' = cellConfig p.

Lemma shutdown_effect p tr r p' tr' :
  t_Received_ALL_ALL_SHUTDOWN (p, tr) = Ret (r, (p', tr')) →
  same_keys p p' ∧ currentState (t_stateMachine p') = "SHUTDOWN".
Proof.
  unfold t_Received_ALL_ALL_SHUTDOWN. intros H. h_run H.
  use sendRate_effect as [-> ->]. use ChangeState_effect as (sm & -> & -> & ? & ?).
  by repeat split.
Qed.

Lemma rate_effect m p tr r p' tr' :
  Received_REL_TRU_TELL_RATE_CHANGE m (p, tr) = Ret (r, (p', tr')) →
  same_keys p p' ∧ t_stateMachine p' = t_stateMachine p.
Proof.
  unfold Received_REL_TRU_TELL_RATE_CHANGE. intros H. h_run H.
  destruct (_ =? _); use sendRate_effect as [-> ->]; by repeat split.
Qed.

Lemma secrets_effect x m p tr r p' tr' :
  t_Received_REL_ALL_REVEAL_SHARED_SECRETS x m (p, tr) = Ret (r, (p', tr')) → p' = p.
Proof.
  unfold t_Received_REL_ALL_REVEAL_SHARED_SECRETS, SendToRelayWithLog. intros H. h_run H. done.
Qed.

Lemma transcript_effect x m p tr r p' tr' :
  Received_REL_TRU_TELL_TRANSCRIPT x m (p, tr) = Ret (r, (p', tr')) →
  (p' = p ∧ tr' = tr) ∨
  (same_keys p p' ∧ currentState (t_stateMachine p') = "READY" ∧ spawns tr' = S (spawns tr)).
Proof.
  unfold Received_REL_TRU_TELL_TRANSCRIPT, SendToRelayWithLog. intros H. h_step H. h_step H.
  match type of H with (match ?res with _ => _ end) _ = _ => destruct res end;
    h_run H; [|by left]. right.
  use ChangeState_effect as (sm & -> & -> & ? & ?). split; [by repeat split|]. split; [done|].
  unfold spawns. rewrite !List.filter_app, !length_app. destruct (net_send _ _ _); cbn; lia.
Qed.

Lemma parameters_effect m p tr r p' tr' :
  t_Received_ALL_ALL_PARAMETERS m (p, tr) = Ret (r, (p', tr')) →
  t_privateKey (trusteeState p') = t_privateKey (trusteeState p)
  ∧ states (t_stateMachine p') = states (t_stateMachine p)
  ∧ (currentState (t_stateMachine p') = currentState (t_stateMachine p)
     ∨ currentState (t_stateMachine p') = "INITIALIZING")
  ∧ (Forall2 keyed (t_ClientPublicKeys (trusteeState p)) (t_sharedSecrets (trusteeState p)) →
     Forall2 keyed (t_ClientPublicKeys (trusteeState p')) (t_sharedSecrets (trusteeState p'))).
Proof.
  unfold t_Received_ALL_ALL_PARAMETERS, setT, Send_TRU_REL_PK, SendToRelayWithLog. intros H.
  h_step H. h_step H.
  repeat (match type of H with (if ?b then _ else _) _ = _ => destruct b end;
          [h_run H; first [done | by (split; [done|]; split; [done|]; split; [by left | done])]|]).
  h_step H. h_step H. destruct (BoolValueOrElse m "StartNow" false); h_go;
    use ChangeState_effect as (sm & -> & -> & ? & ?);
    (split; [done|]; split; [done|]; split; [by right|]); intros _; cbn;
    apply Forall2_same_length_lookup_2; rewrite ?length_replicate; try done;
    intros i a b Ha Hb; apply lookup_replicate in Hb as [-> _]; by left.
Qed.

Lemma tell_clients_effect rnd1 rnd2 c perm m p tr r p' tr' :
  t_privateKey (trusteeState p) = s0 →
  Forall2 keyed (t_ClientPublicKeys (trusteeState p)) (t_sharedSecrets (trusteeState p)) →
  Received_REL_TRU_TELL_CLIENTS rnd1 rnd2 c perm m (p, tr) = Ret (r, (p', tr')) →
  p' = p ∨
  (t_privateKey (trusteeState p') = s0 ∧ states (t_stateMachine p') = states (t_stateMachine p)
   ∧ Forall2 keyed (t_ClientPublicKeys (trusteeState p')) (t_sharedSecrets (trusteeState p'))
   ∧ (currentState (t_stateMachine p') = currentState (t_stateMachine p)
      ∨ currentState (t_stateMachine p') = "SHUFFLE_DONE")
   ∧ ∃ e0, made p' e0 ∧ t_DCNet (trusteeState p') = Some e0).
Proof.
  intros Hp HF. unfold Received_REL_TRU_TELL_CLIENTS, setT, SendToRelayWithLog. intros H.
  repeat (match type of H with (if ?b then _ else _) _ = _ => destruct b end; [h_run H; by left|]).
  h_go. rewrite Hp in *.
  match goal with E : fillKeys _ _ _ _ = Ret _ |- _ => apply fillKeys_keyed in E; [|done] end.
  match goal with E : NewDCNetEntity _ _ _ _ _ _ _ = Ret _, HF : Forall2 keyed ?l1 ?l2 |- _ =>
    apply (NewDCNetEntity_made _ _ _ _ _ l1) in E as (? & ? & ? & ? & ? & ?); [|done] end.
  right.
  match type of H with (match ?res with _ => _ end) _ = _ => destruct res end; h_go;
    try use ChangeState_effect as (sm & -> & -> & ? & ?);
    (split; [done|]; split; [done|]; split; [done|]; split; [by (left + right)|]);
    (eexists; split; [|reflexivity]); by split.
Qed.

(** *** The sending goroutine *)

Lemma at_round_0 (e0 : DCNetEntity CS) : synced e0 → currentRound e0 = 0 → at_round e0 0 = e0.
Proof.
  intros H H0. unfold at_round. pose proof (synced_prngs _ H) as HP. rewrite H0 in HP.
  rewrite <- HP. destruct e0. cbn in *. by subst.
Qed.

Lemma send_at_round p e0 r :
  made p e0 → Z.of_nat r < MaxInt32 →
  TrusteeEncodeForRound (at_round e0 (Z.of_nat r)) (Z.of_nat r)
  = Ret (trusteeCell e0 (Z.of_nat r), at_round e0 (Z.of_nat (S r))).
Proof.
  intros [Hs H0 HE Heq _] Hr.
  destruct (EncodeForRound_trustee e0 (Z.of_nat r)) as (tag & E & _); [done..|lia|done|].
  unfold trusteeCell. rewrite E. unfold TrusteeEncodeForRound in *.
  rewrite EncodeForRound_at_round by (done || lia). rewrite E. do 3 f_equal. lia.
Qed.

(** What an iteration of the sender leaves alone. *)
Definition same_setup (p p' : inst) : Prop :=
  t_privateKey (trusteeState p') = t_privateKey (trusteeState p)
  ∧ t_ClientPublicKeys (trusteeState p') = t_ClientPublicKeys (trusteeState p)
  ∧ t_sharedSecrets (trusteeState p') = t_sharedSecrets (trusteeState p)
  ∧ t_ID (trusteeState p') = t_ID (trusteeState p)
  ∧ t_stateMachine p' = t_stateMachine p
  ∧ cellConfig p' = cellConfig p.

Lemma sendData_effect r0 p tr d res n p' tr' :
  t_DCNet (trusteeState p) = Some d → sendData r0 (p, tr) = Ret ((res, n), (p', tr')) →
  same_setup p p' ∧ ∃ data d',
    TrusteeEncodeForRound d r0 = Ret (data, d') ∧ t_DCNet (trusteeState p') = Some d'
    ∧ ciphers tr' = ciphers tr ++ [mkDCCipher r0 (t_ID (trusteeState p)) (Some data)]
    ∧ (is_Ok res = true → n = i32 (r0 + 1)).
Proof.
  intros Hd H. unfold sendData, SendToRelayWithLog, setT in H. h_step H. rewrite Hd in H.
  h_go.
  match type of H with (if ?b then _ else _) _ = _ => destruct b end; h_go;
    (split; [by repeat split|]); do 2 eexists; (split; [reflexivity|]; split; [reflexivity|]);
    (split; [|done]); rewrite ciphers_app; f_equal; by destruct (net_send _ _ _).
Qed.

Lemma seq_S_cells id e0 r :
  (cipherOf id e0 <$> seq 0 r) ++ [cipherOf id e0 r] = cipherOf id e0 <$> seq 0 (S r).
Proof. by rewrite seq_S, fmap_app. Qed.

Lemma senderStep_effect v p tr v' p' tr' e0 r :
  made p e0 → t_DCNet (trusteeState p) = Some (at_round e0 (Z.of_nat r)) →
  sv_roundID v = Z.of_nat r → ciphers tr = cipherOf (t_ID (trusteeState p)) e0 <$> seq 0 r →
  len (ciphers tr') ≤ MaxInt32 → senderStep v (p, tr) = Ret (v', (p', tr')) →
  same_setup p p' ∧ ∃ r', t_DCNet (trusteeState p') = Some (at_round e0 (Z.of_nat r'))
    ∧ ciphers tr' = cipherOf (t_ID (trusteeState p)) e0 <$> seq 0 r'
    ∧ (sv_stop v' = false → sv_roundID v' = Z.of_nat r').
Proof.
  intros Hm Hd Hr Hc Hb H. unfold senderStep, setT in H. h_step H.
  destruct (t_sendingRate (trusteeState p)) as [|newRate rest].
  - destruct (sv_currentRate v =? TRUSTEE_RATE_ACTIVE).
    + h_step H.
      assert (s = p ∧ ciphers tr0 = ciphers tr) as [-> Hc0].
      { destruct (t_AlwaysSlowDown (trusteeState p)); h_go; [|done]. by rewrite ciphers_app, app_nil_r. }
      h_go. apply (sendData_effect _ _ _ _ _ _ _ _ Hd) in E0 as [Hsame (data & d' & Henc & Hd' & Hc' & Hn)].
      split; [done|]. exists (S r). rewrite Hc', Hc0, Hc in *. rewrite Hr in *.
      assert (Z.of_nat r < MaxInt32) as Hlt.
      { unfold len in Hb. rewrite length_app, length_fmap, length_seq in Hb. cbn in Hb. lia. }
      rewrite (send_at_round p e0 r Hm Hlt) in Henc. injection Henc as <- <-.
      split; [done|]. split; [by rewrite <- seq_S_cells|]. unfold MaxInt32 in *.
      match goal with |- context [match ?x with Ok _ => v | _ => _ end] => destruct x end;
        cbn; [|done].
      intros _. rewrite Hn by done. rewrite i32_small; lia.
    + destruct (sv_currentRate v =? TRUSTEE_RATE_HALVED); [h_step H|]; h_go; [|split; [by repeat split|]; by exists r].
      destruct (negb _); h_go; (split; [by repeat split|]); exists r;
        rewrite ?ciphers_app, ?app_nil_r; done.
  - h_go. split; [by repeat split|]. exists r. split; [done|]. split; [done|]. intros _.
    by destruct (_ =? _), (_ =? _).
Qed.

(** *** Preservation *)

Lemma guarded_inv st (h : handler inst (result unit)) p tr r p' tr' :
  (ok ← t_AssertState st; if ok : bool then h else mret (Ok tt)) (p, tr) = Ret (r, (p', tr')) →
  (p' = p ∧ tr' = tr) ∨ (currentState (t_stateMachine p) = st ∧ h (p, tr) = Ret (r, (p', tr'))).
Proof.
  intros H. unfold t_AssertState in H. h_step H.
  match type of H with (if ?b then _ else _) _ = _ => destruct b end.
  - right. use assertOrFatal_true as <-. done.
  - left. by h_run H.
Qed.

Lemma forced_inv force st (h : handler inst (result unit)) p tr r p' tr' :
  force = false ∨ currentState (t_stateMachine p) = st →
  (if force : bool then h
   else ok ← t_AssertState st; if ok : bool then h else mret (Ok tt)) (p, tr) = Ret (r, (p', tr')) →
  (p' = p ∧ tr' = tr) ∨ (currentState (t_stateMachine p) = st ∧ h (p, tr) = Ret (r, (p', tr'))).
Proof.
  intros Hf H. destruct force; [|by apply guarded_inv in H].
  destruct Hf as [Hf|Hf]; [done|]. by right.
Qed.

Lemma ReceivedMessage_no_spawn d msg p tr r p' tr' :
  (∀ m, msg ≠ MTranscript m) → t_ReceivedMessage d msg (p, tr) = Ret (r, (p', tr')) →
  spawns tr' = spawns tr.
Proof.
  intros Hm H. assert (emits (λ e, is_spawn e = false) (t_ReceivedMessage d msg)) as He.
  { unfold t_ReceivedMessage, t_AssertState.
    destruct msg; unfold t_Received_ALL_ALL_PARAMETERS, t_Received_ALL_ALL_SHUTDOWN,
      Received_REL_TRU_TELL_CLIENTS, Received_REL_TRU_TELL_RATE_CHANGE,
      t_Received_REL_ALL_DISRUPTION_REVEAL, t_Received_REL_ALL_REVEAL_SHARED_SECRETS,
      Send_TRU_REL_PK, t_sendRate, t_ChangeState, setT, SendToRelayWithLog, padStatement;
      try (by exfalso; eapply Hm); solve_emits. }
  apply He in H as (new & -> & HF). unfold spawns. rewrite List.filter_app, length_app.
  assert (List.filter is_spawn new = []) as ->; [|simpl; lia].
  induction HF as [|e new Hne _ IH]; [done|]. simpl. by rewrite Hne.
Qed.

Lemma ReceivedMessage_ciphers d msg p tr r p' tr' :
  t_ReceivedMessage d msg (p, tr) = Ret (r, (p', tr')) → ciphers tr' = ciphers tr.
Proof.
  intros (new & -> & HF)%ReceivedMessage_no_cipher.
  by rewrite ciphers_app, (ciphers_none new), app_nil_r.
Qed.

Lemma made_same p p' e0 :
  t_ClientPublicKeys (trusteeState p') = t_ClientPublicKeys (trusteeState p) → cellConfig p' = cellConfig p →
  made p e0 → made p' e0.
Proof. intros H H' []. split; try done; [by rewrite H | by rewrite H']. Qed.

(** A handler that keeps the keys keeps the invariant, if it moves to SHUTDOWN
    or stays where it is. *)
Lemma tinv_same p p' tr tr' ss :
  same_keys p p' → ciphers tr' = ciphers tr →
  (currentState (t_stateMachine p') = currentState (t_stateMachine p)
   ∨ currentState (t_stateMachine p') = "SHUTDOWN") →
  tinv (mkTConf p tr ss) → tinv (mkTConf p' tr' ss).
Proof.
  intros (Hpriv & Hpk & Hsec & Hd & Hid & Hst & Hcf) Hc Hcur [Hs Hp HK Hph].
  cbn [tc_inst tc_trace tc_senders] in *.
  split; cbn [tc_inst tc_trace tc_senders]; rewrite ?Hpriv, ?Hpk, ?Hsec, ?Hst; try done.
  destruct Hph as [(-> & H1 & H2 & H3)|(v & e0 & k & -> & H1 & H2 & H3 & H4 & H5)].
  - left. rewrite Hc. split_and!; [done | done | |].
    + destruct Hcur as [->| ->]; done.
    + intros HS. destruct Hcur as [Hcur|Hcur]; rewrite Hcur in HS; [|done].
      destruct (H3 HS) as (e0 & Hm & He). exists e0. rewrite Hd. split; [|done].
      by eapply made_same.
  - right. exists v, e0, k. rewrite Hd, Hc, Hid. split_and!; try done; [by eapply made_same|].
    destruct Hcur as [->| ->]; auto.
Qed.

Lemma tinv_early c :
  tinv c → currentState (t_stateMachine (tc_inst c)) ≠ "READY" →
  currentState (t_stateMachine (tc_inst c)) ≠ "SHUTDOWN" →
  tc_senders c = [] ∧ ciphers (tc_trace c) = [].
Proof.
  intros HI H1 H2.
  destruct (ti_phase _ HI) as [(? & ? & _)|(v & e0 & k & _ & _ & [?|?] & _)]; done.
Qed.

Lemma tinv_transcript x m p tr ss r p' tr' :
  tinv (mkTConf p tr ss) → currentState (t_stateMachine p) = "SHUFFLE_DONE" →
  ciphers tr' = ciphers tr →
  Received_REL_TRU_TELL_TRANSCRIPT x m (p, tr) = Ret (r, (p', tr')) →
  tinv (mkTConf p' tr' (ss ++ replicate (spawns tr' - spawns tr) senderStart)).
Proof.
  intros HI Hcur Hc H. apply transcript_effect in H as [[-> ->]|(Hk & Hr & Hs)].
  { by rewrite Nat.sub_diag, app_nil_r. }
  destruct Hk as (Hpriv & Hpk & Hsec & Hd & Hid & Hst & Hcf).
  destruct HI as [HIs HIp HIk [(Hss & HC & _ & HM)|(v & e0 & k & _ & _ & [HX|HX] & _)]];
    cbn [tc_inst tc_trace tc_senders] in *; [|congruence..].
  destruct (HM Hcur) as (e0 & Hm & He). subst ss.
  replace (spawns tr' - spawns tr)%nat with 1%nat by lia.
  split; cbn [tc_inst tc_trace tc_senders]; rewrite ?Hpriv, ?Hpk, ?Hsec, ?Hst; try done.
  right. exists senderStart, e0, 0%nat. split_and!; try done.
  - by eapply made_same.
  - by left.
  - rewrite Hd, He, at_round_0; [done | by destruct Hm..].
  - by rewrite Hc, HC.
Qed.

Lemma tinv_setup p' tr tr' :
  currentState (t_stateMachine p') ≠ "READY" →
  states (t_stateMachine p') = trusteeStates → t_privateKey (trusteeState p') = s0 →
  Forall2 keyed (t_ClientPublicKeys (trusteeState p')) (t_sharedSecrets (trusteeState p')) →
  ciphers tr = [] → ciphers tr' = ciphers tr →
  (currentState (t_stateMachine p') = "SHUFFLE_DONE" →
     ∃ e0, made p' e0 ∧ t_DCNet (trusteeState p') = Some e0) →
  tinv (mkTConf p' tr' []).
Proof.
  intros ????? Hc ?. split; cbn [tc_inst tc_trace tc_senders]; try done. left. by rewrite Hc.
Qed.

Lemma tinv_receive d msg p tr ss r p' tr' :
  normal_msg p msg → tinv (mkTConf p tr ss) →
  t_ReceivedMessage d msg (p, tr) = Ret (r, (p', tr')) →
  tinv (mkTConf p' tr' (ss ++ replicate (spawns tr' - spawns tr) senderStart)).
Proof.
  intros Hn HI H. pose proof (ReceivedMessage_ciphers _ _ _ _ _ _ _ H) as Hc.
  assert ((∃ m, msg = MTranscript m) ∨ ∀ m, msg ≠ MTranscript m) as [[m ->]|Hnt]
    by (destruct msg as [| | | | | | | | |m| | | | | | | | | | | | |]; try (by right); left; by exists m).
  { apply guarded_inv in H as [[-> ->]|[Hcur H]]; [by rewrite Nat.sub_diag, app_nil_r|].
    by eapply tinv_transcript. }
  rewrite (ReceivedMessage_no_spawn _ _ _ _ _ _ _ Hnt H), Nat.sub_diag, app_nil_r.
  destruct msg; cbn [normal_msg] in Hn; cbn [t_ReceivedMessage] in H;
    try (by h_run H); try (by destruct Hn); try (by destruct (Hnt m)).
  - apply forced_inv in H as [[-> ->]|[Hcur H]]; [done| |done].
    destruct (tinv_early _ HI) as [Hss HC]; cbn [tc_inst tc_trace tc_senders] in *; [congruence..|].
    apply parameters_effect in H as (Hp & Hst & Hcur' & HK). subst ss. destruct HI as [HIs HIp HIk _].
    cbn [tc_inst] in *. apply (tinv_setup _ tr); rewrite ?Hst, ?Hp; try done; auto.
    + destruct Hcur' as [->| ->]; [by rewrite Hcur | done].
    + destruct Hcur' as [->| ->]; [by rewrite Hcur | done].
  - apply shutdown_effect in H as [Hk Hcur]. eapply tinv_same; eauto.
  - apply guarded_inv in H as [[-> ->]|[Hcur H]]; [done|].
    destruct (tinv_early _ HI) as [Hss HC]; cbn [tc_inst tc_trace tc_senders] in *; [congruence..|].
    apply tell_clients_effect in H as [->|(Hp & Hst & HK & Hcur' & HM)]; [..| by apply HI | by apply HI].
    + eapply tinv_same; [by repeat split | done | by left | done].
    + subst ss. destruct HI as [HIs HIp HIk _]. cbn [tc_inst] in *.
      apply (tinv_setup _ tr); rewrite ?Hst; try done. destruct Hcur' as [->| ->]; [by rewrite Hcur | done].
  - apply guarded_inv in H as [[-> ->]|[Hcur H]]; [done|].
    apply rate_effect in H as [Hk Hsm]. eapply tinv_same; [done | done | by left; rewrite Hsm | done].
  - apply guarded_inv in H as [[-> ->]|[Hcur H]]; [done|].
    apply secrets_effect in H as ->. eapply tinv_same; [by repeat split | done | by left | done].
Qed.

Lemma tinv_send i v p tr ss v' p' tr' :
  tinv (mkTConf p tr ss) → ss !! i = Some v → sv_stop v = false →
  len (ciphers tr') ≤ MaxInt32 → senderStep v (p, tr) = Ret (v', (p', tr')) →
  tinv (mkTConf p' tr' (<[i := v']> ss)).
Proof.
  intros [HIs HIp HIk [(Hss & _)|(w & e0 & k & Hss & Hm & Hcur & Hd & HC & Hr)]] Hi Hstop Hb H;
    cbn [tc_inst tc_trace tc_senders] in *; subst ss; [done|].
  destruct i as [|i]; [|by destruct i]. injection Hi as ->.
  destruct (senderStep_effect _ _ _ _ _ _ _ _ Hm Hd (Hr Hstop) HC Hb H)
    as [(Hpriv & Hpk & Hsec & Hid & Hsm & Hcf) (k' & Hd' & HC' & Hr')].
  split; cbn [tc_inst tc_trace tc_senders]; rewrite ?Hpriv, ?Hpk, ?Hsec, ?Hsm; try done.
  right. exists v', e0, k'. rewrite Hid. split_and!; try done. by eapply made_same.
Qed.

Lemma senderStep_grows v p tr v' p' tr' :
  senderStep v (p, tr) = Ret (v', (p', tr')) → (length (ciphers tr) ≤ length (ciphers tr'))%nat.
Proof.
  intros H. assert (emits (λ _, True) (senderStep v)) as He.
  { unfold senderStep, sendData, SendToRelayWithLog, setT. solve_emits. }
  apply He in H as (new & -> & _). rewrite ciphers_app, length_app. lia.
Qed.

Lemma tinv_step c c' :
  tstep normal_msg c c' → (len (ciphers (tc_trace c)) ≤ MaxInt32 → tinv c) →
  len (ciphers (tc_trace c')) ≤ MaxInt32 → tinv c'.
Proof.
  intros [d msg p tr ss r p' tr' Hn H|i v p tr ss v' p' tr' Hi Hs H] HI Hb;
    cbn [tc_trace] in *.
  - eapply tinv_receive; [done | apply HI | done].
    by rewrite <- (ReceivedMessage_ciphers _ _ _ _ _ _ _ H).
  - eapply tinv_send; [apply HI | done..]. pose proof (senderStep_grows _ _ _ _ _ _ H).
    unfold len in *. lia.
Qed.

Lemma tinv_reach c c' :
  treach normal_msg c c' → tinv c → len (ciphers (tc_trace c')) ≤ MaxInt32 → tinv c'.
Proof.
  intros Hr HI. assert (len (ciphers (tc_trace c)) ≤ MaxInt32 → tinv c) as HI' by done. clear HI.
  induction Hr as [c|c c1 c2 Hstep Hr IH]; [done|]. apply IH. by eapply tinv_step.
Qed.

Lemma tinv_new never always base p :
  NewTrustee s0 never always base = Ret p → tinv (mkTConf p [] []).
Proof.
  unfold NewTrustee. cbn. destruct (never && always); [done|]. intros [= <-].
  split; cbn; [done | done | constructor |]. by left.
Qed.

(** C11: In every run of a trustee without forced re-initialisation and without
    disruption queries, with any interleaving of message handlers and sender
    iterations, any rate changes and any network failures, the ciphers handed
    to the network are those of rounds 0, 1, 2, ... in this order, none twice
    and none left out, each the DC-net cipher of its round for the secrets the
    trustee shares with the clients whose keys it received. *)
Theorem trustee_ciphers_in_order never always base p c :
  NewTrustee s0 never always base = Ret p →
  treach normal_msg (mkTConf p [] []) c → len (ciphers (tc_trace c)) ≤ MaxInt32 →
  ciphers (tc_trace c) = [] ∨
  ∃ e0, synced e0 ∧ Entity e0 = DCNET_TRUSTEE
    ∧ sharedKeys e0 = MulKey s0 <$> t_ClientPublicKeys (trusteeState (tc_inst c))
    ∧ ciphers (tc_trace c)
      = (λ r, mkDCCipher (Z.of_nat r) (t_ID (trusteeState (tc_inst c)))
                (Some (trusteeCell e0 (Z.of_nat r)))) <$> seq 0 (length (ciphers (tc_trace c))).
Proof.
  intros Hp Hr Hb. apply tinv_new in Hp. destruct (tinv_reach _ _ Hr Hp Hb) as [_ _ _ HP].
  destruct HP as [(_ & -> & _)|(v & e0 & r & _ & [] & _ & _ & HC & _)]; [by left|].
  right. exists e0. split_and!; try done. rewrite HC at 1. by rewrite HC, length_fmap, length_seq.
Qed.

(** ** Shutdown *)

(** Iterating the loop of Send_TRU_REL_DC_CIPHER until it stops. *)
Fixpoint senderRun (fuel : nat) (v : senderVars) : handler inst senderVars :=
  if sv_stop v then mret v else
  match fuel with O => mret v | S fuel => v ← senderStep v; senderRun fuel v end.

Lemma senderStep_channel x rest v p tr :
  t_sendingRate (trusteeState p) = x :: rest →
  ∃ v', senderStep v (p, tr)
    = Ret (v', (p <| trusteeState := (trusteeState p) <| t_sendingRate := rest |> |>, tr))
  ∧ (x = TRUSTEE_KILL_SEND_PROCESS → sv_stop v' = true).
Proof.
  intros Hch. unfold senderStep at 1. rewrite run_bind. cbn [get fst snd]. rewrite Hch.
  unfold setT. rewrite run_bind. cbn [modify fst snd]. rewrite run_ret.
  eexists. split; [done|]. by intros ->.
Qed.

(** C30: Once a shutdown has put the kill value into the rate channel, the
    sending goroutine ends after reading what is in the channel before it,
    without sending or sleeping again. *)
Theorem sender_stops_on_kill pre post v p tr :
  t_sendingRate (trusteeState p) = pre ++ TRUSTEE_KILL_SEND_PROCESS :: post →
  ∃ v' p', senderRun (S (length pre)) v (p, tr) = Ret (v', (p', tr)) ∧ sv_stop v' = true.
Proof.
  revert v p. induction pre as [|x pre IH]; intros v p Hch; cbn [senderRun length];
    (destruct (sv_stop v) eqn:Hs; [by exists v, p|]);
    destruct (senderStep_channel _ _ v p tr Hch) as (v' & E & Hk); rewrite run_bind, E.
  - rewrite Hk by done. rewrite run_ret. do 2 eexists. split; [done|]. by apply Hk.
  - by apply IH.
Qed.
End system.

(** ** A concrete trustee with two clients *)

Module TrusteeDemo.
Import ToySuite.
#[local] Existing Instance suite.

Instance net : Network suite := {| net_send := λ _ _ _, None |}.
Instance proofs : ProofSystem suite := {|
  HashProve := λ _ _ _ _ _ _, Ok []; HashVerify := λ _ _ _ _, true |}.

Definition draws : @trusteeDraws suite := @mkTrusteeDraws suite [1] [2] (fp_of 5) [1; 0]%nat ([3], 0).
Definition params : message suite :=
  MParameters ((Add (Add (Add (Add newParams "NTrustees" (PInt 1)) "NClients" (PInt 2))
                  "PayloadSize" (PInt 4)) "NextFreeTrusteeID" (PInt 0)) <| ForceParams := true |>).
Definition clients : message suite :=
  MTellClients (@mkTellClients suite (Some [Some (fp_of 11); Some (fp_of 22)])
    (Some [Some (fp_of 33); Some (fp_of 44)]) (Some (fp_of 1))).
Definition transcript : message suite :=
  MTranscript (@mkTranscript suite [Some (fp_of 5)] [Some [Some (fp_of 220); Some (fp_of 165)]]
    [Some (zeros 50)]).

Definition start : PriFiLibTrusteeInstance suite :=
  match NewTrustee (fp_of 7 : @Scalar suite) false false 100 with
  | Ret p => p
  | Crash _ => mkTrusteeInstance "" (@mkTrusteeState suite None [] 0 "" 0 newNeffTrustee 0 0
                 (fp_of 0) (fp_of 0) [] [] 0 0 false false false) (mkStateMachine "" "" [])
  end.

Definition receive (msg : message suite) (c : tconf) : tconf :=
  match t_ReceivedMessage draws msg (tc_inst c, tc_trace c) with
  | Ret (_, (p', tr')) =>
    mkTConf p' tr' (tc_senders c ++ replicate (spawns tr' - spawns (tc_trace c)) senderStart)
  | Crash _ => c
  end.
Definition iterate (c : tconf) : tconf :=
  match tc_senders c with
  | [v] => match senderStep v (tc_inst c, tc_trace c) with
           | Ret (v', (p', tr')) => mkTConf p' tr' [v']
           | Crash _ => c
           end
  | _ => c
  end.

Lemma receive_step msg c :
  normal_msg (tc_inst c) msg → returns (t_ReceivedMessage draws msg (tc_inst c, tc_trace c)) = true →
  tstep normal_msg c (receive msg c).
Proof.
  intros Hn H. destruct c as [p tr ss]. unfold receive. cbn [tc_inst tc_trace tc_senders] in *.
  destruct (t_ReceivedMessage draws msg (p, tr)) as [[r [p' tr']]|] eqn:E; [|done].
  by eapply tstep_receive.
Qed.

Lemma iterate_step c v :
  tc_senders c = [v] → sv_stop v = false →
  returns (senderStep v (tc_inst c, tc_trace c)) = true → tstep normal_msg c (iterate c).
Proof.
  intros Hs Hv H. destruct c as [p tr ss]. unfold iterate. cbn [tc_inst tc_trace tc_senders] in *.
  subst ss. destruct (senderStep v (p, tr)) as [[v' [p' tr']]|] eqn:E; [|done].
  by apply (tstep_send _ 0 v _ _ [v]).
Qed.

Definition conf0 : tconf := mkTConf start [] [].
Definition conf3 : tconf := receive transcript (receive clients (receive params conf0)).
Definition conf5 : tconf := iterate (iterate conf3).

Lemma conf5_reached : treach normal_msg conf0 conf5.
Proof.
  apply (rtc_l _ _ (receive params conf0)).
  { apply receive_step; [try done; by right | vm_compute; reflexivity]. }
  apply (rtc_l _ _ (receive clients (receive params conf0))).
  { apply receive_step; [try done; by right | vm_compute; reflexivity]. }
  apply (rtc_l _ _ conf3).
  { apply receive_step; [try done; by right | vm_compute; reflexivity]. }
  apply (rtc_l _ _ (iterate conf3)).
  { apply (iterate_step _ senderStart); vm_compute; reflexivity. }
  apply rtc_once, (iterate_step _ (mkSender false 1 1)); vm_compute; reflexivity.
Qed.

Lemma trustee_ciphers_in_order_witness :
  length (ciphers (tc_trace conf5)) = 2%nat ∧
  ∃ e0, @sharedKeys suite e0 = [Some (fp_of 77); Some (fp_of 154)] ∧
  ciphers (tc_trace conf5) = [mkDCCipher 0 0 (Some (trusteeCell e0 0));
                              mkDCCipher 1 0 (Some (trusteeCell e0 1))].
Proof.
  split; [vm_compute; reflexivity|].
  destruct (@trustee_ciphers_in_order suite laws net proofs (fp_of 7) false false 100 start conf5)
    as [H|(e0 & _ & _ & HK & HC)].
  - reflexivity.
  - exact conf5_reached.
  - vm_compute. discriminate.
  - vm_compute in H. discriminate H.
  - exists e0. split.
    + rewrite HK. vm_compute. reflexivity.
    + assert (length (ciphers (tc_trace conf5)) = 2%nat) as Hl by (vm_compute; reflexivity).
      assert (t_ID (trusteeState (tc_inst conf5)) = 0) as Hid by (vm_compute; reflexivity).
      rewrite Hl, Hid in HC. exact HC.
Defined.

Lemma sender_stops_on_kill_witness :
  ∃ v' p', senderRun 2 senderStart
    (start <| trusteeState := (trusteeState start)
       <| t_sendingRate := [TRUSTEE_RATE_HALVED; TRUSTEE_KILL_SEND_PROCESS; TRUSTEE_RATE_ACTIVE] |> |>, [])
    = Ret (v', (p', [])) ∧ sv_stop v' = true.
Proof.
  apply (sender_stops_on_kill [TRUSTEE_RATE_HALVED] [TRUSTEE_RATE_ACTIVE]). reflexivity.
Defined.
End TrusteeDemo.
