(* ===== verification/Client.v ===== *)
(** * The client (prifi-lib/client)

    State and message handlers.  Readings of the clock, random draws, the
    content of capture files and what the application queued are inputs; data
    for the application, statistics and goroutines are events of the trace. *)

From stdpp Require Import pretty.
From S2P Require Import Prelude Bytes Crypto DCNetCipher Equivocation DCNet BitMask.
From S2P Require Import Messages StateMachine Measurements Pkts NeffShuffle Network Trustee.

Open Scope Z_scope.

(** The capacity of the channel StartStopReceiveBroadcast *)
Definition startStopCapacity : nat := 10.

(** type LatencyTests *)
Record LatencyTests := mkLatencyTests {
  DoLatencyTests : bool;
  LatencyTestsInterval : Z;
  NextLatencyTest : Z;
  LatencyTestsToSend : list LatencyTestToSend
}.

#[export] Instance eta_LatencyTests : Eta LatencyTests := λ l,
  mkLatencyTests (DoLatencyTests l) (LatencyTestsInterval l) (NextLatencyTest l)
    (LatencyTestsToSend l).

(** type PCAPReplayer *)
Record PCAPReplayer := mkReplayer {
  Enabled : bool;
  PCAPFolder : string;
  PCAPFile : string;
  Packets : list Pcap.Packet;
  currentPacket : Z;
  time0 : Z
}.

#[export] Instance eta_PCAPReplayer : Eta PCAPReplayer := λ r,
  mkReplayer (Enabled r) (PCAPFolder r) (PCAPFile r) (Packets r) (currentPacket r) (time0 r).

Section client.
Context {CS : CryptoSuite} `{!Network CS} `{!ProofSystem CS}.

(** type ClientState; the fields currentState, MessageHistory and UseSocksProxy
    are never read.  The channel DataForDCNet is the list of what the
    application queued; StartStopReceiveBroadcast is nil or its buffered values *)
Record ClientState := mkClientState {
  c_DCNet : option (DCNetEntity CS);
  c_DataForDCNet : list bytes;
  c_NextDataForDCNet : option bytes;
  c_DataOutputEnabled : bool;
  c_HashFromPreviousMessage : bytes;
  c_MyLastRound : Z;
  c_LastMessage : bytes;
  c_B_echo_last : Z;
  c_DisruptionWrongBitPosition : Z;
  c_ephemeralPrivateKey : option Scalar;
  c_EphemeralPublicKey : option Point;
  c_ID : Z;
  c_LatencyTest : LatencyTests;
  c_MySlot : Z;
  c_Name : string;
  c_nClients : Z;
  c_nTrustees : Z;
  c_PayloadSize : Z;
  c_privateKey : Scalar;
  c_PublicKey : Point;
  c_sharedSecrets : list (option Point);
  c_TrusteePublicKey : list (option Point);
  c_UseUDP : bool;
  c_StartStopReceiveBroadcast : option (list bool);
  c_pcapReplay : PCAPReplayer;
  c_DisruptionProtectionEnabled : bool;
  c_LastWantToSend : Z;
  c_EquivocationProtectionEnabled : bool;
  c_EphemeralPublicKeys : option (list (option Point));
  c_ForceDisruptionSinceRound3 : bool;
  c_AllreadyDisrupted : bool;
  c_RoundNo : Z;
  c_BufferedRoundData : gmap Z REL_CLI_DOWNSTREAM_DATA
}.

#[export] Instance eta_ClientState : Eta ClientState := λ s,
  mkClientState (c_DCNet s) (c_DataForDCNet s) (c_NextDataForDCNet s) (c_DataOutputEnabled s)
    (c_HashFromPreviousMessage s) (c_MyLastRound s) (c_LastMessage s) (c_B_echo_last s)
    (c_DisruptionWrongBitPosition s) (c_ephemeralPrivateKey s) (c_EphemeralPublicKey s) (c_ID s)
    (c_LatencyTest s) (c_MySlot s) (c_Name s) (c_nClients s) (c_nTrustees s) (c_PayloadSize s)
    (c_privateKey s) (c_PublicKey s) (c_sharedSecrets s) (c_TrusteePublicKey s) (c_UseUDP s)
    (c_StartStopReceiveBroadcast s) (c_pcapReplay s) (c_DisruptionProtectionEnabled s)
    (c_LastWantToSend s) (c_EquivocationProtectionEnabled s) (c_EphemeralPublicKeys s)
    (c_ForceDisruptionSinceRound3 s) (c_AllreadyDisrupted s) (c_RoundNo s) (c_BufferedRoundData s).

(** type PriFiLibClientInstance *)
Record PriFiLibClientInstance := mkClientInstance {
  c_messageSender : string;
  clientState : ClientState;
  c_stateMachine : StateMachine
}.

#[export] Instance eta_ClientInstance : Eta PriFiLibClientInstance := λ p,
  mkClientInstance (c_messageSender p) (clientState p) (c_stateMachine p).

Abbreviation clientH := (handler PriFiLibClientInstance).

Definition setC (f : ClientState → ClientState) : clientH unit :=
  modify (λ p, p <| clientState := f (clientState p) |>).
Definition getC : clientH ClientState := p ← get; mret (clientState p).

Definition clientStates : list string :=
  ["BEFORE_INIT"; "EPH_KEYS_SENT"; "READY"; "BLAMING"; "SHUTDOWN"].

(** What one handler call takes from outside: clock readings (milliseconds,
    nanoseconds), random draws and the capture files. *)
Record clientInputs := mkClientInputs {
  ci_msNow : Z;                (* MsTimeStampNow, for the replay *)
  ci_now : Z;                  (* time.Now *)
  ci_rand : Z;                 (* rand.Intn(1000) *)
  ci_clock : nat → Z;          (* MsTimeStampNow, for the latency messages *)
  ci_duration : Z;             (* the measured duration of the round *)
  ci_xof : XOF;                (* the prover's randomness *)
  ci_rnd1 : bytes; ci_rnd2 : bytes; ci_eph : Scalar;
  ci_opened : result unit; ci_parsed : result (list (Z * Z)); ci_offset : Z;
  ci_pktsFile : result string  (* the contents of the .pkts file *)
}.

(** func NewClient *)
Definition NewClient (s : Scalar) (now msNow : Z) (doLatencyTest dataOutputEnabled : bool)
    (dataForDCNet : list bytes) (doReplayPcap : bool) (pcapFolder : string)
    : go PriFiLibClientInstance :=
  let '(PublicKey, privateKey) := NewKeyPair s in
  let st := mkClientState None dataForDCNet None dataOutputEnabled (zeros 32) 0 [] 0 0 None None 0
    (mkLatencyTests doLatencyTest 2000000000 now []) 0 "" 0 0 0 privateKey PublicKey [] [] false
    None (mkReplayer doReplayPcap pcapFolder "" [] 0 (u64 msNow)) false now false None false false
    0 ∅ in
  sm ← Init clientStates;
  Ret (mkClientInstance "UnknownSource" st sm).

Definition c_ChangeState (newState : string) : clientH unit :=
  p ← get;
  sm ← lift (changeOrFatal (c_stateMachine p) newState);
  put (p <| c_stateMachine := sm |>).

Definition c_AssertState (state : string) : clientH bool :=
  p ← get; lift (assertOrFatal (c_stateMachine p) state).

(** [p.clientState.StartStopReceiveBroadcast <- b] on a non-nil channel *)
Definition c_startStop (b : bool) : clientH unit :=
  s ← getC;
  match c_StartStopReceiveBroadcast s with
  | None => lift (Crash Blocks)
  | Some ch =>
    if (startStopCapacity <=? length ch)%nat then lift (Crash Blocks)
    else setC (λ s, s <| c_StartStopReceiveBroadcast := Some (ch ++ [b]) |>)
  end.

(** func (p) Received_ALL_ALL_SHUTDOWN *)
Definition c_Received_ALL_ALL_SHUTDOWN : clientH (result unit) :=
  _ ← c_ChangeState "SHUTDOWN"; mret (Ok tt).

(** ** Setup *)

(** func (p) Received_REL_CLI_TELL_TRUSTEES_PK *)
Definition Received_REL_CLI_TELL_TRUSTEES_PK (ci : clientInputs) (trusteesPks : list (option Point))
    : clientH (result unit) :=
  if len trusteesPks <? 1 then mret (Err "len(msg.Pks) must be >= 1") else
  s ← getC;
  let n := Z.to_nat (c_nTrustees s) in
  '(pks, secrets) ← lift (fillKeys (c_privateKey s) trusteesPks (replicate n None) (replicate n None));
  _ ← setC (λ s, s <| c_TrusteePublicKey := pks |> <| c_sharedSecrets := secrets |>);
  d ← lift (NewDCNetEntity (ci_rnd1 ci) (ci_rnd2 ci) (c_ID s) DCNET_CLIENT (c_PayloadSize s)
              (c_EquivocationProtectionEnabled s) secrets);
  let '(EphemeralPublicKey, ephemeralPrivateKey) := NewKeyPair (ci_eph ci) in
  _ ← setC (λ s, s <| c_DCNet := Some d |> <| c_EphemeralPublicKey := Some EphemeralPublicKey |>
                   <| c_ephemeralPrivateKey := Some ephemeralPrivateKey |>);
  _ ← SendToRelayWithLog (MTellPkEph (mkTellPkEph (c_ID s) (Some (c_PublicKey s))
                                        (Some EphemeralPublicKey)));
  _ ← c_ChangeState "EPH_KEYS_SENT";
  mret (Ok tt).

(** The replay block of Received_ALL_ALL_PARAMETERS *)
Definition loadReplay (ci : clientInputs) (clientID payloadSize : Z) (r : PCAPReplayer)
    : go PCAPReplayer :=
  if Enabled r then
    let file ext := (PCAPFolder r +:+ "client" +:+ Itoa clientID +:+ ext)%string in
    res ← Pcap.ParsePCAP (ci_opened ci) (ci_parsed ci) (ci_offset ci) payloadSize (u16 clientID);
    let packets := match res with Ok ps => ps | Err _ => [] end in
    if len packets =? 0 then
      res ← Pkts.ParsePKTS (ci_pktsFile ci) payloadSize (u16 clientID);
      Ret (r <| PCAPFile := file ".pkts" |>
             <| Packets := match res with Ok ps => ps | Err _ => [] end |>)
    else Ret (r <| PCAPFile := file ".pcap" |> <| Packets := packets |>)
  else Ret r.

(** func (p) Received_ALL_ALL_PARAMETERS *)
Definition c_Received_ALL_ALL_PARAMETERS (ci : clientInputs) (msg : ALL_ALL_PARAMETERS CS)
    : clientH (result unit) :=
  let clientID := IntValueOrElse msg "NextFreeClientID" (-1) in
  let e := ("Client " +:+ Itoa clientID)%string in
  _ ← modify (λ p, p <| c_stateMachine := SetEntity (c_stateMachine p) e |> <| c_messageSender := e |>);
  s ← getC;
  let nTrustees := IntValueOrElse msg "NTrustees" (c_nTrustees s) in
  let nClients := IntValueOrElse msg "NClients" (c_nClients s) in
  let payloadSize := IntValueOrElse msg "PayloadSize" (c_PayloadSize s) in
  let useUDP := BoolValueOrElse msg "UseUDP" (c_UseUDP s) in
  let dcNetType := StringValueOrElse msg "DCNetType" "not initialized" in
  let disruptionProtection := BoolValueOrElse msg "DisruptionProtectionEnabled" false in
  let equivProtection := BoolValueOrElse msg "EquivocationProtectionEnabled" false in
  let forceDisruption := BoolValueOrElse msg "ForceDisruptionSinceRound3" false in
  if clientID <? -1 then mret (Err "ClientID cannot be negative") else
  if nTrustees <? 1 then mret (Err "nTrustees cannot be smaller than 1") else
  if nClients <? 1 then mret (Err "nClients cannot be smaller than 1") else
  if payloadSize <? 1 then mret (Err "PayloadSize cannot be 0") else
  if String.eqb dcNetType "Verifiable" then lift (Crash (Panicked "verifiable not supported yet")) else
  _ ← setC (λ s,
    s <| c_ID := clientID |> <| c_Name := ("Client-" +:+ Itoa clientID)%string |>
      <| c_MySlot := -1 |> <| c_nClients := nClients |> <| c_nTrustees := nTrustees |>
      <| c_PayloadSize := payloadSize |> <| c_UseUDP := useUDP |>
      <| c_TrusteePublicKey := replicate (Z.to_nat nTrustees) None |>
      <| c_sharedSecrets := replicate (Z.to_nat nTrustees) None |>
      <| c_RoundNo := 0 |> <| c_BufferedRoundData := ∅ |>
      <| c_DisruptionProtectionEnabled := disruptionProtection |>
      <| c_EquivocationProtectionEnabled := equivProtection |>
      <| c_ForceDisruptionSinceRound3 := forceDisruption |>
      <| c_MyLastRound := -10 |> <| c_DisruptionWrongBitPosition := -1 |>
      <| c_AllreadyDisrupted := false |>);
  s ← getC;
  replay ← lift (loadReplay ci clientID (c_PayloadSize s) (c_pcapReplay s));
  _ ← setC (λ s, s <| c_pcapReplay := replay |>);
  _ ← match c_StartStopReceiveBroadcast s with None => mret tt | Some _ => c_startStop false end;
  _ ← setC (λ s, s <| c_StartStopReceiveBroadcast := Some [] |>);
  _ ← (if useUDP then emit (Spawned "ClientSubscribeToBroadcast" [c_ID s]) else mret tt);
  _ ← Received_REL_CLI_TELL_TRUSTEES_PK ci (TrusteesPks msg);
  mret (Ok tt).

(** The first cell: what is saved for the disruption check, and the payload *)
Definition firstCell (s : ClientState) (payloadSize : Z) : go (bytes * ClientState) :=
  data ← make_bytes payloadSize;
  if c_DisruptionProtectionEnabled s then
    data2 ← make_bytes (payloadSize - 1);
    let s := s <| c_LastMessage := data2 |> <| c_HashFromPreviousMessage := Sum256 data2 |>
               <| c_B_echo_last := 0 |> in
    Ret (c_B_echo_last s :: data2, s)
  else Ret (data, s).

(** func (p) Received_REL_CLI_TELL_EPH_PKS_AND_TRUSTEES_SIG: when the signatures
    do not verify or the slot is not recognised, the error is logged and the
    client goes on with slot -1 *)
Definition Received_REL_CLI_TELL_EPH_PKS (msg : REL_CLI_TELL_EPH_PKS_AND_TRUSTEES_SIG CS)
    : clientH (result unit) :=
  s ← getC;
  res ← lift (ClientVerifySigAndRecognizeSlot (c_ephemeralPrivateKey s)
                (Some (c_TrusteePublicKey s)) (te_Base msg) (te_EphPks msg) (Some (GetSignatures msg)));
  let mySlot := match res with Ok x => x | Err _ => -1 end in
  _ ← setC (λ s, s <| c_EphemeralPublicKeys := te_EphPks msg |> <| c_MySlot := mySlot |>
                   <| c_RoundNo := 0 |> <| c_BufferedRoundData := ∅ |>);
  if c_UseUDP s && bool_decide (c_StartStopReceiveBroadcast s = None)
  then mret (Err "wish to start listening with UDP, but doesn't have the appropriate helper.") else
  _ ← (if c_UseUDP s then c_startStop true else mret tt);
  _ ← c_ChangeState "READY";
  let slotOwner := c_ID s =? 0 in
  let payloadSize := if c_EquivocationProtectionEnabled s && slotOwner
                     then c_PayloadSize s - 16 else c_PayloadSize s in
  s ← getC;
  '(data, s) ← lift (firstCell s payloadSize);
  _ ← setC (λ _, s);
  match c_DCNet s with
  | None => lift (Crash RuntimeError)
  | Some d =>
    '(upstreamCell, plainPayload, d) ← lift (EncodeForRound d 0 slotOwner (Some data));
    _ ← setC (λ s, s <| c_DCNet := Some d |>);
    _ ← (if c_EquivocationProtectionEnabled s && c_DisruptionProtectionEnabled s then
           let plain := default [] plainPayload in
           setC (λ s, s <| c_LastMessage := plain |> <| c_HashFromPreviousMessage := Sum256 plain |>)
         else mret tt);
    _ ← SendToRelayWithLog (MUpstream (mkUpstream (c_ID s) (c_RoundNo s) (Some upstreamCell)));
    _ ← setC (λ s, s <| c_RoundNo := i32 (c_RoundNo s + 1) |>);
    mret (Ok tt)
  end.

(** ** Disruption *)

(** func (p) Received_REL_ALL_DISRUPTION_REVEAL *)
Definition c_Received_REL_ALL_DISRUPTION_REVEAL (ci : clientInputs)
    (msg : REL_ALL_DISRUPTION_REVEAL CS) : clientH (result unit) :=
  s ← getC;
  match c_DCNet s with
  | None => lift (Crash RuntimeError)
  | Some d =>
    '(r, d) ← lift (GetBitsOfRound d (i32 (rv_RoundID msg)) (i32 (rv_BitPos msg)));
    _ ← setC (λ s, s <| c_DCNet := Some d |>);
    let PRGs := default [] (snd <$> r) in
    let '(pred, sval, pval) := padStatement PRGs in
    let NIZK := match HashProve (ci_xof ci) "DISRUPTION" pred sval pval None with
                | Ok b => b | Err _ => [] end in
    bitMap ← (if c_ForceDisruptionSinceRound3 s && (c_ID s =? 0) then
                match r with
                | None => lift (Crash RuntimeError) (* assignment to a nil map *)
                | Some (bits, _) =>
                  let m := bitsMap bits in
                  mret (Some (<[0 := if default 0 (m !! 0) =? 0 then 1 else 0]> m))
                end
              else mret (bitsMap <$> (fst <$> r)));
    _ ← SendToRelayWithLog (MClientReveal (mkClientReveal (c_ID s) bitMap NIZK pval));
    mret (Ok tt)
  end.

(** func (p) Received_REL_ALL_REVEAL_SHARED_SECRETS: the proof is made and
    checked, but an empty one is sent *)
Definition c_Received_REL_ALL_REVEAL_SHARED_SECRETS (ci : clientInputs)
    (msg : REL_ALL_REVEAL_SHARED_SECRETS) : clientH (result unit) :=
  s ← getC;
  secret ← lift (index (c_sharedSecrets s) (rs_EntityID msg));
  BT ← lift (index (c_TrusteePublicKey s) (rs_EntityID msg));
  let sec := {["x" := c_privateKey s]} in
  let '(pred, pub) := secretStatement (Some (c_PublicKey s)) BT secret in
  let NIZK := match HashProve (ci_xof ci) "SHAREDKEY" pred sec pub (Some 0%nat) with
              | Ok b => b | Err _ => [] end in
  let _verified := HashVerify "SHAREDKEY" pred pub NIZK in
  _ ← (if c_ForceDisruptionSinceRound3 s && (c_ID s =? 0) then emit (Slept 1000) else mret tt);
  _ ← SendToRelayWithLog (MClientSecret
         (mkClientSecret (c_ID s) (rs_EntityID msg) secret [] pub));
  mret (Ok tt).

(** The loop over the bits of two different bytes: the first bit, from the
    least significant, that differs and is not ignored *)
Fixpoint differingBit (b l index : Z) (js : list Z) : option Z :=
  match js with
  | [] => None
  | j :: js =>
    let mask := u8 (Z.shiftl 1 j) in
    if negb (Z.land b mask =? Z.land l mask) then
      let bitPos := index * 8 + (7 - j) in
      if Z.land l mask =? 1 then differingBit b l index js else Some bitPos
    else differingBit b l index js
  end.

(** The loop over the bytes of the retransmitted message *)
Fixpoint findDisruptedBit (data lastMessage : bytes) (i : Z) : go (option Z) :=
  match data with
  | [] => Ret None
  | b :: data =>
    l ← index lastMessage i;
    if negb (b =? l) then
      match differingBit b l i [0; 1; 2; 3; 4; 5; 6; 7] with
      | Some bitPos => Ret (Some bitPos)
      | None => findDisruptedBit data lastMessage (i + 1)
      end
    else findDisruptedBit data lastMessage (i + 1)
  end.

(** func (p) handlePossibleDisruption *)
Definition handlePossibleDisruption (msg : REL_CLI_DOWNSTREAM_DATA) : clientH (result unit) :=
  s ← getC;
  if negb (i32 (c_RoundNo s - 1) =? c_MyLastRound s) then mret (Ok tt) else
  if c_B_echo_last s =? 1 then
    if bool_decide (dd_Data msg = c_LastMessage s) then
      _ ← setC (λ s, s <| c_B_echo_last := 0 |> <| c_DisruptionWrongBitPosition := -1 |>);
      mret (Ok tt)
    else
      found ← lift (findDisruptedBit (dd_Data msg) (c_LastMessage s) 0);
      _ ← match found with
          | Some bitPos => setC (λ s, s <| c_DisruptionWrongBitPosition := bitPos |>)
          | None => mret tt
          end;
      mret (Ok tt)
  else
    let echo := if negb (len (dd_HashOfPreviousUpstreamData msg) =? 32) then 1
                else if negb (bool_decide (dd_HashOfPreviousUpstreamData msg
                                           = c_HashFromPreviousMessage s)) then 1 else 0 in
    _ ← setC (λ s, s <| c_DisruptionWrongBitPosition := -1 |> <| c_B_echo_last := echo |>);
    mret (Ok tt).

(** ** Rounds *)

(** func (p) WantsToTransmit *)
Definition WantsToTransmit (ci : clientInputs) : clientH bool :=
  s ← getC;
  let r := c_pcapReplay s in
  due ← (if Enabled r && (0 <? len (Packets r)) && (currentPacket r <? len (Packets r)) then
           pkt ← lift (index (Packets r) (currentPacket r));
           let relativeNow := u64 (u64 (ci_msNow ci) - time0 r) in
           mret (Pcap.MsSinceBeginningOfCapture pkt <=? relativeNow)
         else mret false);
  if due : bool then mret true else
  if 0 <? len (LatencyTestsToSend (c_LatencyTest s)) then mret true else
  match c_NextDataForDCNet s with
  | Some _ => mret true
  | None =>
    if ci_now ci <? c_LastWantToSend s + 1000000000 then mret true else
    match c_DataForDCNet s with
    | myData :: rest =>
      _ ← setC (λ s, s <| c_DataForDCNet := rest |> <| c_LastWantToSend := ci_now ci |>
                       <| c_NextDataForDCNet := Some myData |>);
      mret true
    | [] => mret false
    end
  end.

(** The loop that gathers the capture packets that are due and fit; at most
    one iteration per packet left *)
Fixpoint gatherPackets (fuel : nat) (relativeNow actualPayloadSize : Z) (r : PCAPReplayer)
    (payload : bytes) (payloadRealLength : Z) : go (bytes * PCAPReplayer) :=
  pkt ← index (Packets r) (currentPacket r);
  if (currentPacket r <? len (Packets r) - 1)
     && (Pcap.MsSinceBeginningOfCapture pkt <=? relativeNow)
     && (payloadRealLength + Pcap.RealLength pkt <=? actualPayloadSize)
  then match fuel with
       | O => Crash Diverges
       | S fuel =>
         gatherPackets fuel relativeNow actualPayloadSize
           (r <| currentPacket := currentPacket r + 1 |>) (payload ++ Pcap.Header pkt)
           (payloadRealLength + Pcap.RealLength pkt)
       end
  else Ret (payload, r).

(** The content a slot owner puts into its cell; [None] is the nil slice *)
Definition ownerContent (ci : clientInputs) (actualPayloadSize : Z) : clientH (option bytes) :=
  s ← getC;
  match c_NextDataForDCNet s with
  | Some data =>
    _ ← setC (λ s, s <| c_NextDataForDCNet := None |>);
    mret (Some data)
  | None =>
    let r := c_pcapReplay s in
    if Enabled r && (currentPacket r <? len (Packets r)) then
      if len (Packets r) - 2 <=? currentPacket r then
        _ ← setC (λ s, s <| c_pcapReplay := r <| Enabled := false |> |>);
        mret None
      else
        let relativeNow := u64 (u64 (ci_msNow ci) - time0 r) in
        '(payload, r) ← lift (gatherPackets (length (Packets r)) relativeNow actualPayloadSize r [] 0);
        _ ← setC (λ s, s <| c_pcapReplay := r |>);
        mret (Some payload)
    else
      match c_DataForDCNet s with
      | myData :: rest =>
        _ ← setC (λ s, s <| c_DataForDCNet := rest |>);
        mret (Some myData)
      | [] =>
        content ← lift (make_bytes actualPayloadSize);
        if 0 <? len (LatencyTestsToSend (c_LatencyTest s)) then
          '(bytes, outMsgs, reports) ← lift (LatencyMessagesToBytes (ci_clock ci)
             (LatencyTestsToSend (c_LatencyTest s)) (c_ID s) (c_RoundNo s) actualPayloadSize);
          _ ← setC (λ s, s <| c_LatencyTest := (c_LatencyTest s) <| LatencyTestsToSend := outMsgs |> |>);
          _ ← foldr (λ v k, _ ← emit (Measured "latency-msg-stayed-in-buffer" v); k) (mret tt) reports;
          mret (Some bytes)
        else mret (Some content)
      end
  end.

(** [append(a, b...)]: nil when both are empty and [a] is nil *)
Definition append_nil (a b : option bytes) : option bytes :=
  match a, b with
  | None, (None | Some []) => None
  | _, _ => Some (default [] a ++ default [] b)
  end.

(** The statement of a blame: knowledge of the ephemeral private key *)
Definition blameStatement (ephPub : option Point) : Predicate * gmap string (option Point) :=
  (Rep "X" "x" "B", <["X" := ephPub]> {["B" := Some Point_Base]}).

(** What a slot owner without equivocation protection remembers of its cell;
    byte 3 of the content is overwritten with the client's number *)
Definition rememberContent (s : ClientState) (content : option bytes)
    : go (option bytes * ClientState) :=
  match content with
  | None =>
    match c_DCNet s with
    | None => Crash RuntimeError
    | Some d =>
      payload_to_hash ← make_bytes (DCNetPayloadSize d - 1);
      Ret (None, s <| c_LastMessage := payload_to_hash |>
                   <| c_HashFromPreviousMessage := Sum256 payload_to_hash |>)
    end
  | Some c =>
    c ← set_index c 3 (u8 (c_ID s));
    Ret (Some c, s <| c_LastMessage := c |> <| c_HashFromPreviousMessage := Sum256 c |>)
  end.

(** The part of SendUpstreamData from the encoding on *)
Definition encodeAndSend (slotOwner : bool) (content : option bytes) : clientH (result unit) :=
  s ← getC;
  let slice_b_echo_last := if c_DisruptionProtectionEnabled s && slotOwner
                           then Some [c_B_echo_last s] else None in
  let payload := append_nil slice_b_echo_last content in
  match c_DCNet s with
  | None => lift (Crash RuntimeError)
  | Some d =>
    '(upstreamCell, plainPayload, d) ← lift (EncodeForRound d (c_RoundNo s) slotOwner payload);
    _ ← setC (λ s, s <| c_DCNet := Some d |>);
    _ ← (if c_EquivocationProtectionEnabled s && c_DisruptionProtectionEnabled s && slotOwner
            && negb (c_B_echo_last s =? 1) then
           let plain := default [] plainPayload in
           setC (λ s, s <| c_LastMessage := plain |> <| c_HashFromPreviousMessage := Sum256 plain |>)
         else mret tt);
    upstreamCell ←
      (if (c_ID s =? 0) && c_ForceDisruptionSinceRound3 s && (3 <? c_RoundNo s) && negb slotOwner then
         if c_AllreadyDisrupted s then
           _ ← (if negb (c_RoundNo s =? 6) then setC (λ s, s <| c_AllreadyDisrupted := false |>)
                else mret tt);
           mret upstreamCell
         else
           last ← lift (index upstreamCell (len upstreamCell - 1));
           cell ← lift (set_index upstreamCell (len upstreamCell - 1) (u8 (last + 1)));
           _ ← setC (λ s, s <| c_AllreadyDisrupted := true |>);
           mret cell
       else mret upstreamCell);
    _ ← SendToRelayWithLog (MUpstream (mkUpstream (c_ID s) (c_RoundNo s) (Some upstreamCell)));
    mret (Ok tt)
  end.

(** func (p) SendUpstreamData *)
Definition SendUpstreamData (ci : clientInputs) (ownerSlotID : Z) : clientH (result unit) :=
  s ← getC;
  let slotOwner := ownerSlotID =? c_MySlot s in
  _ ← (if slotOwner then setC (λ s, s <| c_MyLastRound := c_RoundNo s |>) else mret tt);
  let size1 := if c_DisruptionProtectionEnabled s then c_PayloadSize s - 1 else c_PayloadSize s in
  if c_DisruptionProtectionEnabled s && (size1 <=? 0) then
    lift (Crash (Fatal "Cannot have disruption protection with less than 1 bytes payload")) else
  let size2 := if c_EquivocationProtectionEnabled s && slotOwner then size1 - 16 else size1 in
  if c_EquivocationProtectionEnabled s && slotOwner && (size2 <=? 0) then
    lift (Crash (Fatal "Cannot have equivocation protection with less than 16 bytes payload")) else
  content ← (if slotOwner then ownerContent ci size2 else mret None);
  s ← getC;
  if c_DisruptionProtectionEnabled s && slotOwner then
    if negb (c_DisruptionWrongBitPosition s =? -1) then
      let blameRoundID := i32 (c_RoundNo s - i32 (i32 (c_nClients s) * 2)) in
      let '(pred, pval) := blameStatement (c_EphemeralPublicKey s) in
      let sval := match c_ephemeralPrivateKey s with Some x => {["x" := x]} | None => ∅ end in
      let NIZK := match HashProve (ci_xof ci) "DISRUPTION" pred sval pval None with
                  | Ok b => b | Err _ => [] end in
      _ ← SendToRelayWithLog (MBlame (mkBlame blameRoundID NIZK (c_DisruptionWrongBitPosition s) pval));
      mret (Ok tt)
    else
      content ← (if negb (c_EquivocationProtectionEnabled s) then
                   '(content, s) ← lift (rememberContent s content);
                   _ ← setC (λ _, s);
                   mret content
                 else mret content);
      encodeAndSend slotOwner content
  else encodeAndSend slotOwner content.

(** The latency-test block of ProcessDownStreamData *)
Definition newLatencyTest (ci : clientInputs) (s : ClientState) : ClientState :=
  let t := c_LatencyTest s in
  if DoLatencyTests t && (c_ID s =? 0) && (NextLatencyTest t <? ci_now ci) then
    s <| c_LatencyTest := t <| LatencyTestsToSend := LatencyTestsToSend t ++ [mkLatencyTest (ci_now ci)] |>
           <| NextLatencyTest := ci_now ci + LatencyTestsInterval t + ci_rand ci * 1000000 |> |>
  else s.

(** The open/closed branch of ProcessDownStreamData *)
Definition answerOpenClosed (ci : clientInputs) : clientH unit :=
  s ← getC;
  let bmc := Client_ReceivedScheduleRequest newBitMaskClient (c_nClients s) in
  wants ← WantsToTransmit ci;
  let bmc := if wants : bool then Client_ReserveRound bmc (c_MySlot s) else bmc in
  contribution ← lift (Client_GetOpenScheduleContribution bmc);
  s ← getC;
  match c_DCNet s with
  | None => lift (Crash RuntimeError)
  | Some d =>
    '(upstreamCell, _, d) ← lift (EncodeForRound d (c_RoundNo s) false (Some contribution));
    _ ← setC (λ s, s <| c_DCNet := Some d |>);
    _ ← SendToRelayWithLog (MOpenClosed (mkOpenClosed (c_ID s) (c_RoundNo s) (Some upstreamCell)));
    mret tt
  end.

(** The data part of ProcessDownStreamData *)
Definition handleData (ci : clientInputs) (msg : REL_CLI_DOWNSTREAM_DATA) : clientH unit :=
  s ← getC;
  if 1 <? len (dd_Data msg) then
    _ ← (if c_DataOutputEnabled s then emit (Delivered (dd_Data msg)) else mret tt);
    if DoLatencyTests (c_LatencyTest s) && (2 <? len (dd_Data msg)) then
      acts ← lift (DecodeLatencyMessages (ci_clock ci) (dd_Data msg) (c_ID s) (dd_RoundID msg));
      foldr (λ '(_, _, timeDiff) k, _ ← emit (Measured "measured-latency" timeDiff); k) (mret tt) acts
    else mret tt
  else mret tt.

(** func (p) ProcessDownStreamData, up to the look-up of a buffered message;
    false when the relay asked for a resync and the function returned early *)
Definition ProcessDownStreamData (ci : clientInputs) (msg : REL_CLI_DOWNSTREAM_DATA) : clientH bool :=
  s ← getC;
  _ ← (if c_DisruptionProtectionEnabled s then handlePossibleDisruption msg else mret (Ok tt));
  _ ← handleData ci msg;
  _ ← setC (newLatencyTest ci);
  if dd_FlagResync msg then
    _ ← c_ChangeState "BEFORE_INIT"; mret false
  else
    _ ← (if dd_FlagOpenClosedRequest msg then answerOpenClosed ci
         else _ ← SendUpstreamData ci (dd_OwnershipID msg); mret tt);
    _ ← setC (λ s, s <| c_BufferedRoundData := delete (i32 (c_RoundNo s - 1)) (c_BufferedRoundData s) |>);
    _ ← setC (λ s, s <| c_RoundNo := i32 (c_RoundNo s + 1) |>);
    _ ← emit (Measured "round-processing" (ci_duration ci));
    mret true.

(** func (p) Received_REL_CLI_DOWNSTREAM_DATA, which ProcessDownStreamData
    calls again when the next message is buffered: [fuel] bounds the number of
    buffered messages processed *)
Fixpoint Received_REL_CLI_DOWNSTREAM_DATA (fuel : nat) (ci : clientInputs)
    (msg : REL_CLI_DOWNSTREAM_DATA) : clientH (result unit) :=
  _ ← (if dd_RoundID msg =? 1 then
         setC (λ s, s <| c_pcapReplay := (c_pcapReplay s) <| time0 := u64 (ci_msNow ci) |> |>)
       else mret tt);
  s ← getC;
  if dd_RoundID msg <? c_RoundNo s then mret (Ok tt) else
  _ ← (if c_RoundNo s <? dd_RoundID msg then setC (λ s, s <| c_RoundNo := dd_RoundID msg |>)
       else mret tt);
  goOn ← ProcessDownStreamData ci msg;
  if negb goOn then mret (Ok tt) else
  s ← getC;
  match c_BufferedRoundData s !! c_RoundNo s with
  | None => mret (Ok tt)
  | Some next =>
    match fuel with
    | O => lift (Crash Diverges)
    | S fuel => _ ← Received_REL_CLI_DOWNSTREAM_DATA fuel ci next; mret (Ok tt)
    end
  end.

(** func (p) Received_REL_CLI_UDP_DOWNSTREAM_DATA *)
Definition Received_REL_CLI_UDP_DOWNSTREAM_DATA (ci : clientInputs) (msg : REL_CLI_DOWNSTREAM_DATA)
    : clientH (result unit) :=
  s ← getC;
  Received_REL_CLI_DOWNSTREAM_DATA (size (c_BufferedRoundData s)) ci msg.

(** func (p) ReceivedMessage *)
Definition c_ReceivedMessage (ci : clientInputs) (msg : message CS) : clientH (result unit) :=
  let guarded (state : string) (h : clientH (result unit)) : clientH (result unit) :=
    ok ← c_AssertState state; if ok : bool then h else mret (Ok tt) in
  s ← getC;
  match msg with
  | MParameters m =>
    if ForceParams m then c_Received_ALL_ALL_PARAMETERS ci m
    else guarded "BEFORE_INIT" (c_Received_ALL_ALL_PARAMETERS ci m)
  | MShutdown => c_Received_ALL_ALL_SHUTDOWN
  | MDownstream m =>
    guarded "READY" (Received_REL_CLI_DOWNSTREAM_DATA (size (c_BufferedRoundData s)) ci m)
  | MDownstreamUDP m => guarded "READY" (Received_REL_CLI_UDP_DOWNSTREAM_DATA ci m)
  | MTellEphPks m => guarded "EPH_KEYS_SENT" (Received_REL_CLI_TELL_EPH_PKS m)
  | MReveal m => guarded "READY" (c_Received_REL_ALL_DISRUPTION_REVEAL ci m)
  | MRevealSecrets m => guarded "READY" (c_Received_REL_ALL_REVEAL_SHARED_SECRETS ci m)
  | _ => mret (Err "Unrecognized message, type")
  end.
End client.

Arguments ClientState CS : clear implicits.
Arguments PriFiLibClientInstance CS : clear implicits.
