(* ===== verification/ClientSpec.v ===== *)
(** * What a client sends

    A client answers each round at most once, in increasing order, which is
    what keeps the pads of a round from being used twice; the disruption check
    reports a bit that really differs; and the setup goes on when the shuffle
    does not verify. *)

From Stdlib Require Import Sorted.
From S2P Require Import Prelude Bytes Crypto DCNetCipher Equivocation DCNet BitMask.
From S2P Require Import Messages StateMachine Measurements NeffShuffle Network Trustee Client.

Open Scope Z_scope.

Section client_spec.
Context {CS : CryptoSuite} {CL : CryptoLaws CS} `{!Network CS} `{!ProofSystem CS}.
Abbreviation cinst := (PriFiLibClientInstance CS).
Abbreviation ctrace := (list (event CS)).

(** ** The rounds a trace answers *)

Definition up_event (e : event CS) : option Z :=
  match e with
  | Sent _ (MUpstream m) | SendFailed _ (MUpstream m) => Some (up_RoundID m)
  | Sent _ (MOpenClosed m) | SendFailed _ (MOpenClosed m) => Some (oc_RoundID m)
  | _ => None
  end.
Definition upRounds (tr : ctrace) : list Z := omap up_event tr.
Definition no_up (e : event CS) : Prop := up_event e = None.

Lemma upRounds_app tr tr' : upRounds (tr ++ tr') = upRounds tr ++ upRounds tr'.
Proof. apply omap_app. Qed.

Lemma emits_no_up {A} (m : handler cinst A) s tr a s' tr' :
  emits no_up m → m (s, tr) = Ret (a, (s', tr')) → upRounds tr' = upRounds tr.
Proof.
  intros He H. apply He in H as (new & -> & HF). rewrite upRounds_app.
  assert (upRounds new = []) as ->; [|by rewrite app_nil_r].
  induction HF as [|e new Hne _ IH]; [done|]. cbn. by rewrite Hne.
Qed.

(** The parts of the state that decide which rounds are answered. *)
Definition roundState (p : cinst) : Z * gmap Z REL_CLI_DOWNSTREAM_DATA * StateMachine :=
  (c_RoundNo (clientState p), c_BufferedRoundData (clientState p), c_stateMachine p).

Lemma measured_fold_emits {X} (f : X → event CS) (l : list X) :
  (∀ x, no_up (f x)) →
  emits no_up (foldr (λ v k, _ ← emit (f v); k) (mret tt : handler cinst unit) l).
Proof.
  intros Hf. induction l as [|x l IH]; cbn; [apply emits_ret|].
  apply emits_bind; [by apply emits_emit | by intros _].
Qed.

Lemma measured_fold_keeps {X} (f : X → event CS) (l : list X) :
  keeps_proj roundState (foldr (λ v k, _ ← emit (f v); k) (mret tt : handler cinst unit) l).
Proof. induction l as [|x l IH]; cbn; [apply keeps_ret|]. apply keeps_bind; [apply keeps_emit | done]. Qed.

Lemma ownerContent_quiet ci n :
  emits no_up (ownerContent ci n) ∧ keeps_proj roundState (ownerContent ci n).
Proof.
  unfold ownerContent, getC, setC. split.
  - solve_emits. apply (measured_fold_emits (Measured "latency-msg-stayed-in-buffer")). done.
  - solve_keeps. apply (measured_fold_keeps (Measured "latency-msg-stayed-in-buffer")).
Qed.

Lemma handleData_quiet ci msg :
  emits no_up (handleData ci msg) ∧ keeps_proj roundState (handleData ci msg).
Proof.
  unfold handleData, getC. split; [solve_emits|solve_keeps].
  - match goal with |- emits _ (foldr ?g _ ?l) => induction l as [|[[]] l IH]; cbn [foldr] end;
      [apply emits_ret|]. apply emits_bind; [by apply emits_emit | done].
  - match goal with |- keeps_proj _ (foldr ?g _ ?l) => induction l as [|[[]] l IH]; cbn [foldr] end;
      [apply keeps_ret|]. apply keeps_bind; [apply keeps_emit | done].
Qed.

Lemma handlePossibleDisruption_quiet msg :
  emits no_up (handlePossibleDisruption msg) ∧ keeps_proj roundState (handlePossibleDisruption msg).
Proof. unfold handlePossibleDisruption, getC, setC. split; [solve_emits | solve_keeps]. Qed.

Lemma WantsToTransmit_quiet ci :
  emits no_up (WantsToTransmit ci) ∧ keeps_proj roundState (WantsToTransmit ci).
Proof. unfold WantsToTransmit, getC, setC. split; [solve_emits | solve_keeps]. Qed.

(** ** One answer per round *)

(** At most one answer, for the current round, and the round state unchanged. *)
Definition answers (p : cinst) (tr : ctrace) (p' : cinst) (tr' : ctrace) : Prop :=
  roundState p' = roundState p ∧
  ∃ k, upRounds tr' = upRounds tr ++ k ∧ (k = [] ∨ k = [c_RoundNo (clientState p)]).

Lemma answers_after {A} (m : handler cinst A) p tr a p1 tr1 p' tr' :
  emits no_up m ∧ keeps_proj roundState m → m (p, tr) = Ret (a, (p1, tr1)) →
  answers p1 tr1 p' tr' → answers p tr p' tr'.
Proof.
  intros [He Hk] H [Hs (k & Hu & Hd)]. pose proof (Hk _ _ _ _ _ H) as Hk'.
  split; [congruence|]. exists k. rewrite Hu, (emits_no_up _ _ _ _ _ _ He H). split; [done|].
  unfold roundState in Hk'. injection Hk' as Hr _ _. by rewrite <- Hr.
Qed.

Lemma answers_quiet {A} (m : handler cinst A) p tr a p' tr' :
  emits no_up m ∧ keeps_proj roundState m → m (p, tr) = Ret (a, (p', tr')) → answers p tr p' tr'.
Proof.
  intros Hm H. eapply answers_after; [exact Hm | exact H |]. split; [done|]. exists [].
  rewrite app_nil_r. auto.
Qed.

Lemma upRounds_cons e tr :
  upRounds (e :: tr) = from_option (λ r, [r]) [] (up_event e) ++ upRounds tr.
Proof. unfold upRounds. cbn. by destruct (up_event e). Qed.

Lemma answers_sent p tr p' m :
  roundState p' = roundState p →
  (up_event (Sent ToRelay m) = Some (c_RoundNo (clientState p)) ∨ up_event (Sent ToRelay m) = None) →
  answers p tr p' (tr ++ match net_send tr ToRelay m with
                         | None => [Sent ToRelay m]
                         | Some err => [SendFailed ToRelay m; NetworkError err] end).
Proof.
  intros Hp Hm. split; [done|].
  exists (from_option (λ r, [r]) [] (up_event (Sent ToRelay m))). rewrite upRounds_app. split.
  - f_equal. assert (up_event (SendFailed ToRelay m) = up_event (Sent ToRelay m)) as Hf by by destruct m.
    destruct (net_send _ _ _); rewrite !upRounds_cons, ?Hf; cbn [from_option app up_event];
      by rewrite ?app_nil_r.
  - destruct Hm as [->| ->]; auto.
Qed.

Ltac h_cases := repeat (match goal with
  | H : (if ?b then _ else _) _ = Ret _ |- _ => destruct b
  end; h_go).

Lemma encodeAndSend_answers owner content p tr r p' tr' :
  encodeAndSend owner content (p, tr) = Ret (r, (p', tr')) → answers p tr p' tr'.
Proof.
  unfold encodeAndSend, getC, setC, SendToRelayWithLog. intros H. h_step H.
  destruct (c_DCNet (clientState p)) as [d|] eqn:Hd; [|by h_run H].
  h_go; h_cases; apply answers_sent; first [done | by left].
Qed.

Lemma rememberContent_keeps (s : ClientState CS) content c s' :
  rememberContent s content = Ret (c, s') →
  c_RoundNo s' = c_RoundNo s ∧ c_BufferedRoundData s' = c_BufferedRoundData s.
Proof.
  unfold rememberContent. intros H. destruct content as [x|].
  - go_inv H. by injection H as <- <-.
  - destruct (c_DCNet s); [|done]. go_inv H. by injection H as <- <-.
Qed.

Lemma SendUpstreamData_answers ci owner p tr r p' tr' :
  SendUpstreamData ci owner (p, tr) = Ret (r, (p', tr')) → answers p tr p' tr'.
Proof.
  unfold SendUpstreamData. intros H.
  apply handler_bind_inv in H as (s & [p1 tr1] & E & H).
  unfold getC in E. h_run E.
  apply handler_bind_inv in H as (u & [p2 tr2] & E & H).
  eapply answers_after; [|exact E|]; [by destruct (_ =? _); split; unfold setC; solve_emits; solve_keeps|].
  clear E. destruct (_ && _); [by h_run H|]. destruct (_ && _); [by h_run H|].
  apply handler_bind_inv in H as (content & [p3 tr3] & E & H).
  eapply answers_after; [|exact E|];
    [destruct (_ =? _); [apply ownerContent_quiet | split; [apply emits_ret | apply keeps_ret]]|].
  clear E. unfold getC in H. h_step H.
  destruct (_ && _); [|by eapply encodeAndSend_answers].
  destruct (negb (c_DisruptionWrongBitPosition _ =? -1)).
  - unfold SendToRelayWithLog in H. h_run H. apply answers_sent; [done | by right].
  - apply handler_bind_inv in H as (c & [p4 tr4] & E & H).
    apply encodeAndSend_answers in H. destruct (negb _).
    + unfold setC in E. h_run E. use rememberContent_keeps as [Hr Hb].
      destruct H as [Hs (k & Hk & Hd)]. split; [rewrite Hs; unfold roundState; cbn; by rewrite Hr, Hb|].
      exists k. split; [done|]. cbn in Hd. by rewrite Hr in Hd.
    + by h_run E.
Qed.

Lemma answerOpenClosed_answers ci p tr r p' tr' :
  answerOpenClosed ci (p, tr) = Ret (r, (p', tr')) → answers p tr p' tr'.
Proof.
  unfold answerOpenClosed. intros H.
  apply handler_bind_inv in H as (s & [p1 tr1] & E & H). unfold getC in E. h_run E.
  apply handler_bind_inv in H as (w & [p2 tr2] & E & H).
  eapply answers_after; [apply WantsToTransmit_quiet | exact E |]. clear E.
  unfold getC, setC, SendToRelayWithLog in H. h_step H. h_step H.
  destruct (c_DCNet (clientState p2)); [|by h_run H]. h_run H.
  apply answers_sent; [done | by left].
Qed.

(** ** A downstream message *)

Lemma newLatencyTest_quiet ci :
  emits no_up (setC (newLatencyTest ci)) ∧ keeps_proj roundState (setC (newLatencyTest ci)).
Proof.
  unfold setC. split; [apply emits_modify|]. apply keeps_modify. intros q. unfold newLatencyTest.
  by destruct (_ && _).
Qed.

Lemma ProcessDownStreamData_effect ci msg p tr b p' tr' :
  dd_FlagResync msg = false → ProcessDownStreamData ci msg (p, tr) = Ret (b, (p', tr')) →
  c_stateMachine p' = c_stateMachine p
  ∧ c_RoundNo (clientState p') = i32 (c_RoundNo (clientState p) + 1)
  ∧ (c_BufferedRoundData (clientState p) = ∅ → c_BufferedRoundData (clientState p') = ∅)
  ∧ ∃ k, upRounds tr' = upRounds tr ++ k ∧ (k = [] ∨ k = [c_RoundNo (clientState p)]).
Proof.
  intros Hres H. unfold ProcessDownStreamData in H. rewrite Hres in H.
  apply handler_bind_inv in H as (s & [p0 t0] & E & H). unfold getC in E. h_run E.
  apply handler_bind_inv in H as (u1 & [p1 t1] & E1 & H).
  apply handler_bind_inv in H as (u2 & [p2 t2] & E2 & H).
  apply handler_bind_inv in H as (u3 & [p3 t3] & E3 & H).
  apply handler_bind_inv in H as (u4 & [p4 t4] & E4 & H).
  assert (answers p tr p4 t4) as A.
  { eapply answers_after; [|exact E1|];
      [destruct (c_DisruptionProtectionEnabled _); [apply handlePossibleDisruption_quiet|];
       split; [apply emits_ret | apply keeps_ret]|].
    eapply answers_after; [apply handleData_quiet | exact E2 |].
    eapply answers_after; [apply newLatencyTest_quiet | exact E3 |].
    destruct (dd_FlagOpenClosedRequest msg); [by eapply answerOpenClosed_answers|].
    h_step E4. h_step E4. by eapply SendUpstreamData_answers. }
  clear E1 E2 E3 E4. destruct A as [Hs (k & Hk & Hd)]. unfold roundState in Hs. injection Hs as Hs1 Hs2 Hs3.
  unfold setC in H. h_run H. split; [done|]. cbn. rewrite Hs1. split; [done|]. split.
  - intros He. rewrite Hs2, He. apply delete_empty.
  - exists k. by rewrite upRounds_app, Hk, app_nil_r.
Qed.

Lemma downstream_effect fuel ci msg p tr r p' tr' :
  c_BufferedRoundData (clientState p) = ∅ → dd_FlagResync msg = false →
  - 2147483648 ≤ dd_RoundID msg < MaxInt32 →
  Received_REL_CLI_DOWNSTREAM_DATA fuel ci msg (p, tr) = Ret (r, (p', tr')) →
  c_BufferedRoundData (clientState p') = ∅ ∧ c_stateMachine p' = c_stateMachine p ∧
  ((dd_RoundID msg < c_RoundNo (clientState p) ∧ c_RoundNo (clientState p') = c_RoundNo (clientState p)
    ∧ upRounds tr' = upRounds tr)
   ∨ (c_RoundNo (clientState p) ≤ dd_RoundID msg ∧ c_RoundNo (clientState p') = dd_RoundID msg + 1
      ∧ ∃ k, upRounds tr' = upRounds tr ++ k ∧ (k = [] ∨ k = [dd_RoundID msg]))).
Proof.
  intros Hb Hres Hid H. destruct fuel; cbn [Received_REL_CLI_DOWNSTREAM_DATA] in H;
    (apply handler_bind_inv in H as (u & [p1 t1] & E & H);
     assert (roundState p1 = roundState p ∧ t1 = tr) as [Hp1 ->]
       by (destruct (_ =? 1); unfold setC in E; by h_run E);
     clear E; unfold roundState in Hp1; injection Hp1 as Hr1 Hb1 Hs1;
     unfold getC, setC in H; h_step H; destruct (Z.ltb_spec (dd_RoundID msg) (c_RoundNo (clientState p1))) as [Hlt|Hge];
     [h_run H; split; [congruence|]; split; [done|]; left; split; [lia|]; by split|];
     apply handler_bind_inv in H as (u1 & [p2 t2] & E & H);
     assert (c_RoundNo (clientState p2) = dd_RoundID msg ∧ c_BufferedRoundData (clientState p2) = ∅
       ∧ c_stateMachine p2 = c_stateMachine p ∧ t2 = tr) as (Hr2 & Hb2 & Hs2 & ->)
       by (destruct (Z.ltb_spec (c_RoundNo (clientState p1)) (dd_RoundID msg)); h_run E;
           cbn; split_and!; congruence || lia);
     clear E; apply handler_bind_inv in H as (b & [p3 t3] & E & H);
     destruct (ProcessDownStreamData_effect _ _ _ _ _ _ _ Hres E) as (Hs3 & Hr3 & Hb3 & k & Hk & Hd);
     specialize (Hb3 Hb2); rewrite Hr2 in Hr3, Hd; rewrite i32_small in Hr3 by (unfold MaxInt32 in *; lia);
     assert (p' = p3 ∧ tr' = t3) as [-> ->]
       by (destruct b; cbn [negb] in H; [|by h_run H]; h_step H; rewrite Hb3, lookup_empty in H; by h_run H);
     split; [done|]; split; [congruence|]; right; split; [lia|]; split; [done|]; by exists k).
Qed.

(** ** The setup *)

Lemma c_ChangeState_effect x p tr r p' tr' :
  c_ChangeState x (p, tr) = Ret (r, (p', tr')) →
  ∃ sm, p' = p <| c_stateMachine := sm |> ∧ tr' = tr ∧ currentState sm = x
  ∧ states sm = states (c_stateMachine p).
Proof. unfold c_ChangeState. intros H. h_run H. use changeOrFatal_ret as [? ?]. eauto. Qed.

Lemma c_startStop_effect b p tr r p' tr' :
  c_startStop b (p, tr) = Ret (r, (p', tr')) → roundState p' = roundState p ∧ tr' = tr
  ∧ c_MySlot (clientState p') = c_MySlot (clientState p)
  ∧ c_ID (clientState p') = c_ID (clientState p).
Proof.
  unfold c_startStop, getC, setC. intros H. h_step H.
  destruct (c_StartStopReceiveBroadcast _); [|by h_run H]. destruct (_ <=? _)%nat; [by h_run H|].
  h_run H. done.
Qed.

Lemma trustees_pk_effect ci pks p tr r p' tr' :
  Received_REL_CLI_TELL_TRUSTEES_PK ci pks (p, tr) = Ret (r, (p', tr')) →
  upRounds tr' = upRounds tr ∧ states (c_stateMachine p') = states (c_stateMachine p)
  ∧ (currentState (c_stateMachine p') = currentState (c_stateMachine p)
     ∨ currentState (c_stateMachine p') = "EPH_KEYS_SENT").
Proof.
  unfold Received_REL_CLI_TELL_TRUSTEES_PK, getC, setC, SendToRelayWithLog. intros H.
  destruct (len pks <? 1); [h_run H; auto|]. h_go.
  use c_ChangeState_effect as (sm & -> & -> & Hx & Hs). split; [|auto].
  rewrite upRounds_app. destruct (net_send _ _ _); cbn; by rewrite app_nil_r.
Qed.

Lemma c_parameters_effect ci m p tr r p' tr' :
  c_Received_ALL_ALL_PARAMETERS ci m (p, tr) = Ret (r, (p', tr')) →
  upRounds tr' = upRounds tr ∧ states (c_stateMachine p') = states (c_stateMachine p)
  ∧ (currentState (c_stateMachine p') = currentState (c_stateMachine p)
     ∨ currentState (c_stateMachine p') = "EPH_KEYS_SENT").
Proof.
  unfold c_Received_ALL_ALL_PARAMETERS, getC, setC. intros H. h_step H. h_step H.
  repeat (match type of H with (if ?b then _ else _) _ = _ => destruct b end;
          [h_run H; first [done | by auto]|]).
  h_step H. h_step H. h_step H. h_step H.
  apply handler_bind_inv in H as (u & [p1 t1] & E1 & H).
  match type of E1 with _ (?q, ?t) = _ =>
    assert (c_stateMachine p1 = c_stateMachine q ∧ t1 = t) as [Hsm ->];
    [destruct (c_StartStopReceiveBroadcast _); [|by h_run E1];
     apply c_startStop_effect in E1 as (Hq & -> & _); unfold roundState in Hq; by injection Hq|] end.
  h_step H. apply handler_bind_inv in H as (u2 & [p2 t2] & E2 & H).
  match type of E2 with _ (?q, ?t) = _ =>
    assert (p2 = q ∧ upRounds t2 = upRounds t) as [-> Ht2];
    [destruct (BoolValueOrElse m "UseUDP" _); h_run E2; [|done]; by rewrite upRounds_app, app_nil_r|] end.
  h_step H. use trustees_pk_effect as (Hu & Hst & Hc). h_run H.
  rewrite Hu, Ht2, Hst. cbn in *. rewrite Hsm. split; [done|]. split; [done|].
  destruct Hc as [->|]; [left; by rewrite Hsm | by right].
Qed.

Lemma firstCell_keeps (s : ClientState CS) n data s' :
  firstCell s n = Ret (data, s') →
  c_RoundNo s' = c_RoundNo s ∧ c_BufferedRoundData s' = c_BufferedRoundData s
  ∧ c_MySlot s' = c_MySlot s ∧ c_ID s' = c_ID s.
Proof.
  unfold firstCell. intros H. go_inv H. destruct (c_DisruptionProtectionEnabled s).
  - go_inv H. by injection H as <- <-.
  - by injection H as <- <-.
Qed.

Lemma eph_pks_effect m p tr r p' tr' :
  Received_REL_CLI_TELL_EPH_PKS m (p, tr) = Ret (r, (p', tr')) →
  states (c_stateMachine p') = states (c_stateMachine p)
  ∧ c_BufferedRoundData (clientState p') = ∅
  ∧ (currentState (c_stateMachine p') = currentState (c_stateMachine p) ∧ upRounds tr' = upRounds tr
     ∨ currentState (c_stateMachine p') = "READY" ∧ upRounds tr' = upRounds tr ++ [0]
       ∧ c_RoundNo (clientState p') = 1).
Proof.
  unfold Received_REL_CLI_TELL_EPH_PKS, getC, setC, SendToRelayWithLog. intros H.
  h_step H. h_step H. h_step H.
  match type of H with (if ?b then _ else _) _ = _ => destruct b end; [h_run H; auto|].
  apply handler_bind_inv in H as (u & [p1 t1] & E1 & H).
  match type of E1 with _ (?q, ?t) = _ =>
    assert (roundState p1 = roundState q ∧ t1 = t) as [Hrs ->];
    [destruct (c_UseUDP (clientState p)); [by apply c_startStop_effect in E1 as (? & ? & _) | by h_run E1]|] end.
  apply handler_bind_inv in H as (u2 & [p2 t2] & E2 & H).
  apply c_ChangeState_effect in E2 as (sm & -> & -> & Hx & Hst).
  unfold roundState in Hrs. cbn in Hrs. injection Hrs as Hr Hb Hsm.
  h_run H.
  match goal with E : firstCell _ _ = Ret _ |- _ => apply firstCell_keeps in E as (HrF & HbF & _) end.
  destruct (c_DCNet _); [|by h_run H]. cbn in HrF, HbF. rewrite Hr in HrF. rewrite Hb in HbF.
  apply handler_bind_inv in H as (x & [p3 t3] & E3 & H). h_run E3. h_run H. h_cases; cbn;
    rewrite Hst, Hsm, HbF, HrF; cbn; (split; [done|]; split; [done|]); right;
    (split; [done|]; split; [|done]); rewrite upRounds_app; f_equal;
    destruct (net_send _ _ _); cbn; by rewrite ?HrF.
Qed.

(** ** Runs *)

(** The messages of a normal run: parameters that do not force a second
    initialisation, no resync, and round numbers in the range of int32 below its
    maximum. *)
Definition cnormal (p : cinst) (m : message CS) : Prop :=
  match m with
  | MParameters m => ForceParams m = false ∨ currentState (c_stateMachine p) = "BEFORE_INIT"
  | MDownstream m | MDownstreamUDP m =>
    dd_FlagResync m = false ∧ - 2147483648 ≤ dd_RoundID m < MaxInt32
  | _ => True
  end.

(** The application hands data to the client. *)
Definition queued (data : bytes) (p : cinst) : cinst :=
  p <| clientState := (clientState p) <| c_DataForDCNet := c_DataForDCNet (clientState p) ++ [data] |> |>.

Inductive cstep : cinst * ctrace → cinst * ctrace → Prop :=
| cstep_receive ci msg p tr r p' tr' :
    cnormal p msg → c_ReceivedMessage ci msg (p, tr) = Ret (r, (p', tr')) →
    cstep (p, tr) (p', tr')
| cstep_queue data p tr : cstep (p, tr) (queued data p, tr).

Definition creach : cinst * ctrace → cinst * ctrace → Prop := rtc cstep.

Record cinv (w : cinst * ctrace) : Prop := {
  ci_states : states (c_stateMachine w.1) = clientStates;
  ci_sorted : StronglySorted Z.lt (upRounds w.2);
  ci_early : currentState (c_stateMachine w.1) = "BEFORE_INIT"
             ∨ currentState (c_stateMachine w.1) = "EPH_KEYS_SENT" → upRounds w.2 = [];
  ci_ready : currentState (c_stateMachine w.1) = "READY" →
             c_BufferedRoundData (clientState w.1) = ∅
             ∧ Forall (λ r, r < c_RoundNo (clientState w.1)) (upRounds w.2);
  ci_known : currentState (c_stateMachine w.1) ∈ ["BEFORE_INIT"; "EPH_KEYS_SENT"; "READY"; "SHUTDOWN"]
}.

Lemma sorted_snoc l r : StronglySorted Z.lt l → Forall (λ x, x < r) l → StronglySorted Z.lt (l ++ [r]).
Proof.
  induction 1 as [|x l Hl IH Hx]; intros HF; cbn; [by repeat constructor|].
  apply Forall_cons in HF as [Hxr HF]. constructor; [by apply IH|].
  apply Forall_app. split; [done|]. by repeat constructor.
Qed.

Lemma c_guarded_inv st (h : handler cinst (result unit)) p tr r p' tr' :
  (ok ← c_AssertState st; if ok : bool then h else mret (Ok tt)) (p, tr) = Ret (r, (p', tr')) →
  (p' = p ∧ tr' = tr) ∨ (currentState (c_stateMachine p) = st ∧ h (p, tr) = Ret (r, (p', tr'))).
Proof.
  intros H. unfold c_AssertState in H. h_step H.
  match type of H with (if ?b then _ else _) _ = _ => destruct b end.
  - right. use assertOrFatal_true as <-. done.
  - left. by h_run H.
Qed.

Lemma c_forced_inv force st (h : handler cinst (result unit)) p tr r p' tr' :
  force = false ∨ currentState (c_stateMachine p) = st →
  (if force : bool then h
   else ok ← c_AssertState st; if ok : bool then h else mret (Ok tt)) (p, tr) = Ret (r, (p', tr')) →
  (p' = p ∧ tr' = tr) ∨ (currentState (c_stateMachine p) = st ∧ h (p, tr) = Ret (r, (p', tr'))).
Proof.
  intros Hf H. destruct force; [|by apply c_guarded_inv in H]. destruct Hf as [Hf|Hf]; [done|]. by right.
Qed.

Lemma cinv_downstream fuel ci m p tr r p' tr' :
  cinv (p, tr) → currentState (c_stateMachine p) = "READY" →
  dd_FlagResync m = false → - 2147483648 ≤ dd_RoundID m < MaxInt32 →
  Received_REL_CLI_DOWNSTREAM_DATA fuel ci m (p, tr) = Ret (r, (p', tr')) → cinv (p', tr').
Proof.
  intros [Hst Hsort He Hr Hkn] Hcur Hres Hid H. cbn [fst snd] in *.
  destruct (Hr Hcur) as [Hb HF].
  apply downstream_effect in H as (Hb' & Hsm & Hcase); [|done..].
  split; cbn [fst snd]; rewrite ?Hsm; try done.
  - destruct Hcase as [(_ & _ & ->)|(Hle & _ & k & -> & [->| ->])]; [done | by rewrite app_nil_r|].
    apply sorted_snoc; [done|]. eapply Forall_impl; [exact HF|]. intros x Hx. cbn in *. lia.
  - rewrite Hcur. by intros [?|?].
  - intros _. split; [done|]. destruct Hcase as [(Hlt & -> & ->)|(Hle & -> & k & -> & Hk)]; [done|].
    apply Forall_app. split; [eapply Forall_impl; [exact HF|]; intros x Hx; cbn in *; lia|].
    destruct Hk as [->| ->]; repeat constructor. lia.
Qed.

(** A handler that answers nothing and leaves the round state alone. *)
Lemma cinv_quiet {A} (m : handler cinst A) p tr a p' tr' :
  emits no_up m ∧ keeps_proj roundState m → cinv (p, tr) → m (p, tr) = Ret (a, (p', tr')) →
  cinv (p', tr').
Proof.
  intros [He Hk] HI H. pose proof (emits_no_up _ _ _ _ _ _ He H) as Hu. apply Hk in H.
  unfold roundState in H. injection H as H1 H2 H3. destruct HI as [? ? ? ? ?]. cbn [fst snd] in *.
  split; cbn [fst snd]; rewrite ?H1, ?H2, ?H3, ?Hu; done.
Qed.

Lemma c_reveal_quiet ci m :
  emits no_up (c_Received_REL_ALL_DISRUPTION_REVEAL ci m)
  ∧ keeps_proj roundState (c_Received_REL_ALL_DISRUPTION_REVEAL ci m).
Proof.
  unfold c_Received_REL_ALL_DISRUPTION_REVEAL, getC, setC, SendToRelayWithLog.
  split; [solve_emits | solve_keeps].
Qed.

Lemma c_secrets_quiet ci m :
  emits no_up (c_Received_REL_ALL_REVEAL_SHARED_SECRETS ci m)
  ∧ keeps_proj roundState (c_Received_REL_ALL_REVEAL_SHARED_SECRETS ci m).
Proof.
  unfold c_Received_REL_ALL_REVEAL_SHARED_SECRETS, getC, setC, SendToRelayWithLog.
  split; [solve_emits | solve_keeps].
Qed.

Lemma cinv_step w w' : cstep w w' → cinv w → cinv w'.
Proof.
  intros [ci msg p tr r p' tr' Hn H|data p tr] HI; [|by destruct HI; split]. unfold c_ReceivedMessage in H.
  apply handler_bind_inv in H as (s & [q t] & E & H). unfold getC in E. h_run E.
  destruct msg; cbn [cnormal] in Hn; try (by h_run H).
  - apply c_forced_inv in H as [[-> ->]|[Hcur H]]; [done| |done].
    apply c_parameters_effect in H as (Hu & Hst & Hc). destruct HI as [? ? He ? ?]. cbn [fst snd] in *.
    split; cbn [fst snd]; rewrite ?Hst, ?Hu; try done.
    + intros _. apply He. by left.
    + destruct Hc as [->| ->]; [by rewrite Hcur | done].
    + destruct Hc as [->| ->]; [done | by apply (bool_decide_unpack _)].
  - unfold c_Received_ALL_ALL_SHUTDOWN in H. h_step H. h_run H.
    use c_ChangeState_effect as (sm & -> & -> & Hx & Hst). destruct HI as [? ? ? ? ?]. cbn [fst snd] in *.
    split; cbn; rewrite ?Hx, ?Hst; try done;
      [by intros [?|?] | by apply (bool_decide_unpack _)].
  - apply c_guarded_inv in H as [[-> ->]|[Hcur H]]; [done|].
    destruct Hn as [Hres Hid]. by eapply cinv_downstream.
  - apply c_guarded_inv in H as [[-> ->]|[Hcur H]]; [done|].
    destruct Hn as [Hres Hid]. unfold Received_REL_CLI_UDP_DOWNSTREAM_DATA, getC in H. h_step H.
    by eapply cinv_downstream.
  - apply c_guarded_inv in H as [[-> ->]|[Hcur H]]; [done|].
    apply eph_pks_effect in H as (Hst & Hb & Hc). destruct HI as [Hs _ He _ Hkn]. cbn [fst snd] in *.
    rewrite (He (or_intror Hcur)) in Hc. split; cbn [fst snd]; [congruence|..];
      destruct Hc as [[Hc Hu]|(Hc & Hu & HR)]; rewrite ?Hc, ?Hu, ?HR, ?Hcur; try done;
      first [by apply (bool_decide_unpack _) | by repeat constructor | by intros [?|?]
            | intros _; split; [done|]; by repeat constructor].
  - apply c_guarded_inv in H as [[-> ->]|[Hcur H]]; [done|].
    eapply cinv_quiet; [apply c_reveal_quiet | exact HI | exact H].
  - apply c_guarded_inv in H as [[-> ->]|[Hcur H]]; [done|].
    eapply cinv_quiet; [apply c_secrets_quiet | exact HI | exact H].
Qed.

Lemma cinv_new s now msNow lat out data replay folder p :
  NewClient s now msNow lat out data replay folder = Ret p → cinv (p, []).
Proof.
  unfold NewClient. cbn. intros [= <-]. split; cbn; try done; [constructor | by apply (bool_decide_unpack _)].
Qed.

(** C10: A client never answers the same round twice: in every run without
    a second initialisation and without resync, whatever the order, loss and
    repetition of the relay's messages, the rounds for which it hands a DC-net
    cell to the network are strictly increasing.  So no pad is used for two
    different cells. *)
Theorem client_answers_once s now msNow lat out data replay folder p w :
  NewClient s now msNow lat out data replay folder = Ret p → creach (p, []) w →
  StronglySorted Z.lt (upRounds w.2).
Proof.
  intros Hp Hr. apply cinv_new in Hp. apply ci_sorted.
  induction Hr as [|w1 w2 w3 Hstep _ IH]; [done|]. apply IH. by eapply cinv_step.
Qed.

(** ** The shuffle check *)

(** A client whose shuffle does not verify goes on all the same: when the
    signature check or the search for its slot fails, it only records slot -1,
    moves to READY, sends a cell for round 0 and waits for round 1. *)
Theorem client_ignores_bad_shuffle msg p tr r p' tr' e :
  currentState (c_stateMachine p) = "EPH_KEYS_SENT" → c_UseUDP (clientState p) = false →
  ClientVerifySigAndRecognizeSlot (c_ephemeralPrivateKey (clientState p))
    (Some (c_TrusteePublicKey (clientState p))) (te_Base msg) (te_EphPks msg)
    (Some (GetSignatures msg)) = Ret (Err e) →
  Received_REL_CLI_TELL_EPH_PKS msg (p, tr) = Ret (r, (p', tr')) →
  r = Ok tt ∧ currentState (c_stateMachine p') = "READY" ∧ c_MySlot (clientState p') = -1
  ∧ c_RoundNo (clientState p') = 1 ∧ upRounds tr' = upRounds tr ++ [0].
Proof.
  intros Hcur Hudp Hbad H. pose proof H as Heff. apply eph_pks_effect in Heff as (_ & _ & Hcase).
  unfold Received_REL_CLI_TELL_EPH_PKS, getC, setC, SendToRelayWithLog in H.
  rewrite !run_bind in H. cbn [get fst snd] in H. rewrite !run_ret in H. rewrite run_bind in H.
  unfold lift at 1 in H. rewrite Hbad in H. rewrite Hudp in H. cbn [andb] in H.
  h_step H. h_step H.
  apply handler_bind_inv in H as (u2 & [p2 t2] & E2 & H).
  apply c_ChangeState_effect in E2 as (sm & -> & -> & Hx & Hst). h_run H.
  match goal with E : firstCell _ _ = Ret _ |- _ => apply firstCell_keeps in E as (HrF & HbF & HmF & _) end.
  destruct (c_DCNet _); [|by h_run H].
  apply handler_bind_inv in H as (x & [p3 t3] & E3 & H). h_run E3. h_run H. h_cases; cbn in *;
    (split; [done|]; split; [done|]; split; [done|]);
    (destruct Hcase as [[Hc _]|(_ & -> & ->)]; [|done]); rewrite Hx, Hcur in Hc; done.
Qed.
End client_spec.

(** ** The disruption check *)

Lemma bit_mask j : 0 ≤ j < 8 → u8 (Z.shiftl 1 j) = 2 ^ j.
Proof.
  intros Hj. rewrite Z.shiftl_1_l. apply wrap_u_small.
  pose proof (Z.pow_lt_mono_r 2 j 8). pose proof (Z.pow_nonneg 2 j). lia.
Qed.

(** The bits the check looks at: they differ, and the lowest one is not a 1 of
    the sent message. *)
Definition suspicious (b l j : Z) : Prop :=
  Z.testbit b j ≠ Z.testbit l j ∧ ¬ (j = 0 ∧ Z.testbit l j = true).

Lemma differingBit_cons b l i j js : 0 ≤ j < 8 →
  (suspicious b l j ∧ differingBit b l i (j :: js) = Some (i * 8 + (7 - j)))
  ∨ (¬ suspicious b l j ∧ differingBit b l i (j :: js) = differingBit b l i js).
Proof.
  intros Hj. cbn [differingBit]. unfold suspicious. rewrite bit_mask, !land_pow2 by lia.
  pose proof (Z.pow_pos_nonneg 2 j).
  assert (2 ^ j = 1 ↔ j = 0) as H1.
  { split; [|by intros ->]. intros Hp. destruct (Z.eq_dec j 0); [done|].
    pose proof (Z.pow_gt_1 2 j). lia. }
  destruct (Z.testbit b j), (Z.testbit l j); rewrite ?Z.eqb_refl; cbn [negb].
  - right. by split; [intros [? _]|].
  - rewrite (proj2 (Z.eqb_neq _ _)) by lia. cbn. left. split; [|done]. split; [done|]. by intros [_ ?].
  - rewrite (proj2 (Z.eqb_neq _ _)) by lia. cbn [negb]. destruct (Z.eqb_spec (2 ^ j) 1) as [Hp|Hp].
    + right. split; [|done]. intros [_ Hn]. apply Hn. split; [by apply H1 | done].
    + left. split; [|done]. split; [done|]. intros [-> _]. by apply Hp.
  - right. by split; [intros [? _]|].
Qed.

Lemma differingBit_spec b l i js : Forall (λ j, 0 ≤ j < 8) js → StronglySorted Z.lt js →
  match differingBit b l i js with
  | Some pos => ∃ j, j ∈ js ∧ suspicious b l j ∧ pos = i * 8 + (7 - j)
                     ∧ ∀ j', j' ∈ js → j' < j → ¬ suspicious b l j'
  | None => ∀ j, j ∈ js → ¬ suspicious b l j
  end.
Proof.
  induction js as [|j js IH]; intros Hj Hs; [cbn; set_solver|].
  apply Forall_cons in Hj as [Hj Hjs]. apply StronglySorted_inv in Hs as [Hs Hlt].
  destruct (differingBit_cons b l i j js Hj) as [[Hsu ->]|[Hsu ->]].
  - exists j. split_and!; [left | done | done |]. rewrite Forall_forall in Hlt.
    intros j' [->|Hj']%elem_of_cons Hl; [lia|]. specialize (Hlt j' Hj'). lia.
  - specialize (IH Hjs Hs). destruct (differingBit b l i js).
    + destruct IH as (k & Hk & ? & ? & Hf). exists k. split_and!; [by right | done | done |].
      intros j' [->|Hj']%elem_of_cons Hl; [done | by apply Hf].
    + intros k [->|Hk]%elem_of_cons; [done | by apply IH].
Qed.

(** The bits of a byte *)
Lemma byte_bits : let js := [0; 1; 2; 3; 4; 5; 6; 7] in
  Forall (λ j, 0 ≤ j < 8) js ∧ StronglySorted Z.lt js ∧ ∀ j, j ∈ js ↔ 0 ≤ j < 8.
Proof.
  cbn. split; [repeat constructor; lia|]. split; [repeat constructor; lia|].
  intros j. rewrite !elem_of_cons, elem_of_nil. lia.
Qed.

(** A bit is passed over: at byte [i] of the two messages and bit [j] of the byte *)
Definition passed (data last : bytes) (i : nat) (j : Z) : Prop :=
  ∀ b l, data !! i = Some b → last !! i = Some l → ¬ suspicious b l j.

(** The first byte decides, or the search goes on behind it. *)
Lemma findDisruptedBit_cons b data last k l res :
  last !! k = Some l → findDisruptedBit (b :: data) last (Z.of_nat k) = Ret res →
  (findDisruptedBit data last (Z.of_nat (S k)) = Ret res ∧ ∀ j, 0 ≤ j < 8 → ¬ suspicious b l j)
  ∨ ∃ j, 0 ≤ j < 8 ∧ res = Some (Z.of_nat k * 8 + (7 - j)) ∧ suspicious b l j
         ∧ ∀ j', 0 ≤ j' < j → ¬ suspicious b l j'.
Proof.
  intros Hl H. cbn [findDisruptedBit] in H. go_inv H. apply index_ret in E as [_ E].
  rewrite Nat2Z.id, Hl in E. injection E as <-. destruct byte_bits as (Hr & Hs & Hin).
  pose proof (differingBit_spec b l (Z.of_nat k) _ Hr Hs) as Hspec.
  replace (Z.of_nat (S k)) with (Z.of_nat k + 1) by lia.
  destruct (Z.eqb_spec b l) as [->|Hne]; cbn [negb] in H; [left; split; [done|]; by intros j _ [? _]|].
  destruct (differingBit b l (Z.of_nat k) _) as [pos|].
  - right. destruct Hspec as (j & Hj & Hsu & -> & Hf). injection H as <-. exists j.
    apply Hin in Hj. split_and!; try done; try lia. intros j' Hj'. apply Hf; [apply Hin; lia | lia].
  - left. split; [done|]. intros j Hj. by apply Hspec, Hin.
Qed.

Lemma findDisruptedBit_spec last res : ∀ data k, findDisruptedBit data last (Z.of_nat k) = Ret res →
  match res with
  | Some pos => ∃ i b l j, 0 ≤ j < 8 ∧ data !! i = Some b ∧ last !! (k + i)%nat = Some l
      ∧ pos = Z.of_nat (k + i) * 8 + (7 - j) ∧ suspicious b l j
      ∧ ∀ i' j', 0 ≤ j' < 8 → (i' < i)%nat ∨ (i' = i ∧ j' < j) → passed data (drop k last) i' j'
  | None => ∀ i j, 0 ≤ j < 8 → passed data (drop k last) i j
  end.
Proof.
  induction data as [|b data IH]; intros k H; [injection H as <-; done|].
  assert (∃ l, last !! k = Some l) as [l Hl].
  { cbn [findDisruptedBit] in H. go_inv H. apply index_ret in E as [_ E]. rewrite Nat2Z.id in E. by exists a. }
  assert (∀ i j, passed data (drop (S k) last) i j → passed (b :: data) (drop k last) (S i) j) as Hup.
  { intros i j Hp b' l' Hb Hl'. rewrite lookup_drop in Hl'. apply (Hp b' l'); [done|].
    rewrite lookup_drop. by replace (S k + i)%nat with (k + S i)%nat by lia. }
  assert (∀ j, ¬ suspicious b l j → passed (b :: data) (drop k last) 0 j) as H0.
  { intros j Hj b' l' [= <-] Hl'. rewrite lookup_drop, Nat.add_0_r, Hl in Hl'. by injection Hl' as <-. }
  destruct (findDisruptedBit_cons b data last k l res Hl H) as [[H' Hno]|(j & Hj & -> & Hsu & Hf)].
  - specialize (IH (S k) H'). destruct res as [pos|].
    + destruct IH as (i & b' & l' & j & Hj & Hb & Hl' & Hpos & Hsu & Hf). exists (S i), b', l', j.
      rewrite Nat.add_succ_r. split_and!; try done; try lia.
      intros [|i'] j' Hj' Hlt; [by apply H0, Hno | apply Hup, Hf; [done | lia]].
    + intros [|i] j Hj; [by apply H0, Hno | by apply Hup, IH].
  - exists 0%nat, b, l, j. rewrite Nat.add_0_r. split_and!; try done; try lia.
    intros i' j' Hj' [?|[-> ?]]; [lia|]. apply H0, Hf. lia.
Qed.

(** C35: When a slot owner compares the message the relay retransmitted with the
    one it sent, it goes through the bytes in order and through the bits of a byte
    from the lowest, and blames the first bit that differs; only a 1 that became a
    0 in the lowest bit of a byte is passed over.  The position it blames counts
    the bits of a byte from the highest.  If it blames none, the messages do not
    differ anywhere else. *)
Theorem disrupted_bit_differs data last res :
  findDisruptedBit data last 0 = Ret res →
  match res with
  | Some pos => ∃ i b l j, 0 ≤ j < 8 ∧ data !! i = Some b ∧ last !! i = Some l
      ∧ pos = Z.of_nat i * 8 + (7 - j)
      ∧ Z.testbit b j ≠ Z.testbit l j ∧ ¬ (j = 0 ∧ Z.testbit l j = true)
      ∧ ∀ i' b' l' j', data !! i' = Some b' → last !! i' = Some l' → 0 ≤ j' < 8 →
          (i' < i)%nat ∨ (i' = i ∧ j' < j) →
          Z.testbit b' j' = Z.testbit l' j' ∨ (j' = 0 ∧ Z.testbit l' j' = true)
  | None => ∀ i b l j, data !! i = Some b → last !! i = Some l → 0 ≤ j < 8 →
      Z.testbit b j = Z.testbit l j ∨ (j = 0 ∧ Z.testbit l j = true)
  end.
Proof.
  intros H. pose proof (findDisruptedBit_spec last res data 0 H) as Hs. rewrite drop_0 in Hs.
  assert (∀ b l j, ¬ suspicious b l j → Z.testbit b j = Z.testbit l j ∨ (j = 0 ∧ Z.testbit l j = true)) as Hno.
  { intros b l j. unfold suspicious. destruct (Z.testbit b j), (Z.testbit l j), (Z.eq_dec j 0); naive_solver. }
  destruct res as [pos|].
  - destruct Hs as (i & b & l & j & Hj & Hb & Hl & -> & [Hd Hn] & Hf). exists i, b, l, j.
    split_and!; try done; try lia. intros i' b' l' j' Hb' Hl' Hj' Hlt. by apply Hno, (Hf i' j').
  - intros i b l j Hb Hl Hj. by apply Hno, (Hs i j).
Qed.

(** ** A concrete client with two trustees *)

Module ClientDemo.
Import ToySuite.
#[local] Existing Instance suite.

Instance net : Network suite := {| net_send := λ _ _ _, None |}.
Instance proofs : ProofSystem suite := {|
  HashProve := λ _ _ _ _ _ _, Ok []; HashVerify := λ _ _ _ _, true |}.

Definition inputs : @clientInputs suite :=
  @mkClientInputs suite 0 0 0 (λ _, 0) 0 ([1], 0) [1] [2] (fp_of 9) (Err "") (Err "") 0 (Err "").
Definition dummy : PriFiLibClientInstance suite :=
  mkClientInstance "" (@mkClientState suite None [] None false [] 0 [] 0 0 None None 0
    (mkLatencyTests false 0 0 []) 0 "" 0 0 0 (fp_of 0) (fp_of 0) [] [] false None
    (mkReplayer false "" "" [] 0 0) false 0 false None false false 0 ∅) (mkStateMachine "" "" []).
Definition start : PriFiLibClientInstance suite :=
  match NewClient (fp_of 7 : @Scalar suite) 0 0 false true [] false "" with
  | Ret p => p | Crash _ => dummy end.

Definition params : message suite :=
  MParameters ((Add (Add (Add (Add newParams "NTrustees" (PInt 2)) "NClients" (PInt 2))
    "PayloadSize" (PInt 4)) "NextFreeClientID" (PInt 1))
    <| TrusteesPks := [Some (fp_of 11); Some (fp_of 22)] |>).
(** a shuffle without a base: it cannot verify *)
Definition badShuffle : REL_CLI_TELL_EPH_PKS_AND_TRUSTEES_SIG suite := @mkTellEphPks suite None None [].
Definition round (r : Z) : message suite := MDownstream (mkDownstream r 0 [] [5; 6] false false).

Definition receive (msg : message suite) (w : PriFiLibClientInstance suite * list (event suite)) :=
  match c_ReceivedMessage inputs msg w with Ret (_, w') => w' | Crash _ => w end.

Lemma client_receive_step msg w :
  cnormal w.1 msg → returns (c_ReceivedMessage inputs msg w) = true → cstep w (receive msg w).
Proof.
  intros Hn H. unfold receive. destruct w as [p tr].
  destruct (c_ReceivedMessage inputs msg (p, tr)) as [[r [p' tr']]|] eqn:E; [|done].
  by eapply cstep_receive.
Qed.

Definition w1 := receive params (start, []).
Definition w2 := receive (MTellEphPks badShuffle) w1.
Definition w3 := receive (round 1) w2.
Definition w4 := receive (round 4) w3.
Definition w5 := receive (round 2) w4.

Lemma w5_reached : creach (start, []) w5.
Proof.
  apply (rtc_l _ _ w1).
  { refine (client_receive_step params (start, []) _ _); [by left | vm_compute; reflexivity]. }
  apply (rtc_l _ _ w2).
  { refine (client_receive_step (MTellEphPks badShuffle) w1 _ _); [done | vm_compute; reflexivity]. }
  apply (rtc_l _ _ w3).
  { refine (client_receive_step (round 1) w2 _ _); [done | vm_compute; reflexivity]. }
  apply (rtc_l _ _ w4).
  { refine (client_receive_step (round 4) w3 _ _); [done | vm_compute; reflexivity]. }
  apply rtc_once. refine (client_receive_step (round 2) w4 _ _); [done | vm_compute; reflexivity].
Qed.

Lemma client_answers_once_witness :
  upRounds w5.2 = [0; 1; 4] ∧ StronglySorted Z.lt (upRounds w5.2).
Proof.
  split; [vm_compute; reflexivity|].
  apply (@client_answers_once suite net proofs (fp_of 7) 0 0 false true [] false "" start w5).
  - reflexivity.
  - exact w5_reached.
Defined.

Lemma disrupted_bit_differs_witness :
  findDisruptedBit [7; 9; 3] [7; 1; 3] 0 = Ret (Some 12) ∧
  ∃ i b l j, 0 ≤ j < 8 ∧ [7; 9; 3] !! i = Some b ∧ [7; 1; 3] !! i = Some l
    ∧ 12 = Z.of_nat i * 8 + (7 - j) ∧ Z.testbit b j ≠ Z.testbit l j.
Proof.
  split; [reflexivity|].
  destruct (disrupted_bit_differs [7; 9; 3] [7; 1; 3] (Some 12) eq_refl) as (i & b & l & j & H1 & H2 & H3 & H4 & H5 & _).
  by exists i, b, l, j.
Defined.

Lemma client_ignores_bad_shuffle_witness :
  ∃ p' tr', Received_REL_CLI_TELL_EPH_PKS badShuffle w1 = Ret (Ok tt, (p', tr'))
  ∧ currentState (c_stateMachine p') = "READY" ∧ c_MySlot (clientState p') = -1
  ∧ upRounds tr' = [0].
Proof.
  destruct (Received_REL_CLI_TELL_EPH_PKS badShuffle w1) as [[r [p' tr']]|c] eqn:E.
  - rewrite (surjective_pairing w1) in E.
    destruct (client_ignores_bad_shuffle badShuffle w1.1 w1.2 r p' tr'
      "Can't verify without ephemeral public keys") as (-> & Hc & Hs & _ & Hu).
    + vm_compute. reflexivity.
    + vm_compute. reflexivity.
    + vm_compute. reflexivity.
    + exact E.
    + exists p', tr'. split; [done|]. split; [exact Hc|]. split; [exact Hs|]. rewrite Hu.
      vm_compute. reflexivity.
  - exfalso. apply (f_equal returns) in E. vm_compute in E. discriminate E.
Defined.
End ClientDemo.
