(* ===== verification/ClientCells.v ===== *)
(** * The cells of a client

    Runs of a client with the messages it received.  Every cell a client sends
    after the setup is one its DC-net entity encodes for the round of a
    downstream message it received: a DC-net cell, as the owner of the slot or
    not according to that message, or an answer to a request for the open/closed
    slots. *)

From Stdlib Require Import Sorted.
From S2P Require Import Prelude Bytes Crypto DCNetCipher Equivocation DCNet DCNetRound DCNetSession BitMask.
From S2P Require Import Messages StateMachine Measurements NeffShuffle Network Trustee Client ClientSpec.

Open Scope Z_scope.

Section cells.
Context {CS : CryptoSuite} {CL : CryptoLaws CS} `{!Network CS} `{!ProofSystem CS}.
Abbreviation cinst := (PriFiLibClientInstance CS).
Abbreviation ctrace := (list (event CS)).

(** The messages that carry a cell *)
Definition up_message (e : event CS) : option (message CS) :=
  match e with
  | Sent _ ((MUpstream _ | MOpenClosed _) as m) | SendFailed _ ((MUpstream _ | MOpenClosed _) as m) => Some m
  | _ => None
  end.
Definition ups (tr : ctrace) : list (message CS) := omap up_message tr.

Definition roundOf (m : message CS) : Z :=
  match m with MUpstream m => up_RoundID m | MOpenClosed m => oc_RoundID m | _ => -1 end.

Lemma ups_app tr tr' : ups (tr ++ tr') = ups tr ++ ups tr'.
Proof. apply omap_app. Qed.

Lemma upRounds_ups tr : upRounds tr = roundOf <$> ups tr.
Proof.
  induction tr as [|e tr IH]; [done|]. unfold ups in *. rewrite upRounds_cons, IH. cbn.
  destruct e as [d m|d m| | | | | | |]; try done; by destruct m.
Qed.

Lemma ups_quiet {A} (m : handler cinst A) s tr a s' tr' :
  emits no_up m → m (s, tr) = Ret (a, (s', tr')) → ups tr' = ups tr.
Proof.
  intros He H. apply He in H as (new & -> & HF). rewrite ups_app.
  assert (ups new = []) as ->; [|by rewrite app_nil_r].
  assert (roundOf <$> ups new = []) as Hn.
  { rewrite <- upRounds_ups. induction HF as [|e new Hne _ IH]; [done|]. cbn. by rewrite Hne. }
  by destruct (ups new).
Qed.

(** Two states of one entity. *)
Definition alike (e d : DCNetEntity CS) : Prop := synced e ∧ keeps e d.

Lemma alike_refl e : synced e → alike e e.
Proof. intros H. split; [done|]. by split_and!. Qed.

Lemma alike_trans a b c : alike a b → alike b c → alike a c.
Proof.
  intros [Ha (_ & H1 & H2 & H3 & H4 & H5)] [_ (Hc & H6 & H7 & H8 & H9 & H10)]. split; [done|].
  split_and!; congruence || done.
Qed.

Lemma encode_alike e r owner payload cell plain e' :
  synced e → 0 ≤ r < MaxInt32 → EncodeForRound e r owner payload = Ret (cell, plain, e') → alike e e'.
Proof. intros He Hr H. split; [done|]. by apply (EncodeForRound_keeps e r owner payload cell plain e'). Qed.

(** The keys of a client *)
Definition ownKeys (p : cinst) : Scalar * Point * option Scalar :=
  let s := clientState p in (c_privateKey s, c_PublicKey s, c_ephemeralPrivateKey s).

(** The part of a client that decides its cells, and with the round. *)
Definition cellPart (p : cinst) : Z * Z * option (DCNetEntity CS) * bool * (Scalar * Point * option Scalar) :=
  let s := clientState p in (c_ID s, c_MySlot s, c_DCNet s, c_ForceDisruptionSinceRound3 s, ownKeys p).
Definition cellState (p : cinst) := (cellPart p, c_RoundNo (clientState p)).

Lemma cellState_inv p p' : cellState p' = cellState p →
  cellPart p' = cellPart p ∧ c_RoundNo (clientState p') = c_RoundNo (clientState p).
Proof. intros H. split; [exact (f_equal fst H) | exact (f_equal snd H)]. Qed.

Lemma cellPart_inv p p' : cellPart p' = cellPart p →
  c_ID (clientState p') = c_ID (clientState p) ∧ c_MySlot (clientState p') = c_MySlot (clientState p)
  ∧ c_DCNet (clientState p') = c_DCNet (clientState p)
  ∧ c_ForceDisruptionSinceRound3 (clientState p') = c_ForceDisruptionSinceRound3 (clientState p)
  ∧ ownKeys p' = ownKeys p.
Proof.
  unfold cellPart, ownKeys. cbn zeta. intros H. injection H as H1 H2 H3 H4 H5 H6 H7. split_and!; congruence.
Qed.

Definition unseen {A} (m : handler cinst A) : Prop := emits no_up m ∧ keeps_proj cellState m.

Lemma unseen_ret {A} (a : A) : unseen (mret a).
Proof. split; [apply emits_ret | apply keeps_ret]. Qed.

Lemma unseen_set f : (∀ p : cinst, cellState (p <| clientState := f (clientState p) |>) = cellState p) →
  unseen (setC f).
Proof. intros Hf. split; [apply emits_modify | by apply keeps_modify]. Qed.

Lemma unseen_run {A} (m : handler cinst A) p tr a p' tr' :
  unseen m → m (p, tr) = Ret (a, (p', tr')) → cellState p' = cellState p ∧ ups tr' = ups tr.
Proof. intros [He Hk] H. split; [by eapply Hk | by eapply ups_quiet]. Qed.

Lemma ownerContent_unseen ci n : unseen (ownerContent ci n).
Proof.
  split; [apply ownerContent_quiet|]. unfold ownerContent, getC, setC. solve_keeps.
  match goal with |- keeps_proj _ (foldr _ _ ?l) => induction l as [|x l IH]; cbn; [apply keeps_ret|] end.
  apply keeps_bind; [apply keeps_emit | done].
Qed.

Lemma handleData_unseen ci msg : unseen (handleData ci msg).
Proof.
  split; [apply handleData_quiet|]. unfold handleData, getC. solve_keeps.
  match goal with |- keeps_proj _ (foldr ?g _ ?l) => induction l as [|[[]] l IH]; cbn [foldr] end;
    [apply keeps_ret|]. apply keeps_bind; [apply keeps_emit | done].
Qed.

Lemma handlePossibleDisruption_unseen msg : unseen (handlePossibleDisruption msg).
Proof.
  split; [apply handlePossibleDisruption_quiet|]. unfold handlePossibleDisruption, getC, setC. solve_keeps.
Qed.

Lemma WantsToTransmit_unseen ci : unseen (WantsToTransmit ci).
Proof. split; [apply WantsToTransmit_quiet|]. unfold WantsToTransmit, getC, setC. solve_keeps. Qed.

Lemma newLatencyTest_unseen ci : unseen (setC (newLatencyTest ci)).
Proof. apply unseen_set. intros p. unfold newLatencyTest. by destruct (_ && _). Qed.

(** ** What is sent for a downstream message *)

(** [u] answers the message [md]: a cell of the client's entity, or an answer to
    the request for the open/closed slots.  (A client told to disrupt for a test
    sends something else.) *)
Definition answer (md : REL_CLI_DOWNSTREAM_DATA) (p : cinst) (u : message CS) : Prop :=
  let s := clientState p in
  let owner := dd_OwnershipID md =? c_MySlot s in
  roundOf u = dd_RoundID md ∧ 0 ≤ dd_RoundID md < MaxInt32 ∧
  match u with
  | MUpstream m =>
    up_ClientID m = c_ID s ∧ dd_FlagOpenClosedRequest md = false
    ∧ (c_ForceDisruptionSinceRound3 s = false →
       ∃ d e payload cell plain e', c_DCNet s = Some d ∧ alike e d
       ∧ EncodeForRound e (dd_RoundID md) owner payload = Ret (cell, plain, e')
       ∧ up_Data m = Some cell ∧ (owner = false → payload = None))
  | MOpenClosed m => oc_ClientID m = c_ID s ∧ dd_FlagOpenClosedRequest md = true
  | _ => False
  end.

Definition synced_client (p : cinst) : Prop := ∀ d, c_DCNet (clientState p) = Some d → synced d.

Record answered (md : REL_CLI_DOWNSTREAM_DATA) (p : cinst) (tr : ctrace) (p' : cinst) (tr' : ctrace) : Prop := {
  an_id : c_ID (clientState p') = c_ID (clientState p);
  an_slot : c_MySlot (clientState p') = c_MySlot (clientState p);
  an_force : c_ForceDisruptionSinceRound3 (clientState p') = c_ForceDisruptionSinceRound3 (clientState p);
  an_entity : option_Forall2 alike (c_DCNet (clientState p)) (c_DCNet (clientState p'));
  an_keys : ownKeys p' = ownKeys p;
  an_ups : ∃ k, ups tr' = ups tr ++ k ∧ Forall (answer md p) k
}.

Lemma answer_same md p p1 u : cellPart p1 = cellPart p → answer md p1 u → answer md p u.
Proof. unfold answer. intros (H1 & H2 & H4 & H5 & H6)%cellPart_inv. by rewrite H1, H2, H4, H5. Qed.

Lemma answered_from md p tr p1 tr1 p' tr' :
  cellPart p1 = cellPart p → ups tr1 = ups tr → answered md p1 tr1 p' tr' → answered md p tr p' tr'.
Proof.
  intros E Hu [H1 H2 H3 H4 H5 (k & Hk & Hf)].
  assert (Forall (answer md p) k) as Hf' by (eapply Forall_impl; [exact Hf|]; intros u; by apply answer_same).
  apply cellPart_inv in E as (E1 & E2 & E4 & E5 & E6). split; try congruence.
  exists k. by rewrite <- Hu.
Qed.

Lemma answered_after {A} md (m : handler cinst A) p tr a p1 tr1 p' tr' :
  unseen m → m (p, tr) = Ret (a, (p1, tr1)) → answered md p1 tr1 p' tr' → answered md p tr p' tr'.
Proof.
  intros Hm H. destruct (unseen_run _ _ _ _ _ _ Hm H) as [[E _]%cellState_inv Hu]. by apply answered_from.
Qed.

Lemma synced_alike p : synced_client p → option_Forall2 alike (c_DCNet (clientState p)) (c_DCNet (clientState p)).
Proof. intros H. unfold synced_client in H. destruct (c_DCNet _) as [d|]; constructor. by apply alike_refl, H. Qed.

Lemma synced_same p p1 : cellPart p1 = cellPart p → synced_client p → synced_client p1.
Proof. unfold synced_client. intros (_ & _ & H & _)%cellPart_inv. by rewrite H. Qed.

Lemma answered_unseen {A} md (m : handler cinst A) p tr a p' tr' :
  synced_client p → unseen m → m (p, tr) = Ret (a, (p', tr')) → answered md p tr p' tr'.
Proof.
  intros Hs Hm H. eapply answered_after; [exact Hm | exact H |].
  destruct (unseen_run _ _ _ _ _ _ Hm H) as [[E _]%cellState_inv _].
  split; try done; [by apply synced_alike, (synced_same p)|]. exists []. by rewrite app_nil_r.
Qed.

(** A message handed to the network. *)
Lemma ups_sent tr m :
  ups (tr ++ match net_send tr ToRelay m with
             | None => [Sent ToRelay m]
             | Some err => [SendFailed ToRelay m; NetworkError err] end)
  = ups tr ++ match m with MUpstream _ | MOpenClosed _ => [m] | _ => [] end.
Proof. rewrite ups_app. f_equal. destruct (net_send _ _ _); by destruct m. Qed.

(** The client stands at the round of the message. *)
Record at_message (md : REL_CLI_DOWNSTREAM_DATA) (p : cinst) : Prop := {
  am_synced : synced_client p;
  am_round : c_RoundNo (clientState p) = dd_RoundID md;
  am_range : 0 ≤ dd_RoundID md < MaxInt32
}.

Lemma at_message_same md p p1 : cellState p1 = cellState p → at_message md p → at_message md p1.
Proof.
  intros [E Er]%cellState_inv [H1 H2 H3]. split; [by apply (synced_same p)| |done]. by rewrite Er.
Qed.

Lemma append_nil_None : append_nil None None = None.
Proof. done. Qed.

Lemma encodeAndSend_answered md content p tr r p' tr' :
  at_message md p → dd_FlagOpenClosedRequest md = false →
  let owner := dd_OwnershipID md =? c_MySlot (clientState p) in
  (owner = false → content = None) →
  encodeAndSend owner content (p, tr) = Ret (r, (p', tr')) → answered md p tr p' tr'.
Proof.
  intros [Hsy Hr Hrange] Hoc owner Hcont H. unfold encodeAndSend, getC, setC, SendToRelayWithLog in H.
  h_step H. destruct (c_DCNet (clientState p)) as [d|] eqn:Hd; [|by h_run H].
  set (payload := append_nil (if _ && owner then _ else None) content) in H.
  assert (owner = false → payload = None) as Hpay.
  { intros E. unfold payload. rewrite E, andb_false_r. by rewrite Hcont. }
  h_go. match goal with E : EncodeForRound d _ owner payload = Ret (?c, ?pl, ?d') |- _ =>
    rename E into Henc; rewrite Hr in Henc end.
  pose proof (encode_alike _ _ _ _ _ _ _ (Hsy d Hd) Hrange Henc) as Hal.
  assert (cellState s = cellState (p <| clientState := (clientState p) <| c_DCNet := Some d0 |> |>)
    ∧ tr0 = tr) as [Es ->] by (match type of E with (if ?b then _ else _) _ = _ => destruct b end; by h_run E).
  assert (cellState s0 = cellState s ∧ tr1 = tr
    ∧ (c_ForceDisruptionSinceRound3 (clientState p) = false → a0 = l)) as (Es0 & -> & Ha).
  { match type of E1 with (if ?b then _ else _) _ = _ => destruct b eqn:Eb end; [|by h_run E1].
    assert (c_ForceDisruptionSinceRound3 (clientState p) = true) as Ef
      by (destruct (c_ForceDisruptionSinceRound3 (clientState p)); [done|]; by rewrite andb_false_r in Eb).
    rewrite Ef. clear E Henc. destruct (c_AllreadyDisrupted _); h_run E1; [|done].
    match goal with E : (if ?b then _ else _) _ = _ |- _ => destruct b; by h_run E end. }
  rewrite Es in Es0. apply cellState_inv in Es0 as [(H1 & H2 & H4 & H5 & H6)%cellPart_inv _].
  split; cbn in *; try done; [by rewrite H4, Hd; constructor|].
  eexists. split; [apply ups_sent|]. apply Forall_singleton. split; [done|]. split; [done|]. split; [done|].
  split; [done|]. intros Hf.
  exists d, d, payload, l, o, d0. split_and!; try done; [by apply alike_refl, Hsy | by rewrite Ha].
Qed.

Lemma rememberContent_cells (p : cinst) content c s' :
  rememberContent (clientState p) content = Ret (c, s') →
  cellState (p <| clientState := s' |>) = cellState p.
Proof.
  unfold rememberContent. intros H. destruct content as [x|].
  - go_inv H. by injection H as <- <-.
  - destruct (c_DCNet (clientState p)) eqn:E; [|done]. go_inv H. injection H as <- <-.
    unfold cellState, cellPart. cbn. by rewrite E.
Qed.

Lemma answered_silent md p tr p' tr' :
  synced_client p → cellPart p' = cellPart p → ups tr' = ups tr → answered md p tr p' tr'.
Proof.
  intros Hs E Hu. pose proof (synced_alike p Hs) as Ha. apply cellPart_inv in E as (E1 & E2 & E4 & E5 & E6).
  split; try done; [by rewrite E4|]. exists []. by rewrite app_nil_r.
Qed.

Lemma SendUpstreamData_answered ci md p tr r p' tr' :
  at_message md p → dd_FlagOpenClosedRequest md = false →
  SendUpstreamData ci (dd_OwnershipID md) (p, tr) = Ret (r, (p', tr')) → answered md p tr p' tr'.
Proof.
  intros Hat Hoc H. unfold SendUpstreamData in H.
  apply handler_bind_inv in H as (s & [p1 tr1] & E & H). unfold getC in E. h_run E.
  set (owner := dd_OwnershipID md =? c_MySlot (clientState p)) in H.
  apply handler_bind_inv in H as (u & [p2 tr2] & E & H).
  match type of E with ?m _ = _ => assert (unseen m) as Hu1
    by (destruct owner; [by apply unseen_set | apply unseen_ret]) end.
  eapply answered_after; [exact Hu1 | exact E |]. apply unseen_run in E as [E2 _]; [|done].
  pose proof (at_message_same _ _ _ E2 Hat) as Hat2. destruct (_ && (_ <=? _)); [by h_run H|].
  destruct (_ && (_ <=? _)); [by h_run H|].
  apply handler_bind_inv in H as (content & [p3 tr3] & E & H).
  match type of E with ?m _ = _ => assert (unseen m) as Hu2
    by (destruct owner; [apply ownerContent_unseen | apply unseen_ret]) end.
  assert (owner = false → content = None) as Hcont by (intros ->; by h_run E).
  eapply answered_after; [exact Hu2 | exact E |]. apply unseen_run in E as [E3 _]; [|done].
  pose proof (at_message_same _ _ _ E3 Hat2) as Hat3.
  assert (owner = (dd_OwnershipID md =? c_MySlot (clientState p3))) as Ho.
  { assert (cellState p3 = cellState p) as E' by congruence.
    apply cellState_inv in E' as [(_ & E' & _)%cellPart_inv _]. unfold owner. by rewrite E'. }
  unfold getC in H. h_step H. rewrite Ho in H, Hcont.
  destruct (_ && _) eqn:Eown; [|by eapply encodeAndSend_answered].
  apply andb_prop in Eown as [_ Eown].
  destruct (negb (c_DisruptionWrongBitPosition _ =? -1)).
  - unfold SendToRelayWithLog in H. h_run H. apply answered_silent; [apply Hat3 | done|].
    by rewrite ups_sent, app_nil_r.
  - apply handler_bind_inv in H as (c & [p4 tr4] & E & H).
    assert (cellState p4 = cellState p3 ∧ tr4 = tr3) as [E4 ->].
    { destruct (negb _); [|by h_run E]. unfold setC in E. h_run E. split; [|done].
      by eapply rememberContent_cells. }
    assert (c_MySlot (clientState p4) = c_MySlot (clientState p3)) as E5
      by (by apply cellState_inv in E4 as [(_ & ? & _)%cellPart_inv _]). rewrite <- E5 in H, Eown.
    eapply (answered_from _ _ _ p4 tr3); [by apply cellState_inv|done|].
    eapply encodeAndSend_answered; [by eapply at_message_same|done| |exact H]. congruence.
Qed.

Lemma answerOpenClosed_answered ci md p tr r p' tr' :
  at_message md p → dd_FlagOpenClosedRequest md = true →
  answerOpenClosed ci (p, tr) = Ret (r, (p', tr')) → answered md p tr p' tr'.
Proof.
  intros Hat Hoc H. unfold answerOpenClosed in H.
  apply handler_bind_inv in H as (s & [p1 tr1] & E & H). unfold getC in E. h_run E.
  apply handler_bind_inv in H as (w & [p2 tr2] & E & H).
  eapply answered_after; [apply WantsToTransmit_unseen | exact E |].
  apply unseen_run in E as [E2 _]; [|apply WantsToTransmit_unseen].
  destruct (at_message_same _ _ _ E2 Hat) as [Hsy Hr Hrange].
  unfold getC, setC, SendToRelayWithLog in H. h_step H. h_step H.
  destruct (c_DCNet (clientState p2)) as [d|] eqn:Hd; [|by h_run H]. h_run H.
  match goal with E : EncodeForRound d _ _ _ = Ret _ |- _ => rewrite Hr in E; apply encode_alike in E as Hal end;
    [|by apply Hsy|done].
  split; cbn; try done; [by rewrite Hd; constructor|].
  eexists. split; [apply ups_sent|]. by apply Forall_singleton.
Qed.

Lemma ProcessDownStreamData_answered ci md p tr b p' tr' :
  at_message md p → dd_FlagResync md = false →
  ProcessDownStreamData ci md (p, tr) = Ret (b, (p', tr')) → answered md p tr p' tr'.
Proof.
  intros Hat Hres H. unfold ProcessDownStreamData in H. rewrite Hres in H.
  apply handler_bind_inv in H as (s & [p0 t0] & E & H). unfold getC in E. h_run E.
  apply handler_bind_inv in H as (u1 & [p1 t1] & E1 & H).
  apply handler_bind_inv in H as (u2 & [p2 t2] & E2 & H).
  apply handler_bind_inv in H as (u3 & [p3 t3] & E3 & H).
  apply handler_bind_inv in H as (u4 & [p4 t4] & E4 & H).
  match type of E1 with ?m _ = _ => assert (unseen m) as Hu1
    by (destruct (c_DisruptionProtectionEnabled _); [apply handlePossibleDisruption_unseen | apply unseen_ret]) end.
  assert (answered md p tr p4 t4) as [H1 H2 H3 H4 H5 H6].
  { eapply answered_after; [exact Hu1 | exact E1 |]. apply unseen_run in E1 as [F1 _]; [|done].
    eapply answered_after; [apply handleData_unseen | exact E2 |].
    apply unseen_run in E2 as [F2 _]; [|apply handleData_unseen].
    eapply answered_after; [apply newLatencyTest_unseen | exact E3 |].
    apply unseen_run in E3 as [F3 _]; [|apply newLatencyTest_unseen].
    assert (at_message md p3) as Hat3 by (by apply (at_message_same md p); [congruence|]).
    destruct (dd_FlagOpenClosedRequest md) eqn:Hoc; [by eapply answerOpenClosed_answered|].
    h_step E4. h_step E4. by eapply SendUpstreamData_answered. }
  clear E1 E2 E3 E4. unfold setC in H. h_run H. split; try done.
  by rewrite ups_app, app_nil_r.
Qed.

Lemma downstream_answered fuel ci md p tr r p' tr' :
  c_BufferedRoundData (clientState p) = ∅ → synced_client p → 0 ≤ c_RoundNo (clientState p) →
  dd_FlagResync md = false → dd_RoundID md < MaxInt32 →
  Received_REL_CLI_DOWNSTREAM_DATA fuel ci md (p, tr) = Ret (r, (p', tr')) → answered md p tr p' tr'.
Proof.
  intros Hb Hsy H0 Hres Hmax H. destruct fuel; cbn [Received_REL_CLI_DOWNSTREAM_DATA] in H;
    (apply handler_bind_inv in H as (u & [p1 t1] & E & H);
     assert (cellState p1 = cellState p ∧ c_BufferedRoundData (clientState p1) = ∅ ∧ t1 = tr)
       as ([E1 Er1]%cellState_inv & Hb1 & ->) by (destruct (_ =? 1); unfold setC in E; by h_run E);
     clear E; unfold getC, setC in H; h_step H;
     destruct (Z.ltb_spec (dd_RoundID md) (c_RoundNo (clientState p1))) as [Hlt|Hge];
     [h_run H; by apply answered_silent|];
     apply handler_bind_inv in H as (u1 & [p2 t2] & E & H);
     assert (cellPart p2 = cellPart p1 ∧ c_RoundNo (clientState p2) = dd_RoundID md
       ∧ c_BufferedRoundData (clientState p2) = ∅ ∧ t2 = tr) as (E2 & Hr2 & Hb2 & ->)
       by (destruct (Z.ltb_spec (c_RoundNo (clientState p1)) (dd_RoundID md)); h_run E;
           cbn; split_and!; congruence || lia || done);
     clear E; apply handler_bind_inv in H as (b & [p3 t3] & E & H);
     assert (c_BufferedRoundData (clientState p3) = ∅) as Hb3
       by (by apply (ProcessDownStreamData_effect _ _ _ _ _ _ _ Hres E));
     assert (p' = p3 ∧ tr' = t3) as [-> ->]
       by (destruct b; cbn [negb] in H; [|by h_run H]; h_step H; rewrite Hb3, lookup_empty in H; by h_run H);
     apply (answered_from _ _ _ p2 tr); [congruence|done|];
     eapply ProcessDownStreamData_answered; [|done|exact E]; split; [|done|lia];
     apply (synced_same p); [congruence|done]).
Qed.

(** ** The setup *)

(** The entity, once there is one, stays in step with its rounds. *)
Definition stays_synced {A} (m : handler cinst A) : Prop :=
  ∀ p tr a p' tr', synced_client p → m (p, tr) = Ret (a, (p', tr')) → synced_client p'.

Lemma stays_bind {A B} (m : handler cinst A) (f : A → handler cinst B) :
  stays_synced m → (∀ a, stays_synced (f a)) → stays_synced (m ≫= f).
Proof.
  intros Hm Hf p tr b p' tr' Hs H. apply handler_bind_inv in H as (a & [p1 t1] & E & H).
  eapply Hf; [|exact H]. by eapply Hm.
Qed.

Lemma stays_keeps {A} (m : handler cinst A) :
  keeps_proj (λ p, c_DCNet (clientState p)) m → stays_synced m.
Proof. intros Hm p tr a p' tr' Hs H d Hd. apply Hm in H. cbn in H. apply Hs. congruence. Qed.

Ltac stays := apply stays_keeps; unfold c_startStop, getC, setC; solve_keeps; done.

Lemma c_ChangeState_synced x : stays_synced (c_ChangeState x).
Proof. intros p tr r p' tr' Hs H. by apply c_ChangeState_effect in H as (sm & -> & _). Qed.

Lemma trustees_pk_synced ci pks : stays_synced (Received_REL_CLI_TELL_TRUSTEES_PK ci pks).
Proof.
  intros p tr r p' tr' Hs H. unfold Received_REL_CLI_TELL_TRUSTEES_PK, getC, setC, SendToRelayWithLog in H.
  destruct (len pks <? 1); [by h_run H|]. h_go.
  use c_ChangeState_effect as (sm & -> & -> & _). intros d. cbn. intros [= <-].
  by eapply NewDCNetEntity_ret_synced; [|eassumption].
Qed.

Lemma c_parameters_synced ci m : stays_synced (c_Received_ALL_ALL_PARAMETERS ci m).
Proof.
  unfold c_Received_ALL_ALL_PARAMETERS. apply stays_bind; [stays|]. intros _. apply stays_bind; [stays|].
  intros s. do 5 (match goal with |- stays_synced (if ?b then _ else _) => destruct b end; [stays|]).
  apply stays_bind; [stays|]. intros _. apply stays_bind; [stays|]. intros s1.
  do 2 (apply stays_bind; [stays|]; intros ?). apply stays_bind; [destruct (c_StartStopReceiveBroadcast _); stays|].
  intros _. apply stays_bind; [stays|]. intros _. apply stays_bind; [stays|]. intros _.
  apply stays_bind; [apply trustees_pk_synced|]. intros _. stays.
Qed.

Lemma firstCell_entity (s : ClientState CS) n data s' :
  firstCell s n = Ret (data, s') → c_DCNet s' = c_DCNet s.
Proof.
  unfold firstCell. intros H. go_inv H. destruct (c_DisruptionProtectionEnabled s).
  - go_inv H. by injection H as <- <-.
  - by injection H as <- <-.
Qed.

Lemma eph_pks_synced m : stays_synced (Received_REL_CLI_TELL_EPH_PKS m).
Proof.
  unfold Received_REL_CLI_TELL_EPH_PKS. apply stays_bind; [stays|]. intros s.
  apply stays_bind; [stays|]. intros res. apply stays_bind; [stays|]. intros _.
  match goal with |- stays_synced (if ?b then _ else _) => destruct b end; [stays|].
  apply stays_bind; [destruct (c_UseUDP s); stays|]. intros _.
  apply stays_bind; [apply c_ChangeState_synced|]. intros _.
  intros p tr r p' tr' Hs H. unfold getC, setC, SendToRelayWithLog in H. h_run H.
  match goal with E : firstCell _ _ = Ret _ |- _ => apply firstCell_entity in E as Hd end.
  destruct (c_DCNet _) as [d|] eqn:Hc in H; [|by h_run H].
  apply handler_bind_inv in H as (x & [p3 t3] & E3 & H). h_run E3.
  match goal with E : EncodeForRound d 0 _ _ = Ret ?x |- _ =>
    destruct x as [[cell plain] d']; apply encode_alike in E as [_ [Hsy _]] end; [|apply Hs; congruence|by split].
  h_run H. match goal with E : (if ?b then _ else _) _ = _ |- _ => destruct b; h_run E end;
    intros d1; cbn; by intros [= <-].
Qed.

(** ** Runs *)

(** The messages of a run without disruption queries *)
Definition no_query (m : message CS) : Prop := match m with MReveal _ => False | _ => True end.

(** A run, with the messages received in it, the last one at the end. *)
Inductive crun (w0 : cinst * ctrace) : list (message CS) → cinst * ctrace → Prop :=
| crun_nil : crun w0 [] w0
| crun_snoc ms ci msg p tr r p' tr' :
    crun w0 ms (p, tr) → cnormal p msg → no_query msg →
    c_ReceivedMessage ci msg (p, tr) = Ret (r, (p', tr')) → crun w0 (ms ++ [msg]) (p', tr')
| crun_queue ms data p tr : crun w0 ms (p, tr) → crun w0 ms (queued data p, tr).

Lemma crun_reach w0 ms w : crun w0 ms w → creach w0 w.
Proof.
  intros H. induction H as [|ms ci msg p tr r p' tr' _ IH Hn _ E|ms data p tr _ IH]; [constructor|..].
  - eapply rtc_r; [exact IH | by eapply cstep_receive].
  - eapply rtc_r; [exact IH | apply cstep_queue].
Qed.

(** Every cell sent after the setup answers a message received. *)
Record cells_inv (ms : list (message CS)) (w : cinst * ctrace) : Prop := {
  cc_synced : synced_client w.1;
  cc_round : currentState (c_stateMachine w.1) = "READY" → 1 ≤ c_RoundNo (clientState w.1);
  cc_ups : ∀ u, u ∈ ups w.2 → 1 ≤ roundOf u →
    ∃ md, (MDownstream md ∈ ms ∨ MDownstreamUDP md ∈ ms) ∧ answer md w.1 u
}.

Lemma answer_mono md p tr p' tr' md' u : answered md' p tr p' tr' → answer md p u → answer md p' u.
Proof.
  intros [H1 H2 H3 H4 _]. unfold answer. rewrite H1, H2, H3. destruct u as [| |m| | | | | | | | | | | | | | | | | | | |]; try done.
  all: cbn zeta; intros (Hr & Hrange & Hid & Hoc & Hc); split; [done|]; split; [done|]; split_and!; try done. intros Hf.
  destruct (Hc Hf) as (d & e & payload & cell & plain & e' & Hd & Hal & Henc).
  rewrite Hd in H4. inversion H4 as [? d' Hal' E1 E2|]; subst.
  exists d', e, payload, cell, plain, e'. split; [done|]. split; [by eapply alike_trans | done].
Qed.

Lemma elem_snoc {A} (x y : A) l : x ∈ l → x ∈ l ++ [y].
Proof. intros H. apply elem_of_app. by left. Qed.

Lemma answered_cells ms msg md p tr p' tr' :
  cells_inv ms (p, tr) → msg = MDownstream md ∨ msg = MDownstreamUDP md → answered md p tr p' tr' →
  (currentState (c_stateMachine p') = "READY" → 1 ≤ c_RoundNo (clientState p')) →
  cells_inv (ms ++ [msg]) (p', tr').
Proof.
  intros [Hs Hr Hu] Hmsg Ha Hr'. cbn [fst snd] in *. split; cbn [fst snd]; [|done|].
  - intros d' Hd'. pose proof (an_entity _ _ _ _ _ Ha) as He. rewrite Hd' in He.
    inversion He as [d ? Hal E1 E2|]. apply Hal.
  - intros u Hin Hrnd. destruct (an_ups _ _ _ _ _ Ha) as (k & Hk & Hf). rewrite Hk in Hin.
    apply elem_of_app in Hin as [Hin|Hin].
    + destruct (Hu u Hin Hrnd) as (md0 & Hm & Hans). exists md0.
      split; [destruct Hm; [left | right]; by apply elem_snoc | by eapply answer_mono].
    + exists md. rewrite Forall_forall in Hf. split; [|by eapply answer_mono, Hf].
      destruct Hmsg as [->| ->]; [left | right]; apply elem_of_app; right; apply list_elem_of_here.
Qed.

(** A handler of the setup, or one that changes nothing of the cells. *)
Lemma setup_cells ms msg (p' : cinst) tr' :
  synced_client p' → Forall (λ r, r < 1) (upRounds tr') →
  (currentState (c_stateMachine p') = "READY" → 1 ≤ c_RoundNo (clientState p')) →
  cells_inv (ms ++ [msg]) (p', tr').
Proof.
  intros Hs Hu Hr. split; cbn [fst snd]; [done..|]. intros u Hin Hrnd. exfalso.
  rewrite upRounds_ups, Forall_fmap, Forall_forall in Hu. specialize (Hu u Hin). cbn in Hu. lia.
Qed.

Lemma same_cells ms msg p tr p' tr' :
  cells_inv ms (p, tr) → cellPart p' = cellPart p → ups tr' = ups tr →
  (currentState (c_stateMachine p') = "READY" → 1 ≤ c_RoundNo (clientState p')) →
  cells_inv (ms ++ [msg]) (p', tr').
Proof.
  intros [Hs Hr Hu] E Eu Hr'. cbn [fst snd] in *. split; cbn [fst snd]; [by apply (synced_same p)|done|].
  rewrite Eu. intros u Hin Hrnd. destruct (Hu u Hin Hrnd) as (md & Hm & Ha). exists md.
  split; [destruct Hm; [left | right]; by apply elem_snoc | by eapply answer_same].
Qed.

Lemma c_secrets_unseen ci m : unseen (c_Received_REL_ALL_REVEAL_SHARED_SECRETS ci m).
Proof.
  split; [apply c_secrets_quiet|].
  unfold c_Received_REL_ALL_REVEAL_SHARED_SECRETS, getC, setC, SendToRelayWithLog. solve_keeps.
Qed.

Lemma cells_same_world ms msg p tr : cells_inv ms (p, tr) → cells_inv (ms ++ [msg]) (p, tr).
Proof. intros HI. eapply same_cells; [exact HI|done..|]. apply HI. Qed.

Lemma cells_downstream ms msg fuel ci md p tr r p' tr' :
  cinv (p, tr) → cells_inv ms (p, tr) → msg = MDownstream md ∨ msg = MDownstreamUDP md →
  currentState (c_stateMachine p) = "READY" →
  dd_FlagResync md = false → - 2147483648 ≤ dd_RoundID md < MaxInt32 →
  Received_REL_CLI_DOWNSTREAM_DATA fuel ci md (p, tr) = Ret (r, (p', tr')) → cells_inv (ms ++ [msg]) (p', tr').
Proof.
  intros HI HC Hmsg Hcur Hres Hid H. destruct (ci_ready _ HI Hcur) as [Hb _]. cbn [fst] in *.
  pose proof (cc_round _ _ HC Hcur) as Hr1. cbn [fst] in Hr1.
  eapply answered_cells; [exact HC | exact Hmsg | |].
  - eapply downstream_answered; [exact Hb | apply HC | lia | exact Hres | lia | exact H].
  - intros _. apply downstream_effect in H as (_ & _ & [(_ & -> & _)|(Hle & -> & _)]); [lia..|done|done|done].
Qed.

Lemma cells_step ms ci msg p tr r p' tr' :
  cinv (p, tr) → cells_inv ms (p, tr) → cnormal p msg → no_query msg →
  c_ReceivedMessage ci msg (p, tr) = Ret (r, (p', tr')) → cells_inv (ms ++ [msg]) (p', tr').
Proof.
  intros HI HC Hn Hq H. pose proof (cells_same_world ms msg p tr HC) as Hsame. unfold c_ReceivedMessage in H.
  apply handler_bind_inv in H as (s & [q t] & E & H). unfold getC in E. h_run E.
  destruct msg; cbn [cnormal no_query] in Hn, Hq; try (by h_run H); try done.
  - apply c_forced_inv in H as [[-> ->]|[Hcur H]]; [done| |done].
    apply c_parameters_synced in H as Hs; [|apply HC]. apply c_parameters_effect in H as (Hu & _ & Hc).
    apply setup_cells; [done| |].
    + rewrite Hu. pose proof (ci_early _ HI (or_introl Hcur)) as He. cbn [snd] in He. by rewrite He.
    + destruct Hc as [->| ->]; [by rewrite Hcur | done].
  - unfold c_Received_ALL_ALL_SHUTDOWN in H. h_step H. h_run H.
    use c_ChangeState_effect as (sm & -> & -> & Hx & _). eapply same_cells; [exact HC|done|done|]. cbn. by rewrite Hx.
  - apply c_guarded_inv in H as [[-> ->]|[Hcur H]]; [done|]. destruct Hn. eapply cells_downstream; [exact HI | exact HC | by left | done..].
  - apply c_guarded_inv in H as [[-> ->]|[Hcur H]]; [done|]. destruct Hn.
    unfold Received_REL_CLI_UDP_DOWNSTREAM_DATA, getC in H. h_step H. eapply cells_downstream; [exact HI | exact HC | by right | done..].
  - apply c_guarded_inv in H as [[-> ->]|[Hcur H]]; [done|].
    apply eph_pks_synced in H as Hs; [|apply HC]. apply eph_pks_effect in H as (_ & _ & Hc).
    pose proof (ci_early _ HI (or_intror Hcur)) as He. cbn [snd] in He. rewrite He in Hc.
    destruct Hc as [[Hc Hu]|(Hc & Hu & HR)]; (apply setup_cells; [done|rewrite Hu; by repeat constructor|]).
    + by rewrite Hc, Hcur.
    + by rewrite HR.
  - apply c_guarded_inv in H as [[-> ->]|[Hcur H]]; [done|].
    apply unseen_run in H as [[E Er]%cellState_inv Hu]; [|apply c_secrets_unseen].
    eapply same_cells; [exact HC|done|done|]. intros _. rewrite Er. by apply (cc_round _ _ HC).
Qed.

Lemma crun_cells s now msNow lat out data replay folder p ms w :
  NewClient s now msNow lat out data replay folder = Ret p → crun (p, []) ms w → cells_inv ms w.
Proof.
  intros Hp Hr. induction Hr as [|ms ci msg q tr r p' tr' Hr IH Hn Hq E|ms d q tr Hr IH].
  - unfold NewClient in Hp. cbn in Hp. injection Hp as <-. split; [done|done|]. intros u Hu. by apply elem_of_nil in Hu.
  - eapply cells_step; [|exact IH|done..]. apply cinv_new in Hp. clear -Hp Hr. apply crun_reach in Hr.
    induction Hr as [|w1 w2 w3 Hstep _ IH]; [done|]. apply IH. by eapply cinv_step.
  - destruct IH. by split.
Qed.
End cells.
