(* ===== verification/Relay.v ===== *)
(** * The relay (prifi-lib/relay)

    State and message handlers of relay.go, disruption.go and timeouts.go, over
    the round manager, the relay's part of the Neff shuffle and the DC-net
    decoder.  Every handler and the body of a timeout hold processingLock from
    start to end, so each is one atomic step. *)

From stdpp Require Import pretty.
From S2P Require Import Prelude Bytes Crypto DCNetCipher Equivocation DCNet BitMask.
From S2P Require Import Messages StateMachine Measurements Statistics RoundManager NeffShuffle.
From S2P Require Import Network Trustee.

Open Scope Z_scope.

(** The capacity of the channel PriorityDataForClients *)
Definition priorityCapacity : nat := 10.

(** [make([]T, n)] *)
Definition make_slice {A} (n : Z) (zero : A) : go (list A) :=
  if n <? 0 then Crash RuntimeError else Ret (replicate (Z.to_nat n) zero).

(** type BlamingData *)
Record BlamingData := mkBlaming {
  bd_RoundID : Z;
  bd_BitPos : Z;
  bd_ClientID : Z;
  bd_ClientBitRevealed : Z;
  bd_TrusteeID : Z;
  bd_TrusteeBitRevealed : Z
}.

#[export] Instance eta_Blaming : Eta BlamingData := λ d,
  mkBlaming (bd_RoundID d) (bd_BitPos d) (bd_ClientID d) (bd_ClientBitRevealed d)
    (bd_TrusteeID d) (bd_TrusteeBitRevealed d).

Section relay.
Context {CS : CryptoSuite} `{!Network CS} `{!Clock CS} `{!ProofSystem CS}.

(** type NodeRepresentation *)
Record NodeRepresentation := mkNode {
  nr_ID : Z;
  nr_Connected : bool;
  nr_PublicKey : option Point;
  nr_EphemeralPublicKey : option Point
}.

(** The zero value of NodeRepresentation *)
Definition noNode : NodeRepresentation := mkNode 0 false None None.

(** type RelayState.  currentState and MessageHistory are never read; the slot
    scheduler has no state; the channels DataForClients and
    PriorityDataForClients are the lists of their buffered values; what goes to
    DataFromDCNet, ExperimentResultChannel and timeoutHandler is in the trace.
    ExperimentResultData holds the names of the reports collected. *)
Record RelayState := mkRelayState {
  r_DCNet : option (DCNetEntity CS);
  r_clients : list NodeRepresentation;
  r_roundManager : BufferableRoundManager;
  r_neffShuffle : NeffShuffleRelay CS;
  r_DataForClients : list bytes;
  r_HashOfLastUpstreamMessage : bytes;
  r_PriorityDataForClients : list bytes;
  r_DataOutputEnabled : bool;
  r_DownstreamCellSize : Z;
  r_Name : string;
  r_nClients : Z;
  r_nClientsPkCollected : Z;
  r_nTrustees : Z;
  r_nTrusteesPkCollected : Z;
  r_privateKey : Scalar;
  r_PublicKey : Point;
  r_ExperimentRoundLimit : Z;
  r_trustees : list NodeRepresentation;
  r_PayloadSize : Z;
  r_UseDummyDataDown : bool;
  r_UseOpenClosedSlots : bool;
  r_UseUDP : bool;
  r_numberOfNonAckedDownstreamPackets : Z;
  r_WindowSize : Z;
  r_ExperimentResultData : list string;
  r_bitrateStatistics : option BitrateStatistics;
  r_schedulesStatistics : SchedulesStatistics;
  r_timeStatistics : gmap string TimeStatistics;
  r_dcNetType : string;
  r_time0 : Z;
  r_pcapLogger : option Pcap.PCAPLog;
  r_DisruptionProtectionEnabled : bool;
  r_OpenClosedSlotsMinDelayBetweenRequests : Z;
  r_OpenClosedSlotsRequestsRoundID : gmap Z bool;
  r_numberOfConsecutiveFailedRounds : Z;
  r_MaxNumberOfConsecutiveFailedRounds : Z;
  r_ProcessingLoopSleepTime : Z;
  r_RoundTimeOut : Z;
  r_TrusteeCacheLowBound : Z;
  r_TrusteeCacheHighBound : Z;
  r_EquivocationProtectionEnabled : bool;
  r_LastMessageOfClients : gmap Z bytes;
  r_BEchoFlags : gmap Z Z;
  r_CiphertextsHistoryTrustees : gmap Z (gmap Z bytes);
  r_CiphertextsHistoryClients : gmap Z (gmap Z bytes);
  r_DisruptionReveal : bool;
  r_clientBitMap : gmap Z (gmap Z Z);
  r_trusteeBitMap : gmap Z (gmap Z Z);
  r_blamingData : BlamingData;
  r_EphemeralPublicKeys : option (list (option Point));
  r_ForceDisruptionSinceRound3 : bool;
  r_VerifiableDCNetKeys : list bytes;
  r_nVkeysCollected : Z
}.

#[export] Instance eta_RelayState : Eta RelayState := λ s,
  mkRelayState (r_DCNet s) (r_clients s) (r_roundManager s) (r_neffShuffle s) (r_DataForClients s)
    (r_HashOfLastUpstreamMessage s) (r_PriorityDataForClients s) (r_DataOutputEnabled s)
    (r_DownstreamCellSize s) (r_Name s) (r_nClients s) (r_nClientsPkCollected s) (r_nTrustees s)
    (r_nTrusteesPkCollected s) (r_privateKey s) (r_PublicKey s) (r_ExperimentRoundLimit s)
    (r_trustees s) (r_PayloadSize s) (r_UseDummyDataDown s) (r_UseOpenClosedSlots s) (r_UseUDP s)
    (r_numberOfNonAckedDownstreamPackets s) (r_WindowSize s) (r_ExperimentResultData s)
    (r_bitrateStatistics s) (r_schedulesStatistics s) (r_timeStatistics s) (r_dcNetType s)
    (r_time0 s) (r_pcapLogger s) (r_DisruptionProtectionEnabled s)
    (r_OpenClosedSlotsMinDelayBetweenRequests s) (r_OpenClosedSlotsRequestsRoundID s)
    (r_numberOfConsecutiveFailedRounds s) (r_MaxNumberOfConsecutiveFailedRounds s)
    (r_ProcessingLoopSleepTime s) (r_RoundTimeOut s) (r_TrusteeCacheLowBound s)
    (r_TrusteeCacheHighBound s) (r_EquivocationProtectionEnabled s) (r_LastMessageOfClients s)
    (r_BEchoFlags s) (r_CiphertextsHistoryTrustees s) (r_CiphertextsHistoryClients s)
    (r_DisruptionReveal s) (r_clientBitMap s) (r_trusteeBitMap s) (r_blamingData s)
    (r_EphemeralPublicKeys s) (r_ForceDisruptionSinceRound3 s) (r_VerifiableDCNetKeys s)
    (r_nVkeysCollected s).

(** type PriFiLibRelayInstance, with the process-wide stopwatches *)
Record PriFiLibRelayInstance := mkRelayInstance {
  relayState : RelayState;
  r_stateMachine : StateMachine;
  r_timing : gmap string Z
}.

#[export] Instance eta_RelayInstance : Eta PriFiLibRelayInstance := λ p,
  mkRelayInstance (relayState p) (r_stateMachine p) (r_timing p).

Abbreviation relayH := (handler PriFiLibRelayInstance).

Definition setR (f : RelayState → RelayState) : relayH unit :=
  modify (λ p, p <| relayState := f (relayState p) |>).
Definition getR : relayH RelayState := p ← get; mret (relayState p).
Definition setManager (b : BufferableRoundManager) : relayH unit :=
  setR (λ s, s <| r_roundManager := b |>).

Definition relayStates : list string :=
  ["BEFORE_INIT"; "COLLECTING_TRUSTEES_PKS"; "COLLECTING_CLIENT_PKS"; "COLLECTING_SHUFFLES";
   "COLLECTING_SHUFFLE_SIGNATURES"; "COMMUNICATING"; "BLAMING"; "SHUTDOWN"].

(** new(BufferableRoundManager) *)
Definition zeroManager : BufferableRoundManager :=
  mkRoundManager 0 0 0 ∅ ∅ ∅ ∅ 0 0 0 ∅ ∅ ∅ false 0 0 ∅ ∅.

Definition relayTimers : list string :=
  ["round-duration"; "waiting-on-clients"; "waiting-on-trustees"; "sending-data"; "pcap-delay"].

(** func NewRelay; [sk] is the random scalar of NewKeyPair, [t] the clock *)
Definition NewRelay (sk : Scalar) (t : Z) (dataOutputEnabled : bool)
    (dataForClients : list bytes) : go PriFiLibRelayInstance :=
  let '(PublicKey, privateKey) := NewKeyPair sk in
  let stats := list_to_map ((λ k, (k, NewTimeStatistics t)) <$> relayTimers) in
  let st := mkRelayState None [] zeroManager newNeffRelay dataForClients (zeros 32) []
    dataOutputEnabled 0 "Relay" 0 0 0 0 privateKey PublicKey 0 [] 0 false false false 0 0 [] None
    (NewSchedulesStatistics t) stats "" 0 None false 0 ∅ 0 0 0 0 0 0 false ∅ ∅ ∅ ∅ false ∅ ∅
    (mkBlaming 0 0 0 0 0 0) None false [] 0 in
  sm ← Init relayStates;
  Ret (mkRelayInstance st (SetEntity sm "Relay") ∅).

Definition r_ChangeState (newState : string) : relayH unit :=
  p ← get;
  sm ← lift (changeOrFatal (r_stateMachine p) newState);
  modify (λ p, p <| r_stateMachine := sm |>).

Definition r_AssertState (state : string) : relayH bool :=
  p ← get; lift (assertOrFatal (r_stateMachine p) state).

Definition r_AssertStateOrState (state1 state2 : string) : relayH bool :=
  p ← get; lift (assertOrFatal2 (r_stateMachine p) state1 state2).

(** timing.StartMeasure and timing.StopMeasure *)
Definition startMeasure (name : string) : relayH unit :=
  t ← now; modify (λ p, p <| r_timing := StartMeasure t name (r_timing p) |>).
Definition stopMeasure (name : string) : relayH Z :=
  t ← now;
  p ← get;
  let '(d, m) := StopMeasure t name (r_timing p) in
  _ ← modify (λ p, p <| r_timing := m |>);
  mret d.

(** [p.relayState.timeStatistics[name].AddTime(v)] *)
Definition addTime (name : string) (v : Z) : relayH unit :=
  s ← getR;
  match r_timeStatistics s !! name with
  | None => lift (Crash RuntimeError)
  | Some t => setR (λ s, s <| r_timeStatistics := <[name := AddTime t v]> (r_timeStatistics s) |>)
  end.

(** The methods of p.relayState.DCNet and p.relayState.bitrateStatistics, nil
    pointers that Received_ALL_ALL_PARAMETERS and the end of the shuffle set *)
Definition theDCNet (s : RelayState) : go (DCNetEntity CS) :=
  match r_DCNet s with Some d => Ret d | None => Crash RuntimeError end.
Definition onBitrate {A} (f : BitrateStatistics → A * BitrateStatistics) : relayH A :=
  s ← getR;
  match r_bitrateStatistics s with
  | None => lift (Crash RuntimeError)
  | Some b => let '(a, b) := f b in
              _ ← setR (λ s, s <| r_bitrateStatistics := Some b |>); mret a
  end.

(** stopFn and resumeFn, the callbacks given to AddRateLimiter *)
Definition sendRateEvent (e : rateEvent) : relayH unit :=
  match e with
  | StopTrustee t => _ ← SendToTrusteeWithLog t (MRateChange (mkRateChange 0)); mret tt
  | ResumeTrustee t => _ ← SendToTrusteeWithLog t (MRateChange (mkRateChange 1)); mret tt
  end.

(** Sending one message to every trustee, or to every client, in order *)
Definition sendToTrustees (m : message CS) : relayH unit :=
  s ← getR;
  forEach (λ j, _ ← SendToTrusteeWithLog j m; mret tt) (ids (r_nTrustees s)).
Definition sendToClients (m : message CS) : relayH unit :=
  s ← getR;
  forEach (λ j, _ ← SendToClientWithLog j m; mret tt) (ids (r_nClients s)).

(** func (p) Received_ALL_ALL_SHUTDOWN *)
Definition r_Received_ALL_ALL_SHUTDOWN : relayH (result unit) :=
  _ ← r_ChangeState "SHUTDOWN";
  _ ← sendToTrustees MShutdown;
  _ ← sendToClients MShutdown;
  mret (Ok tt).

(** ** Setup *)

(** The parameters common to the messages to trustees and to clients *)
Definition commonParams (s : RelayState) : ALL_ALL_PARAMETERS CS :=
  let m := Add newParams "NClients" (PInt (r_nClients s)) in
  let m := Add m "NTrustees" (PInt (r_nTrustees s)) in
  let m := Add m "UseUDP" (PBool (r_UseUDP s)) in
  let m := Add m "StartNow" (PBool true) in
  let m := Add m "PayloadSize" (PInt (r_PayloadSize s)) in
  let m := Add m "DCNetType" (PStr (r_dcNetType s)) in
  let m := Add m "DisruptionProtectionEnabled" (PBool (r_DisruptionProtectionEnabled s)) in
  Add m "EquivocationProtectionEnabled" (PBool (r_EquivocationProtectionEnabled s)).

(** func (p) BroadcastParameters *)
Definition BroadcastParameters : relayH (result unit) :=
  s ← getR;
  let msg := (commonParams s) <| ForceParams := true |> in
  _ ← forEach (λ j, _ ← SendToTrusteeWithLog j (MParameters (Add msg "NextFreeTrusteeID" (PInt j)));
                    mret tt) (ids (r_nTrustees s));
  mret (Ok tt).

(** One empty history per entity *)
Definition emptyHistories (n : Z) : gmap Z (gmap Z bytes) :=
  foldl (λ m i, <[i := ∅]> m) ∅ (ids (i32 n)).

(** func (p) Received_ALL_ALL_PARAMETERS *)
Definition r_Received_ALL_ALL_PARAMETERS (msg : ALL_ALL_PARAMETERS CS) : relayH (result unit) :=
  s ← getR;
  let startNow := BoolValueOrElse msg "StartNow" false in
  let nTrustees := IntValueOrElse msg "NTrustees" (r_nTrustees s) in
  let nClients := IntValueOrElse msg "NClients" (r_nClients s) in
  let payloadSize := IntValueOrElse msg "PayloadSize" (r_PayloadSize s) in
  let windowSize := IntValueOrElse msg "WindowSize" (r_WindowSize s) in
  let dcNetType := StringValueOrElse msg "DCNetType" (r_dcNetType s) in
  if payloadSize <? 1 then mret (Err "payloadSize cannot be 0") else
  clients ← lift (make_slice nClients noNode);
  trustees ← lift (make_slice nTrustees noNode);
  t ← now;
  vkeys ← lift (make_slice nTrustees []);
  manager ← lift (NewBufferableRoundManager nClients nTrustees windowSize);
  _ ← setR (λ s,
    s <| r_clients := clients |> <| r_trustees := trustees |>
      <| r_nClients := nClients |> <| r_nTrustees := nTrustees |>
      <| r_nTrusteesPkCollected := 0 |> <| r_nClientsPkCollected := 0 |>
      <| r_ExperimentRoundLimit := IntValueOrElse msg "ExperimentRoundLimit" (r_ExperimentRoundLimit s) |>
      <| r_PayloadSize := payloadSize |>
      <| r_DownstreamCellSize := IntValueOrElse msg "DownstreamCellSize" (r_DownstreamCellSize s) |>
      <| r_bitrateStatistics := Some (NewBitRateStatistics t payloadSize) |>
      <| r_UseDummyDataDown := BoolValueOrElse msg "UseDummyDataDown" (r_UseDummyDataDown s) |>
      <| r_UseOpenClosedSlots := BoolValueOrElse msg "UseOpenClosedSlots" (r_UseOpenClosedSlots s) |>
      <| r_UseUDP := BoolValueOrElse msg "UseUDP" (r_UseUDP s) |>
      <| r_WindowSize := windowSize |> <| r_numberOfNonAckedDownstreamPackets := 0 |>
      <| r_OpenClosedSlotsMinDelayBetweenRequests :=
           IntValueOrElse msg "OpenClosedSlotsMinDelayBetweenRequests"
             (r_OpenClosedSlotsMinDelayBetweenRequests s) |>
      <| r_MaxNumberOfConsecutiveFailedRounds :=
           IntValueOrElse msg "RelayMaxNumberOfConsecutiveFailedRounds"
             (r_MaxNumberOfConsecutiveFailedRounds s) |>
      <| r_ProcessingLoopSleepTime :=
           IntValueOrElse msg "RelayProcessingLoopSleepTime" (r_ProcessingLoopSleepTime s) |>
      <| r_RoundTimeOut := IntValueOrElse msg "RelayRoundTimeOut" (r_RoundTimeOut s) |>
      <| r_TrusteeCacheLowBound :=
           IntValueOrElse msg "RelayTrusteeCacheLowBound" (r_TrusteeCacheLowBound s) |>
      <| r_TrusteeCacheHighBound :=
           IntValueOrElse msg "RelayTrusteeCacheHighBound" (r_TrusteeCacheHighBound s) |>
      <| r_EquivocationProtectionEnabled :=
           BoolValueOrElse msg "EquivocationProtectionEnabled" (r_EquivocationProtectionEnabled s) |>
      <| r_ForceDisruptionSinceRound3 := BoolValueOrElse msg "ForceDisruptionSinceRound3" false |>
      <| r_VerifiableDCNetKeys := vkeys |> <| r_nVkeysCollected := 0 |>
      <| r_roundManager := manager |> <| r_dcNetType := dcNetType |>
      <| r_pcapLogger := Some (Pcap.NewPCAPLog t) |>
      <| r_DisruptionProtectionEnabled := BoolValueOrElse msg "DisruptionProtectionEnabled" false |>
      <| r_clientBitMap := ∅ |> <| r_trusteeBitMap := ∅ |>
      <| r_OpenClosedSlotsRequestsRoundID := ∅ |>
      <| r_LastMessageOfClients := ∅ |> <| r_BEchoFlags := ∅ |>
      <| r_CiphertextsHistoryTrustees := emptyHistories nTrustees |>
      <| r_CiphertextsHistoryClients := emptyHistories nClients |>);
  if String.eqb dcNetType "Verifiable"
  then lift (Crash (Panicked "Verifiable DCNet not implemented yet")) else
  s ← getR;
  _ ← (if negb (DoSendStopResumeMessages (r_roundManager s)) then
         setManager (AddRateLimiter (r_roundManager s) (r_TrusteeCacheLowBound s)
                       (r_TrusteeCacheHighBound s) true true).2
       else mret tt);
  _ ← (if startNow then
         _ ← r_ChangeState "COLLECTING_TRUSTEES_PKS"; BroadcastParameters
       else mret (Ok tt));
  _ ← stopMeasure "resync-boot";
  _ ← startMeasure "resync-shuffle";
  _ ← startMeasure "resync-shuffle-collect-client-pk";
  mret (Ok tt).

(** [for i := 0; i < n; i++ { pks[i] = nodes[i].PublicKey }] *)
Definition publicKeys (nodes : list NodeRepresentation) (n : Z) : go (list (option Point)) :=
  mapM (λ i, node ← index nodes i; Ret (nr_PublicKey node)) (ids n).

(** func (p) Received_TRU_REL_TELL_PK *)
Definition Received_TRU_REL_TELL_PK (msg : TRU_REL_TELL_PK CS) : relayH (result unit) :=
  s ← getR;
  trustees ← lift (set_index (r_trustees s) (tk_TrusteeID msg)
                     (mkNode (tk_TrusteeID msg) true (tk_Pk msg) (tk_Pk msg)));
  _ ← setR (λ s, s <| r_trustees := trustees |>
                   <| r_nTrusteesPkCollected := r_nTrusteesPkCollected s + 1 |>);
  s ← getR;
  if r_nTrusteesPkCollected s =? r_nTrustees s then
    trusteesPk ← lift (publicKeys (r_trustees s) (r_nTrustees s));
    let toSend := (Add (commonParams s) "ForceDisruptionSinceRound3"
                       (PBool (r_ForceDisruptionSinceRound3 s))) <| TrusteesPks := trusteesPk |> in
    _ ← forEach (λ j, _ ← SendToClientWithLog j
                             (MParameters (Add toSend "NextFreeClientID" (PInt j))); mret tt)
          (ids (r_nClients s));
    _ ← r_ChangeState "COLLECTING_CLIENT_PKS";
    mret (Ok tt)
  else mret (Ok tt).

(** Sending the keys to the next trustee that shuffles *)
Definition sendToNextTrustee : relayH (result unit) :=
  s ← getR;
  let '(res, n) := SendToNextTrustee (r_neffShuffle s) in
  _ ← setR (λ s, s <| r_neffShuffle := n |>);
  match res with
  | Err e => mret (Err ("Could not do p.relayState.neffShuffle.SendToNextTrustee, error is " +:+ e)%string)
  | Ok (toSend, trusteeID) =>
    pks ← lift (publicKeys (r_clients s) (r_nClients s));
    _ ← SendToTrusteeWithLog trusteeID
          (MTellClients (mkTellClients (Some pks) (tb_EphPks toSend) (tb_Base toSend)));
    mret (Ok tt)
  end.

(** func (p) Received_CLI_REL_TELL_PK_AND_EPH_PK *)
Definition Received_CLI_REL_TELL_PK_AND_EPH_PK (msg : CLI_REL_TELL_PK_AND_EPH_PK CS)
    : relayH (result unit) :=
  s ← getR;
  clients ← lift (set_index (r_clients s) (tp_ClientID msg)
                    (mkNode (tp_ClientID msg) true (tp_Pk msg) (tp_EphPk msg)));
  _ ← setR (λ s, s <| r_clients := clients |>
                   <| r_nClientsPkCollected := r_nClientsPkCollected s + 1 |>);
  s ← getR;
  if r_nClientsPkCollected s =? r_nClients s then
    _ ← stopMeasure "resync-shuffle-collect-client-pk";
    _ ← startMeasure "resync-shuffle-trustee-1step";
    let neff := (Relay_Init (r_neffShuffle s) (r_nTrustees s)).2 in
    neff ← lift (go_fold (λ n i, c ← index (r_clients s) i;
                                 Ret (AddClient n (nr_EphemeralPublicKey c)).2)
                   neff (ids (r_nClients s)));
    _ ← setR (λ s, s <| r_neffShuffle := neff |>);
    res ← sendToNextTrustee;
    match res with
    | Err e => mret (Err e)
    | Ok _ => _ ← r_ChangeState "COLLECTING_SHUFFLES"; mret (Ok tt)
    end
  else mret (Ok tt).

(** func (p) Received_TRU_REL_TELL_NEW_BASE_AND_EPH_PKS; [rnd1] and [rnd2] are
    the random keys of NewDCNetEntity *)
Definition Received_TRU_REL_TELL_NEW_BASE (rnd1 rnd2 : bytes)
    (msg : TRU_REL_TELL_NEW_BASE_AND_EPH_PKS CS) : relayH (result unit) :=
  s ← getR;
  vkeys ← lift (set_index (r_VerifiableDCNetKeys s) (r_nVkeysCollected s)
                  (nb_VerifiableDCNetKey msg));
  '(res, n) ← lift (ReceivedShuffleFromTrustee (r_neffShuffle s) (nb_NewBase msg)
                      (nb_NewEphPks msg) (nb_Proof msg));
  _ ← setR (λ s, s <| r_VerifiableDCNetKeys := vkeys |>
                   <| r_nVkeysCollected := r_nVkeysCollected s + 1 |>
                   <| r_EphemeralPublicKeys := nb_NewEphPks msg |> <| r_neffShuffle := n |>);
  match res with
  | Err e => mret (Err ("Relay : error in p.relayState.neffShuffle.ReceivedShuffleFromTrustee " +:+ e)%string)
  | Ok false => sendToNextTrustee
  | Ok true =>
    _ ← stopMeasure "resync-shuffle-trustee-1step";
    _ ← startMeasure "resync-shuffle-trustee-2step";
    s ← getR;
    match SendTranscript (r_neffShuffle s) with
    | Err e => mret (Err ("Could not do p.relayState.neffShuffle.SendTranscript(), error is " +:+ e)%string)
    | Ok toSend =>
      _ ← sendToTrustees (MTranscript toSend);
      d ← lift (NewDCNetEntity rnd1 rnd2 0 DCNET_RELAY (r_PayloadSize s)
                  (r_EquivocationProtectionEnabled s) []);
      d ← lift (DecodeStart d 0);
      _ ← setR (λ s, s <| r_DCNet := Some d |>);
      _ ← r_ChangeState "COLLECTING_SHUFFLE_SIGNATURES";
      mret (Ok tt)
    end
  end.

(** func (p) Received_TRU_REL_SHUFFLE_SIG *)
Definition Received_TRU_REL_SHUFFLE_SIG (msg : TRU_REL_SHUFFLE_SIG) : relayH (result unit) :=
  s ← getR;
  '(res, n) ← lift (ReceivedSignatureFromTrustee (r_neffShuffle s) (ss_TrusteeID msg)
                      (Some (ss_Sig msg)));
  _ ← setR (λ s, s <| r_neffShuffle := n |>);
  match res with
  | Err e => mret (Err ("Could not do p.relayState.neffShuffle.ReceivedSignatureFromTrustee(), error is " +:+ e)%string)
  | Ok false => mret (Ok tt)
  | Ok true =>
    s ← getR;
    trusteesPks ← lift (make_slice (r_nTrustees s) None);
    trusteesPks ← lift (go_fold (λ pks '(i, v), set_index pks (Z.of_nat i) (nr_PublicKey v))
                          trusteesPks (imap pair (r_trustees s)));
    res ← lift (VerifySigsAndSendToClients (r_neffShuffle s) (Some trusteesPks));
    match res with
    | Err e => mret (Err ("Could not do p.relayState.neffShuffle.VerifySigsAndSendToClients(), error is " +:+ e)%string)
    | Ok msg =>
      t ← now;
      '(_, b) ← lift (OpenNextRound (r_roundManager s) t);
      _ ← setManager b;
      _ ← r_ChangeState "COMMUNICATING";
      _ ← stopMeasure "resync-shuffle-trustee-2step";
      _ ← stopMeasure "resync-shuffle";
      _ ← stopMeasure "resync";
      _ ← sendToClients (MTellEphPks msg);
      _ ← setR (λ s, s <| r_numberOfNonAckedDownstreamPackets := 1 |>);
      mret (Ok tt)
    end
  end.

(** ** Rounds: the downstream phase *)

(** The content of the next downstream cell: priority data, else data of the
    application, else one zero byte *)
Definition nextDownstreamData : relayH bytes :=
  s ← getR;
  match r_PriorityDataForClients s with
  | d :: rest => _ ← setR (λ s, s <| r_PriorityDataForClients := rest |>); mret d
  | [] =>
    match r_DataForClients s with
    | d :: rest => _ ← setR (λ s, s <| r_DataForClients := rest |>); mret d
    | [] => mret (zeros 1)
    end
  end.

(** What replaces it: the message to retransmit when the last owner asked for
    it, padded when dummy data is used *)
Definition downstreamContent (s : RelayState) (content : bytes) : bytes :=
  let last := lastRoundClosed (r_roundManager s) in
  let content :=
    if r_DisruptionProtectionEnabled s && (default 0 (r_BEchoFlags s !! last) =? 1)
    then default [] (r_LastMessageOfClients s !! i32 (last - i32 (r_nClients s)))
    else content in
  if r_UseDummyDataDown s && (len content <? r_DownstreamCellSize s)
  then copy_bytes (zeros (Z.to_nat (r_DownstreamCellSize s))) content else content.

(** Sending the downstream message of a round, over TCP or UDP *)
Definition sendDownstream (toSend : REL_CLI_DOWNSTREAM_DATA) : relayH unit :=
  s ← getR;
  if negb (r_UseUDP s) then
    _ ← sendToClients (MDownstream toSend);
    onBitrate (λ b, (tt, AddDownstreamCell b (len (dd_Data toSend))))
  else
    _ ← BroadcastToAllClientsWithLog (MDownstreamUDP toSend);
    onBitrate (λ b, (tt, AddDownstreamUDPCell b (len (dd_Data toSend)) (r_nClients s))).

(** func (p) downstreamPhase1_openRoundAndSendData *)
Definition downstreamPhase1_openRoundAndSendData : relayH (result unit) :=
  content ← nextDownstreamData;
  s ← getR;
  let downstreamCellContent := downstreamContent s content in
  nextDownstreamRoundID ← lift (nextRoundToOpen (r_roundManager s));
  t ← now;
  _ ← (if nextDownstreamRoundID =? 1
       then setR (λ s, s <| r_time0 := u64 (MsTimeStamp t) |>) else mret tt);
  isNext ← (if r_UseOpenClosedSlots s
            then lift (IsNextDownstreamRoundForOpenClosedRequest (r_roundManager s))
            else mret false);
  let flagOpenClosedRequest := isNext : bool in
  _ ← (if flagOpenClosedRequest then
         setR (λ s, s <| r_OpenClosedSlotsRequestsRoundID :=
                      <[nextDownstreamRoundID := true]> (r_OpenClosedSlotsRequestsRoundID s) |>)
       else mret tt);
  '(nextOwner, b) ← lift (updateAndGetNextOwnerID (r_roundManager s));
  _ ← setManager b;
  _ ← startMeasure "sending-data";
  let toSend := mkDownstream nextDownstreamRoundID nextOwner (r_HashOfLastUpstreamMessage s)
                  downstreamCellContent false flagOpenClosedRequest in
  _ ← (if negb (RoundManager.currentRound b).1 then
         d ← lift (theDCNet s);
         d ← lift (DecodeStart d nextDownstreamRoundID);
         setR (λ s, s <| r_DCNet := Some d |>)
       else mret tt);
  t ← now;
  '(_, b) ← lift (OpenNextRound b t);
  b ← lift (SetDataAlreadySent b nextDownstreamRoundID (Some toSend));
  _ ← setManager b;
  _ ← sendDownstream toSend;
  d ← stopMeasure "sending-data";
  _ ← addTime "sending-data" (Z.quot d 1000000);
  _ ← emit (Spawned "checkIfRoundHasEndedAfterTimeOut_Phase1" [nextDownstreamRoundID]);
  _ ← startMeasure "waiting-on-someone";
  _ ← setR (λ s, s <| r_numberOfNonAckedDownstreamPackets :=
                   r_numberOfNonAckedDownstreamPackets s + 1 |>);
  mret (Ok tt).

(** func (p) downstreamPhase_sendMany: the loop variable starts at the number
    of packets in flight and runs up to the window size *)
Definition downstreamPhase_sendMany : relayH unit :=
  s ← getR;
  forEach (λ _ : Z, _ ← downstreamPhase1_openRoundAndSendData; mret tt)
    (ids (r_WindowSize s - r_numberOfNonAckedDownstreamPackets s)).

(** ** Rounds: the upstream phase *)

(** The loops that give every collected slice to the decoder; a nil slice is an
    empty one *)
Definition decodeSlices (d : DCNetEntity CS) (roundID : Z)
    (clientSlices trusteesSlices : list (option bytes)) : go (DCNetEntity CS) :=
  d ← go_fold (λ d s, DecodeClient d roundID (default [] s)) d clientSlices;
  go_fold (λ d s, DecodeTrustee d roundID (default [] s)) d trusteesSlices.

(** CollectRoundData and the decoding of the cell; [Err] when ciphers miss *)
Definition collectAndDecode (roundID : Z) (isOpenClosed : bool)
    : relayH (result (bytes * bytes)) :=
  s ← getR;
  let '(res, b) := CollectRoundData (r_roundManager s) in
  _ ← setManager b;
  match res with
  | Err e => mret (Err e)
  | Ok (clientSlices, trusteesSlices) =>
    d ← lift (theDCNet s);
    d ← lift (decodeSlices d roundID clientSlices trusteesSlices);
    _ ← setR (λ s, s <| r_DCNet := Some d |>);
    out ← lift (DecodeCell d isOpenClosed);
    mret (Ok out)
  end.

(** func (p) upstreamPhase2a_extractOCMap *)
Definition upstreamPhase2a_extractOCMap (roundID : Z) : relayH (result unit) :=
  res ← collectAndDecode roundID true;
  match res with
  | Err e => mret (Err e)
  | Ok (openClosedData, _) =>
    s ← getR;
    let newSchedule := Relay_ComputeFinalSchedule openClosedData (r_nClients s) in
    _ ← setManager (SetStoredRoundSchedule (r_roundManager s) newSchedule);
    _ ← setR (λ s, s <| r_schedulesStatistics := AddSchedule (r_schedulesStatistics s) newSchedule |>);
    let hasOpenSlot := existsb snd (map_to_list newSchedule) in
    _ ← (if negb hasOpenSlot then emit (Slept (r_OpenClosedSlotsMinDelayBetweenRequests s))
         else mret tt);
    mret (Ok tt)
  end.

(** "BLAME" *)
Definition blameTag : bytes := [66; 76; 65; 77; 69].

(** The block of upstreamPhase2b_extractPayload run when the disruption
    protection is enabled: the echo flag is taken off, a blame starts the reveal
    of the bits; the result is the rest of the plaintext *)
Definition disruptionCheck (roundID : Z) (upstreamPlaintext : bytes) : relayH bytes :=
  b_echo_last ← lift (index upstreamPlaintext 0);
  _ ← setR (λ s, s <| r_BEchoFlags := <[roundID := b_echo_last]> (r_BEchoFlags s) |>
                   <| r_DisruptionReveal := false |>);
  s ← getR;
  let n := i32 (r_nClients s) in
  let previousRound := i32 (roundID - n) in
  tag ← lift (if (b_echo_last =? 1) && (13 <? len upstreamPlaintext)
              then slice upstreamPlaintext 1 6 else Ret []);
  _ ← (if bool_decide (tag = blameTag) then
         pos ← lift (slice upstreamPlaintext 10 14);
         let blameRoundID := i32 (previousRound - n) in
         let blameBitPosition := be_decode pos in
         _ ← setR (λ s, s <| r_DisruptionReveal := true |>
                          <| r_blamingData := (r_blamingData s) <| bd_RoundID := blameRoundID |>
                               <| bd_BitPos := blameBitPosition |> |>);
         let toSend := MReveal (mkReveal blameRoundID blameBitPosition [] ∅) in
         _ ← sendToClients toSend;
         sendToTrustees toSend
       else mret tt);
  upstreamPlaintext ← lift (slice_from upstreamPlaintext 1);
  _ ← (if negb (r_EquivocationProtectionEnabled s) then
         setR (λ s, s <| r_LastMessageOfClients :=
                           <[roundID := upstreamPlaintext]> (r_LastMessageOfClients s) |>
                      <| r_HashOfLastUpstreamMessage := Sum256 upstreamPlaintext |>)
       else mret tt);
  mret upstreamPlaintext.

(** One pcap meta-message at position [pos] of the plaintext; the flag is read
    at index 17, one past the last byte of the message *)
Definition pcapMessage (upstreamPlaintext : bytes) (pos : Z) : relayH unit :=
  clientID ← lift (slice upstreamPlaintext (pos + 2) (pos + 4));
  ID ← lift (slice upstreamPlaintext (pos + 4) (pos + 8));
  ts ← lift (slice upstreamPlaintext (pos + 8) (pos + 16));
  let timestamp := i64 (be_decode ts) in
  frag ← lift (index upstreamPlaintext (pos + 17));
  t ← now;
  s ← getR;
  let diff := i64 (i64 (MsTimeStamp t - i64 (r_time0 s)) - timestamp) in
  _ ← addTime "pcap-delay" diff;
  s ← getR;
  match r_pcapLogger s with
  | None => lift (Crash RuntimeError)
  | Some pl =>
    setR (λ s, s <| r_pcapLogger := Some (Pcap.ReceivedPcap (MsTimeStamp t) t pl (be_decode ID)
                  (be_decode clientID) (frag =? 1) (u64 timestamp) (r_time0 s)
                  (u32 (len upstreamPlaintext))) |>)
  end.

(** [for pos+17 <= len(upstreamPlaintext) { ... pos += 17 }] *)
Fixpoint pcapMessages (fuel : nat) (upstreamPlaintext : bytes) (pos : Z) : relayH unit :=
  if pos + 17 <=? len upstreamPlaintext then
    match fuel with
    | O => lift (Crash Diverges)
    | S fuel =>
      pattern ← lift (slice upstreamPlaintext pos (pos + 2));
      if negb (be_decode pattern =? 21845) then mret tt else
      _ ← pcapMessage upstreamPlaintext pos;
      pcapMessages fuel upstreamPlaintext (pos + 17)
    end
  else mret tt.

(** [p.relayState.PriorityDataForClients <- data] *)
Definition sendPriority (data : bytes) : relayH unit :=
  s ← getR;
  if (priorityCapacity <=? length (r_PriorityDataForClients s))%nat then lift (Crash Blocks)
  else setR (λ s, s <| r_PriorityDataForClients := r_PriorityDataForClients s ++ [data] |>).

(** Latency tests are sent back, pcap meta-messages are logged *)
Definition inspectPayload (upstreamPlaintext : bytes) : relayH unit :=
  if 2 <=? len upstreamPlaintext then
    pattern ← lift (slice upstreamPlaintext 0 2);
    if be_decode pattern =? 43690 then sendPriority upstreamPlaintext
    else if be_decode pattern =? 21845 then
      _ ← pcapMessage upstreamPlaintext 0;
      pcapMessages (length upstreamPlaintext) upstreamPlaintext 17
    else mret tt
  else mret tt.

(** The size every decoded payload must have *)
Definition expectedSize (s : RelayState) : Z :=
  let n := r_PayloadSize s in
  let n := if r_DisruptionProtectionEnabled s then n - 1 else n in
  if r_EquivocationProtectionEnabled s then n - 16 else n.

(** func (p) upstreamPhase2b_extractPayload.  The test [upstreamPlaintext != nil]
    is not modelled: the plaintext can be nil only when it is empty (16-byte
    cells with equivocation protection) *)
Definition upstreamPhase2b_extractPayload : relayH (result unit) :=
  s ← getR;
  roundID ← lift (CurrentRound (r_roundManager s));
  res ← collectAndDecode roundID false;
  match res with
  | Err e => mret (Err e)
  | Ok (upstreamPlaintext, ciphertext) =>
    _ ← (if r_EquivocationProtectionEnabled s && r_DisruptionProtectionEnabled s then
           setR (λ s, s <| r_HashOfLastUpstreamMessage := Sum256 ciphertext |>
                        <| r_LastMessageOfClients :=
                             <[roundID := ciphertext]> (r_LastMessageOfClients s) |>)
         else mret tt);
    _ ← onBitrate (λ b, (tt, AddUpstreamCell b (len upstreamPlaintext)));
    upstreamPlaintext ← (if r_DisruptionProtectionEnabled s
                         then disruptionCheck roundID upstreamPlaintext
                         else mret upstreamPlaintext);
    _ ← inspectPayload upstreamPlaintext;
    if negb (len upstreamPlaintext =? expectedSize s)
    then mret (Err "Relay : DecodeCell produced wrong-size payload") else
    _ ← (if r_DataOutputEnabled s then emit (Delivered upstreamPlaintext) else mret tt);
    mret (Ok tt)
  end.

(** func (p) collectExperimentResult, for a report that was printed or not *)
Definition collectExperimentResult (printed : bool) (name : string) : relayH unit :=
  s ← getR;
  if negb printed then mret tt else
  if r_ExperimentRoundLimit s =? -1 then mret tt else
  setR (λ s, s <| r_ExperimentResultData := r_ExperimentResultData s ++ [name] |>).

(** The reports at the end of a round; the order of the map is arbitrary *)
Definition collectReports (roundID : Z) : relayH unit :=
  t ← now;
  r ← onBitrate (bw_Report t);
  _ ← collectExperimentResult (bool_decide (is_Some r)) "relay_bw";
  s ← getR;
  let '(r, sc) := sc_Report t (r_schedulesStatistics s) in
  _ ← setR (λ s, s <| r_schedulesStatistics := sc |>);
  _ ← collectExperimentResult (bool_decide (is_Some r)) "schedules";
  _ ← addTime "round-duration" (Z.quot (TimeSpentInRound (r_roundManager s) t roundID) 1000000);
  s ← getR;
  forEach (λ '(k, v),
      let '(printed, v) := ReportWithInfo t v in
      _ ← setR (λ s, s <| r_timeStatistics := <[k := v]> (r_timeStatistics s) |>);
      collectExperimentResult printed k)
    (map_to_list (r_timeStatistics s)).

(** func (p) upstreamPhase3_finalizeRound *)
Definition upstreamPhase3_finalizeRound (roundID : Z) : relayH (result unit) :=
  _ ← setR (λ s, s <| r_numberOfNonAckedDownstreamPackets :=
                        r_numberOfNonAckedDownstreamPackets s - 1 |>
                   <| r_numberOfConsecutiveFailedRounds := 0 |>);
  _ ← (if roundID =? 0 then mret tt else collectReports roundID);
  s ← getR;
  newRound ← lift (CurrentRound (r_roundManager s));
  _ ← (if newRound =? i32 (r_ExperimentRoundLimit s) then
         _ ← emit (ToChannel "ExperimentResultChannel" [len (r_ExperimentResultData s)]);
         _ ← r_Received_ALL_ALL_SHUTDOWN; mret tt
       else mret tt);
  let '(_, evs, b) := CloseRound (r_roundManager s) in
  _ ← setManager b;
  _ ← forEach sendRateEvent evs;
  let earliest := i32 (lastRoundClosed b - i32 (r_nClients s)) in
  _ ← setR (λ s, s
    <| r_CiphertextsHistoryTrustees := delete roundID <$> r_CiphertextsHistoryTrustees s |>
    <| r_CiphertextsHistoryClients := delete roundID <$> r_CiphertextsHistoryClients s |>
    <| r_LastMessageOfClients :=
         filter (λ kv : Z * bytes, ¬ kv.1 < earliest) (r_LastMessageOfClients s) |>);
  let '(roundOpened, nextRoundID) := RoundManager.currentRound b in
  _ ← (if roundOpened then
         d ← lift (theDCNet s);
         d ← lift (DecodeStart d nextRoundID);
         setR (λ s, s <| r_DCNet := Some d |>)
       else mret tt);
  mret (Ok tt).

(** func (p) upstreamPhase1_processCiphers; errors of the phases are logged *)
Definition upstreamPhase1_processCiphers (finishedByTrustee : bool) : relayH unit :=
  d ← stopMeasure "waiting-on-someone";
  _ ← addTime (if finishedByTrustee then "waiting-on-trustees" else "waiting-on-clients")
        (Z.quot d 1000000);
  s ← getR;
  roundID ← lift (CurrentRound (r_roundManager s));
  let isOCRound := bool_decide (is_Some (r_OpenClosedSlotsRequestsRoundID s !! roundID)) in
  _ ← (if isOCRound then upstreamPhase2a_extractOCMap roundID
       else upstreamPhase2b_extractPayload);
  _ ← upstreamPhase3_finalizeRound roundID;
  s ← getR;
  _ ← (if 0 <? r_ProcessingLoopSleepTime s then emit (Slept (r_ProcessingLoopSleepTime s))
       else mret tt);
  downstreamPhase_sendMany.

(** [if HasAllCiphersForCurrentRound() { upstreamPhase1_processCiphers(b) }] *)
Definition processIfComplete (finishedByTrustee : bool) : relayH unit :=
  s ← getR;
  if hasAllCiphersForCurrentRound (r_roundManager s)
  then upstreamPhase1_processCiphers finishedByTrustee else mret tt.

(** [history[id][roundID] = data] *)
Definition remember (history : gmap Z (gmap Z bytes)) (id roundID : Z) (data : option bytes) :=
  <[i32 id := <[roundID := default [] data]> (bufferOf history (i32 id))]> history.

(** func (p) Received_CLI_REL_UPSTREAM_DATA *)
Definition Received_CLI_REL_UPSTREAM_DATA (msg : CLI_REL_UPSTREAM_DATA) : relayH (result unit) :=
  s ← getR;
  _ ← setR (λ s, s <| r_CiphertextsHistoryClients :=
         remember (r_CiphertextsHistoryClients s) (up_ClientID msg) (up_RoundID msg) (up_Data msg) |>);
  '(_, b) ← lift (AddClientCipher (r_roundManager s) (up_RoundID msg) (up_ClientID msg) (up_Data msg));
  _ ← setManager b;
  _ ← processIfComplete true;
  mret (Ok tt).

(** func (p) Received_TRU_REL_DC_CIPHER *)
Definition Received_TRU_REL_DC_CIPHER (msg : TRU_REL_DC_CIPHER) : relayH (result unit) :=
  s ← getR;
  _ ← setR (λ s, s <| r_CiphertextsHistoryTrustees :=
         remember (r_CiphertextsHistoryTrustees s) (tc_TrusteeID msg) (tc_RoundID msg) (tc_Data msg) |>);
  let '(_, evs, b) := AddTrusteeCipher (r_roundManager s) (tc_RoundID msg) (tc_TrusteeID msg)
                        (tc_Data msg) in
  _ ← setManager b;
  _ ← forEach sendRateEvent evs;
  _ ← processIfComplete true;
  mret (Ok tt).

(** func (p) Received_CLI_REL_OPENCLOSED_DATA *)
Definition Received_CLI_REL_OPENCLOSED_DATA (msg : CLI_REL_OPENCLOSED_DATA) : relayH (result unit) :=
  s ← getR;
  '(_, b) ← lift (AddClientCipher (r_roundManager s) (oc_RoundID msg) (oc_ClientID msg)
                    (oc_OpenClosedData msg));
  _ ← setManager b;
  _ ← processIfComplete false;
  mret (Ok tt).

(** func (p) checkIfRoundHasEndedAfterTimeOut_Phase1, after its sleep *)
Definition checkIfRoundHasEndedAfterTimeOut_Phase1 (roundID : Z) : relayH unit :=
  p ← get;
  let s := relayState p in
  if negb (isRoundOpen (r_roundManager s) roundID) then mret tt else
  if String.eqb (State (r_stateMachine p)) "SHUTDOWN" then mret tt else
  _ ← setR (λ s, s <| r_numberOfConsecutiveFailedRounds := r_numberOfConsecutiveFailedRounds s + 1 |>);
  s ← getR;
  if r_MaxNumberOfConsecutiveFailedRounds s <=? r_numberOfConsecutiveFailedRounds s then
    let '(missingClientCiphers, missingTrusteesCiphers) :=
      MissingCiphersForCurrentRound (r_roundManager s) in
    emit (TimedOut missingClientCiphers missingTrusteesCiphers)
  else
    let '(_, evs, b) := ForceCloseRound (r_roundManager s) in
    _ ← setManager b;
    _ ← forEach sendRateEvent evs;
    _ ← setR (λ s, s <| r_numberOfNonAckedDownstreamPackets :=
                      r_numberOfNonAckedDownstreamPackets s - 1 |>);
    let '(roundOpened, nextRoundID) := RoundManager.currentRound b in
    _ ← (if roundOpened then
           d ← lift (theDCNet s);
           d ← lift (DecodeStart d nextRoundID);
           setR (λ s, s <| r_DCNet := Some d |>)
         else mret tt);
    _ ← downstreamPhase_sendMany;
    processIfComplete true.

(** ** Disruption *)

(** func (p) Received_CLI_REL_DISRUPTION_BLAME *)
Definition Received_CLI_REL_DISRUPTION_BLAME (msg : CLI_REL_DISRUPTION_BLAME CS)
    : relayH (result unit) :=
  if negb (HashVerify "DISRUPTION" (Rep "X" "x" "B") (bl_Pval msg) (bl_NIZK msg))
  then lift (Crash (Fatal "Proof failed to verify: ")) else
  let toSend := MReveal (mkReveal (bl_RoundID msg) (bl_BitPos msg) (bl_NIZK msg) (bl_Pval msg)) in
  _ ← setR (λ s, s <| r_blamingData := (r_blamingData s) <| bd_RoundID := bl_RoundID msg |>
                        <| bd_BitPos := bl_BitPos msg |> |>);
  _ ← sendToTrustees toSend;
  _ ← sendToClients toSend;
  mret (Ok tt).

(** The predicate of the revealed pads: the indices 1 to nTrustees-1 *)
Definition revealPredicate (nTrustees : Z) : Predicate :=
  And ((λ i, Rep ("T" +:+ Itoa i) ("t" +:+ Itoa i) "B") <$> drop 1 (ids nTrustees)).

(** func (p) compareBits *)
Definition compareBits (s : RelayState) (id : Z) (bits : gmap Z Z)
    (CiphertextsHistory : gmap Z (gmap Z bytes)) : go bool :=
  let round := bd_RoundID (r_blamingData s) in
  let bitPosition := bd_BitPos (r_blamingData s) in
  let bytePosition := Z.quot bitPosition 8 + 9 in
  byteToGet ← index (default [] (bufferOf CiphertextsHistory (i32 id) !! round)) bytePosition;
  let result := foldl Z.lxor 0 (snd <$> map_to_list bits) in
  let bytePreviousResult := Z.land (bitMask bitPosition) byteToGet in
  let bitPreviousResult := if negb (bytePreviousResult =? 0) then 1 else 0 in
  Ret (result =? bitPreviousResult).

(** The pairs of clients and trustees whose revealed bits differ, with the two
    bits.  The order of Go's maps is arbitrary; here it is that of the keys. *)
Definition mismatches (clientBitMap trusteeBitMap : gmap Z (gmap Z Z)) : list (Z * Z * (Z * Z)) :=
  '(clientID, clientBits) ← map_to_list clientBitMap;
  '(trusteeID, clientBit) ← map_to_list clientBits;
  let trusteeBit := default 0 (default ∅ (trusteeBitMap !! trusteeID) !! clientID) in
  if negb (clientBit =? trusteeBit) then [(clientID, trusteeID, (clientBit, trusteeBit))] else [].

(** func (p) checkMismatchingPairs *)
Definition checkMismatchingPairs (s : RelayState) : bool * RelayState :=
  match mismatches (r_clientBitMap s) (r_trusteeBitMap s) with
  | (clientID, trusteeID, (clientBit, trusteeBit)) :: _ =>
    (true, s <| r_blamingData := (r_blamingData s) <| bd_ClientID := clientID |>
                  <| bd_ClientBitRevealed := clientBit |> <| bd_TrusteeID := trusteeID |>
                  <| bd_TrusteeBitRevealed := trusteeBit |> |>)
  | [] => (false, s)
  end.

(** The end of both reveal handlers: the second phase starts when everyone
    revealed; the message for the client goes to the client whose number is the
    trustee's, and conversely *)
Definition startPhase2 : relayH (result unit) :=
  s ← getR;
  if (Z.of_nat (size (r_clientBitMap s)) =? r_nClients s)
     && (Z.of_nat (size (r_trusteeBitMap s)) =? r_nTrustees s) then
    let '(mismatch, s) := checkMismatchingPairs s in
    _ ← setR (λ _, s);
    if mismatch : bool then
      let d := r_blamingData s in
      _ ← SendToTrusteeWithLog (bd_ClientID d) (MRevealSecrets (mkRevealSecrets (bd_ClientID d)));
      _ ← SendToClientWithLog (bd_TrusteeID d) (MRevealSecrets (mkRevealSecrets (bd_TrusteeID d)));
      mret (Ok tt)
    else lift (Crash (Fatal "Disruption Phase 2: No mismatching pairs ? this should never occur."))
  else mret (Ok tt).

(** func (p) Received_CLI_REL_DISRUPTION_REVEAL *)
Definition Received_CLI_REL_DISRUPTION_REVEAL (msg : CLI_REL_DISRUPTION_REVEAL CS)
    : relayH (result unit) :=
  s ← getR;
  if negb (HashVerify "DISRUPTION" (revealPredicate (r_nTrustees s)) (cr_Pval msg) (cr_NIZK msg))
  then lift (Crash (Fatal "Proof failed to verify: ")) else
  let bits := default ∅ (cr_Bits msg) in
  _ ← setR (λ s, s <| r_clientBitMap := <[cr_ClientID msg := bits]> (r_clientBitMap s) |>);
  ok ← lift (compareBits s (cr_ClientID msg) bits (r_CiphertextsHistoryClients s));
  if negb ok then lift (Crash (Fatal "Disruption Phase 1: Disruptor is Client")) else
  startPhase2.

(** func (p) Received_TRU_REL_DISRUPTION_REVEAL *)
Definition Received_TRU_REL_DISRUPTION_REVEAL (msg : TRU_REL_DISRUPTION_REVEAL CS)
    : relayH (result unit) :=
  s ← getR;
  if negb (HashVerify "DISRUPTION" (revealPredicate (r_nTrustees s)) (tr_Pval msg) (tr_NIZK msg))
  then lift (Crash (Fatal "Proof failed to verify: ")) else
  let bits := default ∅ (tr_Bits msg) in
  _ ← setR (λ s, s <| r_trusteeBitMap := <[tr_TrusteeID msg := bits]> (r_trusteeBitMap s) |>);
  ok ← lift (compareBits s (tr_TrusteeID msg) bits (r_CiphertextsHistoryTrustees s));
  if negb ok then lift (Crash (Fatal "Disruption Phase 1: Disruptor is Trustee")) else
  startPhase2.

(** func (p) replayRounds *)
Definition replayRounds (s : RelayState) (secret : option Point) : go Z :=
  d ← theDCNet s;
  sharedPRNG ← seedPRNG secret;
  let size := DCNetPayloadSize d in
  let sharedPRNG := Nat.iter (Z.to_nat (bd_RoundID (r_blamingData s)))
                      (λ x, (readPad size x).2) sharedPRNG in
  let '(p_ij, _) := readPad size sharedPRNG in
  let bitPosition := bd_BitPos (r_blamingData s) in
  byte_toGet ← index p_ij (Z.quot bitPosition 8 + 1);
  Ret (if Z.land byte_toGet (bitMask bitPosition) =? 0 then 0 else 1).

(** The check of a revealed secret, whose result is only logged, and the replay
    of the rounds; both handlers take the trustee's key for X[0].  The message's
    map of public values is taken to be non-nil *)
Definition checkSecret (trusteeID : Z) (secret : option Point) (NIZK : bytes)
    (pub : gmap string (option Point)) : relayH Z :=
  s ← getR;
  node ← lift (index (r_trustees s) trusteeID);
  let pub := <["X[0]" := nr_PublicKey node]> pub in
  let pred := Or [And [Rep "X[0]" "x" "B"; Rep "T" "x" "BT"]] in
  let _verified := HashVerify "SHAREDKEY" pred pub NIZK in
  lift (replayRounds s secret).

(** func (p) Received_TRU_REL_SHARED_SECRETS *)
Definition Received_TRU_REL_SHARED_SECRETS (msg : TRU_REL_SHARED_SECRET CS) : relayH (result unit) :=
  val ← checkSecret (ts_TrusteeID msg) (ts_Secret msg) (ts_NIZK msg) (ts_Pub msg);
  s ← getR;
  if negb (val =? bd_TrusteeBitRevealed (r_blamingData s))
  then lift (Crash (Fatal "Disruption Phase 2: Disruptor is Trustee")) else mret (Ok tt).

(** func (p) Received_CLI_REL_SHARED_SECRET *)
Definition Received_CLI_REL_SHARED_SECRET (msg : CLI_REL_SHARED_SECRET CS) : relayH (result unit) :=
  val ← checkSecret (cs_TrusteeID msg) (cs_Secret msg) (cs_NIZK msg) (cs_Pub msg);
  s ← getR;
  if negb (val =? bd_ClientBitRevealed (r_blamingData s))
  then lift (Crash (Fatal "Disruption Phase 2: Disruptor is Client")) else mret (Ok tt).

(** ** Dispatch *)

(** func (p) ReceivedMessage *)
Definition r_ReceivedMessage (rnd1 rnd2 : bytes) (msg : message CS) : relayH (result unit) :=
  let guarded (state : string) (h : relayH (result unit)) : relayH (result unit) :=
    ok ← r_AssertState state; if ok : bool then h else mret (Ok tt) in
  match msg with
  | MParameters m =>
    if ForceParams m then r_Received_ALL_ALL_PARAMETERS m
    else guarded "BEFORE_INIT" (r_Received_ALL_ALL_PARAMETERS m)
  | MShutdown => r_Received_ALL_ALL_SHUTDOWN
  | MUpstream m => guarded "COMMUNICATING" (Received_CLI_REL_UPSTREAM_DATA m)
  | MClientReveal m => guarded "COMMUNICATING" (Received_CLI_REL_DISRUPTION_REVEAL m)
  | MTrusteeReveal m => guarded "COMMUNICATING" (Received_TRU_REL_DISRUPTION_REVEAL m)
  | MClientSecret m => guarded "COMMUNICATING" (Received_CLI_REL_SHARED_SECRET m)
  | MTrusteeSecret m => guarded "COMMUNICATING" (Received_TRU_REL_SHARED_SECRETS m)
  | MOpenClosed m => guarded "COMMUNICATING" (Received_CLI_REL_OPENCLOSED_DATA m)
  | MDCCipher m =>
    ok ← r_AssertStateOrState "COMMUNICATING" "COLLECTING_SHUFFLE_SIGNATURES";
    if ok : bool then Received_TRU_REL_DC_CIPHER m else mret (Ok tt)
  | MTellPk m => guarded "COLLECTING_TRUSTEES_PKS" (Received_TRU_REL_TELL_PK m)
  | MTellPkEph m => guarded "COLLECTING_CLIENT_PKS" (Received_CLI_REL_TELL_PK_AND_EPH_PK m)
  | MNewBase m => guarded "COLLECTING_SHUFFLES" (Received_TRU_REL_TELL_NEW_BASE rnd1 rnd2 m)
  | MShuffleSig m => guarded "COLLECTING_SHUFFLE_SIGNATURES" (Received_TRU_REL_SHUFFLE_SIG m)
  | MBlame m => guarded "COMMUNICATING" (Received_CLI_REL_DISRUPTION_BLAME m)
  | _ => mret (Err "Unrecognized message, type")
  end.
End relay.

Arguments NodeRepresentation CS : clear implicits.
Arguments RelayState CS : clear implicits.
Arguments PriFiLibRelayInstance CS : clear implicits.
