(* ===== verification/RelayStates.v ===== *)
(** * What holds of every handler of the relay

    A property of handlers that holds of their primitive steps and that sequencing
    keeps holds of all of them: [Quiet] is about the handlers of a running relay,
    which change neither what was agreed on in the setup nor the state of the
    machine (but to shut down), and [Stepwise] about all; both are relative to the
    rounds whose ciphertexts the steps may store.  Four are drawn from it:
    the list of states the machine of a relay knows stays the same, so that a relay
    can always be shut down; every message a relay sends is of a kind meant for its
    destination ([relaySends]); what the setup agreed on stays; and the deleted
    ciphertexts of a round stay deleted until a cell of that round arrives. *)

From S2P Require Import Prelude Bytes Crypto Messages StateMachine RoundManager Network Relay.

Open Scope Z_scope.

(** The messages a relay sends: which kinds to a client, to a trustee, and in a
    broadcast. *)
Definition relaySends {CS : CryptoSuite} (d : dest) (m : message CS) : bool :=
  match d, m with
  | ToClient _, (MParameters _ | MShutdown | MDownstream _ | MTellEphPks _ | MReveal _
                | MRevealSecrets _) => true
  | ToTrustee _, (MParameters _ | MShutdown | MTellClients _ | MTranscript _ | MRateChange _
                 | MReveal _ | MRevealSecrets _) => true
  | ToAllClients, MDownstreamUDP _ => true
  | _, _ => false
  end.

(** ... those that belong to the setup, and the others. *)
Definition setupSends {CS : CryptoSuite} (m : message CS) : bool :=
  match m with MParameters _ | MTellClients _ | MTranscript _ | MTellEphPks _ => true | _ => false end.
Definition dataSends {CS : CryptoSuite} (d : dest) (m : message CS) : bool :=
  relaySends d m && negb (setupSends m).

(** What the setup agrees on: the nodes with their keys and the parameters they
    are told. *)
Definition setup {CS : CryptoSuite} (p : PriFiLibRelayInstance CS) :=
  let s := relayState p in
  (r_clients s, r_trustees s, r_nClients s, r_nTrustees s, r_PayloadSize s,
   r_EquivocationProtectionEnabled s, r_ForceDisruptionSinceRound3 s, r_DisruptionProtectionEnabled s).

(** A ciphertext of round [r] is stored, of a client or of a trustee. *)
Definition stored {CS : CryptoSuite} (p : PriFiLibRelayInstance CS) (r : Z) : Prop :=
  ∃ id, is_Some (bufferOf (r_CiphertextsHistoryClients (relayState p)) id !! r)
        ∨ is_Some (bufferOf (r_CiphertextsHistoryTrustees (relayState p)) id !! r).

(** No ciphertext is added. *)
Definition loses {CS : CryptoSuite} (p q : PriFiLibRelayInstance CS) : Prop := ∀ r, stored q r → stored p r.

(** The rounds whose ciphertexts a message brings are among [R]. *)
Definition brings {CS : CryptoSuite} (R : Z → Prop) (m : message CS) : Prop :=
  match m with MUpstream m => R (up_RoundID m) | MDCCipher m => R (tc_RoundID m) | _ => True end.
Definition anyRound (r : Z) : Prop := True.

(** Events that are not messages *)
Definition silent {CS : CryptoSuite} (e : event CS) : bool :=
  match e with Sent _ _ | SendFailed _ _ => false | _ => true end.

(** [R]: the rounds whose ciphertexts may be stored *)
Class Quiet {CS : CryptoSuite} {NW : Network CS} {CK : Clock CS} {PS : ProofSystem CS}
    (R : Z → Prop) (P : ∀ A : Type, handler (PriFiLibRelayInstance CS) A → Prop) : Prop := {
  sw_ret A (a : A) : P A (mret a);
  sw_bind A B (m : handler (PriFiLibRelayInstance CS) A) (f : A → handler _ B) :
    P A m → (∀ a, P B (f a)) → P B (m ≫= f);
  sw_lift A (x : go A) : P A (lift x);
  sw_get : P _ get;
  sw_now : P _ now;
  sw_modify f : (∀ p, r_stateMachine (f p) = r_stateMachine p ∧ setup (f p) = setup p ∧ loses p (f p)) →
    P _ (modify f);
  sw_store_client id r data : R r → P _ (setR (λ s, s <| r_CiphertextsHistoryClients :=
    remember (r_CiphertextsHistoryClients s) id r data |>));
  sw_store_trustee id r data : R r → P _ (setR (λ s, s <| r_CiphertextsHistoryTrustees :=
    remember (r_CiphertextsHistoryTrustees s) id r data |>));
  sw_shutdown : P _ (r_ChangeState "SHUTDOWN");
  sw_emit e : silent e = true → P _ (emit e);
  sw_send d m : dataSends d m = true → P _ (sendToWithLog d m);
  sw_phase2 : P _ startPhase2
}.

Class Stepwise {CS : CryptoSuite} {NW : Network CS} {CK : Clock CS} {PS : ProofSystem CS}
    (R : Z → Prop) (P : ∀ A : Type, handler (PriFiLibRelayInstance CS) A → Prop) : Prop := {
  sw_quiet :: Quiet R P;
  sw_configure f : (∀ p, r_stateMachine (f p) = r_stateMachine p ∧ loses p (f p)) → P _ (modify f);
  sw_change x : P _ (r_ChangeState x);
  sw_any_send d m : relaySends d m = true → P _ (sendToWithLog d m)
}.

(** The messages of the setup *)
Definition setupMessage {CS : CryptoSuite} (m : message CS) : bool :=
  match m with
  | MParameters _ | MTellPk _ | MTellPkEph _ | MNewBase _ | MShuffleSig _ => true
  | _ => false
  end.

Lemma sw_forEach {CS : CryptoSuite} {NW : Network CS} {CK : Clock CS} {PS : ProofSystem CS} {R : Z → Prop}
    (P : ∀ A : Type, handler (PriFiLibRelayInstance CS) A → Prop) {SW : Quiet R P}
    {X} (f : X → handler (PriFiLibRelayInstance CS) unit) l :
  (∀ x, P unit (f x)) → P unit (forEach f l).
Proof. intros Hf. induction l as [|x l IH]; [apply sw_ret | by apply sw_bind]. Qed.

Create HintDb relay_steps.

(** Go through a handler; [prim] deals with its assignments and messages, and what
    is left is a handler of its own. *)
Ltac walk prim :=
  repeat first
    [ apply sw_ret | apply sw_lift | apply sw_get | apply sw_emit; done | apply sw_now
    | prim | solve [eauto with relay_steps nocore]
    | refine (sw_forEach _ _ _ _); intros ? | apply sw_bind; [|intros ?]
    | match goal with
      | |- ?P _ (if ?b then _ else _) => destruct b
      | |- ?P _ (match ?x with _ => _ end) => destruct x
      | |- ?P _ (let _ := _ in _) => cbv zeta
      end ].

Section histories.
Context {CS : CryptoSuite}.

Lemma bufferOf_delete r (h : gmap Z (gmap Z bytes)) id : bufferOf (delete r <$> h) id = delete r (bufferOf h id).
Proof. unfold bufferOf. rewrite lookup_fmap. destruct (h !! id); cbn; [done | by rewrite delete_empty]. Qed.

(** Closing a round and new parameters add no ciphertext. *)
Lemma delete_loses (p q : PriFiLibRelayInstance CS) r :
  r_CiphertextsHistoryClients (relayState q) = delete r <$> r_CiphertextsHistoryClients (relayState p) →
  r_CiphertextsHistoryTrustees (relayState q) = delete r <$> r_CiphertextsHistoryTrustees (relayState p) → loses p q.
Proof.
  intros E1 E2 k [id H]. exists id. rewrite E1, E2, !bufferOf_delete, !lookup_delete_is_Some in H. tauto.
Qed.

Lemma emptyHistories_none n id r : bufferOf (emptyHistories n) id !! r = None.
Proof.
  unfold emptyHistories. generalize (ids (i32 n)). intros l.
  assert (∀ m : gmap Z (gmap Z bytes), bufferOf m id !! r = None →
    bufferOf (foldl (λ m i, <[i := ∅]> m) m l) id !! r = None) as H; [|by apply H].
  induction l as [|i l IH]; intros m Hm; [done|]. apply IH. unfold bufferOf.
  destruct (decide (i = id)) as [->|Hne]; [by rewrite lookup_insert_eq | by rewrite lookup_insert_ne].
Qed.

Lemma reset_loses (p q : PriFiLibRelayInstance CS) n m :
  r_CiphertextsHistoryClients (relayState q) = emptyHistories n →
  r_CiphertextsHistoryTrustees (relayState q) = emptyHistories m → loses p q.
Proof.
  intros E1 E2 r [id H]. rewrite E1, E2, !emptyHistories_none in H. by destruct H as [[? ?]|[? ?]].
Qed.
End histories.

Section quiet.
Context {CS : CryptoSuite} {NW : Network CS} {CK : Clock CS} {PS : ProofSystem CS} {R : Z → Prop}.
Context (P : ∀ A : Type, handler (PriFiLibRelayInstance CS) A → Prop) {SW : Quiet R P}.
#[local] Arguments P {A} _.

Lemma step_setR f :
  (∀ p : PriFiLibRelayInstance CS, setup (p <| relayState := f (relayState p) |>) = setup p
     ∧ loses p (p <| relayState := f (relayState p) |>)) → P (setR f).
Proof. intros Hf. apply sw_modify. intros p. by split. Qed.

Ltac steps :=
  walk ltac:(first [apply sw_modify; intros; split_and!; [done | done | by intros ? ?] | apply sw_shutdown | apply step_setR; intros; split; [done | by intros ? ?]
                   | apply sw_send; done | apply sw_phase2]).

Lemma step_getR : P getR.
Proof. unfold getR. steps. Qed.
Lemma step_setManager b : P (setManager b).
Proof. apply step_setR. intros p. split; [done|]. by intros ? ?. Qed.
#[local] Hint Resolve step_getR step_setManager : relay_steps.

Lemma step_startMeasure x : P (startMeasure x).
Proof. unfold startMeasure. steps. Qed.
Lemma step_stopMeasure x : P (stopMeasure x).
Proof. unfold stopMeasure. steps. Qed.
Lemma step_addTime x v : P (addTime x v).
Proof. unfold addTime. steps. Qed.
Lemma step_onBitrate {A} (f : _ → A * _) : P (onBitrate f).
Proof. unfold onBitrate. steps. Qed.
Lemma step_sendRateEvent e : P (sendRateEvent e).
Proof. unfold sendRateEvent, SendToTrusteeWithLog. steps. Qed.
Lemma step_sendToTrustees m : dataSends (ToTrustee 0) m = true → P (sendToTrustees m).
Proof. intros Hm. unfold sendToTrustees, SendToTrusteeWithLog. steps. Qed.
Lemma step_sendToClients m : dataSends (ToClient 0) m = true → P (sendToClients m).
Proof. intros Hm. unfold sendToClients, SendToClientWithLog. steps. Qed.
Lemma step_AssertState x : P (r_AssertState x).
Proof. unfold r_AssertState. steps. Qed.
Lemma step_AssertStateOrState x y : P (r_AssertStateOrState x y).
Proof. unfold r_AssertStateOrState. steps. Qed.
#[local] Hint Resolve step_startMeasure step_stopMeasure step_addTime step_onBitrate
  step_sendRateEvent step_sendToTrustees step_sendToClients step_AssertState
  step_AssertStateOrState : relay_steps.

Lemma step_shutdown : P r_Received_ALL_ALL_SHUTDOWN.
Proof. unfold r_Received_ALL_ALL_SHUTDOWN. steps. Qed.
#[local] Hint Resolve step_shutdown : relay_steps.

Lemma step_next_data : P nextDownstreamData.
Proof. unfold nextDownstreamData. steps. Qed.
Lemma step_send_downstream m : P (sendDownstream m).
Proof. unfold sendDownstream, BroadcastToAllClientsWithLog. steps. Qed.
#[local] Hint Resolve step_next_data step_send_downstream : relay_steps.
Lemma step_open_round : P downstreamPhase1_openRoundAndSendData.
Proof. unfold downstreamPhase1_openRoundAndSendData. steps. Qed.
#[local] Hint Resolve step_open_round : relay_steps.
Lemma step_send_many : P downstreamPhase_sendMany.
Proof. unfold downstreamPhase_sendMany. steps. Qed.
#[local] Hint Resolve step_send_many : relay_steps.

Lemma step_decode roundID oc : P (collectAndDecode roundID oc).
Proof. unfold collectAndDecode. steps. Qed.
#[local] Hint Resolve step_decode : relay_steps.
Lemma step_oc_map roundID : P (upstreamPhase2a_extractOCMap roundID).
Proof. unfold upstreamPhase2a_extractOCMap. steps. Qed.
Lemma step_disruption_check roundID text : P (disruptionCheck roundID text).
Proof. unfold disruptionCheck. steps. Qed.
Lemma step_pcap_message text pos : P (pcapMessage text pos).
Proof. unfold pcapMessage. steps. Qed.
#[local] Hint Resolve step_oc_map step_disruption_check step_pcap_message : relay_steps.
Lemma step_pcap_messages fuel text pos : P (pcapMessages fuel text pos).
Proof. revert pos. induction fuel as [|fuel IH]; intros pos; cbn [pcapMessages]; steps. Qed.
Lemma step_priority data : P (sendPriority data).
Proof. unfold sendPriority. steps. Qed.
#[local] Hint Resolve step_pcap_messages step_priority : relay_steps.
Lemma step_inspect text : P (inspectPayload text).
Proof. unfold inspectPayload. steps. Qed.
#[local] Hint Resolve step_inspect : relay_steps.
Lemma step_extract : P upstreamPhase2b_extractPayload.
Proof. unfold upstreamPhase2b_extractPayload. steps. Qed.
Lemma step_experiment printed name : P (collectExperimentResult printed name).
Proof. unfold collectExperimentResult. steps. Qed.
#[local] Hint Resolve step_extract step_experiment : relay_steps.
Lemma step_reports roundID : P (collectReports roundID).
Proof. unfold collectReports. steps. Qed.
#[local] Hint Resolve step_reports : relay_steps.
Lemma step_finalize roundID : P (upstreamPhase3_finalizeRound roundID).
Proof. unfold upstreamPhase3_finalizeRound. steps. apply step_setR. intros p. split; [done|]. by apply (delete_loses p _ roundID). Qed.
#[local] Hint Resolve step_finalize : relay_steps.
Lemma step_process b : P (upstreamPhase1_processCiphers b).
Proof. unfold upstreamPhase1_processCiphers. steps. Qed.
#[local] Hint Resolve step_process : relay_steps.
Lemma step_process_if b : P (processIfComplete b).
Proof. unfold processIfComplete. steps. Qed.
#[local] Hint Resolve step_process_if : relay_steps.

Lemma step_upstream m : R (up_RoundID m) → P (Received_CLI_REL_UPSTREAM_DATA m).
Proof. intros Hr. unfold Received_CLI_REL_UPSTREAM_DATA. steps. by apply sw_store_client. Qed.
Lemma step_cipher m : R (tc_RoundID m) → P (Received_TRU_REL_DC_CIPHER m).
Proof. intros Hr. unfold Received_TRU_REL_DC_CIPHER. steps. by apply sw_store_trustee. Qed.
Lemma step_openclosed m : P (Received_CLI_REL_OPENCLOSED_DATA m).
Proof. unfold Received_CLI_REL_OPENCLOSED_DATA. steps. Qed.
Lemma step_timeout round : P (checkIfRoundHasEndedAfterTimeOut_Phase1 round).
Proof. unfold checkIfRoundHasEndedAfterTimeOut_Phase1. steps. Qed.
Lemma step_blame m : P (Received_CLI_REL_DISRUPTION_BLAME m).
Proof. unfold Received_CLI_REL_DISRUPTION_BLAME. steps. Qed.
Lemma step_client_reveal m : P (Received_CLI_REL_DISRUPTION_REVEAL m).
Proof. unfold Received_CLI_REL_DISRUPTION_REVEAL. steps. Qed.
Lemma step_trustee_reveal m : P (Received_TRU_REL_DISRUPTION_REVEAL m).
Proof. unfold Received_TRU_REL_DISRUPTION_REVEAL. steps. Qed.
Lemma step_check_secret i secret nizk pval : P (checkSecret i secret nizk pval).
Proof. unfold checkSecret. steps. Qed.
#[local] Hint Resolve step_check_secret : relay_steps.
Lemma step_trustee_secret m : P (Received_TRU_REL_SHARED_SECRETS m).
Proof. unfold Received_TRU_REL_SHARED_SECRETS. steps. Qed.
Lemma step_client_secret m : P (Received_CLI_REL_SHARED_SECRET m).
Proof. unfold Received_CLI_REL_SHARED_SECRET. steps. Qed.
#[local] Hint Resolve step_upstream step_cipher step_openclosed step_blame step_client_reveal
  step_trustee_reveal step_trustee_secret step_client_secret : relay_steps.

(** The other messages. *)
Lemma relay_quiet rnd1 rnd2 msg :
  setupMessage msg = false → brings R msg → P (r_ReceivedMessage rnd1 rnd2 msg).
Proof. intros Hm Hb. unfold r_ReceivedMessage. cbv zeta. destruct msg; try discriminate Hm; steps. Qed.
End quiet.

Section stepwise.
Context {CS : CryptoSuite} {NW : Network CS} {CK : Clock CS} {PS : ProofSystem CS} {R : Z → Prop}.
Context (P : ∀ A : Type, handler (PriFiLibRelayInstance CS) A → Prop) {SW : Stepwise R P}.
#[local] Arguments P {A} _.

Lemma step_configure f :
  (∀ p : PriFiLibRelayInstance CS, loses p (p <| relayState := f (relayState p) |>)) → P (setR f).
Proof. intros Hf. by apply sw_configure. Qed.
Ltac steps :=
  unfold sendToTrustees, sendToClients, SendToTrusteeWithLog, SendToClientWithLog;
  walk ltac:(first [apply step_configure; by intros ? ? ? | apply sw_change | apply sw_any_send; done
                   | apply (step_getR (@P)) | apply (step_setManager (@P)) | apply (step_startMeasure (@P))
                   | apply (step_stopMeasure (@P)) | apply (step_AssertState (@P))]).

Lemma step_broadcast : P BroadcastParameters.
Proof. unfold BroadcastParameters, SendToTrusteeWithLog. steps. Qed.
Lemma step_parameters m : P (r_Received_ALL_ALL_PARAMETERS m).
Proof.
  pose proof step_broadcast. unfold r_Received_ALL_ALL_PARAMETERS. steps.
  apply step_configure. intros p. by eapply reset_loses.
Qed.
Lemma step_tell_pk m : P (Received_TRU_REL_TELL_PK m).
Proof. unfold Received_TRU_REL_TELL_PK, SendToClientWithLog. steps. Qed.
Lemma step_next_trustee : P sendToNextTrustee.
Proof. unfold sendToNextTrustee, SendToTrusteeWithLog. steps. Qed.
#[local] Hint Resolve step_broadcast step_parameters step_next_trustee step_tell_pk : relay_steps.
Lemma step_tell_pk_eph m : P (Received_CLI_REL_TELL_PK_AND_EPH_PK m).
Proof. unfold Received_CLI_REL_TELL_PK_AND_EPH_PK. steps. Qed.
Lemma step_new_base rnd1 rnd2 m : P (Received_TRU_REL_TELL_NEW_BASE rnd1 rnd2 m).
Proof. unfold Received_TRU_REL_TELL_NEW_BASE. steps. Qed.
Lemma step_shuffle_sig m : P (Received_TRU_REL_SHUFFLE_SIG m).
Proof. unfold Received_TRU_REL_SHUFFLE_SIG. steps. Qed.
#[local] Hint Resolve step_tell_pk_eph step_new_base step_shuffle_sig : relay_steps.

Lemma relay_stepwise rnd1 rnd2 msg : brings R msg → P (r_ReceivedMessage rnd1 rnd2 msg).
Proof.
  intros Hb. destruct (setupMessage msg) eqn:Hm; [|by apply (relay_quiet (@P))].
  unfold r_ReceivedMessage. cbv zeta. destruct msg; try discriminate Hm; steps.
Qed.
End stepwise.

(** The messages among the events are allowed by [sends]. *)
Definition sentBy {CS : CryptoSuite} (sends : dest → message CS → bool) (e : event CS) : Prop :=
  match e with Sent d m | SendFailed d m => sends d m = true | _ => True end.

(** The state stays, or becomes SHUTDOWN. *)
Definition stateOf {CS : CryptoSuite} (p : PriFiLibRelayInstance CS) : string := currentState (r_stateMachine p).
Definition rests {CS : CryptoSuite} {A} (m : handler (PriFiLibRelayInstance CS) A) : Prop :=
  ∀ p tr a p' tr', m (p, tr) = Ret (a, (p', tr')) → stateOf p' = stateOf p ∨ stateOf p' = "SHUTDOWN".

Section instances.
Context {CS : CryptoSuite} {NW : Network CS} {CK : Clock CS} {PS : ProofSystem CS}.

Lemma mismatches_setup (s : RelayState CS) (p : PriFiLibRelayInstance CS) :
  relayState p = s → setup (p <| relayState := (checkMismatchingPairs s).2 |>) = setup p.
Proof. intros <-. unfold checkMismatchingPairs. by destruct (mismatches _ _) as [|[[] []]]. Qed.

Ltac keep :=
  intros; try (by apply keeps_ret) || (by apply keeps_bind) || (by apply keeps_lift)
    || (by apply keeps_get) || (by apply keeps_now) || (by apply keeps_emit) || (by apply keeps_send)
    || (unfold setR; by apply keeps_modify).

(** The states a relay knows *)
Abbreviation knows := (λ p : PriFiLibRelayInstance CS, states (r_stateMachine p)).

Lemma keeps_knows_change x : keeps_proj knows (r_ChangeState x).
Proof. unfold r_ChangeState. intros p tr a p' tr' H. h_run H. by use changeOrFatal_ret as [_ Hst]. Qed.

#[export] Instance knows_quiet : Quiet anyRound (λ A m, keeps_proj knows m).
Proof.
  split; keep; [|apply keeps_knows_change|].
  - apply keeps_modify. intros p. by rewrite (proj1 (H p)).
  - unfold startPhase2, getR, setR. solve_keeps.
Qed.
#[export] Instance knows_stepwise : Stepwise anyRound (λ A m, keeps_proj knows m).
Proof. split; keep; [apply knows_quiet | apply keeps_modify; intros p; by rewrite (proj1 (H p)) | apply keeps_knows_change]. Qed.

Lemma relay_keeps_states rnd1 rnd2 msg : keeps_proj knows (r_ReceivedMessage rnd1 rnd2 msg).
Proof. apply (relay_stepwise (λ A m, keeps_proj knows m)). by destruct msg. Qed.
Lemma knows_timeout round : keeps_proj knows (checkIfRoundHasEndedAfterTimeOut_Phase1 round).
Proof. exact (step_timeout (λ A m, keeps_proj knows m) round). Qed.

(** What the setup agreed on *)
#[export] Instance setup_quiet : Quiet anyRound (λ A m, keeps_proj setup m).
Proof.
  split; keep.
  - apply keeps_modify. intros p. apply H.
  - unfold r_ChangeState. solve_keeps.
  - intros p tr a p' tr' H. unfold startPhase2, getR, setR in H. h_run H.
    destruct (_ && _); [|by h_run H]. destruct (checkMismatchingPairs _) as [mm s1] eqn:Es.
    h_run H. destruct mm; [|by h_run H]. h_run H. unfold SendToTrusteeWithLog, SendToClientWithLog in *.
    repeat match goal with E : sendToWithLog _ _ _ = Ret _ |- _ => apply (keeps_send setup) in E; rewrite E end.
    pose proof (mismatches_setup _ p eq_refl) as Hs. by rewrite Es in Hs.
Qed.

(** What is sent *)
#[export] Instance sends_quiet sends : (∀ d m, dataSends d m = true → sends d m = true) →
  Quiet anyRound (λ A m, emits (sentBy sends) m).
Proof.
  intros Hs. split; intros; try (by apply emits_ret) || (by apply emits_bind) || (by apply emits_lift)
    || (by apply emits_get) || (by apply emits_now) || (by apply emits_modify).
  - unfold r_ChangeState. solve_emits.
  - apply emits_emit. by destruct e.
  - apply emits_send; cbn; auto.
  - unfold startPhase2, getR, setR, SendToTrusteeWithLog, SendToClientWithLog.
    solve_emits_with ltac:(apply emits_send; cbn; by auto).
Qed.
#[export] Instance sends_stepwise : Stepwise anyRound (λ A m, emits (sentBy relaySends) m).
Proof.
  split.
  - apply sends_quiet. intros d m [H _]%andb_prop. done.
  - intros f _. apply emits_modify.
  - intros x. unfold r_ChangeState. solve_emits.
  - intros d m Hm. by apply emits_send.
Qed.

Lemma relay_sends rnd1 rnd2 msg : emits (sentBy relaySends) (r_ReceivedMessage rnd1 rnd2 msg).
Proof. apply (relay_stepwise (λ A m, emits (sentBy relaySends) m)). by destruct msg. Qed.

Lemma relay_timeout_sends round :
  emits (sentBy relaySends) (checkIfRoundHasEndedAfterTimeOut_Phase1 round).
Proof. exact (step_timeout (λ A m, emits (sentBy relaySends) m) round). Qed.

(** The state of the machine *)
Lemma rests_keeps {A} (m : handler (PriFiLibRelayInstance CS) A) : keeps_proj r_stateMachine m → rests m.
Proof. intros Hm p tr a p' tr' H. left. unfold stateOf. by rewrite (Hm _ _ _ _ _ H). Qed.

#[export] Instance rests_quiet : Quiet anyRound (λ A m, rests m).
Proof.
  split; intros; try (apply rests_keeps; solve [keep]).
  - intros p tr b p' tr' E. apply handler_bind_inv in E as (a & [p1 tr1] & E1 & E).
    destruct (H _ _ _ _ _ E1) as [<-|Hd], (H0 a _ _ _ _ _ E) as [->|]; auto.
  - apply rests_keeps, keeps_modify. intros p. apply H.
  - unfold r_ChangeState. intros p tr a p' tr' H. h_run H. use changeOrFatal_ret as [Hc _]. by right.
  - apply rests_keeps. unfold startPhase2, getR, setR. solve_keeps.
Qed.
End instances.
