(* ===== verification/RelayInv.v ===== *)
(** * The relay's phases, specified one by one

    What a round of the relay does to the part of the state that matters for the
    protocol (a [view]: round manager, decoder, packets in flight, window, ...)
    and to what can be observed from outside (downstream messages and decoded
    payloads), whatever the statistics do on the side. *)

From S2P Require Import Prelude Bytes Crypto DCNetCipher Equivocation DCNet DCNetRound BitMask.
From S2P Require Import Messages StateMachine Measurements Statistics RoundManager RoundManagerInv.
From S2P Require Import RoundManagerSpec NeffShuffle Network HandlerLogic Trustee Relay.

Open Scope Z_scope.

(** ** Observations *)

(** A downstream message for a destination, or a decoded payload. *)
Inductive obs := Down (d : dest) (m : REL_CLI_DOWNSTREAM_DATA) | Out (data : bytes).

#[export] Instance obs_eq_dec : EqDecision obs.
Proof. solve_decision. Defined.

Section observe.
Context {CS : CryptoSuite}.

Definition down_of (d : dest) (m : message CS) : list obs :=
  match m with
  | MDownstream m => [Down d m]
  | MDownstreamUDP m => [Down d m]
  | _ => []
  end.

(** A message counts when it is handed to the network, delivered or not. *)
Definition observe1 (e : event CS) : list obs :=
  match e with
  | Sent d m => down_of d m
  | SendFailed d m => down_of d m
  | Delivered x => [Out x]
  | _ => []
  end.
Definition observe (tr : list (event CS)) : list obs := flat_map observe1 tr.

Lemma observe_app tr1 tr2 : observe (tr1 ++ tr2) = observe tr1 ++ observe tr2.
Proof. apply flat_map_app. Qed.

Lemma observe_send d m evs :
  evs = [Sent d m] ∨ (∃ e, evs = [SendFailed d m; NetworkError e]) →
  observe evs = down_of d m.
Proof. unfold observe. intros [->|[e ->]]; cbn; by rewrite ?app_nil_r. Qed.
End observe.
Arguments observe {CS} tr : simpl never.

(** The crashes an ill-formed cell can cause. *)
Definition bad_cell (c : crash) : Prop :=
  match c with
  | RuntimeError => True
  | Panicked m => m ≠ "Cannot DecodeClient for round"%string
  | _ => False
  end.

Section specs.
Context {CS : CryptoSuite} `{!Network CS} `{!Clock CS} `{!ProofSystem CS}.

Record view := mkView {
  v_rm : BufferableRoundManager;
  v_dcnet : option (DCNetEntity CS);
  v_flight : Z;
  v_window : Z;
  v_nC : Z;
  v_nT : Z;
  v_size : Z;
  v_equiv : bool;
  v_disr : bool;
  v_udp : bool;
  v_output : bool;
  v_prio : list bytes;
  v_oc : gmap Z bool;
  v_pks : Z;
  v_sm : StateMachine
}.

#[export] Instance eta_view : Eta view := λ v,
  mkView (v_rm v) (v_dcnet v) (v_flight v) (v_window v) (v_nC v) (v_nT v) (v_size v) (v_equiv v)
    (v_disr v) (v_udp v) (v_output v) (v_prio v) (v_oc v) (v_pks v) (v_sm v).

Definition viewOf (p : PriFiLibRelayInstance CS) : view :=
  let s := relayState p in
  mkView (r_roundManager s) (r_DCNet s) (r_numberOfNonAckedDownstreamPackets s) (r_WindowSize s)
    (r_nClients s) (r_nTrustees s) (r_PayloadSize s) (r_EquivocationProtectionEnabled s)
    (r_DisruptionProtectionEnabled s) (r_UseUDP s) (r_DataOutputEnabled s)
    (r_PriorityDataForClients s) (r_OpenClosedSlotsRequestsRoundID s) (r_nClientsPkCollected s)
    (r_stateMachine p).

(** The statistics objects exist. *)
Definition timers_ok (s : RelayState CS) : Prop :=
  Forall (λ k, is_Some (r_timeStatistics s !! k)) relayTimers.
Definition stats_ok (s : RelayState CS) : Prop :=
  timers_ok s ∧ is_Some (r_bitrateStatistics s) ∧ is_Some (r_pcapLogger s).

(** [vspec C m v Q]: from a relay with view [v], [m] ends in a view and with
    observations that satisfy [Q], or stops with a crash allowed by [C]. *)
Definition vspec {A} (C : crash → Prop) (m : handler (PriFiLibRelayInstance CS) A) (v : view)
    (Q : A → view → list obs → Prop) : Prop :=
  ∀ p tr, stats_ok (relayState p) → viewOf p = v →
  wp C m (λ a w, stats_ok (relayState w.1) ∧
                 ∃ os, observe w.2 = observe tr ++ os ∧ Q a (viewOf w.1) os) (p, tr).

Lemma vspec_weaken {A} (C C' : crash → Prop) (m : handler (PriFiLibRelayInstance CS) A) v Q :
  (∀ c, C c → C' c) → vspec C m v Q → vspec C' m v Q.
Proof.
  intros HC H p tr Hs Hv. specialize (H p tr Hs Hv). unfold wp in *.
  destruct (m (p, tr)) as [[a w]|c]; auto.
Qed.

Section rules.
Context (C : crash → Prop).

Lemma vspec_mono {A} (m : handler (PriFiLibRelayInstance CS) A) v (Q Q' : A → view → list obs → Prop) :
  (∀ a v' os, Q a v' os → Q' a v' os) → vspec C m v Q → vspec C m v Q'.
Proof.
  intros HQ H p tr Hs Hv. eapply wp_mono; [|by apply H]. cbn.
  intros a w (Hs' & os & Ho & Hq). eauto.
Qed.

Lemma vspec_bind {A B} (m : handler (PriFiLibRelayInstance CS) A) (f : A → handler _ B) v Q :
  vspec C m v (λ a v1 os1, vspec C (f a) v1 (λ b v2 os2, Q b v2 (os1 ++ os2))) →
  vspec C (m ≫= f) v Q.
Proof.
  intros H p tr Hs Hv. apply wp_bind. eapply wp_mono; [|by apply H]. cbn.
  intros a [p1 tr1] (Hs1 & os1 & Ho1 & Hf). cbn in *.
  eapply wp_mono; [|by apply Hf]. cbn. intros b w (Hs2 & os2 & Ho2 & HQ).
  split; [done|]. exists (os1 ++ os2). by rewrite Ho2, Ho1, app_assoc.
Qed.

Lemma vspec_ret {A} (a : A) v (Q : A → view → list obs → Prop) : Q a v [] → vspec C (mret a) v Q.
Proof. intros H p tr Hs <-. apply wp_ret. split; [done|]. exists []. by rewrite app_nil_r. Qed.

Lemma vspec_get v Q :
  (∀ p, viewOf p = v → stats_ok (relayState p) → Q p v []) → vspec C get v Q.
Proof.
  intros H p tr Hs <-. apply wp_get. split; [done|]. exists []. rewrite app_nil_r. auto.
Qed.

Lemma vspec_getR v Q :
  (∀ p, viewOf p = v → stats_ok (relayState p) → Q (relayState p) v []) → vspec C getR v Q.
Proof. intros H. apply vspec_bind, vspec_get. intros p Hv Hs. apply vspec_ret. auto. Qed.

Lemma vspec_modify f v Q :
  (∀ p, viewOf p = v → stats_ok (relayState p) →
        stats_ok (relayState (f p)) ∧ Q tt (viewOf (f p)) []) →
  vspec C (modify f) v Q.
Proof.
  intros H p tr Hs Hv. apply wp_modify. destruct (H p Hv Hs) as [H1 H2].
  split; [done|]. exists []. by rewrite app_nil_r.
Qed.

Lemma vspec_now v Q : (∀ t, Q t v []) → vspec C now v Q.
Proof.
  intros H p tr Hs <-. apply wp_now. intros t. split; [done|]. exists []. by rewrite app_nil_r.
Qed.

Lemma vspec_emit e v Q : Q tt v (observe1 e) → vspec C (emit e) v Q.
Proof.
  intros H p tr Hs <-. apply wp_emit. split; [done|]. exists (observe1 e). cbn [snd].
  rewrite observe_app. unfold observe at 2. cbn. by rewrite app_nil_r.
Qed.

Lemma vspec_lift {A} (m : go A) v (Q : A → view → list obs → Prop) :
  (∀ a, m = Ret a → Q a v []) → (∀ c, m = Crash c → C c) → vspec C (lift m) v Q.
Proof.
  intros H1 H2 p tr Hs <-. apply wp_lift; [|done]. intros a Ha. split; [done|]. exists [].
  rewrite app_nil_r. auto.
Qed.

Lemma vspec_lift_ret {A} (m : go A) a v (Q : A → view → list obs → Prop) :
  m = Ret a → Q a v [] → vspec C (lift m) v Q.
Proof. intros -> H. apply vspec_lift; [by intros ? [= <-] | by intros ? [=]]. Qed.

Lemma vspec_send d m v Q : (∀ b, Q b v (down_of d m)) → vspec C (sendToWithLog d m) v Q.
Proof.
  intros H p tr Hs <-. apply wp_send. intros b evs Hevs. split; [done|]. exists (down_of d m).
  cbn [snd]. rewrite observe_app, (observe_send d m evs) by done. split; [done | apply H].
Qed.

Lemma vspec_forEach {X} (f : X → handler (PriFiLibRelayInstance CS) unit)
    (I : list X → view → list obs → Prop) l v :
  (∀ done x todo v1 os, l = done ++ x :: todo → I done v1 os →
     vspec C (f x) v1 (λ _ v2 os2, I (done ++ [x]) v2 (os ++ os2))) →
  I [] v [] → vspec C (forEach f l) v (λ _, I l).
Proof.
  intros Hstep H0 p tr Hs Hv.
  apply (wp_forEach C f (λ done w, stats_ok (relayState w.1) ∧
    ∃ os, observe w.2 = observe tr ++ os ∧ I done (viewOf w.1) os)).
  - intros done x todo [p1 tr1] Hl (Hs1 & os & Ho & HI). cbn in *.
    eapply wp_mono; [|by eapply (Hstep done x todo (viewOf p1) os Hl HI)]. cbn.
    intros _ w (Hs2 & os2 & Ho2 & HI2). split; [done|]. exists (os ++ os2).
    by rewrite Ho2, Ho, app_assoc.
  - split; [done|]. exists []. rewrite app_nil_r. cbn. by rewrite Hv.
Qed.

(** A handler that only touches statistics and sends nothing observable. *)
Definition quiet {A} (m : handler (PriFiLibRelayInstance CS) A) : Prop :=
  ∀ v, vspec C m v (λ _ v' os, v' = v ∧ os = []).

Lemma vspec_quiet {A B} (m : handler (PriFiLibRelayInstance CS) A) (f : A → handler _ B) v Q :
  quiet m → (∀ a, vspec C (f a) v Q) → vspec C (m ≫= f) v Q.
Proof.
  intros Hm Hf. apply vspec_bind. eapply vspec_mono; [|apply Hm]. cbn.
  intros a v' os [-> ->]. apply Hf.
Qed.

Lemma quiet_last {A} (m : handler (PriFiLibRelayInstance CS) A) v Q :
  quiet m → (∀ a, Q a v []) → vspec C m v Q.
Proof. intros Hm HQ. eapply vspec_mono; [|apply Hm]. intros a v' os [-> ->]. apply HQ. Qed.

Lemma quiet_bind {A B} (m : handler (PriFiLibRelayInstance CS) A) (f : A → handler _ B) :
  quiet m → (∀ a, quiet (f a)) → quiet (m ≫= f).
Proof. intros Hm Hf v. apply vspec_quiet; [done|]. intros a. apply Hf. Qed.

Lemma quiet_ret {A} (a : A) : quiet (mret a).
Proof. intros v. by apply vspec_ret. Qed.

Lemma quiet_setR f :
  (∀ p, viewOf (p <| relayState := f (relayState p) |>) = viewOf p) →
  (∀ s, stats_ok s → stats_ok (f s)) → quiet (setR f).
Proof.
  intros Hv Hs v. apply vspec_modify. intros p Hp Hsp. split; [by apply Hs|].
  split; [|done]. by rewrite Hv.
Qed.

Lemma quiet_emit e : observe1 e = [] → quiet (emit e).
Proof. intros He v. apply vspec_emit. by rewrite He. Qed.

Lemma quiet_send d m : down_of d m = [] → quiet (sendToWithLog d m).
Proof. intros He v. apply vspec_send. intros b. by rewrite He. Qed.

Lemma quiet_forEach {X} (f : X → handler (PriFiLibRelayInstance CS) unit) l :
  (∀ x, x ∈ l → quiet (f x)) → quiet (forEach f l).
Proof.
  intros Hf v. apply (vspec_forEach f (λ _ v' os, v' = v ∧ os = [])); [|done].
  intros done x todo v1 os Hl [-> ->]. apply Hf. rewrite Hl. set_solver.
Qed.

Lemma startMeasure_quiet n : quiet (startMeasure n).
Proof.
  intros v. apply vspec_bind, vspec_now. intros t. apply vspec_modify.
  intros p Hv Hs. by split.
Qed.

Lemma stopMeasure_quiet n : quiet (stopMeasure n).
Proof.
  intros v. apply vspec_bind, vspec_now. intros t. apply vspec_bind, vspec_get.
  intros p _ _. destruct (StopMeasure t n (r_timing p)) as [d m]. apply vspec_bind, vspec_modify.
  intros p' Hv Hs. split; [done|]. apply vspec_ret. by rewrite <- Hv.
Qed.

Lemma timers_insert (m : gmap string TimeStatistics) (k : string) t :
  Forall (λ j, is_Some (m !! j)) relayTimers → Forall (λ j, is_Some (<[k := t]> m !! j)) relayTimers.
Proof.
  intros H. eapply Forall_impl; [exact H|]. intros k' Hk'. rewrite lookup_insert_is_Some'. by right.
Qed.

Lemma addTime_quiet k z : k ∈ relayTimers → quiet (addTime k z).
Proof.
  intros Hk v. apply vspec_bind, vspec_getR. intros p Hv Hs.
  destruct Hs as [Ht Hb]. pose proof Ht as Ht'. unfold timers_ok in Ht'.
  rewrite Forall_forall in Ht'. destruct (Ht' k Hk) as [t ->].
  apply quiet_setR; [done|]. intros s [H1 H2]. split; [by apply timers_insert | done].
Qed.

Lemma onBitrate_quiet {A} (f : BitrateStatistics → A * BitrateStatistics) : quiet (onBitrate f).
Proof.
  intros v. apply vspec_bind, vspec_getR. intros p Hv (_ & [b ->] & _).
  destruct (f b) as [a b']. apply quiet_bind; [|intros; apply quiet_ret].
  apply quiet_setR; [done|]. intros s (H1 & H2 & H3). split_and!; [done | by eexists | done].
Qed.

Lemma collectExperimentResult_quiet b k : quiet (collectExperimentResult b k).
Proof.
  intros v. apply vspec_bind, vspec_getR. intros p Hv Hs.
  destruct b; cbn [negb]; [|apply quiet_ret].
  destruct (r_ExperimentRoundLimit (relayState p) =? -1); [apply quiet_ret|]. by apply quiet_setR.
Qed.

Lemma quiet_getR {B} (f : RelayState CS → handler _ B) : (∀ s, quiet (f s)) → quiet (getR ≫= f).
Proof. intros Hf v. apply vspec_bind, vspec_getR. intros p _ _. apply Hf. Qed.

Lemma quiet_now {B} (f : Z → handler _ B) : (∀ t, quiet (f t)) → quiet (now ≫= f).
Proof. intros Hf v. apply vspec_bind, vspec_now. intros t. apply Hf. Qed.

Lemma collectReports_quiet r : quiet (collectReports r).
Proof.
  apply quiet_now. intros t. apply quiet_bind; [apply onBitrate_quiet|]. intros rep.
  apply quiet_bind; [apply collectExperimentResult_quiet|]. intros _. apply quiet_getR. intros s.
  destruct (sc_Report t (r_schedulesStatistics s)) as [rep2 sc].
  apply quiet_bind; [by apply quiet_setR|]. intros _.
  apply quiet_bind; [apply collectExperimentResult_quiet|]. intros _.
  apply quiet_bind; [apply addTime_quiet; set_solver|]. intros _.
  apply quiet_getR. intros s'. apply quiet_forEach. intros [k x] _.
  destruct (ReportWithInfo t x) as [printed x']. apply quiet_bind.
  - apply quiet_setR; [done|]. intros s1 (H1 & H2). split; [by apply timers_insert | done].
  - intros _. apply collectExperimentResult_quiet.
Qed.

Lemma sendRateEvents_quiet evs : quiet (forEach sendRateEvent evs).
Proof.
  apply quiet_forEach. intros e _. unfold sendRateEvent.
  destruct e; (apply quiet_bind; [by apply quiet_send | intros _; apply quiet_ret]).
Qed.

Lemma sendToTrustees_quiet m : (∀ d, down_of d m = []) → quiet (sendToTrustees m).
Proof.
  intros Hm. apply quiet_getR. intros s. apply quiet_forEach. intros j _.
  apply quiet_bind; [apply quiet_send, Hm | intros _; apply quiet_ret].
Qed.

Lemma sendToClients_quiet m : (∀ d, down_of d m = []) → quiet (sendToClients m).
Proof.
  intros Hm. apply quiet_getR. intros s. apply quiet_forEach. intros j _.
  apply quiet_bind; [apply quiet_send, Hm | intros _; apply quiet_ret].
Qed.
End rules.
End specs.
