(* ===== verification/RelayPhases.v ===== *)
(** * The rounds of the relay

    Opening a round and announcing it, collecting and decoding the cell of the
    current round, closing it: what each phase of relay.go does to the window of
    rounds, to the decoder and to the packets in flight. *)

From S2P Require Import Prelude Bytes Crypto DCNetCipher Equivocation DCNet DCNetRound BitMask.
From S2P Require Import Messages StateMachine Measurements Statistics RoundManager RoundManagerInv.
From S2P Require Import RoundManagerSpec NeffShuffle Network HandlerLogic Trustee Relay RelayInv.

Open Scope Z_scope.

(** ** What the operations of the round manager leave alone *)

(** The configuration of the manager. *)
Definition same_dims (b b' : BufferableRoundManager) : Prop :=
  maxNumberOfConcurrentRounds b' = maxNumberOfConcurrentRounds b
  ∧ nClients b' = nClients b ∧ nTrustees b' = nTrustees b.

(** ... and the window. *)
Definition same_window (b b' : BufferableRoundManager) : Prop :=
  same_dims b b' ∧ openRounds b' = openRounds b ∧ lastRoundClosed b' = lastRoundClosed b.

#[export] Instance same_dims_trans : Transitive same_dims.
Proof. intros a b c (H1 & H2 & H3) (H4 & H5 & H6). split_and!; congruence. Qed.

#[export] Instance same_window_trans : Transitive same_window.
Proof.
  intros a b c (H1 & H2 & H3) (H4 & H5 & H6). split; [by transitivity b|]. split; congruence.
Qed.

#[export] Instance same_window_refl : Reflexive same_window.
Proof. done. Qed.

Lemma AddClientCipher_window b r i data res b' :
  AddClientCipher b r i data = Ret (res, b') → same_window b b'.
Proof.
  unfold AddClientCipher. destruct (currentRound b) as [any cur]. repeat case_match; try done;
    by intros [= <- <-].
Qed.

Lemma AddTrusteeCipher_window b r i data res evs b' :
  AddTrusteeCipher b r i data = (res, evs, b') → same_window b b'.
Proof.
  unfold AddTrusteeCipher. destruct (currentRound b) as [any cur]. destruct data; [|by intros [= <- <- <-]].
  case_match; [by intros [= <- <- <-]|]. destruct (sendRateChangeIfNeeded _ i) as [ev b2] eqn:E.
  intros [= <- <- <-]. apply sendRateChangeIfNeeded_frame in E. rewrite E. by case_match.
Qed.

Lemma CollectRoundData_window b res b' : CollectRoundData b = (res, b') → same_window b b'.
Proof.
  unfold CollectRoundData. destruct (currentRound b). repeat case_match; by intros [= <- <-].
Qed.

Lemma CollectRoundData_acks b res b' :
  CollectRoundData b = (res, b') → hasAllCiphersForCurrentRound b' = hasAllCiphersForCurrentRound b.
Proof.
  unfold CollectRoundData. destruct (currentRound b). repeat case_match; by intros [= <- <-].
Qed.

Lemma SetStoredRoundSchedule_window b s : same_window b (SetStoredRoundSchedule b s).
Proof. unfold SetStoredRoundSchedule. by destruct (currentRound b). Qed.

Lemma SetStoredRoundSchedule_acks b s :
  hasAllCiphersForCurrentRound (SetStoredRoundSchedule b s) = hasAllCiphersForCurrentRound b.
Proof. unfold SetStoredRoundSchedule. by destruct (currentRound b). Qed.

Lemma SetDataAlreadySent_window b r d b' : SetDataAlreadySent b r d = Ret b' → same_window b b'.
Proof. unfold SetDataAlreadySent. case_match; [done|]. by intros [= <-]. Qed.

Lemma OpenNextRound_dims b now r b' : OpenNextRound b now = Ret (r, b') → same_dims b b'.
Proof.
  unfold OpenNextRound. intros Ho. case_match; [done|]. go_inv Ho. injection Ho as _ <-. by case_match.
Qed.

Lemma closeRound_dims b res evs b' : closeRound b = (res, evs, b') → same_dims b b'.
Proof.
  unfold closeRound. destruct (currentRound b) as [any cur]. case_match; [by intros [= <- <- <-]|].
  destruct (sendRateChanges _ _) as [ev b1] eqn:E. apply sendRateChanges_frame in E.
  destruct (currentRound _) as [any2 cur2]. intros [= <- <- <-]. rewrite E. by case_match.
Qed.

(** No cipher enters the buffers. *)
Definition shrinks (b b' : BufferableRoundManager) : Prop :=
  (∀ i, bufferOf (bufferedClientCiphers b') i ⊆ bufferOf (bufferedClientCiphers b) i)
  ∧ (∀ j, bufferOf (bufferedTrusteeCiphers b') j ⊆ bufferOf (bufferedTrusteeCiphers b) j).

#[export] Instance shrinks_refl : Reflexive shrinks.
Proof. by split. Qed.
#[export] Instance shrinks_trans : Transitive shrinks.
Proof. intros a b c [H1 H2] [H3 H4]. split; intros i; etransitivity; eauto. Qed.

Lemma discardRound_shrinks buffer n r i : bufferOf (discardRound buffer n r) i ⊆ bufferOf buffer i.
Proof. rewrite bufferOf_discardRound. case_decide; [apply delete_subseteq | done]. Qed.

Lemma CollectRoundData_shrinks b res b' : CollectRoundData b = (res, b') → shrinks b b'.
Proof.
  unfold CollectRoundData. destruct (currentRound b). repeat case_match; intros [= <- <-]; try done.
  split; intros i; apply discardRound_shrinks.
Qed.

Lemma closeRound_shrinks b res evs b' : closeRound b = (res, evs, b') → shrinks b b'.
Proof.
  unfold closeRound. destruct (currentRound b) as [any cur]. case_match; [by intros [= <- <- <-]|].
  destruct (sendRateChanges _ _) as [ev b1] eqn:E. apply sendRateChanges_frame in E.
  destruct (currentRound _) as [any2 cur2]. intros [= <- <- <-]. rewrite E.
  case_match; split; intros i; apply discardRound_shrinks.
Qed.

Lemma SetStoredRoundSchedule_shrinks b s : shrinks b (SetStoredRoundSchedule b s).
Proof. unfold SetStoredRoundSchedule. by destruct (currentRound b). Qed.

Lemma owner_shrinks b o b' : updateAndGetNextOwnerID b = Ret (o, b') → shrinks b b'.
Proof. intros H%updateAndGetNextOwnerID_frame. by rewrite H. Qed.

Lemma OpenNextRound_shrinks b now r b' : OpenNextRound b now = Ret (r, b') → shrinks b b'.
Proof.
  unfold OpenNextRound. intros Ho. case_match; [done|]. go_inv Ho. injection Ho as _ <-. by case_match.
Qed.

Lemma SetDataAlreadySent_shrinks b r d b' : SetDataAlreadySent b r d = Ret b' → shrinks b b'.
Proof. unfold SetDataAlreadySent. case_match; [done|]. by intros [= <-]. Qed.

(** The search for the next owner always ends. *)
Lemma nextOpenOwner_total fuel s n : ∀ c j,
  0 ≤ j ≤ Z.of_nat (size s) → (Z.of_nat (size s) - j < Z.of_nat fuel) →
  ∃ o, nextOpenOwner fuel s n c j = Ret o.
Proof.
  induction fuel as [|fuel IH]; intros c j Hj Hf; [lia|]. cbn [nextOpenOwner].
  destruct (s !! c) as [[]|]; [by eauto| |by eauto].
  destruct (Z.eqb_spec j (Z.of_nat (size s))); [by eauto|]. apply IH; lia.
Qed.

Lemma updateAndGetNextOwnerID_total b :
  nClients b ≠ 0 → ∃ o b', updateAndGetNextOwnerID b = Ret (o, b').
Proof.
  intros Hn. unfold updateAndGetNextOwnerID. rewrite (proj2 (Z.eqb_neq _ _) Hn).
  case_match; [by eauto|].
  destruct (nextOpenOwner_total (S (S (size (storedOwnerSchedule b)))) (storedOwnerSchedule b)
    (nClients b) (Z.rem (lastOwner b + 1) (nClients b)) 0) as [o ->]; [lia..|]. cbn. case_match; eauto.
Qed.

(** Opening the next round and storing what was sent for it. *)
Lemma open_and_store b now sent :
  rm_inv b false → Z.of_nat (size (openRounds b)) < maxNumberOfConcurrentRounds b →
  lastOpen b < MaxInt32 - 1 →
  ∃ b1 b2, OpenNextRound b now = Ret (lastOpen b + 1, b1)
  ∧ SetDataAlreadySent b1 (lastOpen b + 1) sent = Ret b2
  ∧ rm_inv b2 false ∧ same_dims b b2 ∧ lastRoundClosed b2 = lastRoundClosed b
  ∧ size (openRounds b2) = S (size (openRounds b)).
Proof.
  intros Hb Hlt Hmax. destruct (OpenNextRound_ok b false now Hb Hlt Hmax) as (b1 & E1 & Hb1 & Hl1 & Ho1).
  pose proof (OpenNextRound_dims _ _ _ _ E1) as Hd1.
  assert (size (openRounds b1) = S (size (openRounds b))) as Hs by (unfold lastOpen in *; lia).
  destruct (SetDataAlreadySent b1 (lastOpen b + 1) sent) as [b2|] eqn:E2.
  - exists b1, b2. pose proof (SetDataAlreadySent_inv _ _ _ _ _ Hb1 E2).
    destruct (SetDataAlreadySent_window _ _ _ _ E2) as (Hd2 & Ho2 & Hl2).
    split_and!; [done..| by transitivity b1 | congruence | congruence].
  - exfalso. revert E2. unfold SetDataAlreadySent, isRoundOpen.
    destruct (openRounds b1 !! (lastOpen b + 1)) eqn:Ex; [done|]. intros _.
    destruct Hb1 as [_ (_ & _ & Hk) _ _ _ _ _]. destruct (proj2 (Hk (lastOpen b + 1))) as [? ?];
      [unfold lastOpen in *; lia | congruence].
Qed.

(** ** The decoder *)

Section decoder.
Context {CS : CryptoSuite}.

Definition fresh_decoder (r size : Z) : DCNetRoundDecoder := mkDecoder r (zeros (Z.to_nat size)) [] [].

(** [d] is the relay's entity, its decoder started for round [r]. *)
Definition decoding (d : DCNetEntity CS) (r : Z) : Prop :=
  RoundDecoder d = Some (fresh_decoder r (DCNetPayloadSize d)).

Lemma DecodeStart_ok (d : DCNetEntity CS) r :
  1 ≤ DCNetPayloadSize d →
  DecodeStart d r = Ret (d <| RoundDecoder := Some (fresh_decoder r (DCNetPayloadSize d)) |>).
Proof. intros H. unfold DecodeStart. by rewrite make_bytes_ret by lia. Qed.

Lemma decoding_started (d : DCNetEntity CS) r :
  1 ≤ DCNetPayloadSize d → decoding d r → DecodeStart d r = Ret d.
Proof. intros H Hd. rewrite DecodeStart_ok by done. destruct d. cbn in *. by rewrite Hd. Qed.

Lemma decodeInto_inv (e : DCNetEntity CS) r x store d :
  RoundDecoder e = Some d → currentRoundBeingDecoded d = r →
  (∀ d t, currentRoundBeingDecoded (store d t) = currentRoundBeingDecoded d) →
  match decodeInto e r x store with
  | Ret e' => ∃ d', e' = e <| RoundDecoder := Some d' |> ∧ currentRoundBeingDecoded d' = r
  | Crash c => bad_cell c
  end.
Proof.
  intros Hd Hr Hstore. unfold decodeInto.
  destruct (DCNetCipherFromBytes x) as [c|c] eqn:Ec; cbn [mbind go_bind].
  - rewrite Hd, Hr, Z.eqb_refl. cbn [negb]. unfold xor_range.
    destruct (_ <? _)%nat; cbn [mbind go_bind]; [done|].
    eexists. split; [done|]. destruct (EquivocationProtectionEnabled e); by rewrite ?Hstore.
  - revert Ec. unfold DCNetCipherFromBytes, slice_from, slice. repeat (case_match; cbn; try done);
      by intros [= <-].
Qed.

(** A decoding step keeps the entity and the round of the decoder, or fails
    because of the cell. *)
Definition decoding_step (r : Z) (f : DCNetEntity CS → option bytes → go (DCNetEntity CS)) : Prop :=
  ∀ e d x, RoundDecoder e = Some d → currentRoundBeingDecoded d = r →
  match f e x with
  | Ret e' => ∃ d', e' = e <| RoundDecoder := Some d' |> ∧ currentRoundBeingDecoded d' = r
  | Crash c => bad_cell c
  end.

Lemma DecodeClient_step r : decoding_step r (λ d s, DecodeClient d r (default [] s)).
Proof. intros e d x Hd Hr. by apply (decodeInto_inv e r _ _ d). Qed.

Lemma DecodeTrustee_step r : decoding_step r (λ d s, DecodeTrustee d r (default [] s)).
Proof. intros e d x Hd Hr. by apply (decodeInto_inv e r _ _ d). Qed.

Lemma decoding_fold r f l : decoding_step r f → decoding_step r (λ e _, go_fold f e l).
Proof.
  intros Hf. induction l as [|x l IH]; intros e d y Hd Hr.
  - cbn. exists d. split; [|done]. destruct e. cbn in *. by rewrite Hd.
  - rewrite go_fold_cons. pose proof (Hf e d x Hd Hr) as H1.
    destruct (f e x) as [e2|c]; [|exact H1]. cbn [mbind go_bind]. destruct H1 as (d2 & -> & Hr2).
    specialize (IH (e <| RoundDecoder := Some d2 |>) d2 y eq_refl Hr2). cbn beta in IH.
    destruct (go_fold f _ l) as [e3|]; [|exact IH]. destruct IH as (d3 & -> & Hr3). by exists d3.
Qed.

Lemma decodeSlices_inv r cs ts : decoding_step r (λ e _, decodeSlices e r cs ts).
Proof.
  intros e d x Hd Hr. unfold decodeSlices.
  pose proof (decoding_fold r _ cs (DecodeClient_step r) e d x Hd Hr) as H1.
  cbn beta in H1.
  destruct (go_fold _ e cs) as [e1|c]; [|exact H1]. destruct H1 as (d1 & -> & Hr1). cbn [mbind go_bind].
  exact (decoding_fold r _ ts (DecodeTrustee_step r) (e <| RoundDecoder := Some d1 |>) d1 x
           eq_refl Hr1).
Qed.

Lemma DecodeCell_bad `{!CryptoLaws CS} (d : DCNetEntity CS) oc c :
  is_Some (RoundDecoder d) →
  (EquivocationProtectionEnabled d = true → is_Some (equivocationProtection d)) →
  DecodeCell d oc = Crash c → bad_cell c.
Proof.
  intros [dec Hd] He. unfold DecodeCell. rewrite Hd.
  destruct (EquivocationProtectionEnabled d && negb oc) eqn:E; [|done].
  apply andb_prop in E as [E _]. destruct (He E) as [eq ->]. unfold RelayDecode.
  destruct (scalar_marshal_ret "Couldn't marshall"
    (recoverKey eq (default [] <$> equivTrusteeContribs dec) (default [] <$> equivClientContribs dec)))
    as (bs & -> & _). cbn [mbind go_bind].
  case_match; [done|]. unfold make_bytes. repeat case_match; try done; by intros [= <-].
Qed.

(** The cell the relay decodes from the buffered ciphers of round [r]. *)
Definition cells (buffer : gmap Z (gmap Z bytes)) (n r : Z) : list bytes :=
  (λ i, default [] (bufferOf buffer i !! r)) <$> ids n.

Definition decoded (b : BufferableRoundManager) (d : DCNetEntity CS) (oc : bool) : go (bytes * bytes) :=
  let r := lastRoundClosed b + 1 in
  decodeRound d r oc (cells (bufferedClientCiphers b) (nClients b) r)
    (cells (bufferedTrusteeCiphers b) (nTrustees b) r).

Lemma go_fold_fmap {A X Y} (f : A → Y → go A) (g : X → Y) a l :
  go_fold f a (g <$> l) = go_fold (λ a x, f a (g x)) a l.
Proof. revert a. induction l as [|x l IH]; intros a; [done|]. rewrite fmap_cons, !go_fold_cons. by destruct (f a (g x)); cbn. Qed.

Lemma decoded_slices b (d : DCNetEntity CS) oc :
  1 ≤ DCNetPayloadSize d → decoding d (lastRoundClosed b + 1) →
  let r := lastRoundClosed b + 1 in
  decoded b d oc =
    (d ← decodeSlices d r ((λ i, bufferOf (bufferedClientCiphers b) i !! r) <$> ids (nClients b))
           ((λ i, bufferOf (bufferedTrusteeCiphers b) i !! r) <$> ids (nTrustees b));
     DecodeCell d oc).
Proof.
  intros H Hd r. unfold decoded, decodeRound, decodeSlices. fold r.
  rewrite (decoding_started d r) by done. cbn [mbind go_bind]. unfold cells.
  rewrite !go_fold_fmap. destruct (go_fold _ d _) as [d1|]; [|done]. cbn [mbind go_bind].
  by rewrite !go_fold_fmap.
Qed.
End decoder.

(** ** The phases *)

Section phases.
Context {CS : CryptoSuite} `{!Network CS} `{!Clock CS} `{!ProofSystem CS} {CL : CryptoLaws CS}.
Context (C : crash → Prop).

(** The entity of the relay, whatever its decoder is doing. *)
Definition created (v : view) (d : DCNetEntity CS) : Prop :=
  ∃ rnd1 rnd2 d0, NewDCNetEntity rnd1 rnd2 0 DCNET_RELAY (v_size v) (v_equiv v) [] = Ret d0
  ∧ d = d0 <| RoundDecoder := RoundDecoder d |>.

Lemma created_decoder v (d : DCNetEntity CS) x : created v d → created v (d <| RoundDecoder := x |>).
Proof. intros (rnd1 & rnd2 & d0 & E & ->). by exists rnd1, rnd2, d0. Qed.

Definition relay_entity (v : view) (d : DCNetEntity CS) : Prop :=
  DCNetPayloadSize d = v_size v ∧ EquivocationProtectionEnabled d = v_equiv v
  ∧ (v_equiv v = true → is_Some (equivocationProtection d)) ∧ created v d.

(** The relay is communicating; [c]: the current round was collected. *)
Record running (v : view) (c : bool) : Prop := {
  run_rm : rm_inv (v_rm v) c;
  run_max : maxNumberOfConcurrentRounds (v_rm v) = v_window v;
  run_nC : nClients (v_rm v) = v_nC v;
  run_pos : 1 ≤ v_nC v;
  run_nT : nTrustees (v_rm v) = v_nT v;
  run_size : 1 ≤ v_size v;
  run_states : states (v_sm v) = relayStates;
  run_dcnet : ∃ d, v_dcnet v = Some d ∧ relay_entity v d
}.

Definition opened (v : view) : nat := size (openRounds (v_rm v)).
Definition lastClosed (v : view) : Z := lastRoundClosed (v_rm v).

(** When a round is open, the decoder waits for the ciphers of the current one. *)
Definition decoder_ready (v : view) : Prop :=
  opened v ≠ 0%nat → ∃ d, v_dcnet v = Some d ∧ decoding d (lastClosed v + 1).

(** Everything but the round manager, the decoder, the counters, the priority
    data, the open/closed requests and the state. *)
Definition frame (v v' : view (CS:=CS)) : Prop :=
  v' = v <| v_rm := v_rm v' |> <| v_dcnet := v_dcnet v' |> <| v_flight := v_flight v' |>
         <| v_prio := v_prio v' |> <| v_oc := v_oc v' |> <| v_sm := v_sm v' |>.

#[export] Instance frame_trans : Transitive frame.
Proof. intros a b c H1 H2. unfold frame in *. rewrite H2, H1. done. Qed.

#[export] Instance frame_refl : Reflexive frame.
Proof. intros a. unfold frame. by destruct a. Qed.

(** The last round opened. *)
Definition lastOpened (v : view (CS:=CS)) : Z := lastClosed v + Z.of_nat (opened v).

(** ... no cipher enters the buffers, and which of the rounds opened so far are
    requests for the open/closed slots does not change. *)
Record follows (v v' : view (CS:=CS)) : Prop := {
  fo_frame : frame v v';
  fo_shrinks : shrinks (v_rm v) (v_rm v');
  fo_opened : lastOpened v ≤ lastOpened v';
  fo_oc : ∀ r, r ≤ lastOpened v → v_oc v' !! r = v_oc v !! r
}.

#[export] Instance follows_refl : Reflexive follows.
Proof. by split. Qed.
#[export] Instance follows_trans : Transitive follows.
Proof.
  intros a b c [? ? ? Ha] [? ? ? Hb]. split; [by transitivity b | by transitivity (v_rm b) | lia |].
  intros r Hr. rewrite Hb by lia. by apply Ha.
Qed.

(** The copies of a message that announce its round. *)
Definition announce (v : view (CS:=CS)) (m : REL_CLI_DOWNSTREAM_DATA) : list obs :=
  if v_udp v then [Down ToAllClients m] else (λ i, Down (ToClient i) m) <$> ids (v_nC v).

Lemma frame_announce v v' m : frame v v' → announce v' m = announce v m.
Proof. intros ->. done. Qed.

(** [running] survives a change of the manager and of the decoder. *)
Lemma running_rm v c b' c' :
  running v c → same_dims (v_rm v) b' → rm_inv b' c' → running (v <| v_rm := b' |>) c'.
Proof. intros [] (H1 & H2 & H3) Hb. split; cbn; congruence || done. Qed.

Lemma running_dcnet v c d : running v c → relay_entity v d → running (v <| v_dcnet := Some d |>) c.
Proof. intros [] Hd. split; cbn; try done. by exists d. Qed.

Lemma sendDownstream_spec toSend v :
  vspec C (sendDownstream toSend) v (λ _ v' os, v' = v ∧ os = announce v toSend).
Proof.
  apply vspec_bind, vspec_getR. intros p Hv _. unfold announce.
  replace (r_UseUDP (relayState p)) with (v_udp v) by (by rewrite <- Hv).
  destruct (v_udp v); cbn [negb].
  - apply vspec_bind, vspec_send. intros _. eapply quiet_last; [apply onBitrate_quiet|].
    intros _. by rewrite app_nil_r.
  - apply vspec_bind, vspec_bind, vspec_getR. intros p' Hv' _.
    replace (r_nClients (relayState p')) with (v_nC v) by (by rewrite <- Hv').
    eapply vspec_mono; [|apply (vspec_forEach C _ (λ done v' os, v' = v
      ∧ os = (λ i, Down (ToClient i) toSend) <$> done)); [|done]].
    + cbn. intros _ v1 os [-> ->]. eapply quiet_last; [apply onBitrate_quiet|].
      intros _. by rewrite app_nil_r.
    + intros done x todo v1 os _ [-> ->]. apply vspec_bind, vspec_send. intros _.
      apply vspec_ret. split; [done|]. by rewrite fmap_app, app_nil_r.
Qed.

Lemma nextDownstreamData_spec v :
  vspec C nextDownstreamData v (λ _ v' os, v' = v <| v_prio := tail (v_prio v) |> ∧ os = []).
Proof.
  apply vspec_bind, vspec_getR. intros p Hv _.
  replace (r_PriorityDataForClients (relayState p)) with (v_prio v) by (by rewrite <- Hv).
  destruct (v_prio v) as [|x l] eqn:E.
  - assert (v = v <| v_prio := tail [] |>) as Hnil by (destruct v; cbn in *; by subst).
    destruct (r_DataForClients (relayState p)) as [|y rest].
    + apply vspec_ret. by rewrite <- Hnil.
    + apply vspec_quiet; [by apply quiet_setR|]. intros _. apply vspec_ret. by rewrite <- Hnil.
  - apply vspec_bind, vspec_modify. intros p' Hv' Hs'. split; [done|].
    apply vspec_ret. by rewrite <- Hv'.
Qed.

Lemma setManager_spec b v Q :
  Q tt (v <| v_rm := b |>) [] → vspec C (setManager b) v Q.
Proof. intros HQ. apply vspec_modify. intros p <- Hs. split; [done|]. exact HQ. Qed.

Lemma setDCNet_spec d v Q :
  Q tt (v <| v_dcnet := Some d |>) [] → vspec C (setR (λ s, s <| r_DCNet := Some d |>)) v Q.
Proof. intros HQ. apply vspec_modify. intros p <- Hs. split; [done|]. exact HQ. Qed.

Lemma owner_window b o b' : updateAndGetNextOwnerID b = Ret (o, b') → same_window b b'.
Proof. intros H%updateAndGetNextOwnerID_frame. by rewrite H. Qed.

Lemma owner_inv b c o b' : rm_inv b c → updateAndGetNextOwnerID b = Ret (o, b') → rm_inv b' c.
Proof. intros Hb H%updateAndGetNextOwnerID_frame. rewrite H. by apply rm_inv_owner. Qed.

Lemma currentRound_opened b c : rm_inv b c →
  (currentRound b).1 = negb (size (openRounds b) =? 0)%nat.
Proof. intros Hb. rewrite currentRound_window by apply Hb. by case_match. Qed.

(** The round counters: what a phase makes of them. *)
Definition rounds_after (v v' : view (CS:=CS)) (closed : Z) (open : nat) : Prop :=
  running v' false ∧ decoder_ready v' ∧ follows v v' ∧ lastClosed v' = closed ∧ opened v' = open.

(** The announcement of a round: it does not ask for a resync, and the relay
    remembers whether it asks for the open/closed slots. *)
Definition announcement (v : view (CS:=CS)) (m : REL_CLI_DOWNSTREAM_DATA) : Prop :=
  dd_RoundID m ≤ lastOpened v ∧ dd_FlagResync m = false
  ∧ (dd_FlagOpenClosedRequest m = true → is_Some (v_oc v !! dd_RoundID m)).

Lemma announcement_follows v v' m : follows v v' → announcement v m → announcement v' m.
Proof.
  intros [_ _ Ho Hoc] (H1 & H2 & H3). split_and!; [lia | done |]. intros H. rewrite Hoc by lia. auto.
Qed.

Lemma DecodeStart_ready v c d r :
  running v c → relay_entity v d → ∃ d', DecodeStart d r = Ret d' ∧ relay_entity v d' ∧ decoding d' r.
Proof.
  intros Hr (Hs & He & Hi & Hc). eexists. split; [apply DecodeStart_ok; rewrite Hs; apply (run_size _ _ Hr)|].
  split; [|done]. split_and!; [done..|]. by apply created_decoder.
Qed.

(** Starting the decoder when no round is open. *)
Lemma start_if_idle_spec v (p : PriFiLibRelayInstance CS) b r :
  running v false → decoder_ready v → same_window (v_rm v) b → v_dcnet v = r_DCNet (relayState p) →
  r = lastClosed v + Z.of_nat (opened v) + 1 →
  vspec C (if negb (RoundManager.currentRound b).1 then
             d ← lift (theDCNet (relayState p));
             d ← lift (DecodeStart d r);
             setR (λ s, s <| r_DCNet := Some d |>)
           else mret tt) v
    (λ _ v' os, os = [] ∧ ∃ d, v' = v <| v_dcnet := Some d |> ∧ relay_entity v d
                          ∧ decoding d (lastClosed v + 1)).
Proof.
  intros Hr Hd Hw Hp ->. destruct (run_dcnet _ _ Hr) as (d & Ed & Hed).
  assert ((currentRound b).1 = negb (opened v =? 0)%nat) as ->.
  { destruct Hw as (_ & Ho & Hl). unfold opened. rewrite <- Ho.
    unfold currentRound. by case_match. }
  rewrite negb_involutive. destruct (Nat.eqb_spec (opened v) 0) as [E|E].
  - rewrite E, Z.add_0_r. unfold theDCNet. rewrite <- Hp, Ed.
    apply vspec_bind, (vspec_lift_ret _ _ d); [done|].
    destruct (DecodeStart_ready v false d (lastClosed v + 1) Hr Hed) as (d' & E' & Hed' & Hdd).
    apply vspec_bind, (vspec_lift_ret _ _ d'); [done|]. apply setDCNet_spec. split; [done|]. by exists d'.
  - apply vspec_ret. split; [done|]. destruct (Hd E) as (d1 & Ed1 & Hdec).
    exists d1. rewrite Ed in Ed1. injection Ed1 as <-. split_and!; [|done|done].
    rewrite <- Ed. by destruct v.
Qed.

Lemma open_spec v :
  running v false → decoder_ready v → Z.of_nat (opened v) < v_window v →
  lastClosed v + Z.of_nat (opened v) < MaxInt32 - 1 →
  vspec C downstreamPhase1_openRoundAndSendData v (λ _ v' os,
    rounds_after v v' (lastClosed v) (S (opened v))
    ∧ v_flight v' = v_flight v + 1 ∧ v_prio v' = tail (v_prio v) ∧ v_sm v' = v_sm v
    ∧ ∃ m, os = announce v m ∧ dd_RoundID m = lastClosed v + Z.of_nat (opened v) + 1 ∧ announcement v' m).
Proof.
  intros Hr Hd Hlt Hmax. pose proof (run_rm _ _ Hr) as Hb.
  apply vspec_bind. eapply vspec_mono; [|apply nextDownstreamData_spec]. cbn.
  intros content v1 os [-> ->]. set (v1 := v <| v_prio := tail (v_prio v) |>).
  assert (running v1 false) as Hr1 by (destruct Hr; by split).
  apply vspec_bind, vspec_getR. intros p Hp _.
  assert (r_roundManager (relayState p) = v_rm v) as Erm by exact (f_equal v_rm Hp).
  rewrite Erm. unfold IsNextDownstreamRoundForOpenClosedRequest.
  set (r := lastClosed v + Z.of_nat (opened v) + 1).
  assert (nextRoundToOpen (v_rm v) = Ret r) as Enext
    by (apply nextRoundToOpen_window; [apply (rmi_window _ _ Hb) | exact Hmax]).
  rewrite Enext. apply vspec_bind, (vspec_lift_ret _ _ r); [done|].
  apply vspec_bind, vspec_now. intros t.
  apply vspec_quiet; [destruct (r =? 1); [by apply quiet_setR | apply quiet_ret]|]. intros _.
  apply vspec_quiet.
  { destruct (r_UseOpenClosedSlots _); [|apply quiet_ret]. intros v2. by eapply vspec_lift_ret. }
  intros isNext.
  apply vspec_bind, (vspec_mono _ _ _ (λ _ v2 os, os = [] ∧ ∃ oc, v2 = v1 <| v_oc := oc |>
    ∧ (∀ r', r' ≤ lastOpened v → oc !! r' = v_oc v !! r') ∧ (isNext = true → is_Some (oc !! r)))).
  2:{ destruct isNext; [|apply vspec_ret; split; [done|]; exists (v_oc v1); by destruct v].
      apply vspec_modify. intros p' Hp' Hs'. split; [done|]. split; [done|].
      assert (r_OpenClosedSlotsRequestsRoundID (relayState p') = v_oc v) as Eoc by exact (f_equal v_oc Hp').
      exists (<[r := true]> (v_oc v)). split; [by rewrite <- Eoc, <- Hp'|].
      split; [|intros _; by rewrite lookup_insert_eq].
      intros r' Hr'. apply lookup_insert_ne. unfold r, lastOpened in *. lia. }
  intros _ v2 os (-> & oc & -> & Hoc & Hnext). set (v2 := v1 <| v_oc := oc |>).
  assert (running v2 false) as Hr2 by (destruct Hr; by split).
  destruct (updateAndGetNextOwnerID_total (v_rm v)) as (o & b1 & Eo).
  { rewrite (run_nC _ _ Hr). pose proof (run_pos _ _ Hr). lia. }
  apply vspec_bind, (vspec_lift_ret _ _ (o, b1)); [done|].
  pose proof (owner_window _ _ _ Eo) as Hw1. pose proof (owner_inv _ _ _ _ Hb Eo) as Hb1.
  apply vspec_bind, setManager_spec. apply vspec_quiet; [apply startMeasure_quiet|]. intros _.
  set (v3 := v2 <| v_rm := b1 |>).
  assert (running v3 false) as Hr3 by (apply (running_rm v2 false); [done | apply Hw1 | done]).
  destruct Hw1 as (Hdim1 & Ho1 & Hl1).
  assert (opened v3 = opened v) as Eop by (unfold opened; cbn; by rewrite Ho1).
  assert (lastClosed v3 = lastClosed v) as Elc by (unfold lastClosed; cbn; by rewrite Hl1).
  apply vspec_bind. eapply vspec_mono; [|apply start_if_idle_spec].
  2: exact Hr3.
  2:{ intros Hne. rewrite Eop in Hne. rewrite Elc. apply Hd, Hne. }
  2: done.
  2:{ exact (eq_sym (f_equal v_dcnet Hp)). }
  2:{ by rewrite Eop, Elc. }
  cbn. intros _ v4 os (-> & d & -> & Hed & Hdec). rewrite Elc in Hdec.
  apply vspec_bind, vspec_now. intros t2.
  assert (lastOpen b1 + 1 = r) as Er by (unfold lastOpen; by rewrite Ho1, Hl1).
  match goal with |- context [SetDataAlreadySent _ r ?x] => set (sent := x) end.
  destruct (open_and_store b1 t2 sent Hb1) as (b2 & b3 & Eb2 & Eb3 & Hb3 & Hdim3 & Hl3 & Hs3).
  { destruct Hdim1 as (-> & _). rewrite Ho1, (run_max _ _ Hr). done. }
  { unfold lastOpen. rewrite Ho1, Hl1. exact Hmax. }
  rewrite Er in Eb2, Eb3. apply vspec_bind, (vspec_lift_ret _ _ (r, b2)); [done|].
  apply vspec_bind, (vspec_lift_ret _ _ b3); [done|]. apply vspec_bind, setManager_spec.
  apply vspec_bind. eapply vspec_mono; [|apply sendDownstream_spec]. cbn.
  intros _ v5 os [-> ->].
  apply vspec_quiet; [apply stopMeasure_quiet|]. intros dur.
  apply vspec_quiet; [apply addTime_quiet; set_solver|]. intros _.
  apply vspec_quiet; [by apply quiet_emit|]. intros _.
  apply vspec_quiet; [apply startMeasure_quiet|]. intros _.
  apply vspec_bind, vspec_modify. intros p' Hp' Hs'. split; [done|]. apply vspec_ret.
  match goal with |- context [viewOf ?q] => set (v6 := viewOf q) end.
  assert (v6 = v3 <| v_dcnet := Some d |> <| v_rm := b3 |> <| v_flight := v_flight v + 1 |>) as E6.
  { unfold v6. transitivity ((viewOf p') <| v_flight := v_flight (viewOf p') + 1 |>); [done|].
    by rewrite Hp'. }
  assert (lastClosed v6 = lastClosed v ∧ opened v6 = S (opened v)) as [El6 Eo6].
  { rewrite E6. unfold opened, lastClosed. cbn. by rewrite Hs3, Ho1, Hl3, Hl1. }
  assert (lastOpened v6 = r) as Elo6 by (unfold lastOpened, r; rewrite El6, Eo6; lia).
  rewrite E6 in *. rewrite !app_nil_r.
  split; [|split_and!; try done; eexists; split_and!; [done..|]; split_and!; cbn in *; [lia|done..]].
  unfold rounds_after. split_and!; try done.
  - assert (running (v3 <| v_dcnet := Some d |> <| v_rm := b3 |>) false) as [].
    { apply (running_rm (v3 <| v_dcnet := Some d |>) false); [by apply running_dcnet | done | done]. }
    by split.
  - intros _. exists d. split; [done|]. unfold lastClosed. cbn. rewrite Hl3, Hl1. done.
  - split; [done | | unfold lastOpened, r in *; lia | exact Hoc]. cbn. transitivity b1; [by eapply owner_shrinks|].
    transitivity b2; [by eapply OpenNextRound_shrinks | by eapply SetDataAlreadySent_shrinks].
Qed.

(** The rounds after [a], [n] of them, and their announcements. *)
Definition rounds_from (a : Z) (n : nat) : list Z := (λ k, a + 1 + Z.of_nat k) <$> seq 0 n.
Definition announceAll (v : view (CS:=CS)) (ms : list REL_CLI_DOWNSTREAM_DATA) : list obs :=
  flat_map (announce v) ms.

(** The observations announce the [n] rounds after [a], in order. *)
Definition announces (v v' : view (CS:=CS)) (a : Z) (n : nat) (os : list obs) : Prop :=
  ∃ ms, os = announceAll v ms ∧ dd_RoundID <$> ms = rounds_from a n ∧ Forall (announcement v') ms.

Lemma rounds_from_snoc a n : rounds_from a (S n) = rounds_from a n ++ [a + Z.of_nat n + 1].
Proof. unfold rounds_from. rewrite seq_S, fmap_app. cbn. do 2 f_equal. lia. Qed.

Lemma frame_announceAll v v' ms : frame v v' → announceAll v' ms = announceAll v ms.
Proof.
  intros Hf. unfold announceAll. induction ms as [|m ms IH]; [done|]. cbn.
  by rewrite IH, (frame_announce v v').
Qed.

Lemma announces_nil v v' a : announces v v' a 0 [].
Proof. exists []. split_and!; [done..|]. constructor. Qed.

Lemma announces_snoc v v1 v' a n os m :
  announces v v1 a n os → follows v1 v' → frame v v1 → dd_RoundID m = a + Z.of_nat n + 1 →
  announcement v' m → announces v v' a (S n) (os ++ announce v1 m).
Proof.
  intros (ms & -> & Hr & Ha) Hf Hfr Hm Hm'. exists (ms ++ [m]). split_and!.
  - unfold announceAll. rewrite flat_map_app. cbn. by rewrite app_nil_r, (frame_announce v v1).
  - by rewrite fmap_app, Hr, rounds_from_snoc, <- Hm.
  - apply Forall_app. split; [|by apply Forall_singleton]. eapply Forall_impl; [exact Ha|].
    intros x. by apply announcement_follows.
Qed.

Lemma tail_drop {A} (l : list A) n : tail (drop n l) = drop (S n) l.
Proof. revert l. induction n as [|n IH]; intros [|x l]; [done..|]. apply IH. Qed.

Lemma length_ids n : length (ids n) = Z.to_nat n.
Proof. unfold ids. by rewrite length_fmap, length_seq. Qed.

Lemma sendMany_spec v :
  running v false → decoder_ready v → v_flight v = Z.of_nat (opened v) →
  0 ≤ v_window v → lastClosed v + v_window v < MaxInt32 - 1 →
  vspec C downstreamPhase_sendMany v (λ _ v' os,
    let n := (Z.to_nat (v_window v) - opened v)%nat in
    rounds_after v v' (lastClosed v) (Z.to_nat (v_window v))
    ∧ v_flight v' = v_window v ∧ v_prio v' = drop n (v_prio v) ∧ v_sm v' = v_sm v
    ∧ announces v v' (lastClosed v + Z.of_nat (opened v)) n os).
Proof.
  intros Hr Hd Hf Hw Hmax. apply vspec_bind, vspec_getR. intros p Hp _.
  assert (Z.of_nat (opened v) ≤ v_window v) as Hle.
  { pose proof (rmi_max _ _ (run_rm _ _ Hr)) as H. rewrite (run_max _ _ Hr) in H. unfold opened. lia. }
  replace (r_WindowSize (relayState p)) with (v_window v) by (by rewrite <- Hp).
  replace (r_numberOfNonAckedDownstreamPackets (relayState p)) with (v_flight v) by (by rewrite <- Hp).
  set (I := λ (k : nat) v' os,
    rounds_after v v' (lastClosed v) (opened v + k)%nat ∧ v_flight v' = v_flight v + Z.of_nat k
    ∧ v_prio v' = drop k (v_prio v) ∧ v_sm v' = v_sm v
    ∧ announces v v' (lastClosed v + Z.of_nat (opened v)) k os).
  eapply vspec_mono; [|apply (vspec_forEach C _ (λ done, I (length done)))].
  - cbn zeta. intros u v' os. rewrite length_ids, Hf.
    replace (Z.to_nat (v_window v - Z.of_nat (opened v)))
      with (Z.to_nat (v_window v) - opened v)%nat by lia.
    intros (H1 & H2 & H3 & H4 & H5). rewrite Hf in H2.
    replace (opened v + (Z.to_nat (v_window v) - opened v))%nat with (Z.to_nat (v_window v)) in H1 by lia.
    split_and!; try done. lia.
  - intros done x todo v1 os Hl ((Hr1 & Hd1 & Hfr & Hc1 & Ho1) & Hf1 & Hp1 & Hs1 & Ha1).
    apply (f_equal length) in Hl. rewrite length_ids, length_app in Hl. cbn in Hl.
    assert (v_window v1 = v_window v) as Ew by (by rewrite (fo_frame _ _ Hfr)).
    apply vspec_bind. eapply vspec_mono; [|apply open_spec; [done|done|lia|lia]]. cbn.
    intros _ v2 os2 ((Hr2 & Hd2 & Hfr2 & Hc2 & Ho2) & Hf2 & Hp2 & Hs2 & m & -> & Hm & Hm').
    apply vspec_ret.
    rewrite app_nil_r, length_app, Nat.add_1_r. unfold I, rounds_after.
    split_and!; try done; try congruence; try lia.
    + by transitivity v1.
    + by rewrite Hp2, Hp1, tail_drop.
    + eapply announces_snoc; [exact Ha1 | done | apply Hfr | lia | done].
  - unfold I, rounds_after. cbn. rewrite Nat.add_0_r, Z.add_0_r.
    split_and!; try done; apply announces_nil.
Qed.

(** *** Decoding the current round *)

Definition entityOf (v : view (CS:=CS)) : DCNetEntity CS :=
  default (mkDCNetEntity 0 DCNET_RELAY false 0 [] [] 0 None None 0) (v_dcnet v).

(** The cell of the current round, as the relay decodes it. *)
Definition cellOf (v : view) (oc : bool) : go (bytes * bytes) := decoded (v_rm v) (entityOf v) oc.

(** A round was collected and decoded, not yet closed. *)
Record after_decode (v v' : view) : Prop := {
  ad_running : running v' true;
  ad_frame : follows v v';
  ad_opened : opened v' = opened v;
  ad_closed : lastClosed v' = lastClosed v;
  ad_all : hasAllCiphersForCurrentRound (v_rm v') = true;
  ad_flight : v_flight v' = v_flight v;
  ad_sm : v_sm v' = v_sm v
}.

(** The relay can process the current round. *)
Record complete (v : view) : Prop := {
  co_running : running v false;
  co_ready : decoder_ready v;
  co_open : opened v ≠ 0%nat;
  co_all : hasAllCiphersForCurrentRound (v_rm v) = true
}.

Lemma CurrentRound_ok b c :
  rm_inv b c → size (openRounds b) ≠ 0%nat → CurrentRound b = Ret (lastRoundClosed b + 1).
Proof.
  intros Hb Hne. unfold CurrentRound. rewrite currentRound_window by apply Hb.
  by rewrite (proj2 (Nat.eqb_neq _ _) Hne).
Qed.

Lemma collect_spec v oc :
  complete v → (∀ c, cellOf v oc = Crash c → C c) →
  vspec C (collectAndDecode (lastClosed v + 1) oc) v (λ res v' os,
    os = [] ∧ after_decode v v' ∧ v_prio v' = v_prio v
    ∧ ∃ out, res = Ok out ∧ cellOf v oc = Ret out).
Proof.
  intros [Hr Hd Ho Hall] HC. pose proof (run_rm _ _ Hr) as Hb.
  apply vspec_bind, vspec_getR. intros p Hp _.
  assert (r_roundManager (relayState p) = v_rm v) as -> by exact (f_equal v_rm Hp).
  unfold theDCNet. assert (r_DCNet (relayState p) = v_dcnet v) as -> by exact (f_equal v_dcnet Hp).
  destruct (Hd Ho) as (d & Ed & Hdec). destruct (run_dcnet _ _ Hr) as (d' & Ed' & Hed).
  rewrite Ed in Ed'. injection Ed' as <-.
  assert (cellOf v oc = decoded (v_rm v) d oc) as Ecell by (unfold cellOf, entityOf; by rewrite Ed).
  rewrite Ecell in *. assert (1 ≤ DCNetPayloadSize d) as Hsz.
  { destruct Hed as (-> & _). apply (run_size _ _ Hr). }
  rewrite (decoded_slices (v_rm v) d oc Hsz Hdec) in *.
  destruct (CollectRoundData (v_rm v)) as [res b'] eqn:Ecol.
  pose proof (CollectRoundData_inv _ _ _ Hb Ecol) as Hb'.
  pose proof (CollectRoundData_window _ _ _ Ecol) as Hw'.
  pose proof (CollectRoundData_acks _ _ _ Ecol) as Ha'.
  pose proof (CollectRoundData_shrinks _ _ _ Ecol) as Hsh'.
  revert Ecol. unfold CollectRoundData. rewrite currentRound_window by apply Hb.
  destruct (Nat.eqb_spec (size (openRounds (v_rm v))) 0) as [?|_]; [done|].
  rewrite Hall. cbn [negb]. intros [= <- Eb'].
  apply vspec_bind, setManager_spec. apply vspec_bind, (vspec_lift_ret _ _ d); [by rewrite Ed|].
  set (cs := (λ i, bufferOf _ i !! _) <$> ids (nClients (v_rm v))) in *.
  set (ts := (λ i, bufferOf _ i !! _) <$> ids (nTrustees (v_rm v))) in *.
  pose proof (decodeSlices_inv (lastClosed v + 1) cs ts d _ None Hdec eq_refl) as Hdecode. cbn beta in Hdecode.
  apply vspec_bind, vspec_lift.
  2:{ intros c Hc. apply HC. unfold lastClosed in Hc. by rewrite Hc. }
  intros d1 Ed1. rewrite Ed1 in Hdecode. destruct Hdecode as (dec & -> & _).
  apply vspec_bind, setDCNet_spec. unfold lastClosed in Ed1. rewrite Ed1 in HC |- *.
  cbn [mbind go_bind] in *. apply vspec_bind, vspec_lift; [|exact HC]. intros out Eout.
  apply vspec_ret. split; [done|]. split; [|by eauto]. rewrite Hall in Ha'.
  destruct Hw' as (Hdim & Hop & Hlc). split; cbn; try done.
  - apply running_dcnet; [apply (running_rm v false); done|]. destruct Hed as (? & ? & ? & ?).
    split_and!; [done..|]. by apply (created_decoder v).
  - split; [done | exact Hsh' | | done]. unfold lastOpened, opened, lastClosed. cbn. by rewrite Hop, Hlc.
  - unfold opened. cbn. by rewrite Hop.
Qed.

Lemma phase2a_spec v :
  complete v → (∀ c, cellOf v true = Crash c → C c) →
  vspec C (upstreamPhase2a_extractOCMap (lastClosed v + 1)) v (λ _ v' os,
    os = [] ∧ after_decode v v' ∧ v_prio v' = v_prio v).
Proof.
  intros Hc HC. apply vspec_bind. eapply vspec_mono; [|by apply collect_spec]. cbn.
  intros res v1 os (-> & Had & Hp1 & [pt ct] & -> & _). apply vspec_bind, vspec_getR. intros p Hp _.
  assert (r_roundManager (relayState p) = v_rm v1) as -> by exact (f_equal v_rm Hp).
  apply vspec_bind, setManager_spec. apply vspec_quiet; [by apply quiet_setR|]. intros _.
  apply vspec_quiet; [destruct (negb _); [by apply quiet_emit | apply quiet_ret]|]. intros _.
  apply vspec_ret. split; [done|]. split; [|done]. destruct Had as [Hr Hf Ho Hl Ha Hfl Hs].
  match goal with |- after_decode _ (_ <| v_rm := SetStoredRoundSchedule _ ?x |>) => set (sch := x) end.
  destruct (SetStoredRoundSchedule_window (v_rm v1) sch) as (Hdim & Hop & Hlc). split; cbn; try done.
  - apply (running_rm v1 true); [done..|]. apply SetStoredRoundSchedule_inv, Hr.
  - destruct Hf as [Hf1 Hf2 Hf3 Hf4]. split; [by rewrite Hf1| | |done].
    2:{ unfold lastOpened, opened, lastClosed in *. cbn. by rewrite Hop, Hlc. }
    transitivity (v_rm v1); [done | apply SetStoredRoundSchedule_shrinks].
  - unfold opened in *. cbn. by rewrite Hop.
  - unfold lastClosed in *. cbn. by rewrite Hlc.
  - by rewrite SetStoredRoundSchedule_acks.
Qed.

(** *** The payload *)

(** What is handed to the application, and the size it must have. *)
Definition payloadOf (v : view (CS:=CS)) (plain : bytes) : bytes :=
  if v_disr v then drop 1 plain else plain.
Definition payloadSize (v : view (CS:=CS)) : Z :=
  let n := if v_disr v then v_size v - 1 else v_size v in if v_equiv v then n - 16 else n.

(** The payload starts like a pcap meta-message. *)
Definition is_pcap (x : bytes) : Prop := 2 ≤ len x ∧ be_decode (take 2 x) = 21845.

(** A slice or an index out of range is the only way pcap messages fail. *)
Lemma vspec_slice (x : bytes) a b v Q :
  C RuntimeError → (∀ y, Q y v []) → vspec C (lift (slice x a b)) v Q.
Proof.
  intros HC HQ. apply vspec_lift; [by intros|]. unfold slice. case_match; [|done]. by intros c [= <-].
Qed.

Lemma vspec_index (x : bytes) i v Q :
  C RuntimeError → (∀ y, Q y v []) → vspec C (lift (index x i)) v Q.
Proof.
  intros HC HQ. apply vspec_lift; [by intros|]. unfold index. repeat case_match; try done;
    by intros c [= <-].
Qed.

Lemma pcapMessage_quiet x pos : C RuntimeError → quiet C (pcapMessage x pos).
Proof.
  intros HC v. unfold pcapMessage. do 3 (apply vspec_bind, vspec_slice; [done|]; intros ?).
  apply vspec_bind, vspec_index; [done|]. intros frag. apply vspec_bind, vspec_now. intros t.
  apply vspec_bind, vspec_getR. intros p _ _.
  apply vspec_quiet; [apply addTime_quiet; set_solver|]. intros _.
  apply vspec_bind, vspec_getR. intros p' _ (_ & _ & [pl ->]). apply quiet_setR; [done|].
  intros s (H1 & H2 & H3). split_and!; [done..|]. by eexists.
Qed.

(** The fuel is enough: every iteration moves on by 17 bytes. *)
Lemma pcapMessages_quiet fuel x : ∀ pos,
  C RuntimeError → len x - pos ≤ Z.of_nat fuel → quiet C (pcapMessages fuel x pos).
Proof.
  induction fuel as [|fuel IH]; intros pos HC Hf; cbn [pcapMessages];
    (destruct (Z.leb_spec (pos + 17) (len x)); [|apply quiet_ret]); [lia|].
  intros v. apply vspec_bind, vspec_slice; [done|]. intros y.
  destruct (negb _); [apply quiet_ret|]. apply vspec_quiet; [by apply pcapMessage_quiet|].
  intros _. apply IH; [done | lia].
Qed.

Lemma inspect_spec v x :
  (length (v_prio v) < priorityCapacity)%nat → (is_pcap x → C RuntimeError) →
  vspec C (inspectPayload x) v (λ _ v' os, os = [] ∧ ∃ q, v' = v <| v_prio := q |>
    ∧ (q = v_prio v ∨ q = v_prio v ++ [x])).
Proof.
  intros Hq HC. unfold inspectPayload.
  assert (v = v <| v_prio := v_prio v |>) as Hsame by (by destruct v).
  destruct (Z.leb_spec 2 (len x)) as [Hl|_]; [|apply vspec_ret; by eauto].
  apply vspec_bind, (vspec_lift_ret _ _ (take 2 x)); [by rewrite slice_ret by lia|].
  destruct (be_decode (take 2 x) =? 43690).
  - apply vspec_bind, vspec_getR. intros p Hp _.
    replace (r_PriorityDataForClients (relayState p)) with (v_prio v) by (by rewrite <- Hp).
    rewrite (proj2 (Nat.leb_gt _ _) Hq). apply vspec_modify. intros p' <- Hs. split; [done|].
    split; [done|]. by eauto.
  - destruct (Z.eqb_spec (be_decode (take 2 x)) 21845) as [E|_]; [|apply vspec_ret; by eauto].
    assert (C RuntimeError) as HR by (by apply HC).
    apply vspec_quiet; [by apply pcapMessage_quiet|]. intros _.
    eapply quiet_last; [apply pcapMessages_quiet; [done | unfold len; lia]|]. by eauto.
Qed.

Lemma slice_from_1 (b : Z) (l : bytes) : slice_from (b :: l) 1 = Ret l.
Proof. apply (slice_from_app [b] l). done. Qed.

Lemma disruptionCheck_spec v r plain :
  (plain = [] → C RuntimeError) →
  vspec C (disruptionCheck r plain) v (λ x v' os, v' = v ∧ os = [] ∧ x = drop 1 plain).
Proof.
  intros HC. unfold disruptionCheck. destruct plain as [|b plain].
  { apply vspec_bind. by apply vspec_lift; [|intros c [= <-]; apply HC]. }
  apply vspec_bind, (vspec_lift_ret _ _ b); [done|].
  apply vspec_quiet; [by apply quiet_setR|]. intros _. apply vspec_bind, vspec_getR. intros p _ _.
  rewrite slice_from_1. apply vspec_bind.
  eapply (vspec_mono _ _ _ (λ tag v' os, v' = v ∧ os = [] ∧ (tag = blameTag → 13 < len (b :: plain)))).
  2:{ destruct ((b =? 1) && (13 <? len (b :: plain))) eqn:E; [|by apply (vspec_lift_ret _ _ [])].
      apply andb_prop in E as [_ E%Z.ltb_lt]. eapply vspec_lift_ret; [by rewrite slice_ret by lia|]. done. }
  intros tag v1 os (-> & -> & Htag). apply vspec_quiet.
  - case_bool_decide as Hb; [|apply quiet_ret]. specialize (Htag Hb). intros v1.
    eapply vspec_bind, vspec_lift_ret; [by rewrite slice_ret by lia|].
    apply vspec_quiet; [by apply quiet_setR|]. intros _.
    apply vspec_quiet; [by apply sendToClients_quiet|]. intros _. by apply sendToTrustees_quiet.
  - intros _. apply vspec_bind, (vspec_lift_ret _ _ plain); [done|].
    apply vspec_quiet; [destruct (negb _); [by apply quiet_setR | apply quiet_ret]|].
    intros _. by apply vspec_ret.
Qed.

Lemma phase2b_spec v :
  complete v → (length (v_prio v) < priorityCapacity)%nat →
  (∀ c, cellOf v false = Crash c → C c) →
  (∀ pt ct, cellOf v false = Ret (pt, ct) →
     (v_disr v = true → pt = [] → C RuntimeError) ∧ (is_pcap (payloadOf v pt) → C RuntimeError)) →
  vspec C upstreamPhase2b_extractPayload v (λ _ v' os,
    after_decode v v' ∧ ∃ pt ct, cellOf v false = Ret (pt, ct)
    ∧ (let x := payloadOf v pt in
       os = (if v_output v && (len x =? payloadSize v) then [Out x] else [])
       ∧ (v_prio v' = v_prio v ∨ v_prio v' = v_prio v ++ [x]))).
Proof.
  intros Hc Hq HC HR. apply vspec_bind, vspec_getR. intros p Hp _.
  pose proof Hc as [Hr Hd Ho Hall].
  assert (r_roundManager (relayState p) = v_rm v) as -> by exact (f_equal v_rm Hp).
  eapply vspec_bind, vspec_lift_ret; [by apply (CurrentRound_ok _ _ (run_rm _ _ Hr))|].
  apply vspec_bind. eapply vspec_mono; [|by apply collect_spec]. cbn.
  intros res v1 os (-> & Had & Hp1 & [pt ct] & -> & Ecell). destruct (HR pt ct Ecell) as [HR1 HR2].
  apply vspec_quiet; [destruct (_ && _); [by apply quiet_setR | apply quiet_ret]|]. intros _.
  apply vspec_quiet; [apply onBitrate_quiet|]. intros _.
  replace (r_DisruptionProtectionEnabled (relayState p)) with (v_disr v) by (by rewrite <- Hp).
  apply vspec_bind, (vspec_mono _ _ _ (λ x v' os, v' = v1 ∧ os = [] ∧ x = payloadOf v pt)).
  2:{ unfold payloadOf. destruct (v_disr v); [apply disruptionCheck_spec; auto | by apply vspec_ret]. }
  intros x v' os (-> & -> & ->). set (x := payloadOf v pt) in *.
  apply vspec_bind. eapply vspec_mono; [|apply inspect_spec; [by rewrite Hp1 | done]]. cbn.
  intros _ v2 os (-> & q & -> & Hq').
  assert (expectedSize (relayState p) = payloadSize v) as -> by (by rewrite <- Hp).
  assert (after_decode v (v1 <| v_prio := q |>)) as Had'.
  { destruct Had as [[] [Hf ? ? ?] Ho' Hl Ha Hfl Hs]. split; cbn; try done. split; [by rewrite Hf | done..]. }
  rewrite Hp1 in Hq'. replace (r_DataOutputEnabled (relayState p)) with (v_output v) by (by rewrite <- Hp).
  destruct (len x =? payloadSize v) eqn:El; cbn [negb].
  - apply vspec_bind. apply (vspec_mono _ _ _ (λ _ v' os, v' = v1 <| v_prio := q |>
      ∧ os = if v_output v then [Out x] else [])).
    + intros _ v' os [-> ->]. apply vspec_ret. split; [done|]. exists pt, ct.
      rewrite app_nil_r. cbn zeta. fold x. rewrite El, andb_true_r. done.
    + destruct (v_output v); [by apply vspec_emit | by apply vspec_ret].
  - apply vspec_ret. split; [done|]. exists pt, ct. cbn zeta. fold x. rewrite El, andb_false_r. done.
Qed.

(** *** Closing a round *)

(** The state machine stays, or has shut down. *)
Definition sm_after (sm sm' : StateMachine) : Prop :=
  sm' = sm ∨ (currentState sm' = "SHUTDOWN"%string ∧ states sm' = relayStates).

Lemma shutdown_spec v :
  states (v_sm v) = relayStates →
  vspec C r_Received_ALL_ALL_SHUTDOWN v (λ _ v' os, os = [] ∧
    ∃ sm, v' = v <| v_sm := sm |> ∧ currentState sm = "SHUTDOWN"%string ∧ states sm = relayStates).
Proof.
  intros Hs. apply vspec_bind, vspec_bind, vspec_get. intros p Hp _.
  assert (r_stateMachine p = v_sm v) as -> by exact (f_equal v_sm Hp).
  destruct (changeOrFatal (v_sm v) "SHUTDOWN") as [sm|] eqn:E.
  2:{ revert E. unfold changeOrFatal. by rewrite Hs. }
  apply changeOrFatal_ret in E as [H1 H2]. apply vspec_bind, (vspec_lift_ret _ _ sm); [done|].
  apply vspec_modify. intros p' <- Hs'. split; [done|].
  apply vspec_quiet; [by apply sendToTrustees_quiet|]. intros _.
  apply vspec_quiet; [by apply sendToClients_quiet|]. intros _.
  apply vspec_ret. split; [done|]. exists sm. split_and!; [done..|]. congruence.
Qed.

Lemma start_next_spec v (s : RelayState CS) b :
  running v false → b = v_rm v → r_DCNet s = v_dcnet v →
  vspec C (let '(roundOpened, nextRoundID) := RoundManager.currentRound b in
           if roundOpened then
             d ← lift (theDCNet s);
             d ← lift (DecodeStart d nextRoundID);
             setR (λ s, s <| r_DCNet := Some d |>)
           else mret tt) v
    (λ _ v' os, os = [] ∧ ∃ o, v' = v <| v_dcnet := o |> ∧ running v' false ∧ decoder_ready v').
Proof.
  intros Hr -> Hs. destruct (run_dcnet _ _ Hr) as (d & Ed & Hed).
  rewrite currentRound_window by apply Hr.
  destruct (Nat.eqb_spec (size (openRounds (v_rm v))) 0) as [E|E].
  - apply vspec_ret. split; [done|]. exists (v_dcnet v). assert (v <| v_dcnet := v_dcnet v |> = v) as -> by (by destruct v).
    split_and!; [done..|]. by intros ?.
  - unfold theDCNet. rewrite Hs, Ed. apply vspec_bind, (vspec_lift_ret _ _ d); [done|].
    destruct (DecodeStart_ready v false d (lastRoundClosed (v_rm v) + 1) Hr Hed) as (d' & E' & Hed' & Hdd).
    apply vspec_bind, (vspec_lift_ret _ _ d'); [done|]. apply setDCNet_spec. split; [done|].
    exists (Some d'). split_and!; [done | by apply running_dcnet |]. intros _. by exists d'.
Qed.

Lemma closed_view v c evs b' :
  running v c → opened v ≠ 0%nat → closeRound (v_rm v) = (Ok tt, evs, b') →
  running (v <| v_rm := b' |>) false ∧ lastRoundClosed b' = lastClosed v + 1
  ∧ size (openRounds b') = (opened v - 1)%nat.
Proof.
  intros Hr Ho E. destruct (closeRound_ok (v_rm v) c (run_rm _ _ Hr) Ho) as (evs1 & b1 & E1 & Hb & Hl & Hlo).
  rewrite E in E1. injection E1 as <- <-. split_and!.
  - apply (running_rm v c); [done | by eapply closeRound_dims | done].
  - done.
  - unfold lastOpen, lastClosed, opened in *. lia.
Qed.

Lemma closeRound_Ok v c :
  running v c → opened v ≠ 0%nat → ∃ evs b', closeRound (v_rm v) = (Ok tt, evs, b').
Proof.
  intros Hr Ho. destruct (closeRound_ok (v_rm v) c (run_rm _ _ Hr) Ho) as (evs & b' & E & _). by eauto.
Qed.

Lemma phase3_spec v :
  running v true → opened v ≠ 0%nat → hasAllCiphersForCurrentRound (v_rm v) = true →
  vspec C (upstreamPhase3_finalizeRound (lastClosed v + 1)) v (λ _ v' os,
    os = [] ∧ rounds_after v v' (lastClosed v + 1) (opened v - 1)
    ∧ v_flight v' = v_flight v - 1 ∧ v_prio v' = v_prio v ∧ sm_after (v_sm v) (v_sm v')).
Proof.
  intros Hr Ho Ha. unfold upstreamPhase3_finalizeRound. apply vspec_bind, vspec_modify.
  intros p <- Hs. split; [done|].
  match goal with |- vspec _ _ (viewOf ?q) _ => set (v1 := viewOf q) end. set (v := viewOf p) in *.
  assert (v1 = v <| v_flight := v_flight v - 1 |>) as E1 by done. clearbody v1.
  assert (running v1 true) as Hr1 by (rewrite E1; destruct Hr; by split).
  apply vspec_quiet; [destruct (_ =? 0); [apply quiet_ret | apply collectReports_quiet]|]. intros _.
  apply vspec_bind, vspec_getR. intros p1 Hp1 _.
  assert (r_roundManager (relayState p1) = v_rm v1) as -> by exact (f_equal v_rm Hp1).
  assert (v_rm v1 = v_rm v) as Erm by (by rewrite E1).
  eapply vspec_bind, vspec_lift_ret; [apply (CurrentRound_ok _ _ (run_rm _ _ Hr1)); by rewrite Erm|].
  apply vspec_bind, (vspec_mono _ _ _ (λ _ v2 os, os = [] ∧ ∃ sm, v2 = v1 <| v_sm := sm |>
    ∧ sm_after (v_sm v1) sm)).
  2:{ destruct (_ =? i32 _).
      - apply vspec_quiet; [by apply quiet_emit|]. intros _. apply vspec_bind.
        eapply vspec_mono; [|apply shutdown_spec, (run_states _ _ Hr1)]. cbn.
        intros _ v2 os (-> & sm & -> & H1 & H2). apply vspec_ret. split; [done|]. exists sm. split; [done|]. by right.
      - apply vspec_ret. split; [done|]. exists (v_sm v1). split; [by destruct v1 | by left]. }
  intros _ v2 os (-> & sm & -> & Hsm). set (v2 := v1 <| v_sm := sm |>).
  assert (running v2 true) as Hr2.
  { destruct Hr1. split; cbn; try done. by destruct Hsm as [->|[_ ?]]. }
  assert (opened v2 = opened v ∧ lastClosed v2 = lastClosed v) as [Eo2 El2]
    by (unfold opened, lastClosed, v2; cbn; by rewrite Erm).
  destruct (closeRound_Ok v2 true Hr2) as (evs & b' & Ecl); [by rewrite Eo2|].
  destruct (closed_view v2 true evs b' Hr2) as (Hr3 & Hl3 & Hs3); [by rewrite Eo2 | done |].
  assert (CloseRound (v_rm v1) = (Ok tt, evs, b')) as ->.
  { unfold CloseRound. rewrite currentRound_window by apply (run_rm _ _ Hr1).
    rewrite Erm in *. destruct (Nat.eqb_spec (size (openRounds (v_rm v))) 0); [done|]. cbn [negb].
    rewrite Ha. cbn [negb]. rewrite <- Ecl. by rewrite <- Erm. }
  apply vspec_bind, setManager_spec. apply vspec_quiet; [apply sendRateEvents_quiet|]. intros _.
  apply vspec_quiet; [by apply quiet_setR|]. intros _.
  pose proof (start_next_spec (v2 <| v_rm := b' |>) (relayState p1) b' Hr3 eq_refl
    (f_equal v_dcnet Hp1)) as Hnext.
  destruct (RoundManager.currentRound b') as [roundOpened next].
  apply vspec_bind. eapply vspec_mono; [|exact Hnext]. cbn.
  intros _ v3 os (-> & o & -> & Hr4 & Hd4). apply vspec_ret. split; [done|].
  rewrite E1 in Hsm. unfold rounds_after. split_and!; try done.
  - split; [unfold frame, v2; by rewrite E1 | | | unfold v2; by rewrite E1].
    2:{ unfold lastOpened, opened, lastClosed in *. cbn in *. lia. }
    cbn. change (v_rm v2) with (v_rm v1) in Ecl. rewrite Erm in Ecl. by eapply closeRound_shrinks.
  - transitivity (lastRoundClosed b'); [done|]. by rewrite Hl3, El2.
  - unfold opened. cbn. by rewrite Hs3, Eo2.
  - unfold v2. by rewrite E1.
  - unfold v2. by rewrite E1.
Qed.

(** *** A whole round *)

(** Between two messages: a window of rounds is open, as many packets are in
    flight, the decoder waits for the first of them, no priority data is left. *)
Record settled (v : view) : Prop := {
  st_running : running v false;
  st_ready : decoder_ready v;
  st_open : opened v ≠ 0%nat;
  st_flight : v_flight v = Z.of_nat (opened v);
  st_prio : v_prio v = []
}.

(** [k] more rounds can be numbered. *)
Definition room (k : Z) (v : view (CS:=CS)) : Prop := lastClosed v + v_window v + k < MaxInt32 - 1.

Definition is_oc (v : view (CS:=CS)) : bool := bool_decide (is_Some (v_oc v !! (lastClosed v + 1))).

(** [C] allows the failures the cell of the current round may cause. *)
Definition cell_errors (v : view) : Prop :=
  (∀ c, cellOf v (is_oc v) = Crash c → C c)
  ∧ (is_oc v = false → ∀ pt ct, cellOf v false = Ret (pt, ct) →
     (v_disr v = true → pt = [] → C RuntimeError) ∧ (is_pcap (payloadOf v pt) → C RuntimeError)).

(** What the application gets from the current round. *)
Definition outputOf (v : view) : list obs :=
  if is_oc v then [] else
  match cellOf v false with
  | Ret (pt, _) => let x := payloadOf v pt in
                   if v_output v && (len x =? payloadSize v) then [Out x] else []
  | Crash _ => []
  end.

Lemma opened_window v c : running v c → opened v ≠ 0%nat → Z.of_nat (opened v) ≤ v_window v.
Proof.
  intros Hr Ho. pose proof (rmi_max _ _ (run_rm _ _ Hr)) as H. rewrite (run_max _ _ Hr) in H.
  unfold opened in *. lia.
Qed.

(** The relay moved on by one round and filled its window. *)
Definition next_round (v v' : view) : Prop :=
  settled v' ∧ follows v v' ∧ lastClosed v' = lastClosed v + 1 ∧ v_window v = Z.of_nat (opened v')
  ∧ sm_after (v_sm v) (v_sm v').

(** After a round was closed, new ones are opened up to the window. *)
Lemma refill_spec v v1 :
  settled v → room 1 v → rounds_after v v1 (lastClosed v + 1) (opened v - 1) →
  v_flight v1 = v_flight v - 1 → (length (v_prio v1) ≤ 1)%nat → sm_after (v_sm v) (v_sm v1) →
  vspec C downstreamPhase_sendMany v1 (λ _ v' os, next_round v v'
    ∧ announces v v' (lastClosed v + Z.of_nat (opened v)) (S (Z.to_nat (v_window v) - opened v)) os).
Proof.
  intros [Hr Hd Ho Hf Hp] Hleft (Hr1 & Hd1 & Hfr & Hl1 & Ho1) Hf1 Hp1 Hsm.
  pose proof (opened_window v false Hr Ho) as Hw.
  assert (v_window v1 = v_window v) as Ew by (by rewrite (fo_frame _ _ Hfr)).
  eapply vspec_mono; [|apply sendMany_spec]; [|done|done|lia|lia|unfold room in Hleft; lia].
  cbn zeta. intros _ v' os ((Hr2 & Hd2 & Hfr2 & Hl2 & Ho2) & Hf2 & Hp2 & Hs2 & Ha2).
  rewrite Ew, Ho1 in *. split.
  - assert (follows v v') by (by transitivity v1).
    split_and!; [split; try done; try lia | done | lia | lia | by rewrite Hs2].
    rewrite Hp2. apply drop_ge. lia.
  - rewrite Hl1 in Ha2. revert Ha2.
    replace (lastClosed v + 1 + Z.of_nat (opened v - 1)) with (lastClosed v + Z.of_nat (opened v)) by lia.
    replace (Z.to_nat (v_window v) - (opened v - 1))%nat
      with (S (Z.to_nat (v_window v) - opened v)) by lia.
    intros (ms & -> & Hms). exists ms. split; [|done]. apply frame_announceAll, Hfr.
Qed.

Lemma phase1_spec v b :
  settled v → hasAllCiphersForCurrentRound (v_rm v) = true → room 1 v → cell_errors v →
  vspec C (upstreamPhase1_processCiphers b) v (λ _ v' os, next_round v v' ∧ ∃ os',
    os = outputOf v ++ os'
    ∧ announces v v' (lastClosed v + Z.of_nat (opened v)) (S (Z.to_nat (v_window v) - opened v)) os').
Proof.
  intros Hst Hall Hleft [HC1 HC2]. pose proof Hst as [Hr Hd Ho Hf Hp].
  assert (complete v) as Hco by (by split).
  apply vspec_quiet; [apply stopMeasure_quiet|]. intros dur.
  apply vspec_quiet; [apply addTime_quiet; destruct b; set_solver|]. intros _.
  apply vspec_bind, vspec_getR. intros p Hpv _.
  assert (r_roundManager (relayState p) = v_rm v) as -> by exact (f_equal v_rm Hpv).
  eapply vspec_bind, vspec_lift_ret; [by apply (CurrentRound_ok _ _ (run_rm _ _ Hr))|].
  change (lastRoundClosed (v_rm v)) with (lastClosed v).
  assert (r_OpenClosedSlotsRequestsRoundID (relayState p) = v_oc v) as -> by exact (f_equal v_oc Hpv).
  fold (is_oc v).
  apply vspec_bind, (vspec_mono _ _ _ (λ _ v1 os, after_decode v v1
    ∧ os = outputOf v ∧ (length (v_prio v1) ≤ 1)%nat)).
  2:{ unfold outputOf. destruct (is_oc v).
      - eapply vspec_mono; [|by apply phase2a_spec]. cbn. intros _ v1 os (-> & Had & ->).
        rewrite Hp. split_and!; [done..|]. cbn. lia.
      - eapply vspec_mono; [|apply phase2b_spec; [done | rewrite Hp; unfold priorityCapacity; cbn; lia | done | by apply HC2]].
        cbn. intros _ v1 os (Had & pt & ct & -> & -> & Hq). rewrite Hp in Hq. split_and!; [done..|].
        destruct Hq as [-> | ->]; cbn; lia. }
  intros _ v1 os (Had & -> & Hq). pose proof Had as [Hr1 Hfr1 Ho1 Hl1 Ha1 Hf1 Hs1].
  rewrite <- Hl1. apply vspec_bind. eapply vspec_mono; [|apply phase3_spec; [done | by rewrite Ho1 | done]].
  cbn. intros _ v2 os (-> & (Hr2 & Hd2 & Hfr2 & Hl2 & Ho2) & Hf2 & Hp2 & Hs2).
  apply vspec_bind, vspec_getR. intros p2 _ _.
  apply vspec_quiet; [destruct (0 <? _); [by apply quiet_emit | apply quiet_ret]|]. intros _.
  eapply vspec_mono; [|apply (refill_spec v v2); try done].
  - cbn beta. intros _ v' os [H1 H2]. split; [done|]. exists os. by rewrite Hl1.
  - unfold rounds_after. rewrite Hl2, Ho2, Hl1, Ho1. split_and!; try done. by transitivity v1.
  - by rewrite Hf2, Hf1.
  - by rewrite Hp2.
  - by rewrite <- Hs1.
Qed.
End phases.
