(* ===== verification/RelaySteps.v ===== *)
(** * Steps of a communicating relay

    What a data message or a timeout does while rounds are running: it closes
    and opens rounds and announces exactly those it opened, in order. *)

From S2P Require Import Prelude Bytes Crypto DCNetCipher Equivocation DCNet DCNetRound BitMask.
From S2P Require Import Messages StateMachine Measurements Statistics RoundManager RoundManagerInv.
From S2P Require Import RoundManagerSpec NeffShuffle Network HandlerLogic Trustee Relay RelayInv.
From S2P Require Import RelayPhases.
From Stdlib Require Import Sorted.

Open Scope Z_scope.

(** The announcements among the observations. *)
Definition is_down (o : obs) : bool := match o with Down _ _ => true | Out _ => false end.
Definition downs (os : list obs) : list obs := List.filter is_down os.

Lemma downs_app a b : downs (a ++ b) = downs a ++ downs b.
Proof. unfold downs. apply List.filter_app. Qed.

(** The payloads among them. *)
Definition outs (os : list obs) : list bytes :=
  omap (λ o, match o with Out x => Some x | Down _ _ => None end) os.

Lemma outs_app a b : outs (a ++ b) = outs a ++ outs b.
Proof. apply omap_app. Qed.

Section run.
Context {CS : CryptoSuite} `{!Network CS} `{!Clock CS} `{!ProofSystem CS} {CL : CryptoLaws CS}.
Implicit Types v : view (CS:=CS).

Lemma downs_announce v m : downs (announce v m) = announce v m.
Proof.
  unfold announce, downs. destruct (v_udp v); [done|].
  induction (ids (v_nC v)) as [|i l IH]; [done|]. rewrite fmap_cons. cbn. by rewrite IH.
Qed.

Lemma downs_announceAll v ms : downs (announceAll v ms) = announceAll v ms.
Proof.
  unfold announceAll. induction ms as [|m ms IH]; [done|]. cbn.
  by rewrite downs_app, downs_announce, IH.
Qed.

Lemma downs_announces v v' a n os : announces v v' a n os → downs os = os.
Proof. intros (ms & -> & _). apply downs_announceAll. Qed.

Lemma downs_output v : downs (outputOf v) = [].
Proof.
  unfold outputOf. destruct (is_oc v); [done|]. destruct (cellOf v false) as [[pt ct]|]; [|done].
  cbn zeta. by destruct (_ && _).
Qed.

Lemma rounds_from_app a m n : rounds_from a (m + n) = rounds_from a m ++ rounds_from (a + Z.of_nat m) n.
Proof.
  induction n as [|n IH].
  - rewrite Nat.add_0_r. cbn. by rewrite app_nil_r.
  - rewrite Nat.add_succ_r, !rounds_from_snoc, IH, app_assoc. do 2 f_equal. lia.
Qed.

(** Announcements one after the other; between them requests are remembered. *)
Lemma announces_app v v1 v' a m n os os' :
  announces v v1 a m os → announces v1 v' (a + Z.of_nat m) n os' → frame v v1 →
  lastOpened v1 ≤ lastOpened v' → (∀ r, r ≤ lastOpened v1 → v_oc v' !! r = v_oc v1 !! r) →
  announces v v' a (m + n) (os ++ os').
Proof.
  intros (ms & -> & H1 & H2) (ms' & -> & H3 & H4) Hf Ho Hoc. exists (ms ++ ms'). split_and!.
  - unfold announceAll. rewrite flat_map_app. f_equal. by apply frame_announceAll.
  - by rewrite fmap_app, H1, H3, rounds_from_app.
  - apply Forall_app. split; [|done]. eapply Forall_impl; [exact H2|]. intros x (Hx1 & Hx2 & Hx3).
    split_and!; [lia | done |]. intros H. rewrite Hoc by lia. auto.
Qed.

(** The relay closed and opened some rounds, and announced exactly the rounds
    it opened, in order. *)
Record progress (v v' : view) (os : list obs) : Prop := {
  pg_settled : settled v';
  pg_frame : frame v v';
  pg_sm : sm_after (v_sm v) (v_sm v');
  pg_closed : lastClosed v ≤ lastClosed v';
  pg_opened : lastOpened v ≤ lastOpened v';
  pg_oc : ∀ r, r ≤ lastOpened v → v_oc v' !! r = v_oc v !! r;
  pg_downs : announces v v' (lastOpened v) (Z.to_nat (lastOpened v' - lastOpened v)) (downs os)
}.

Lemma sm_after_trans a b c : sm_after a b → sm_after b c → sm_after a c.
Proof. intros [->|[H1 H2]] [->|[H3 H4]]; [by left | by right..]. Qed.

Lemma progress_trans v1 v2 v3 os1 os2 :
  progress v1 v2 os1 → progress v2 v3 os2 → progress v1 v3 (os1 ++ os2).
Proof.
  intros [S1 F1 M1 C1 O1 R1 D1] [S2 F2 M2 C2 O2 R2 D2]. split; try done; try lia.
  - by transitivity v2.
  - by eapply sm_after_trans.
  - intros r Hr. rewrite R2 by lia. by apply R1.
  - rewrite downs_app.
    replace (Z.to_nat (lastOpened v3 - lastOpened v1))
      with (Z.to_nat (lastOpened v2 - lastOpened v1) + Z.to_nat (lastOpened v3 - lastOpened v2))%nat by lia.
    apply (announces_app v1 v2); [done| |done..].
    by replace (lastOpened v1 + Z.of_nat (Z.to_nat (lastOpened v2 - lastOpened v1)))
      with (lastOpened v2) by lia.
Qed.

Lemma progress_same v v' :
  settled v' → frame v v' → v_sm v' = v_sm v → lastClosed v' = lastClosed v → opened v' = opened v →
  v_oc v' = v_oc v → progress v v' [].
Proof.
  intros Hs Hf Hm Hl Ho Hoc. assert (lastOpened v' = lastOpened v) as E by (unfold lastOpened; congruence).
  split; try done; try lia; [by left|by rewrite Hoc|]. rewrite E, Z.sub_diag. apply announces_nil.
Qed.

Lemma progress_next v v' outs os :
  settled v → next_round v v' → downs outs = [] →
  announces v v' (lastClosed v + Z.of_nat (opened v)) (S (Z.to_nat (v_window v) - opened v)) os →
  progress v v' (outs ++ os).
Proof.
  intros [Hr _ Ho _ _] (Hs & Hf & Hl & Hw & Hm) Hout Ha. pose proof (opened_window v false Hr Ho).
  pose proof (fo_oc _ _ Hf) as Hoc. split; try done; unfold lastOpened; try lia; [apply Hf|].
  rewrite downs_app, Hout, (downs_announces _ _ _ _ _ Ha). cbn [app].
  by replace (Z.to_nat (lastClosed v' + Z.of_nat (opened v') - (lastClosed v + Z.of_nat (opened v))))
    with (S (Z.to_nat (v_window v) - opened v)) by lia.
Qed.

(** ** Where payloads come from *)

(** One buffered cell of round [r] for each of the [n] entities. *)
Definition collected (buffer : gmap Z (gmap Z bytes)) (n r : Z) (cs : list bytes) : Prop :=
  length cs = Z.to_nat n ∧ ∀ i c, cs !! i = Some c → bufferOf buffer (Z.of_nat i) !! r = Some c.

(** [x] is what a relay decodes from buffered cells of round [r], one of each
    client and one of each trustee. *)
Definition sourced v (r : Z) (x : bytes) : Prop :=
  ∃ rnd1 rnd2 d cs ts pt ct,
    NewDCNetEntity rnd1 rnd2 0 DCNET_RELAY (v_size v) (v_equiv v) [] = Ret d
    ∧ collected (bufferedClientCiphers (v_rm v)) (v_nC v) r cs
    ∧ collected (bufferedTrusteeCiphers (v_rm v)) (v_nT v) r ts
    ∧ decodeRound d r false cs ts = Ret (pt, ct) ∧ x = payloadOf v pt.

(** The payloads are those of rounds closed in between, in order, none of them
    an open/closed request, and come from the buffers. *)
Definition delivers v v' (os : list obs) : Prop :=
  follows v v' ∧ ∃ rs, Sorted.StronglySorted Z.lt rs
  ∧ Forall2 (λ r x, lastClosed v < r ≤ lastClosed v' ∧ v_oc v' !! r = None ∧ sourced v r x) rs (outs os).

Lemma collected_shrinks (b b' : gmap Z (gmap Z bytes)) n r cs :
  (∀ i, bufferOf b' i ⊆ bufferOf b i) → collected b' n r cs → collected b n r cs.
Proof.
  intros Hs [H1 H2]. split; [done|]. intros i c Hc. eapply lookup_weaken; [by apply H2 | apply Hs].
Qed.

Lemma sourced_follows v v' r x : follows v v' → sourced v' r x → sourced v r x.
Proof.
  intros [Hf [Hs1 Hs2] _ _] (rnd1 & rnd2 & d & cs & ts & pt & ct & Hd & Hc & Ht & E & ->).
  rewrite Hf in Hd, Hc, Ht |- *. cbn in *. exists rnd1, rnd2, d, cs, ts, pt, ct.
  split_and!; try done; by eapply collected_shrinks.
Qed.

Lemma StronglySorted_app_lt (l1 l2 : list Z) b :
  Sorted.StronglySorted Z.lt l1 → Sorted.StronglySorted Z.lt l2 →
  Forall (λ r, r ≤ b) l1 → Forall (λ r, b < r) l2 → Sorted.StronglySorted Z.lt (l1 ++ l2).
Proof.
  intros H1 H2 Hb1 Hb2. induction H1 as [|r l1 H1 IH Hr]; [done|]. apply Forall_cons in Hb1 as [Hrb Hb1].
  cbn. constructor; [by apply IH|]. apply Forall_app. split; [done|].
  eapply Forall_impl; [exact Hb2|]. cbn. lia.
Qed.

Lemma delivers_trans v1 v2 v3 os1 os2 :
  delivers v1 v2 os1 → delivers v2 v3 os2 → lastClosed v1 ≤ lastClosed v2 → lastClosed v2 ≤ lastClosed v3 →
  delivers v1 v3 (os1 ++ os2).
Proof.
  intros (F1 & rs1 & S1 & D1) (F2 & rs2 & S2 & D2) Hc1 Hc2. split; [by transitivity v2|].
  exists (rs1 ++ rs2). rewrite outs_app. split.
  - apply (StronglySorted_app_lt _ _ (lastClosed v2)); try done.
    + eapply Forall2_Forall_l; [exact D1|]. apply Forall_forall. intros x _ r ((? & ?) & _). lia.
    + eapply Forall2_Forall_l; [exact D2|]. apply Forall_forall. intros x _ r ((? & ?) & _). lia.
  - apply Forall2_app.
    + eapply Forall2_impl; [exact D1|]. intros r x (Hr & Ho & Hx). split_and!; [lia..| |done].
      rewrite (fo_oc _ _ F2); [done|]. unfold lastOpened. lia.
    + eapply Forall2_impl; [exact D2|]. intros r x (Hr & Ho & Hx). split_and!; [lia..|done|].
      by eapply sourced_follows.
Qed.

Lemma delivers_none v v' os : follows v v' → outs os = [] → delivers v v' os.
Proof. intros Hf Ho. split; [done|]. exists []. rewrite Ho. split; constructor. Qed.

Lemma outs_announces v v' a n os : announces v v' a n os → outs os = [].
Proof.
  intros (ms & -> & _). unfold announceAll. induction ms as [|m ms IH]; [done|]. cbn. rewrite outs_app, IH.
  unfold announce. destruct (v_udp v); [done|]. by induction (ids (v_nC v)).
Qed.

Lemma decodeRound_decoder (d : DCNetEntity CS) x r oc cs ts :
  decodeRound (d <| RoundDecoder := x |>) r oc cs ts = decodeRound d r oc cs ts.
Proof. done. Qed.

Lemma cells_collected buffer n r :
  (∀ i, 0 ≤ i < n → is_Some (bufferOf buffer i !! r)) → collected buffer n r (cells buffer n r).
Proof.
  intros H. unfold cells. split; [by rewrite length_fmap, length_ids|]. intros i c Hc.
  apply list_lookup_fmap_Some in Hc as (k & -> & Hk). unfold ids in Hk.
  apply list_lookup_fmap_Some in Hk as (j & -> & Hj). apply lookup_seq in Hj as [-> Hj].
  destruct (H (Z.of_nat (0 + i))) as [y Hy]; [lia|]. cbn in *. by rewrite Hy.
Qed.

(** The payload of a complete round. *)
Lemma outputOf_sourced v x :
  settled v → hasAllCiphersForCurrentRound (v_rm v) = true → x ∈ outs (outputOf v) →
  outs (outputOf v) = [x] ∧ v_oc v !! (lastClosed v + 1) = None ∧ sourced v (lastClosed v + 1) x.
Proof.
  intros [Hr _ Ho _ _] Hall Hx. unfold outputOf in *. destruct (is_oc v) eqn:Eoc; [by apply elem_of_nil in Hx|].
  destruct (cellOf v false) as [[pt ct]|] eqn:Ec; [|by apply elem_of_nil in Hx]. cbn zeta in *.
  destruct (_ && _); [|by apply elem_of_nil in Hx]. cbn in Hx. apply list_elem_of_singleton in Hx as ->.
  split; [done|]. split.
  { unfold is_oc in Eoc. apply bool_decide_eq_false in Eoc. by apply eq_None_not_Some. }
  destruct (run_dcnet _ _ Hr) as (d & Ed & _ & _ & _ & rnd1 & rnd2 & d0 & Ed0 & Edd).
  apply hasAll_spec in Hall as [HC HT]; [|apply Hr | done].
  rewrite (run_nC _ _ Hr) in HC. rewrite (run_nT _ _ Hr) in HT.
  exists rnd1, rnd2, d0. eexists _, _, pt, ct. split; [done|].
  split; [by apply cells_collected|]. split; [by apply cells_collected|]. split; [|done].
  unfold cellOf, decoded, entityOf in Ec. rewrite Ed in Ec. cbn [default] in Ec.
  rewrite (run_nC _ _ Hr), (run_nT _ _ Hr) in Ec. rewrite <- Ec, Edd. apply (eq_sym (decodeRound_decoder _ _ _ _ _ _)).
Qed.

Lemma delivers_next v v' os :
  settled v → hasAllCiphersForCurrentRound (v_rm v) = true → next_round v v' → outs os = [] →
  delivers v v' (outputOf v ++ os).
Proof.
  intros Hst Hall (_ & Hf & Hl & _) Ho. split; [done|]. rewrite outs_app, Ho, app_nil_r.
  destruct (outs (outputOf v)) as [|x l] eqn:E; [exists []; split; constructor|].
  destruct (outputOf_sourced v x Hst Hall) as (E1 & Hoc & Hx); [rewrite E; apply list_elem_of_here|].
  rewrite E in E1. injection E1 as ->. exists [lastClosed v + 1]. split; [by repeat constructor|].
  constructor; [|constructor]. split_and!; [lia..| |done].
  rewrite (fo_oc _ _ Hf); [done|]. pose proof (st_open _ Hst). unfold lastOpened. lia.
Qed.

(** The cipher a message brings: sender, round and bytes. *)
Definition clientCipher (m : message CS) : option (Z * Z * bytes) :=
  match m with
  | MUpstream m => (λ d, (up_ClientID m, up_RoundID m, d)) <$> up_Data m
  | MOpenClosed m => (λ d, (oc_ClientID m, oc_RoundID m, d)) <$> oc_OpenClosedData m
  | _ => None
  end.
Definition trusteeCipher (m : message CS) : option (Z * Z * bytes) :=
  match m with
  | MDCCipher m => (λ d, (tc_TrusteeID m, tc_RoundID m, d)) <$> tc_Data m
  | _ => None
  end.

(** Every cipher of the buffers was there before or was brought by a message. *)
Definition received (ms : list (message CS)) (b b' : BufferableRoundManager) : Prop :=
  (∀ i r c, bufferOf (bufferedClientCiphers b') i !! r = Some c →
     bufferOf (bufferedClientCiphers b) i !! r = Some c ∨ Some (i, r, c) ∈ clientCipher <$> ms)
  ∧ (∀ j r c, bufferOf (bufferedTrusteeCiphers b') j !! r = Some c →
     bufferOf (bufferedTrusteeCiphers b) j !! r = Some c ∨ Some (j, r, c) ∈ trusteeCipher <$> ms).

Lemma received_refl ms b : received ms b b.
Proof. split; auto. Qed.

Lemma addToBuffer_lookup buffer r i data j r' c :
  bufferOf (addToBuffer buffer r i data) j !! r' = Some c →
  bufferOf buffer j !! r' = Some c ∨ (j, r', c) = (i, r, data).
Proof.
  unfold addToBuffer. unfold bufferOf at 1. destruct (decide (j = i)) as [->|Hne].
  - rewrite lookup_insert_eq. cbn. rewrite lookup_insert_Some. intros [[-> ->]|[_ H]]; auto.
  - rewrite lookup_insert_ne by done. auto.
Qed.

Lemma AddClientCipher_received b m r i data res b' :
  clientCipher m = (λ d, (i, r, d)) <$> data → AddClientCipher b r i data = Ret (res, b') →
  received [m] b b'.
Proof.
  unfold AddClientCipher. intros Hm. destruct (currentRound b). repeat case_match; try done;
    intros [= <- <-]; try apply received_refl; (split; cbn; [|by auto]; intros j r' c Hj);
    apply addToBuffer_lookup in Hj as [Hj|[= -> -> ->]]; auto; right; rewrite Hm; apply list_elem_of_here.
Qed.

Lemma AddTrusteeCipher_received b m r i data res evs b' :
  trusteeCipher m = (λ d, (i, r, d)) <$> data → AddTrusteeCipher b r i data = (res, evs, b') →
  received [m] b b'.
Proof.
  unfold AddTrusteeCipher. intros Hm. destruct (currentRound b) as [any cur].
  destruct data; [|intros [= <- <- <-]; apply received_refl].
  case_match; [intros [= <- <- <-]; apply received_refl|].
  destruct (sendRateChangeIfNeeded _ i) as [ev b2] eqn:E. intros [= <- <- <-].
  apply sendRateChangeIfNeeded_frame in E. rewrite E.
  case_match; (split; cbn; [by auto|]; intros j r' c Hj);
    apply addToBuffer_lookup in Hj as [Hj|[= -> -> ->]]; auto; right; rewrite Hm; apply list_elem_of_here.
Qed.

(** A step of a communicating relay, with the messages received in it. *)
Definition step_ok (ms : list (message CS)) v v' (os : list obs) : Prop :=
  progress v v' os ∧ ∃ b, same_window (v_rm v) b ∧ received ms (v_rm v) b
  ∧ delivers (v <| v_rm := b |>) v' os.

Lemma step_ok_same ms v v' :
  settled v' → follows v v' → v_sm v' = v_sm v → lastClosed v' = lastClosed v → opened v' = opened v →
  v_oc v' = v_oc v → step_ok ms v v' [].
Proof.
  intros Hs Hf Hm Hl Ho Hoc. split; [by apply progress_same; [|apply Hf|..]|]. exists (v_rm v).
  split; [done|]. split; [apply received_refl|]. replace (v <| v_rm := v_rm v |>) with v by (by destruct v).
  by apply delivers_none.
Qed.

(** ** Data messages and timeouts *)

(** Whatever the buffered ciphers are, decoding them fails only the way an
    ill-formed cell fails. *)
Lemma cell_errors_bad v : settled v → cell_errors bad_cell v.
Proof.
  intros [Hr Hd Ho _ _]. split; [|done]. intros c. destruct (Hd Ho) as (d & Ed & Hdec).
  destruct (run_dcnet _ _ Hr) as (d' & Ed' & Hs & He & Hi & _). rewrite Ed in Ed'. injection Ed' as <-.
  unfold cellOf, entityOf. rewrite Ed. cbn [default].
  assert (1 ≤ DCNetPayloadSize d) as Hsz by (rewrite Hs; apply (run_size _ _ Hr)).
  rewrite (decoded_slices (v_rm v) d _ Hsz Hdec).
  match goal with |- context [decodeSlices d _ ?cs ?ts] =>
    pose proof (decodeSlices_inv _ cs ts d _ None Hdec eq_refl) as H end.
  cbn beta in H. unfold lastClosed in *. destruct (decodeSlices d _ _ _) as [d1|c1]; cbn [mbind go_bind].
  - destruct H as (dec & -> & _). apply DecodeCell_bad; [by eexists|]. cbn. by rewrite He.
  - by intros [= <-].
Qed.

Lemma settled_rm v b :
  settled v → same_window (v_rm v) b → rm_inv b false →
  settled (v <| v_rm := b |>) ∧ progress v (v <| v_rm := b |>) [].
Proof.
  intros Hst (Hd & Ho & Hl) Hb. assert (settled (v <| v_rm := b |>)) as Hst'.
  { destruct Hst as [Hr Hdec Hop Hf Hp]. split; cbn; unfold opened; cbn; rewrite ?Ho; try done.
    - by apply (running_rm v false).
    - intros _. unfold lastClosed. cbn. rewrite Hl. apply Hdec, Hop. }
  split; [done|]. apply progress_same; try done; unfold lastClosed, opened; cbn; congruence.
Qed.

(** As many rounds are open as the window allows. *)
Definition full v : Prop := Z.of_nat (opened v) = v_window v.

Lemma next_round_full v v' : next_round v v' → full v'.
Proof.
  intros (_ & Hf & _ & Hw & _). unfold full. rewrite <- Hw.
  by rewrite (f_equal v_window (fo_frame _ _ Hf)).
Qed.

Lemma processIfComplete_cases v b :
  settled v → room 1 v →
  vspec (λ c, bad_cell c ∧ hasAllCiphersForCurrentRound (v_rm v) = true) (processIfComplete b) v
    (λ _ v' os, (progress v v' os ∧ (full v → full v') ∧ delivers v v' os)
       ∧ (hasAllCiphersForCurrentRound (v_rm v) = false → v' = v)).
Proof.
  intros Hst Hleft. apply vspec_bind, vspec_getR. intros p Hp _.
  assert (r_roundManager (relayState p) = v_rm v) as -> by exact (f_equal v_rm Hp).
  destruct (hasAllCiphersForCurrentRound (v_rm v)) eqn:Hall.
  - apply (vspec_weaken bad_cell); [done|].
    eapply vspec_mono; [|apply phase1_spec; try done; by apply cell_errors_bad]. cbn beta.
    intros _ v' os (Hn & os' & -> & Ha). split; [|done]. split_and!; [|intros _; by eapply next_round_full|].
    + by apply (progress_next v v' (outputOf v) os'); [..| apply downs_output |].
    + apply delivers_next; [done..|]. by eapply outs_announces.
  - apply vspec_ret. split; [|done]. split_and!; [by apply progress_same | done | by apply delivers_none].
Qed.

Lemma processIfComplete_spec v b :
  settled v → room 1 v →
  vspec bad_cell (processIfComplete b) v (λ _ v' os, progress v v' os ∧ (full v → full v')
    ∧ delivers v v' os).
Proof.
  intros Hst Hleft. eapply vspec_weaken; [|eapply vspec_mono; [|exact (processIfComplete_cases v b Hst Hleft)]].
  - by intros c [].
  - by intros _ v' os [].
Qed.

(** Adding a cipher, then processing the round if it is complete. *)
Lemma add_and_process_spec ms v b fin :
  settled v → room 1 v → same_window (v_rm v) b → rm_inv b false → received ms (v_rm v) b →
  vspec bad_cell (_ ← processIfComplete fin; mret (Ok tt)) (v <| v_rm := b |>)
    (λ _ v' os, step_ok ms v v' os).
Proof.
  intros Hst Hleft Hw Hb Hrec. destruct (settled_rm v b Hst Hw Hb) as [Hst1 Hp1].
  apply vspec_bind. eapply vspec_mono; [|apply processIfComplete_spec; [done|]].
  - cbn beta. intros _ v' os (Hp & _ & Hd). apply vspec_ret. rewrite app_nil_r.
    split; [exact (progress_trans _ _ _ _ _ Hp1 Hp)|]. by exists b; split_and!.
  - unfold room, lastClosed in *. cbn. destruct Hw as (_ & _ & ->). done.
Qed.

Lemma AddClientCipher_total b c r i data :
  rm_inv b c → size (openRounds b) ≠ 0%nat → ∃ res b', AddClientCipher b r i data = Ret (res, b').
Proof.
  intros Hb Ho. unfold AddClientCipher. rewrite currentRound_window by apply Hb.
  destruct (Nat.eqb_spec (size (openRounds b)) 0); [done|]. cbn [negb]. repeat case_match; eauto.
Qed.

(** The two data messages: the cipher is added, then the round is processed if
    it is complete. *)
Lemma upstream_then C v m Q :
  settled v →
  (∀ res b, AddClientCipher (v_rm v) (up_RoundID m) (up_ClientID m) (up_Data m) = Ret (res, b) →
     vspec C (_ ← processIfComplete true; mret (Ok tt)) (v <| v_rm := b |>) Q) →
  vspec C (Received_CLI_REL_UPSTREAM_DATA m) v Q.
Proof.
  intros Hst HQ. apply vspec_bind, vspec_getR. intros p Hp _.
  apply vspec_quiet; [by apply quiet_setR|]. intros _.
  assert (r_roundManager (relayState p) = v_rm v) as -> by exact (f_equal v_rm Hp).
  pose proof (run_rm _ _ (st_running _ Hst)) as Hb.
  destruct (AddClientCipher_total (v_rm v) false (up_RoundID m) (up_ClientID m) (up_Data m) Hb
    (st_open _ Hst)) as (res & b & E).
  apply vspec_bind, (vspec_lift_ret _ _ (res, b)); [done|]. apply vspec_bind, setManager_spec.
  by eapply HQ.
Qed.

Lemma cipher_then C v m Q :
  (∀ res evs b, AddTrusteeCipher (v_rm v) (tc_RoundID m) (tc_TrusteeID m) (tc_Data m) = (res, evs, b) →
     vspec C (_ ← processIfComplete true; mret (Ok tt)) (v <| v_rm := b |>) Q) →
  vspec C (Received_TRU_REL_DC_CIPHER m) v Q.
Proof.
  intros HQ. apply vspec_bind, vspec_getR. intros p Hp _.
  apply vspec_quiet; [by apply quiet_setR|]. intros _.
  assert (r_roundManager (relayState p) = v_rm v) as -> by exact (f_equal v_rm Hp).
  destruct (AddTrusteeCipher (v_rm v) _ _ _) as [[res evs] b] eqn:E.
  apply vspec_bind, setManager_spec. apply vspec_quiet; [apply sendRateEvents_quiet|]. intros _.
  by eapply HQ.
Qed.

Lemma upstream_spec v m :
  settled v → room 1 v →
  vspec bad_cell (Received_CLI_REL_UPSTREAM_DATA m) v (λ _ v' os, step_ok [MUpstream m] v v' os).
Proof.
  intros Hst Hleft. pose proof (run_rm _ _ (st_running _ Hst)) as Hb.
  apply upstream_then; [done|]. intros res b E.
  apply add_and_process_spec; [done..| by eapply AddClientCipher_window | by eapply AddClientCipher_inv|].
  by eapply AddClientCipher_received.
Qed.

Lemma openclosed_spec v m :
  settled v → room 1 v →
  vspec bad_cell (Received_CLI_REL_OPENCLOSED_DATA m) v (λ _ v' os, step_ok [MOpenClosed m] v v' os).
Proof.
  intros Hst Hleft. apply vspec_bind, vspec_getR. intros p Hp _.
  assert (r_roundManager (relayState p) = v_rm v) as -> by exact (f_equal v_rm Hp).
  pose proof (run_rm _ _ (st_running _ Hst)) as Hb.
  destruct (AddClientCipher_total (v_rm v) false (oc_RoundID m) (oc_ClientID m) (oc_OpenClosedData m) Hb
    (st_open _ Hst)) as (res & b & E).
  apply vspec_bind, (vspec_lift_ret _ _ (res, b)); [done|]. apply vspec_bind, setManager_spec.
  apply add_and_process_spec; [done..| by eapply AddClientCipher_window | by eapply AddClientCipher_inv|].
  by eapply AddClientCipher_received.
Qed.

Lemma cipher_spec v m :
  settled v → room 1 v →
  vspec bad_cell (Received_TRU_REL_DC_CIPHER m) v (λ _ v' os, step_ok [MDCCipher m] v v' os).
Proof.
  intros Hst Hleft. pose proof (run_rm _ _ (st_running _ Hst)) as Hb.
  apply cipher_then. intros res evs b E.
  apply add_and_process_spec; [done..| by eapply AddTrusteeCipher_window | by eapply AddTrusteeCipher_inv|].
  by eapply AddTrusteeCipher_received.
Qed.

(** Giving up the current round: it is closed, the next one is decoded, new ones
    are opened, and the next one is processed if it is complete. *)
Definition giveUp (s : RelayState CS) (b : BufferableRoundManager) : handler (PriFiLibRelayInstance CS) unit :=
  let '(roundOpened, nextRoundID) := RoundManager.currentRound b in
  _ ← (if roundOpened then
         d ← lift (theDCNet s);
         d ← lift (DecodeStart d nextRoundID);
         setR (λ s, s <| r_DCNet := Some d |>)
       else mret tt);
  _ ← downstreamPhase_sendMany;
  processIfComplete true.

(** Every client and every trustee has sent its cipher for the round after the
    current one: the relay processes it as soon as it gives the current one up. *)
Definition next_sent (v : view (CS:=CS)) : Prop := all_sent (v_rm v) (lastClosed v + 2).

Lemma next_sent_follows v v' :
  settled v → next_round v v' → hasAllCiphersForCurrentRound (v_rm v') = true → next_sent v.
Proof.
  intros Hst (Hst' & Hfol & Hl & _) Hall. pose proof (st_running _ Hst) as Hr. pose proof (st_running _ Hst') as Hr'.
  apply hasAll_spec in Hall as [HC HT]; [|apply Hr'|apply (st_open _ Hst')].
  rewrite (run_nC _ _ Hr'), (f_equal v_nC (fo_frame _ _ Hfol)) in HC.
  rewrite (run_nT _ _ Hr'), (f_equal v_nT (fo_frame _ _ Hfol)) in HT. cbn in HC, HT.
  unfold next_sent, all_sent. rewrite (run_nC _ _ Hr), (run_nT _ _ Hr).
  change (lastRoundClosed (v_rm v')) with (lastClosed v') in *.
  replace (lastClosed v + 2) with (lastClosed v' + 1) by lia.
  destruct (fo_shrinks _ _ Hfol) as [H1 H2]. split; intros i Hi.
  - destruct (HC i Hi) as [x Hx]. exists x. by eapply lookup_weaken.
  - destruct (HT i Hi) as [x Hx]. exists x. by eapply lookup_weaken.
Qed.

Lemma giveUp_spec v evs b s :
  settled v → room 2 v → ForceCloseRound (v_rm v) = (Ok tt, evs, b) → r_DCNet s = v_dcnet v →
  vspec (λ c, bad_cell c ∧ next_sent v) (giveUp s b) (v <| v_rm := b |> <| v_flight := v_flight v - 1 |>)
    (λ _ v' os, progress v v' os ∧ (lastClosed v < lastClosed v' ∧ (¬ next_sent v → lastClosed v' = lastClosed v + 1))
       ∧ full v' ∧ delivers v v' os).
Proof.
  intros Hst Hleft E Hs. pose proof Hst as [Hr Hd Ho Hf Hp].
  destruct (closed_view v false evs b Hr Ho E) as (Hr1 & Hl1 & Ho1).
  set (v1 := v <| v_rm := b |> <| v_flight := v_flight v - 1 |>).
  assert (running v1 false) as Hr1' by (destruct Hr1; by split).
  pose proof (start_next_spec (λ c, bad_cell c ∧ next_sent v) v1 s b Hr1' eq_refl Hs) as Hnext.
  unfold giveUp. destruct (RoundManager.currentRound b) as [roundOpened next].
  apply vspec_bind. eapply vspec_mono; [|exact Hnext]. cbn beta.
  intros _ v2 os (-> & o & -> & Hr2 & Hd2). apply vspec_bind.
  eapply vspec_mono; [|apply (refill_spec (λ c, bad_cell c ∧ next_sent v) v)]; try done.
  - cbn beta. intros _ v3 os [Hn Ha]. pose proof (progress_next v v3 [] os Hst Hn eq_refl Ha) as Hp3.
    cbn [app] in Hp3. pose proof (next_round_full _ _ Hn) as Hfull.
    pose proof (next_sent_follows v v3 Hst Hn) as Hnext3.
    assert (delivers v v3 os) as Hd3
      by (apply delivers_none; [apply Hn | by eapply outs_announces]). destruct Hn as (Hst3 & Hfr & Hl3 & _ & _).
    eapply vspec_weaken; [|eapply vspec_mono; [|apply (processIfComplete_cases v3); [done|]]].
    + cbn beta. intros c [Hc Hall]. split; [done | by apply Hnext3].
    + cbn beta. intros _ v4 os4 ((Hp4 & Hf4 & Hd4) & Hsame). split; [exact (progress_trans _ _ _ _ _ Hp3 Hp4)|].
      pose proof (pg_closed _ _ _ Hp4). split_and!; [lia | | auto | exact (delivers_trans v v3 v4 os os4 Hd3 Hd4 ltac:(lia) ltac:(lia))].
      intros Hno. rewrite Hsame; [done|]. destruct (hasAllCiphersForCurrentRound (v_rm v3)); [|done].
      by destruct Hno; apply Hnext3.
    + unfold room in *. rewrite Hl3, (f_equal v_window (fo_frame _ _ Hfr)). cbn. lia.
  - unfold room in *. lia.
  - split_and!; try done. split; [done | by eapply closeRound_shrinks | | done].
    unfold lastOpened, opened, lastClosed in *. cbn. lia.
  - cbn. rewrite Hp. cbn. lia.
  - by left.
Qed.

(** *** Timeouts *)

(** The relay after one more failed round. *)
Definition failed_once (p : PriFiLibRelayInstance CS) : PriFiLibRelayInstance CS :=
  p <| relayState := (relayState p) <| r_numberOfConsecutiveFailedRounds :=
         r_numberOfConsecutiveFailedRounds (relayState p) + 1 |> |>.

(** The timeout handler is told after too many failed rounds. *)
Definition too_many_failures (p : PriFiLibRelayInstance CS) : bool :=
  r_MaxNumberOfConsecutiveFailedRounds (relayState p)
  <=? r_numberOfConsecutiveFailedRounds (relayState p) + 1.

(** The timeout of a round concerns the relay. *)
Definition timely (p : PriFiLibRelayInstance CS) (round : Z) : bool :=
  isRoundOpen (r_roundManager (relayState p)) round
  && negb (String.eqb (State (r_stateMachine p)) "SHUTDOWN").

Lemma timeout_cases round p tr :
  checkIfRoundHasEndedAfterTimeOut_Phase1 round (p, tr) =
  (if negb (timely p round) then Ret (tt, (p, tr)) else
   if too_many_failures p then
     let '(cs, ts) := MissingCiphersForCurrentRound (r_roundManager (relayState p)) in
     Ret (tt, (failed_once p, tr ++ [TimedOut cs ts]))
   else
     (let '(_, evs, b) := ForceCloseRound (r_roundManager (relayState p)) in
      _ ← setManager b;
      _ ← forEach sendRateEvent evs;
      _ ← setR (λ s, s <| r_numberOfNonAckedDownstreamPackets :=
                        r_numberOfNonAckedDownstreamPackets s - 1 |>);
      giveUp (relayState (failed_once p)) b) (failed_once p, tr)).
Proof.
  unfold checkIfRoundHasEndedAfterTimeOut_Phase1, timely. rewrite run_bind. cbn [get fst snd].
  destruct (isRoundOpen _ round); cbn [negb andb]; [|done].
  destruct (String.eqb _ "SHUTDOWN"); cbn [negb]; [done|].
  change (too_many_failures p) with (r_MaxNumberOfConsecutiveFailedRounds (relayState (failed_once p))
    <=? r_numberOfConsecutiveFailedRounds (relayState (failed_once p))).
  rewrite run_bind. unfold setR at 1, modify. cbn [fst snd]. fold (failed_once p).
  rewrite run_bind. unfold getR at 1. rewrite run_bind. cbn [get fst snd mret handler_ret].
  destruct (_ <=? _); [|done].
  change (r_roundManager (relayState (failed_once p))) with (r_roundManager (relayState p)).
  by destruct (MissingCiphersForCurrentRound _) as [cs ts].
Qed.

Lemma timeout_wp p tr round :
  stats_ok (relayState p) → settled (viewOf p) → room 2 (viewOf p) →
  timely p round = true → too_many_failures p = false →
  wp (λ c, bad_cell c ∧ next_sent (viewOf p)) (checkIfRoundHasEndedAfterTimeOut_Phase1 round) (λ _ w, stats_ok (relayState w.1) ∧
    ∃ os, observe w.2 = observe tr ++ os ∧ step_ok [] (viewOf p) (viewOf w.1) os
          ∧ (lastClosed (viewOf p) < lastClosed (viewOf w.1)
             ∧ (¬ next_sent (viewOf p) → lastClosed (viewOf w.1) = lastClosed (viewOf p) + 1))
          ∧ full (viewOf w.1)) (p, tr).
Proof.
  intros Hs Hst Hleft Ht Hf. unfold wp. rewrite timeout_cases, Ht, Hf. cbn [negb].
  set (p1 := failed_once p). assert (viewOf p1 = viewOf p) as Ev by done.
  assert (r_roundManager (relayState p) = v_rm (viewOf p)) as -> by done.
  pose proof (st_running _ Hst) as Hr. pose proof (st_open _ Hst) as Ho.
  destruct (closeRound_Ok _ _ Hr Ho) as (evs & b & E). unfold ForceCloseRound. rewrite E.
  assert (vspec (λ c, bad_cell c ∧ next_sent (viewOf p)) (_ ← setManager b; _ ← forEach sendRateEvent evs;
    _ ← setR (λ s, s <| r_numberOfNonAckedDownstreamPackets :=
                      r_numberOfNonAckedDownstreamPackets s - 1 |>);
    giveUp (relayState p1) b) (viewOf p)
    (λ _ v' os, step_ok [] (viewOf p) v' os ∧ (lastClosed (viewOf p) < lastClosed v'
       ∧ (¬ next_sent (viewOf p) → lastClosed v' = lastClosed (viewOf p) + 1)) ∧ full v')) as Hspec.
  { apply vspec_bind, setManager_spec. apply vspec_quiet; [apply sendRateEvents_quiet|]. intros _.
    apply vspec_bind, vspec_modify. intros p2 Hp2 Hs2. split; [done|].
    match goal with |- vspec _ _ (viewOf ?q) _ => assert (viewOf q
      = (viewOf p) <| v_rm := b |> <| v_flight := v_flight (viewOf p) - 1 |>) as -> end.
    { transitivity ((viewOf p2) <| v_flight := v_flight (viewOf p2) - 1 |>); [done|]. by rewrite Hp2. }
    eapply vspec_mono; [|by eapply giveUp_spec]. cbn beta. intros _ v' os (H1 & H2 & H3 & H4).
    split; [|split; [exact H2 | exact H3]]. split; [done|]. exists (v_rm (viewOf p)).
    split_and!; [done | apply received_refl | done..]. }
  exact (Hspec p1 tr Hs Ev).
Qed.
End run.
