(* ===== verification/RelaySetup.v ===== *)
(** * Setup and blame handlers of the relay

    The handlers that lead the relay from its creation to the first round, and
    those of the disruption protection, which leave the rounds alone. *)

From S2P Require Import Prelude Bytes Crypto DCNetCipher Equivocation DCNet DCNetRound BitMask.
From S2P Require Import Messages StateMachine Measurements Statistics RoundManager RoundManagerInv.
From S2P Require Import RoundManagerSpec NeffShuffle Network HandlerLogic Trustee Relay RelayInv.
From S2P Require Import RelayPhases RelaySteps.

Open Scope Z_scope.

(** Any crash is allowed: a handler that stops the process leaves no state. *)
Abbreviation any := (λ _ : crash, True).

Section setup.
Context {CS : CryptoSuite} `{!Network CS} `{!Clock CS} `{!ProofSystem CS} {CL : CryptoLaws CS}.
Implicit Types v : view (CS:=CS).

(** Before the first round: the manager is configured and no round was opened. *)
Record fresh v : Prop := {
  fr_rm : rm_inv (v_rm v) false;
  fr_max : maxNumberOfConcurrentRounds (v_rm v) = v_window v;
  fr_nC : nClients (v_rm v) = v_nC v;
  fr_nT : nTrustees (v_rm v) = v_nT v;
  fr_size : 1 ≤ v_size v;
  fr_open : opened v = 0%nat;
  fr_closed : lastClosed v = -1;
  fr_acks : clientAckMap (v_rm v) = allFalse (v_nC v);
  fr_pks : 0 ≤ v_pks v;
  fr_prio : v_prio v = []
}.

Lemma quiet_lift {A} (m : go A) : quiet any (lift m : handler (PriFiLibRelayInstance CS) A).
Proof. intros v. by apply vspec_lift. Qed.

Lemma r_ChangeState_spec x v :
  vspec any (r_ChangeState x) v (λ _ v' os, os = [] ∧ ∃ sm, v' = v <| v_sm := sm |>
    ∧ currentState sm = x ∧ states sm = states (v_sm v)).
Proof.
  apply vspec_bind, vspec_get. intros p Hp _.
  assert (r_stateMachine p = v_sm v) as -> by exact (f_equal v_sm Hp).
  apply vspec_bind, vspec_lift; [|done]. intros sm [Hc Hs]%changeOrFatal_ret.
  apply vspec_modify. intros p' <- Hs'. split; [done|]. split; [done|]. by exists sm.
Qed.

(** What a setup handler leaves: the state it found, or one in which the state
    machine moved on to [x] and the rest satisfies [P]. *)
Definition moved (x : string) (v v' : view (CS:=CS)) : Prop :=
  ∃ sm, v' = v <| v_sm := sm |> ∧ currentState sm = x ∧ states sm = states (v_sm v).

Lemma tellPk_spec m v :
  vspec any (Received_TRU_REL_TELL_PK m) v (λ _ v' os, os = []
    ∧ (v' = v ∨ moved "COLLECTING_CLIENT_PKS" v v')).
Proof.
  apply vspec_bind, vspec_getR. intros p _ _. apply vspec_quiet; [apply quiet_lift|]. intros trustees.
  apply vspec_quiet; [by apply quiet_setR|]. intros _. apply vspec_bind, vspec_getR. intros p1 _ _.
  destruct (_ =? _); [|apply vspec_ret; by auto].
  apply vspec_quiet; [apply quiet_lift|]. intros pks.
  apply vspec_quiet.
  { apply quiet_forEach. intros j _. apply quiet_bind; [by apply quiet_send | intros _; apply quiet_ret]. }
  intros _. apply vspec_bind. eapply vspec_mono; [|apply r_ChangeState_spec]. cbn beta.
  intros _ v' os (-> & Hm). apply vspec_ret. by auto.
Qed.

Lemma sendToNextTrustee_quiet : quiet any sendToNextTrustee.
Proof.
  apply quiet_getR. intros s. destruct (SendToNextTrustee _) as [res n].
  apply quiet_bind; [by apply quiet_setR|]. intros _. destruct res as [[toSend t]|e]; [|apply quiet_ret].
  apply quiet_bind; [apply quiet_lift|]. intros pks.
  apply quiet_bind; [by apply quiet_send|]. intros _. apply quiet_ret.
Qed.

Lemma tellPkEph_spec m v :
  vspec any (Received_CLI_REL_TELL_PK_AND_EPH_PK m) v (λ _ v' os, os = []
    ∧ (v' = v <| v_pks := v_pks v + 1 |>
       ∨ v_pks v + 1 = v_nC v ∧ moved "COLLECTING_SHUFFLES" (v <| v_pks := v_pks v + 1 |>) v')).
Proof.
  apply vspec_bind, vspec_getR. intros p _ _. apply vspec_quiet; [apply quiet_lift|]. intros clients.
  apply vspec_bind, vspec_modify. intros p1 <- Hs1. split; [done|].
  match goal with |- vspec _ _ (viewOf ?q) _ =>
    assert (viewOf q = (viewOf p1) <| v_pks := v_pks (viewOf p1) + 1 |>) as -> by done end.
  set (v := viewOf p1). apply vspec_bind, vspec_getR. intros p2 Hp2 _.
  assert (r_nClientsPkCollected (relayState p2) = v_pks v + 1) as -> by exact (f_equal v_pks Hp2).
  assert (r_nClients (relayState p2) = v_nC v) as -> by exact (f_equal v_nC Hp2).
  destruct (Z.eqb_spec (v_pks v + 1) (v_nC v)) as [E|_]; [|apply vspec_ret; by auto].
  apply vspec_quiet; [apply stopMeasure_quiet|]. intros _.
  apply vspec_quiet; [apply startMeasure_quiet|]. intros _.
  apply vspec_quiet; [apply quiet_lift|]. intros neff.
  apply vspec_quiet; [by apply quiet_setR|]. intros _.
  apply vspec_quiet; [apply sendToNextTrustee_quiet|]. intros [_|e]; [|apply vspec_ret; by auto].
  apply vspec_bind. eapply vspec_mono; [|apply r_ChangeState_spec]. cbn beta.
  intros _ v' os (-> & Hm). apply vspec_ret. by auto.
Qed.

(** The decoder the relay creates when the shuffle is over *)
Lemma relay_dcnet rnd1 rnd2 size equiv (d d' : DCNetEntity CS) :
  NewDCNetEntity rnd1 rnd2 0 DCNET_RELAY size equiv [] = Ret d → DecodeStart d 0 = Ret d' →
  DCNetPayloadSize d' = size ∧ EquivocationProtectionEnabled d' = equiv
  ∧ (equiv = true → is_Some (equivocationProtection d')) ∧ decoding d' 0.
Proof.
  unfold NewDCNetEntity. rewrite bool_decide_false by (intros H; by apply H). cbn [mbind go_bind].
  destruct equiv; cbn; destruct (Z.leb_spec size 0); try done; intros [= <-];
    rewrite DecodeStart_ok by (cbn; lia); intros [= <-]; cbn; split_and!; try done; by eexists.
Qed.

Lemma newBase_spec rnd1 rnd2 m v :
  vspec any (Received_TRU_REL_TELL_NEW_BASE rnd1 rnd2 m) v (λ _ v' os, os = []
    ∧ (v' = v ∨ ∃ d, relay_entity v d ∧ decoding d 0
                ∧ moved "COLLECTING_SHUFFLE_SIGNATURES" (v <| v_dcnet := Some d |>) v')).
Proof.
  apply vspec_bind, vspec_getR. intros p _ _. apply vspec_quiet; [apply quiet_lift|]. intros vkeys.
  apply vspec_quiet; [apply quiet_lift|]. intros [res n].
  apply vspec_quiet; [by apply quiet_setR|]. intros _. destruct res as [[]|e].
  2:{ eapply vspec_mono; [|apply sendToNextTrustee_quiet]. intros _ v' os [-> ->]. by auto. }
  2:{ apply vspec_ret. by auto. }
  apply vspec_quiet; [apply stopMeasure_quiet|]. intros _.
  apply vspec_quiet; [apply startMeasure_quiet|]. intros _.
  apply vspec_bind, vspec_getR. intros p1 Hp1 _.
  destruct (SendTranscript _) as [toSend|e]; [|apply vspec_ret; by auto].
  apply vspec_quiet; [by apply sendToTrustees_quiet|]. intros _.
  apply vspec_bind, vspec_lift; [|done]. intros d Ed. apply vspec_bind, vspec_lift; [|done].
  intros d' Ed'. destruct (relay_dcnet _ _ _ _ _ _ Ed Ed') as (H1 & H2 & H3 & H4).
  assert (d' = d <| RoundDecoder := RoundDecoder d' |>) as Hd'.
  { revert Ed'. unfold DecodeStart. intros Ed'. go_inv Ed'. by injection Ed' as <-. }
  assert (r_PayloadSize (relayState p1) = v_size v) as E1 by exact (f_equal v_size Hp1).
  assert (r_EquivocationProtectionEnabled (relayState p1) = v_equiv v) as E2 by exact (f_equal v_equiv Hp1).
  rewrite E1, E2 in *. apply vspec_bind, setDCNet_spec. apply vspec_bind.
  eapply vspec_mono; [|apply r_ChangeState_spec]. cbn beta.
  intros _ v' os (-> & Hm). apply vspec_ret. split; [done|]. right. exists d'. split; [|done].
  split_and!; [done..|]. by exists rnd1, rnd2, d.
Qed.

(** The relay is ready for the first round. *)
Record signing v : Prop := {
  sg_fresh : fresh v;
  sg_pos : 1 ≤ v_nC v;
  sg_states : states (v_sm v) = relayStates;
  sg_dcnet : ∃ d, v_dcnet v = Some d ∧ relay_entity v d ∧ decoding d 0
}.

Lemma first_round v b now r :
  signing v → OpenNextRound (v_rm v) now = Ret (r, b) →
  settled (v <| v_rm := b |> <| v_flight := 1 |>) ∧ lastRoundClosed b = -1
  ∧ size (openRounds b) = 1%nat.
Proof.
  intros [[Hb Hmax HnC HnT Hsz Ho Hl _ _ Hp] Hpos Hst (d & Ed & Hed & Hdec)] E.
  assert (Z.of_nat (size (openRounds (v_rm v))) < maxNumberOfConcurrentRounds (v_rm v)) as Hlt.
  { unfold OpenNextRound in E. case_match eqn:Ele; [done|]. by apply Z.leb_gt in Ele. }
  assert (lastOpen (v_rm v) = -1) as Hlo by (unfold lastOpen, opened, lastClosed in *; lia).
  destruct (OpenNextRound_ok _ _ now Hb Hlt) as (b' & E' & Hb' & Hl' & Hlo'); [by rewrite Hlo|].
  rewrite E in E'. injection E' as -> <-. pose proof (OpenNextRound_dims _ _ _ _ E) as (H1 & H2 & H3).
  unfold lastClosed in Hl. assert (size (openRounds b) = 1%nat) as Hs by (unfold lastOpen in *; lia).
  split_and!; [|congruence|done]. split; cbn; try done.
  - split; cbn; try congruence; [done..|]. exists d. done.
  - intros _. exists d. unfold lastClosed. cbn. by rewrite Hl', Hl.
  - unfold opened. cbn. by rewrite Hs.
  - unfold opened. cbn. by rewrite Hs.
Qed.

Lemma shuffleSig_spec m v :
  signing v →
  vspec any (Received_TRU_REL_SHUFFLE_SIG m) v (λ _ v' os, os = []
    ∧ (v' = v ∨ settled v' ∧ follows v v' ∧ lastOpened v' = 0
                ∧ currentState (v_sm v') = "COMMUNICATING"%string)).
Proof.
  intros Hsg. apply vspec_bind, vspec_getR. intros p _ _. apply vspec_quiet; [apply quiet_lift|].
  intros [res n]. apply vspec_quiet; [by apply quiet_setR|]. intros _.
  destruct res as [[]|e]; [|apply vspec_ret; by auto..]. apply vspec_bind, vspec_getR. intros p1 Hp1 _.
  apply vspec_quiet; [apply quiet_lift|]. intros l1. apply vspec_quiet; [apply quiet_lift|]. intros l2.
  apply vspec_quiet; [apply quiet_lift|]. intros [msg|e]; [|apply vspec_ret; by auto].
  apply vspec_bind, vspec_now. intros t.
  assert (r_roundManager (relayState p1) = v_rm v) as -> by exact (f_equal v_rm Hp1).
  apply vspec_bind, vspec_lift; [|done]. intros [r b] E.
  destruct (first_round v b t r Hsg E) as (Hst & Hl & Hs). apply vspec_bind, setManager_spec.
  apply vspec_bind. eapply vspec_mono; [|apply r_ChangeState_spec]. cbn beta.
  intros _ v' os (-> & sm & -> & Hc & Hsm). do 3 (apply vspec_quiet; [apply stopMeasure_quiet|]; intros _).
  apply vspec_quiet; [by apply sendToClients_quiet|]. intros _.
  apply vspec_bind, vspec_modify. intros p2 Hp2 Hs2. split; [done|]. apply vspec_ret.
  match goal with |- context [viewOf ?q] => assert (viewOf q
    = v <| v_rm := b |> <| v_flight := 1 |> <| v_sm := sm |>) as -> end.
  { transitivity ((viewOf p2) <| v_flight := 1 |>); [done|]. by rewrite Hp2. }
  split; [done|]. right. split_and!; try done.
  - destruct Hst as [[] ? ? ? ?]. split; try done. split; try done. cbn. by rewrite Hsm.
  - destruct Hsg as [[_ _ _ _ _ Ho Hlc _ _ _] _ _ _]. split; [done | by eapply OpenNextRound_shrinks | | done].
    unfold lastOpened. rewrite Hlc, Ho. unfold lastClosed, opened. cbn. by rewrite Hl, Hs.
  - unfold lastOpened, lastClosed, opened. cbn. by rewrite Hl, Hs.
Qed.

(** Ciphers that arrive before the first round are buffered. *)
Lemma AddTrusteeCipher_acks b r i data res evs b' :
  AddTrusteeCipher b r i data = (res, evs, b') → clientAckMap b' = clientAckMap b.
Proof.
  unfold AddTrusteeCipher. destruct (currentRound b) as [any cur]. destruct data; [|by intros [= <- <- <-]].
  case_match; [by intros [= <- <- <-]|]. destruct (sendRateChangeIfNeeded _ i) as [ev b2] eqn:E.
  intros [= <- <- <-]. apply sendRateChangeIfNeeded_frame in E. rewrite E. by case_match.
Qed.

Lemma allFalse_incomplete b n : 1 ≤ n → clientAckMap b = allFalse n → hasAllCiphersForCurrentRound b = false.
Proof.
  intros Hn E. unfold hasAllCiphersForCurrentRound. rewrite E. apply andb_false_intro1.
  destruct (forallb _ _) eqn:F; [|done]. rewrite forallb_forall in F.
  assert ((0, false) ∈ map_to_list (allFalse n)) as H.
  { apply elem_of_map_to_list. rewrite lookup_allFalse. by rewrite decide_True by lia. }
  apply list_elem_of_In, F in H. done.
Qed.

Lemma early_cipher_spec m v :
  signing v → vspec any (Received_TRU_REL_DC_CIPHER m) v (λ _ v' os, os = []
    ∧ signing v' ∧ ∃ b, v' = v <| v_rm := b |> ∧ received [MDCCipher m] (v_rm v) b).
Proof.
  intros Hsg. apply vspec_bind, vspec_getR. intros p Hp _.
  apply vspec_quiet; [by apply quiet_setR|]. intros _.
  assert (r_roundManager (relayState p) = v_rm v) as -> by exact (f_equal v_rm Hp).
  destruct (AddTrusteeCipher (v_rm v) _ _ _) as [[res evs] b] eqn:E.
  destruct Hsg as [[Hb Hmax HnC HnT Hsz Ho Hl Ha Hk Hpr] Hpos Hst Hd].
  pose proof (AddTrusteeCipher_inv _ _ _ _ _ _ _ _ Hb E) as Hb'.
  destruct (AddTrusteeCipher_window _ _ _ _ _ _ _ E) as ((H1 & H2 & H3) & H4 & H5).
  pose proof (AddTrusteeCipher_acks _ _ _ _ _ _ _ E) as H6.
  apply vspec_bind, setManager_spec. apply vspec_quiet; [apply sendRateEvents_quiet|]. intros _.
  apply vspec_bind, vspec_bind, vspec_getR. intros p1 Hp1 _.
  assert (r_roundManager (relayState p1) = b) as -> by exact (f_equal v_rm Hp1).
  rewrite (allFalse_incomplete b (v_nC v)) by congruence. apply vspec_ret, vspec_ret.
  split; [done|].
  split; [|eexists; split; [done | by eapply AddTrusteeCipher_received]]. unfold opened, lastClosed in *.
  split; [split|..]; unfold opened, lastClosed; cbn; try done; congruence.
Qed.

(** ** Blame

    The disruption handlers talk to clients and trustees about a past round and
    leave the rounds alone; a disruptor stops the relay. *)

Lemma checkMismatchingPairs_frame (s : RelayState CS) :
  ∃ d, (checkMismatchingPairs s).2 = s <| r_blamingData := d |>.
Proof.
  unfold checkMismatchingPairs. destruct (mismatches _ _) as [|[[c t] [x y]] l].
  - exists (r_blamingData s). by destruct s.
  - by eexists.
Qed.

Lemma startPhase2_quiet : quiet any startPhase2.
Proof.
  intros v. apply vspec_bind, vspec_getR. intros p Hp Hs. destruct (_ && _); [|by apply vspec_ret].
  destruct (checkMismatchingPairs_frame (relayState p)) as [d Hd].
  destruct (checkMismatchingPairs (relayState p)) as [mismatch s]. cbn in Hd. subst s.
  apply vspec_bind, vspec_modify. intros p' Hp' Hs'. split; [done|].
  match goal with |- context [viewOf ?q] => assert (viewOf q = v) as -> end.
  { transitivity ((viewOf p) <| v_sm := v_sm (viewOf p') |>); [done|]. rewrite Hp, Hp'. by destruct v. }
  destruct mismatch; [|by apply vspec_lift].
  do 2 (apply vspec_quiet; [by apply quiet_send|]; intros _). by apply vspec_ret.
Qed.

Lemma blame_quiet m : quiet any (Received_CLI_REL_DISRUPTION_BLAME m).
Proof.
  unfold Received_CLI_REL_DISRUPTION_BLAME. destruct (negb _); [apply quiet_lift|].
  apply quiet_bind; [by apply quiet_setR|]. intros _.
  apply quiet_bind; [by apply sendToTrustees_quiet|]. intros _.
  apply quiet_bind; [by apply sendToClients_quiet|]. intros _. apply quiet_ret.
Qed.

Lemma clientReveal_quiet m : quiet any (Received_CLI_REL_DISRUPTION_REVEAL m).
Proof.
  apply quiet_getR. intros s. destruct (negb _); [apply quiet_lift|].
  apply quiet_bind; [by apply quiet_setR|]. intros _. apply quiet_bind; [apply quiet_lift|].
  intros []; [apply startPhase2_quiet | apply quiet_lift].
Qed.

Lemma trusteeReveal_quiet m : quiet any (Received_TRU_REL_DISRUPTION_REVEAL m).
Proof.
  apply quiet_getR. intros s. destruct (negb _); [apply quiet_lift|].
  apply quiet_bind; [by apply quiet_setR|]. intros _. apply quiet_bind; [apply quiet_lift|].
  intros []; [apply startPhase2_quiet | apply quiet_lift].
Qed.

Lemma checkSecret_quiet t secret nizk pub : quiet any (checkSecret t secret nizk pub).
Proof.
  apply quiet_getR. intros s. apply quiet_bind; [apply quiet_lift|]. intros node. apply quiet_lift.
Qed.

Lemma trusteeSecret_quiet m : quiet any (Received_TRU_REL_SHARED_SECRETS m).
Proof.
  apply quiet_bind; [apply checkSecret_quiet|]. intros val. apply quiet_getR. intros s.
  destruct (negb _); [apply quiet_lift | apply quiet_ret].
Qed.

Lemma clientSecret_quiet m : quiet any (Received_CLI_REL_SHARED_SECRET m).
Proof.
  apply quiet_bind; [apply checkSecret_quiet|]. intros val. apply quiet_getR. intros s.
  destruct (negb _); [apply quiet_lift | apply quiet_ret].
Qed.

(** ** Parameters *)

Lemma fresh_rate v lo hi :
  fresh v → fresh (v <| v_rm := (AddRateLimiter (v_rm v) lo hi true true).2 |>).
Proof.
  intros [Hb ? ? ? ? ? ? ? ? ?]. destruct (AddRateLimiter _ _ _ _ _) as [res b] eqn:E.
  pose proof (AddRateLimiter_inv _ _ _ _ _ _ _ _ Hb E) as Hb'. revert E. unfold AddRateLimiter.
  repeat case_match; intros [= <- <-]; by split.
Qed.

Lemma AddRateLimiter_shrinks b lo hi stop resume : shrinks b (AddRateLimiter b lo hi stop resume).2.
Proof. unfold AddRateLimiter. by repeat case_match. Qed.

Lemma NewManager_empty nC nT W b b0 : NewBufferableRoundManager nC nT W = Ret b → shrinks b0 b.
Proof.
  unfold NewBufferableRoundManager. case_match; [done|]. intros [= <-].
  split; intros i; apply map_empty_subseteq.
Qed.

(** Once the state is configured: the rate limiter, then the start. *)
Lemma started_spec (startNow : bool) v Q :
  (∀ v', fresh v' → v' = v <| v_rm := v_rm v' |> <| v_sm := v_sm v' |> → shrinks (v_rm v) (v_rm v') →
     (v_sm v' = v_sm v ∨ currentState (v_sm v') = "COLLECTING_TRUSTEES_PKS"%string
                         ∧ states (v_sm v') = states (v_sm v)) → Q (Ok tt) v' []) →
  fresh v →
  vspec any (s ← getR;
    _ ← (if negb (DoSendStopResumeMessages (r_roundManager s)) then
           setManager (AddRateLimiter (r_roundManager s) (r_TrusteeCacheLowBound s)
                         (r_TrusteeCacheHighBound s) true true).2
         else mret tt);
    _ ← (if startNow then _ ← r_ChangeState "COLLECTING_TRUSTEES_PKS"; BroadcastParameters
         else mret (Ok tt));
    _ ← stopMeasure "resync-boot";
    _ ← startMeasure "resync-shuffle";
    _ ← startMeasure "resync-shuffle-collect-client-pk";
    mret (Ok tt)) v Q.
Proof.
  intros HQ Hv. apply vspec_bind, vspec_getR. intros p Hp _.
  apply vspec_bind, (vspec_mono _ _ _ (λ _ v1 os, os = [] ∧ fresh v1
    ∧ ∃ b, v1 = v <| v_rm := b |> ∧ shrinks (v_rm v) b)).
  2:{ assert (r_roundManager (relayState p) = v_rm v) as -> by exact (f_equal v_rm Hp).
      destruct (negb _).
      - apply setManager_spec. split; [done|]. split; [by apply fresh_rate|].
        eexists. split; [done | apply AddRateLimiter_shrinks].
      - apply vspec_ret. split_and!; [done..|]. exists (v_rm v). by destruct v. }
  intros _ v1 os (-> & Hv1 & b & E1 & Hsh). apply vspec_bind, (vspec_mono _ _ _ (λ _ v2 os, os = []
    ∧ (v2 = v1 ∨ moved "COLLECTING_TRUSTEES_PKS" v1 v2))).
  2:{ destruct startNow; [|apply vspec_ret; by auto]. apply vspec_bind.
      eapply vspec_mono; [|apply r_ChangeState_spec]. cbn beta. intros _ v2 os (-> & Hm).
      apply vspec_bind, vspec_getR. intros p2 _ _. apply vspec_quiet; [|intros _; apply vspec_ret; by auto].
      apply quiet_forEach. intros j _. apply quiet_bind; [by apply quiet_send | intros _; apply quiet_ret]. }
  intros _ v2 os (-> & Hm). apply vspec_quiet; [apply stopMeasure_quiet|]. intros _.
  do 2 (apply vspec_quiet; [apply startMeasure_quiet|]; intros _). apply vspec_ret, HQ.
  - destruct Hm as [->|(sm & -> & _)]; [done|]. destruct Hv1. by split.
  - destruct Hm as [->|(sm & -> & _)]; rewrite E1; [by destruct v | done].
  - destruct Hm as [->|(sm & -> & _)]; by rewrite E1.
  - destruct Hm as [->|(sm & -> & H1 & H2)]; rewrite E1 in *; [by left | by right].
Qed.

Lemma make_slice_ret {A} n (zero : A) l : make_slice n zero = Ret l → 0 ≤ n.
Proof. unfold make_slice. by destruct (Z.ltb_spec n 0). Qed.

Lemma fresh_new nC nT W b v :
  0 ≤ nC → 0 ≤ nT → NewBufferableRoundManager nC nT W = Ret b →
  v_rm v = b → v_window v = W → v_nC v = nC → v_nT v = nT → 1 ≤ v_size v → v_pks v = 0 → v_prio v = [] →
  fresh v.
Proof.
  intros HC HT E Eb HW H1 H2 H3 H4 H5. pose proof (rm_inv_new _ _ _ _ HC HT E) as Hb.
  unfold NewBufferableRoundManager in E. case_match; [done|]. injection E as <-.
  split; unfold opened, lastClosed; rewrite ?Eb; cbn; done || lia || by rewrite H1.
Qed.

(** The parameters configure the round manager; the relay starts when asked to. *)
Lemma parameters_wp m p tr :
  timers_ok (relayState p) → v_prio (viewOf p) = [] → opened (viewOf p) = 0%nat →
  wp any (r_Received_ALL_ALL_PARAMETERS m) (λ _ w,
    timers_ok (relayState w.1) ∧ observe w.2 = observe tr
    ∧ shrinks (v_rm (viewOf p)) (v_rm (viewOf w.1)) ∧ states (r_stateMachine w.1) = states (r_stateMachine p) ∧ v_prio (viewOf w.1) = []
    ∧ opened (viewOf w.1) = 0%nat
    ∧ (r_stateMachine w.1 = r_stateMachine p
       ∨ currentState (r_stateMachine w.1) = "COLLECTING_TRUSTEES_PKS"%string
         ∧ stats_ok (relayState w.1) ∧ fresh (viewOf w.1))) (p, tr).
Proof.
  intros Ht Hp Hop. unfold r_Received_ALL_ALL_PARAMETERS. wp_step. apply wp_bind, wp_get, wp_ret.
  destruct (Z.ltb_spec (IntValueOrElse m "PayloadSize" (r_PayloadSize (relayState p))) 1) as [|Hsz].
  { apply wp_ret. split_and!; try done. by left. }
  wp_step. apply wp_lift; [|done]. intros clients HC%make_slice_ret.
  wp_step. apply wp_lift; [|done]. intros trustees HT%make_slice_ret.
  do 2 wp_step. wp_step. apply wp_lift; [|done]. intros vkeys _.
  wp_step. apply wp_lift; [|done]. intros b Hb. wp_step. apply wp_modify.
  match goal with |- wp _ _ _ (?q, _) => set (p1 := q) end.
  destruct (String.eqb _ "Verifiable"); [by apply wp_crash|].
  assert (stats_ok (relayState p1)) as Hs1 by (split_and!; [done | by eexists..]).
  assert (fresh (viewOf p1)) as Hf1 by (apply (fresh_new _ _ _ b (viewOf p1) HC HT Hb); done).
  eapply wp_mono; [|apply (started_spec _ (viewOf p1) (λ _ v' os, os = [] ∧ fresh v' ∧ shrinks (v_rm (viewOf p1)) (v_rm v')
    ∧ (v_sm v' = v_sm (viewOf p) ∨ currentState (v_sm v') = "COLLECTING_TRUSTEES_PKS"%string
       ∧ states (v_sm v') = states (v_sm (viewOf p))))); [|done..]].
  - cbn beta. intros _ w (Hs & os & -> & -> & Hf & Hsh & Hm). rewrite app_nil_r.
    split_and!; [apply Hs | done | | | apply Hf | apply Hf |].
    + etransitivity; [exact (NewManager_empty _ _ _ _ _ Hb) | exact Hsh].
    + by destruct Hm as [E|[_ E]]; [exact (f_equal states E)|].
    + destruct Hm as [E|[E _]]; [by left | by right].
  - intros v' Hv' _ Hsh Hm. by split_and!.
Qed.
End setup.
