(* ===== verification/RelaySpec.v ===== *)
(** * What the relay promises

    Runs of the relay as sequences of atomic steps (a received message, a
    timeout, data queued by the application), the invariant of all reachable
    states, and the theorems: the window of rounds, the order of announcements,
    delivery of decoded cells, absence of deadlocks and fatal exits. *)

From S2P Require Import Prelude Bytes Crypto DCNetCipher Equivocation DCNet DCNetRound BitMask.
From S2P Require Import Messages StateMachine Measurements Statistics RoundManager RoundManagerInv.
From S2P Require Import RoundManagerSpec NeffShuffle Network HandlerLogic Trustee Relay RelayInv.
From S2P Require Import RelayStates RelayPhases RelaySteps RelaySetup.

Open Scope Z_scope.

Section run.
Context {CS : CryptoSuite} `{!Network CS} `{!Clock CS} `{!ProofSystem CS} {CL : CryptoLaws CS}.
Abbreviation rworld := (PriFiLibRelayInstance CS * list (event CS))%type.
Implicit Types w : rworld.

(** Messages of a run: a relay that has started is not given new parameters. *)
Definition rnormal (p : PriFiLibRelayInstance CS) (m : message CS) : Prop :=
  match m with
  | MParameters m => ForceParams m = false ∨ stateOf p = "BEFORE_INIT"%string
  | _ => True
  end.

(** A step, with the message received in it: a message is handled, a timeout
    expires, or the application queues data; round numbers stay in the range of
    int32. *)
Inductive rlabelled : list (message CS) → rworld → rworld → Prop :=
| rstep_receive rnd1 rnd2 msg p tr r w' :
    room 2 (viewOf p) → rnormal p msg →
    r_ReceivedMessage rnd1 rnd2 msg (p, tr) = Ret (r, w') → rlabelled [msg] (p, tr) w'
| rstep_timeout round p tr w' :
    room 2 (viewOf p) →
    checkIfRoundHasEndedAfterTimeOut_Phase1 round (p, tr) = Ret (tt, w') → rlabelled [] (p, tr) w'
| rstep_queue data p tr :
    rlabelled [] (p, tr) (p <| relayState := (relayState p) <| r_DataForClients :=
                              r_DataForClients (relayState p) ++ [data] |> |>, tr).

Definition rstep (w w' : rworld) : Prop := ∃ ms, rlabelled ms w w'.
Definition rreach : rworld → rworld → Prop := rtc rstep.

(** The observations are the announcements of the rounds 1 to [n], in order, each
    with one message for all clients. *)
Definition announced (v : view (CS:=CS)) (n : nat) (os : list obs) : Prop :=
  ∃ log, os = announceAll v log ∧ dd_RoundID <$> log = rounds_from 0 n.

Lemma announced_nil v : announced v 0 [].
Proof. by exists []. Qed.

Lemma announces_announced v v' n os : announces v v' 0 n os → announced v n os.
Proof. intros (ms & H1 & H2 & _). by exists ms. Qed.

Lemma announced_frame v v' n os : frame v v' → announced v n os → announced v' n os.
Proof. intros Hf (log & -> & H). exists log. split; [|done]. symmetry. by apply frame_announceAll. Qed.

Lemma announces_self v v' a n os : frame v v' → announces v v' a n os → announces v' v' a n os.
Proof. intros Hf (ms & -> & H). exists ms. split; [|done]. symmetry. by apply frame_announceAll. Qed.

(** The phases of a relay's life, with the announcements made so far. *)
Inductive phase (p : PriFiLibRelayInstance CS) (os : list obs) : Prop :=
| ph_init :
    stateOf p = "BEFORE_INIT"%string → timers_ok (relayState p) → v_prio (viewOf p) = [] →
    opened (viewOf p) = 0%nat → os = [] → phase p os
| ph_collecting :
    stateOf p = "COLLECTING_TRUSTEES_PKS"%string ∨ stateOf p = "COLLECTING_CLIENT_PKS"%string →
    stats_ok (relayState p) → fresh (viewOf p) → os = [] → phase p os
| ph_shuffling :
    stateOf p = "COLLECTING_SHUFFLES"%string →
    stats_ok (relayState p) → fresh (viewOf p) → 1 ≤ v_nC (viewOf p) → os = [] → phase p os
| ph_signing :
    stateOf p = "COLLECTING_SHUFFLE_SIGNATURES"%string →
    stats_ok (relayState p) → signing (viewOf p) → os = [] → phase p os
| ph_communicating :
    stateOf p = "COMMUNICATING"%string → stats_ok (relayState p) → settled (viewOf p) →
    0 ≤ lastOpened (viewOf p) →
    announces (viewOf p) (viewOf p) 0 (Z.to_nat (lastOpened (viewOf p))) os → phase p os
| ph_shutdown n :
    stateOf p = "SHUTDOWN"%string → announced (viewOf p) n os → phase p os.

Record rinv w : Prop := {
  ri_states : states (r_stateMachine w.1) = relayStates;
  ri_phase : phase w.1 (downs (observe w.2))
}.

(** A [vspec] about the state a relay is in. *)
Lemma vspec_run {A} C (m : handler (PriFiLibRelayInstance CS) A) Q p tr :
  stats_ok (relayState p) → vspec C m (viewOf p) Q →
  wp C m (λ a w, stats_ok (relayState w.1) ∧ ∃ os, observe w.2 = observe tr ++ os
                 ∧ Q a (viewOf w.1) os) (p, tr).
Proof. intros Hs H. by apply H. Qed.

(** A handler that shows nothing and leads to a view in which [phase] holds
    without announcements. *)
Lemma setup_step {A} (m : handler (PriFiLibRelayInstance CS) A) Q p tr :
  stats_ok (relayState p) → states (r_stateMachine p) = relayStates → downs (observe tr) = [] →
  vspec any m (viewOf p) (λ _ v os, os = [] ∧ Q v) →
  (∀ p', stats_ok (relayState p') → Q (viewOf p') →
     states (r_stateMachine p') = relayStates ∧ phase p' []) →
  wp any m (λ _ w, rinv w) (p, tr).
Proof.
  intros Hs Hst Hd Hm HQ. eapply wp_mono; [|by apply (vspec_run any m _ p tr Hs Hm)]. cbn beta.
  intros _ w (Hs' & os & Ho & -> & Hq). destruct (HQ w.1 Hs' Hq) as [H1 H2].
  split; [done|]. by rewrite Ho, app_nil_r, Hd.
Qed.

Lemma fresh_sm v sm : fresh v → fresh (v <| v_sm := sm |>).
Proof. intros []. by split. Qed.

(** A step of a communicating relay. *)
Lemma communicating_step p tr v' os p' tr' :
  stats_ok (relayState p') → settled (viewOf p) → stateOf p = "COMMUNICATING"%string →
  0 ≤ lastOpened (viewOf p) →
  announces (viewOf p) (viewOf p) 0 (Z.to_nat (lastOpened (viewOf p))) (downs (observe tr)) →
  viewOf p' = v' → observe tr' = observe tr ++ os → progress (viewOf p) v' os → rinv (p', tr').
Proof.
  intros Hs' Hst Hc H0 Hd <- Ho [Hst' Hfr Hsm Hcl Hop Hoc Hdown].
  split; [apply (run_states _ _ (st_running _ Hst'))|]. cbn [fst snd]. rewrite Ho, downs_app.
  assert (announces (viewOf p') (viewOf p') 0 (Z.to_nat (lastOpened (viewOf p')))
    (downs (observe tr) ++ downs os)) as Ha.
  { apply (announces_self (viewOf p)); [done|].
    replace (Z.to_nat (lastOpened (viewOf p'))) with (Z.to_nat (lastOpened (viewOf p))
      + Z.to_nat (lastOpened (viewOf p') - lastOpened (viewOf p)))%nat by lia.
    apply (announces_app _ (viewOf p)); try done. by rewrite Z2Nat.id by lia. }
  destruct Hsm as [E|[E _]].
  - apply ph_communicating; try done; [|lia]. rewrite <- Hc. exact (f_equal currentState E).
  - eapply ph_shutdown; [done|]. by eapply announces_announced.
Qed.

Lemma shutdown_run p tr :
  wp any r_Received_ALL_ALL_SHUTDOWN (λ _ w, observe w.2 = observe tr
    ∧ ∃ sm, w.1 = p <| r_stateMachine := sm |> ∧ currentState sm = "SHUTDOWN"%string
            ∧ states sm = states (r_stateMachine p)) (p, tr).
Proof.
  unfold r_Received_ALL_ALL_SHUTDOWN, r_ChangeState.
  do 2 wp_step. apply wp_get. wp_step. apply wp_lift; [|done]. intros sm [Hc Hs]%changeOrFatal_ret.
  apply wp_modify. set (p1 := p <| r_stateMachine := sm |>).
  assert (∀ (f : Z → dest) l tr1, observe tr1 = observe tr →
    wp any (forEach (λ j, _ ← sendToWithLog (f j) MShutdown; mret tt) l)
      (λ _ w, w.1 = p1 ∧ observe w.2 = observe tr) (p1, tr1)) as Hsend.
  { intros f l tr1 E1. apply (wp_forEach any _ (λ _ w, w.1 = p1 ∧ observe w.2 = observe tr)); [|done].
    intros done x todo [p2 tr2] _. cbn [fst snd]. intros [-> E2]. wp_step. apply wp_send. intros b evs Hevs. apply wp_ret.
    split; [easy|]. cbn [snd]. by rewrite observe_app, (observe_send _ _ _ Hevs), E2, app_nil_r. }
  wp_step. apply wp_bind, wp_bind, wp_get, wp_ret. eapply wp_mono; [|by apply Hsend].
  intros _ [p2 tr2] [E1 E2]. cbn [fst snd] in E1, E2. subst p2. wp_step. apply wp_bind, wp_bind, wp_get, wp_ret.
  eapply wp_mono; [|by apply Hsend]. intros _ [p3 tr3] [E1 E3]. cbn [fst snd] in E1, E3. subst p3. apply wp_ret.
  split; [done|]. by exists sm.
Qed.

Lemma shutdown_wp p tr :
  rinv (p, tr) → wp any r_Received_ALL_ALL_SHUTDOWN (λ _ w, rinv w) (p, tr).
Proof.
  intros [Hst Hph]. cbn [fst snd] in *. eapply wp_mono; [|apply shutdown_run]. cbn beta.
  intros _ [p' tr'] (E & sm & Ep & Hc & Hs). cbn [fst snd] in *. subst p'.
  split; cbn [fst snd]; [by rewrite <- Hst, <- Hs|]. rewrite E.
  assert (∃ n, announced (viewOf p) n (downs (observe tr))) as [n Hn].
  { destruct Hph as [? ? ? ? E'|? ? ? E'|? ? ? ? E'|? ? ? E'|? ? ? ? E'|n ? E'];
      [rewrite E'; exists 0%nat; apply announced_nil..|eexists; by eapply announces_announced|eauto]. }
  by apply (ph_shutdown _ _ n).
Qed.

Lemma guarded_wp st (h : handler (PriFiLibRelayInstance CS) (result unit)) Q p tr :
  Q (Ok tt) (p, tr) → (stateOf p = st → wp any h Q (p, tr)) →
  wp any (ok ← r_AssertState st; if ok : bool then h else mret (Ok tt)) Q (p, tr).
Proof.
  intros HI Hh. wp_step. apply wp_bind, wp_get, wp_lift; [|done].
  intros [] Hok; [|by apply wp_ret]. by apply Hh, assertOrFatal_true.
Qed.

(** Reading off the phase from the state. *)
Lemma phase_before p os : phase p os → stateOf p = "BEFORE_INIT"%string →
  timers_ok (relayState p) ∧ v_prio (viewOf p) = [] ∧ opened (viewOf p) = 0%nat ∧ os = [].
Proof. intros [| [] | | | |]; intros; congruence || done. Qed.

Lemma phase_collecting p os : phase p os →
  stateOf p = "COLLECTING_TRUSTEES_PKS"%string ∨ stateOf p = "COLLECTING_CLIENT_PKS"%string →
  stats_ok (relayState p) ∧ fresh (viewOf p) ∧ os = [].
Proof. intros [| [] | | | |] []; intros; congruence || done. Qed.

Lemma phase_shuffling p os : phase p os → stateOf p = "COLLECTING_SHUFFLES"%string →
  stats_ok (relayState p) ∧ fresh (viewOf p) ∧ 1 ≤ v_nC (viewOf p) ∧ os = [].
Proof. intros [| [] | | | |]; intros; congruence || done. Qed.

Lemma phase_signing p os : phase p os → stateOf p = "COLLECTING_SHUFFLE_SIGNATURES"%string →
  stats_ok (relayState p) ∧ signing (viewOf p) ∧ os = [].
Proof. intros [| [] | | | |]; intros; congruence || done. Qed.

Lemma phase_communicating p os : phase p os → stateOf p = "COMMUNICATING"%string →
  stats_ok (relayState p) ∧ settled (viewOf p) ∧ 0 ≤ lastOpened (viewOf p)
  ∧ announces (viewOf p) (viewOf p) 0 (Z.to_nat (lastOpened (viewOf p))) os.
Proof. intros [| [] | | | |]; intros; congruence || done. Qed.

(** What a step of a communicating relay that received [ms] leads to: rounds were
    closed and opened, the opened ones announced, and what was delivered comes
    from the buffered ciphers. *)
Definition advances (ms : list (message CS)) (p : PriFiLibRelayInstance CS) tr (w : rworld) : Prop :=
  stats_ok (relayState w.1)
  ∧ ∃ os, observe w.2 = observe tr ++ os ∧ step_ok ms (viewOf p) (viewOf w.1) os.

Lemma advances_refl ms p tr : stats_ok (relayState p) → settled (viewOf p) → advances ms p tr (p, tr).
Proof.
  intros Hs Hst. split; [done|]. exists []. rewrite app_nil_r. split; [done|]. by apply step_ok_same.
Qed.

Lemma data_wp {A} ms C (m : handler (PriFiLibRelayInstance CS) A) p tr :
  stats_ok (relayState p) → vspec bad_cell m (viewOf p) (λ _ v' os, step_ok ms (viewOf p) v' os) →
  (∀ c, bad_cell c → C c) → wp C m (λ _ w, advances ms p tr w) (p, tr).
Proof. intros Hs Hm HC. apply (vspec_run C m (λ _ v' os, step_ok ms (viewOf p) v' os) p tr Hs). by eapply vspec_weaken. Qed.

Lemma blame_wp {A} ms (m : handler (PriFiLibRelayInstance CS) A) p tr :
  stats_ok (relayState p) → settled (viewOf p) → quiet any m →
  wp any m (λ _ w, advances ms p tr w) (p, tr).
Proof.
  intros Hs Hst Hm. apply (vspec_run any m (λ _ v' os, step_ok ms (viewOf p) v' os) p tr Hs). eapply vspec_mono; [|apply Hm]. cbn beta.
  intros _ v' os [-> ->]. by apply step_ok_same.
Qed.

Lemma stop_wp ms p tr :
  stats_ok (relayState p) → settled (viewOf p) →
  wp any r_Received_ALL_ALL_SHUTDOWN (λ _ w, advances ms p tr w) (p, tr).
Proof.
  intros Hs Hst. apply (vspec_run any _ (λ _ v' os, step_ok ms (viewOf p) v' os) p tr Hs).
  eapply vspec_mono; [|apply shutdown_spec, (run_states _ _ (st_running _ Hst))]. cbn beta.
  intros _ v' os (-> & sm & -> & Hc & Hsm).
  assert (settled ((viewOf p) <| v_sm := sm |>)) as Hst' by (destruct Hst as [[] ? ? ? ?]; by split; [split|..]).
  split.
  - split; try done; [by right|].
    change (lastOpened ((viewOf p) <| v_sm := sm |>)) with (lastOpened (viewOf p)). rewrite Z.sub_diag.
    apply announces_nil.
  - exists (v_rm (viewOf p)). split; [done|]. split; [apply received_refl|]. by apply delivers_none.
Qed.

(** The states a handler that needs another state is called in. *)
Ltac wrong_state Hc := apply guarded_wp; [by apply advances_refl|]; rewrite Hc; discriminate.

Lemma communicating_receive rnd1 rnd2 msg p tr :
  stats_ok (relayState p) → settled (viewOf p) → stateOf p = "COMMUNICATING"%string →
  room 2 (viewOf p) → rnormal p msg →
  wp any (r_ReceivedMessage rnd1 rnd2 msg) (λ _ w, advances [msg] p tr w) (p, tr).
Proof.
  intros Hs Hst Hc Hroom Hn. assert (room 1 (viewOf p)) as Hroom1 by (unfold room in *; lia).
  pose proof (advances_refl [msg] p tr Hs Hst) as Hrefl.
  unfold r_ReceivedMessage. destruct msg; try (by apply wp_ret); try wrong_state Hc.
  - destruct (ForceParams m) eqn:E; [|wrong_state Hc].
    destruct Hn as [|Hn]; [congruence|]. by rewrite Hc in Hn.
  - by apply stop_wp.
  - apply guarded_wp; [done|]. intros _. by apply data_wp; [|apply upstream_spec|].
  - apply guarded_wp; [done|]. intros _. by apply data_wp; [|apply openclosed_spec|].
  - wp_step. apply wp_bind, wp_get, wp_lift; [|done]. intros [] _; [|by apply wp_ret].
    by apply data_wp; [|apply cipher_spec|].
  - apply guarded_wp; [done|]. intros _. apply blame_wp; [done..|]. apply blame_quiet.
  - apply guarded_wp; [done|]. intros _. apply blame_wp; [done..|]. apply clientReveal_quiet.
  - apply guarded_wp; [done|]. intros _. apply blame_wp; [done..|]. apply trusteeReveal_quiet.
  - apply guarded_wp; [done|]. intros _. apply blame_wp; [done..|]. apply clientSecret_quiet.
  - apply guarded_wp; [done|]. intros _. apply blame_wp; [done..|]. apply trusteeSecret_quiet.
Qed.

Lemma parameters_inv m p tr :
  rinv (p, tr) → stateOf p = "BEFORE_INIT"%string →
  wp any (r_Received_ALL_ALL_PARAMETERS m) (λ _ w, rinv w) (p, tr).
Proof.
  intros [Hst Hph] Hc. apply phase_before in Hph as (Ht & Hp & Hop & Hd); [|done].
  eapply wp_mono; [|by apply parameters_wp]. cbn beta. intros _ w (Ht' & Ho & _ & Hst' & Hp' & Hop' & Hm).
  split; [by rewrite Hst'|]. rewrite Ho. destruct Hm as [E|(E & Hs' & Hf)].
  - apply ph_init; try done. unfold stateOf. by rewrite E.
  - apply ph_collecting; try done. by left.
Qed.

(** The same state, another phase. *)
Lemma same_state p p' v' : viewOf p' = v' → v_sm v' = v_sm (viewOf p) →
  states (r_stateMachine p') = states (r_stateMachine p) ∧ stateOf p' = stateOf p.
Proof. intros <- E. split; [exact (f_equal states E) | exact (f_equal currentState E)]. Qed.

Lemma moved_state x v p' : moved x v (viewOf p') →
  ∃ sm, viewOf p' = v <| v_sm := sm |> ∧ states (r_stateMachine p') = states (v_sm v) ∧ stateOf p' = x.
Proof.
  intros (sm & E & Hc & Hs). exists sm. assert (r_stateMachine p' = sm) as Esm by exact (f_equal v_sm E).
  unfold stateOf. by rewrite Esm.
Qed.

Lemma tellPk_inv m p tr :
  rinv (p, tr) → stateOf p = "COLLECTING_TRUSTEES_PKS"%string →
  wp any (Received_TRU_REL_TELL_PK m) (λ _ w, rinv w) (p, tr).
Proof.
  intros [Hst Hph] Hc. apply phase_collecting in Hph as (Hs & Hf & Hd); [|by left].
  eapply setup_step; [done..|apply tellPk_spec|]. cbn beta. intros p' Hs' [E|Hm].
  - destruct (same_state p p' _ E eq_refl) as [-> E2]. split; [done|].
    apply ph_collecting; [left; congruence|done|by rewrite E|done].
  - apply moved_state in Hm as (sm & E & -> & Hc'). split; [done|].
    apply ph_collecting; [by right|done|rewrite E; by apply fresh_sm|done].
Qed.

Lemma tellPkEph_inv m p tr :
  rinv (p, tr) → stateOf p = "COLLECTING_CLIENT_PKS"%string →
  wp any (Received_CLI_REL_TELL_PK_AND_EPH_PK m) (λ _ w, rinv w) (p, tr).
Proof.
  intros [Hst Hph] Hc. apply phase_collecting in Hph as (Hs & Hf & Hd); [|by right].
  assert (fresh ((viewOf p) <| v_pks := v_pks (viewOf p) + 1 |>)) as Hf'.
  { destruct Hf. split; cbn; try done. cbn in *. lia. }
  pose proof (fr_pks _ Hf). eapply setup_step; [done..|apply tellPkEph_spec|]. cbn beta.
  intros p' Hs' [E|[En Hm]].
  - destruct (same_state p p' _ E eq_refl) as [-> E2]. split; [done|].
    apply ph_collecting; [right; congruence|done|by rewrite E|done].
  - apply moved_state in Hm as (sm & E & -> & Hc'). split; [done|].
    apply ph_shuffling; [done|done|rewrite E; by apply fresh_sm| |done].
    rewrite E. cbn in *. lia.
Qed.

Lemma newBase_inv rnd1 rnd2 m p tr :
  rinv (p, tr) → stateOf p = "COLLECTING_SHUFFLES"%string →
  wp any (Received_TRU_REL_TELL_NEW_BASE rnd1 rnd2 m) (λ _ w, rinv w) (p, tr).
Proof.
  intros [Hst Hph] Hc. apply phase_shuffling in Hph as (Hs & Hf & Hn & Hd); [|done].
  eapply setup_step; [done..|apply newBase_spec|]. cbn beta. intros p' Hs' [E|(d & Hed & Hdec & Hm)].
  - destruct (same_state p p' _ E eq_refl) as [-> E2]. split; [done|].
    apply ph_shuffling; [congruence|done|by rewrite E..|done].
  - apply moved_state in Hm as (sm & E & Hst' & Hc'). split; [by rewrite Hst'|].
    apply ph_signing; [done..| |done]. rewrite E. split; [by destruct Hf; split|done| |by exists d].
    cbn. transitivity (states (r_stateMachine p')); [by rewrite (f_equal v_sm E : r_stateMachine p' = _)|].
    by rewrite Hst'.
Qed.

Lemma shuffleSig_inv m p tr :
  rinv (p, tr) → stateOf p = "COLLECTING_SHUFFLE_SIGNATURES"%string →
  wp any (Received_TRU_REL_SHUFFLE_SIG m) (λ _ w, rinv w) (p, tr).
Proof.
  intros [Hst Hph] Hc. apply phase_signing in Hph as (Hs & Hsg & Hd); [|done].
  eapply setup_step; [done..|by apply shuffleSig_spec|]. cbn beta.
  intros p' Hs' [E|(Hset & Hfr & Hl & Hc')].
  - destruct (same_state p p' _ E eq_refl) as [-> E2]. split; [done|].
    apply ph_signing; [congruence|done|by rewrite E|done].
  - split; [apply (run_states _ _ (st_running _ Hset))|].
    apply ph_communicating; try done; [by rewrite Hl|]. rewrite Hl. apply announces_nil.
Qed.

Lemma cipher_inv m p tr :
  rinv (p, tr) → stateOf p ≠ "COMMUNICATING"%string →
  wp any (ok ← r_AssertStateOrState "COMMUNICATING" "COLLECTING_SHUFFLE_SIGNATURES";
          if ok : bool then Received_TRU_REL_DC_CIPHER m else mret (Ok tt)) (λ _ w, rinv w) (p, tr).
Proof.
  intros HI Hne. wp_step. apply wp_bind, wp_get, wp_lift; [|done].
  intros [] Hok; [|by apply wp_ret]. apply assertOrFatal2_true in Hok as [Hc|Hc]; [done|].
  destruct HI as [Hst Hph]. apply phase_signing in Hph as (Hs & Hsg & Hd); [|done].
  eapply setup_step; [done..|by apply early_cipher_spec|]. cbn beta. intros p' Hs' (Hsg' & b & E & _).
  destruct (same_state p p' _ E eq_refl) as [-> E2]. split; [done|].
  apply ph_signing; [by rewrite E2|done..].
Qed.

Lemma receive_inv rnd1 rnd2 msg p tr :
  rinv (p, tr) → room 2 (viewOf p) → rnormal p msg →
  wp any (r_ReceivedMessage rnd1 rnd2 msg) (λ _ w, rinv w) (p, tr).
Proof.
  intros HI Hroom Hn. destruct (String.eqb_spec (stateOf p) "COMMUNICATING") as [Hc|Hc].
  { pose proof HI as [_ Hph]. apply phase_communicating in Hph as (Hs & Hst & H0 & Hd); [|done].
    eapply wp_mono; [|by apply communicating_receive]. cbn beta.
    intros _ [p' tr'] (Hs' & os & Ho & Hp & _). by eapply communicating_step. }
  unfold r_ReceivedMessage. destruct msg; try (by apply wp_ret); try (by apply guarded_wp).
  - destruct (ForceParams m) eqn:E; [destruct Hn as [|Hn]; [congruence|]; by apply parameters_inv|].
    apply guarded_wp; [done|]. intros Hs. by apply parameters_inv.
  - by apply shutdown_wp.
  - apply guarded_wp; [done|]. intros Hs. by apply tellPkEph_inv.
  - by apply cipher_inv.
  - apply guarded_wp; [done|]. intros Hs. by apply shuffleSig_inv.
  - apply guarded_wp; [done|]. intros Hs. by apply newBase_inv.
  - apply guarded_wp; [done|]. intros Hs. by apply tellPk_inv.
Qed.

Lemma closed_if_empty v round : opened v = 0%nat → isRoundOpen (v_rm v) round = false.
Proof. intros Ho%map_size_empty_inv. unfold isRoundOpen. by rewrite Ho. Qed.

(** Only the timeouts of a communicating relay do anything. *)
Lemma timely_communicating p os round :
  phase p os → timely p round = true → stateOf p = "COMMUNICATING"%string.
Proof.
  intros Hph [Ht Hns]%andb_prop.
  destruct Hph as [Hc ? ? Ho|? ? Hf|? ? Hf|? ? Hf|Hc|n Hc]; [| | | |done|].
  5: { exfalso. unfold State in Hns. by rewrite (Hc : currentState _ = _) in Hns. }
  all: exfalso; enough (isRoundOpen (v_rm (viewOf p)) round = false) by (cbn in *; congruence);
    apply closed_if_empty; done || apply Hf.
Qed.

Lemma communicating_timeout round p tr :
  stats_ok (relayState p) → settled (viewOf p) → room 2 (viewOf p) →
  wp bad_cell (checkIfRoundHasEndedAfterTimeOut_Phase1 round) (λ _ w, advances [] p tr w) (p, tr).
Proof.
  intros Hs Hst Hroom. destruct (timely p round) eqn:Ht.
  2:{ unfold wp. rewrite timeout_cases, Ht. by apply advances_refl. }
  destruct (too_many_failures p) eqn:Hf.
  - unfold wp. rewrite timeout_cases, Ht, Hf. cbn [negb].
    destruct (MissingCiphersForCurrentRound _) as [cs ts]. split; [done|]. exists [].
    cbn [snd]. rewrite observe_app. split; [done|]. by apply step_ok_same.
  - pose proof (timeout_wp p tr round Hs Hst Hroom Ht Hf) as Hw. unfold wp in *.
    destruct (checkIfRoundHasEndedAfterTimeOut_Phase1 _ _) as [[r w]|c]; [|by destruct Hw].
    destruct Hw as (Hs' & os & Ho & Hp & _). split; [done|]. by exists os.
Qed.

Lemma timeout_inv round p tr :
  rinv (p, tr) → room 2 (viewOf p) →
  wp bad_cell (checkIfRoundHasEndedAfterTimeOut_Phase1 round) (λ _ w, rinv w) (p, tr).
Proof.
  intros HI Hroom. pose proof HI as [_ Hph]. cbn [fst snd] in Hph. destruct (timely p round) eqn:Ht.
  - pose proof (timely_communicating p _ round Hph Ht) as Hc.
    apply phase_communicating in Hph as (Hs & Hst & H0 & Hd); [|done].
    eapply wp_mono; [|by apply communicating_timeout]. cbn beta.
    intros _ [p' tr'] (Hs' & os & Ho & Hp & _). by eapply communicating_step.
  - unfold wp. by rewrite timeout_cases, Ht.
Qed.

Lemma step_inv w w' : rinv w → rstep w w' → rinv w'.
Proof.
  intros HI [ms Hs]. revert HI.
  destruct Hs as [rnd1 rnd2 msg p tr r w1 Hroom Hn E|round p tr w1 Hroom E|data p tr]; intros HI.
  - exact (wp_inv any _ (λ _ w, rinv w) _ _ _ (receive_inv rnd1 rnd2 msg p tr HI Hroom Hn) E).
  - exact (wp_inv bad_cell _ (λ _ w, rinv w) _ _ _ (timeout_inv round p tr HI Hroom) E).
  - destruct HI as [Hst Hph]. split; [done|]. cbn [fst snd] in *.
    destruct Hph; [by apply ph_init | by apply ph_collecting | by apply ph_shuffling
      | by apply ph_signing | by apply ph_communicating | by eapply ph_shutdown].
Qed.

Lemma NewRelay_inv sk t out data p : NewRelay sk t out data = Ret p → rinv (p, []).
Proof.
  intros E. unfold NewRelay in E. destruct (NewKeyPair sk) as [pk x]. cbn in E. injection E as <-.
  split; [done|]. apply ph_init; try done. 
  repeat (constructor; [by eexists|]). constructor.
Qed.

Lemma reach_inv sk t out data p w : NewRelay sk t out data = Ret p → rreach (p, []) w → rinv w.
Proof.
  intros E%NewRelay_inv H. induction H as [|w1 w2 w3 Hs _ IH]; [done|]. by eapply IH, step_inv.
Qed.

(** ** The window of rounds *)

Lemma settled_window v r : settled v →
  isRoundOpen (v_rm v) r = true ↔ lastClosed v < r ≤ lastClosed v + Z.of_nat (opened v).
Proof.
  intros Hst. destruct (rmi_window _ _ (run_rm _ _ (st_running _ Hst))) as (_ & _ & Hk).
  unfold isRoundOpen, lastClosed, opened. unfold lastOpen in Hk. rewrite <- Hk.
  destruct (openRounds (v_rm v) !! r); split; intros H; [by eexists | done | done | by destruct H].
Qed.

(** C8: In every state a relay can reach while it communicates, the open rounds
    are consecutive, at least one and at most the window size; as many packets
    are in flight; the decoder is started, empty, for the oldest open round; and
    no priority data is left in its channel. *)
Theorem relay_window sk t out data p0 p tr :
  NewRelay sk t out data = Ret p0 → rreach (p0, []) (p, tr) → stateOf p = "COMMUNICATING"%string →
  let s := relayState p in
  let n := Z.of_nat (size (openRounds (r_roundManager s))) in
  let last := lastRoundClosed (r_roundManager s) in
  1 ≤ n ≤ r_WindowSize s ∧ r_numberOfNonAckedDownstreamPackets s = n
  ∧ (∀ r, isRoundOpen (r_roundManager s) r = true ↔ last < r ≤ last + n)
  ∧ (∃ d, r_DCNet s = Some d ∧ RoundDecoder d = Some (fresh_decoder (last + 1) (r_PayloadSize s)))
  ∧ r_PriorityDataForClients s = [].
Proof.
  intros E H Hc. pose proof (reach_inv _ _ _ _ _ _ E H) as [_ Hph].
  apply phase_communicating in Hph as (_ & Hst & _); [|done]. cbn [fst] in Hst. intros s n last.
  pose proof Hst as [Hr Hd Ho Hf Hp]. destruct (Hd Ho) as (d & Ed & Hdec).
  destruct (run_dcnet _ _ Hr) as (d' & Ed' & Hsz & _). rewrite Ed in Ed'. injection Ed' as <-.
  pose proof (opened_window _ _ Hr Ho) as Hw. unfold opened in Ho.
  split_and!; [|exact Hw|exact Hf|intros r; exact (settled_window _ r Hst)| |exact Hp].
  - change (size (openRounds (r_roundManager s)) ≠ 0%nat) in Ho. lia.
  - exists d. split; [exact Ed|]. unfold decoding in Hdec. rewrite Hdec, Hsz. done.
Qed.

(** ** Announcements *)

(** C9: The downstream messages of any run, whatever was received and lost, are
    those of the rounds 1, 2, 3, ... in this order, each round announced once to
    every client (or once over UDP) and with the same message for all of them;
    while the relay communicates they end with the last round opened. *)
Theorem relay_announces_in_order sk t out data p0 p tr :
  NewRelay sk t out data = Ret p0 → rreach (p0, []) (p, tr) →
  ∃ n log, dd_RoundID <$> log = rounds_from 0 n
  ∧ downs (observe tr) = flat_map (announce (viewOf p)) log
  ∧ (stateOf p = "COMMUNICATING"%string →
     Z.of_nat n = lastRoundClosed (r_roundManager (relayState p))
                  + Z.of_nat (size (openRounds (r_roundManager (relayState p))))).
Proof.
  intros E H. pose proof (reach_inv _ _ _ _ _ _ E H) as [_ Hph]. cbn [fst snd] in Hph.
  destruct Hph as [Hc|[Hc|Hc]|Hc|Hc|Hc Hs Hset H0 (log & Hd & Hl & _)|n Hc (log & Hd & Hl)].
  1-5: exists 0%nat, []; split_and!; [done..|]; congruence.
  - exists (Z.to_nat (lastOpened (viewOf p))), log. split_and!; [done..|]. intros _. by rewrite Z2Nat.id.
  - exists n, log. split_and!; [done..|]. congruence.
Qed.

(** ** Refinement of an abstract pipeline *)

(** A pipeline of rounds of width [W]: [(c, o)], the last round closed and the
    last one opened.  Rounds are opened one by one while fewer than [W] are
    open, which announces them, and closed one by one. *)
Inductive pipe (W : Z) : Z * Z → list Z → Z * Z → Prop :=
| pipe_stop s : pipe W s [] s
| pipe_open c o rs s : o - c < W → pipe W (c, o + 1) rs s → pipe W (c, o) (o + 1 :: rs) s
| pipe_close c o rs s : c < o → pipe W (c + 1, o) rs s → pipe W (c, o) rs s.

(** Between two non-empty windows, later in both ends, the pipeline can move. *)
Lemma pipe_moves W (n : nat) : ∀ c o c' o',
  (Z.to_nat (c' - c) + Z.to_nat (o' - o))%nat = n →
  c ≤ o → o - c ≤ W → c' < o' → o' - c' ≤ W → c ≤ c' → o ≤ o' →
  pipe W (c, o) (rounds_from o (Z.to_nat (o' - o))) (c', o').
Proof.
  induction n as [n IH] using lt_wf_ind. intros c o c' o' Hn Hco HW Hco' HW' Hc Ho.
  destruct (Z.eq_dec o o') as [<-|Hne].
  - rewrite Z.sub_diag in *. destruct (Z.eq_dec c c') as [<-|]; [constructor|].
    apply pipe_close; [lia|]. pose proof (IH (n - 1)%nat ltac:(lia) (c + 1) o c' o) as H.
    rewrite Z.sub_diag in H. apply H; lia.
  - destruct (Z_lt_ge_dec (o - c) W) as [Hlt|Hge].
    + replace (Z.to_nat (o' - o)) with (S (Z.to_nat (o' - (o + 1)))) by lia.
      assert (rounds_from o (S (Z.to_nat (o' - (o + 1))))
        = o + 1 :: rounds_from (o + 1) (Z.to_nat (o' - (o + 1)))) as ->.
      { unfold rounds_from. cbn [seq]. rewrite fmap_cons. f_equal; [lia|]. rewrite <- seq_shift.
        rewrite <- list_fmap_compose. apply list_fmap_ext. intros i k _. cbn. lia. }
      apply pipe_open; [done|]. apply (IH (n - 1)%nat); lia.
    + apply pipe_close; [lia|]. apply (IH (n - 1)%nat); lia.
Qed.

Definition pipeOf (p : PriFiLibRelayInstance CS) : Z * Z :=
  (lastClosed (viewOf p), lastOpened (viewOf p)).

Lemma communicating_moves ms p tr p' tr' :
  rinv (p, tr) → stateOf p = "COMMUNICATING"%string → rlabelled ms (p, tr) (p', tr') →
  advances ms p tr (p', tr').
Proof.
  intros [_ Hph] Hc Hstep. apply phase_communicating in Hph as (Hs & Hst & _ & _); [|done].
  cbn [fst] in Hs, Hst. remember (p, tr) as w eqn:Ew. remember (p', tr') as w' eqn:Ew'.
  destruct Hstep as [rnd1 rnd2 msg p1 tr1 r w1 Hroom Hn E|round p1 tr1 w1 Hroom E|d p1 tr1];
    injection Ew as -> ->; subst.
  - exact (wp_inv any _ (λ _ w, advances [msg] p tr w) _ _ _
             (communicating_receive rnd1 rnd2 msg p tr Hs Hst Hc Hroom Hn) E).
  - exact (wp_inv bad_cell _ (λ _ w, advances [] p tr w) _ _ _
             (communicating_timeout round p tr Hs Hst Hroom) E).
  - injection Ew' as <- <-. split; [done|]. exists []. rewrite app_nil_r. split; [done|].
    by apply step_ok_same.
Qed.

Lemma pipe_of_progress v v' os :
  settled v → progress v v' os →
  pipe (v_window v) (lastClosed v, lastOpened v)
    (rounds_from (lastOpened v) (Z.to_nat (lastOpened v' - lastOpened v)))
    (lastClosed v', lastOpened v').
Proof.
  intros [Hr _ Ho _ _] [[Hr' _ Ho' _ _] Hfr _ Hcl Hop _ _].
  pose proof (opened_window _ _ Hr Ho). pose proof (opened_window _ _ Hr' Ho') as Hw'.
  rewrite (f_equal v_window Hfr) in Hw'. cbn in Hw'.
  eapply pipe_moves; [done|unfold lastOpened in *; lia..].
Qed.

(** C7: The relay refines the pipeline of its window size: the rounds it has
    closed and opened since the shuffle, and the announcements it made, are a
    run of the pipeline from one open round 0; and every single step of a
    communicating relay (any message, timeout or data from the application) is
    matched by a run of the pipeline that announces the same rounds, each with one
    message for all clients. *)
Theorem relay_refines_pipeline sk t out data p0 p tr :
  NewRelay sk t out data = Ret p0 → rreach (p0, []) (p, tr) → stateOf p = "COMMUNICATING"%string →
  let W := r_WindowSize (relayState p) in
  (∃ log, pipe W (-1, 0) (dd_RoundID <$> log) (pipeOf p)
          ∧ downs (observe tr) = flat_map (announce (viewOf p)) log)
  ∧ (∀ p' tr', rstep (p, tr) (p', tr') →
      ∃ log, pipe W (pipeOf p) (dd_RoundID <$> log) (pipeOf p')
             ∧ downs (observe tr') = downs (observe tr) ++ flat_map (announce (viewOf p)) log).
Proof.
  intros E H Hc W. pose proof (reach_inv _ _ _ _ _ _ E H) as HI. split.
  - destruct HI as [_ Hph]. apply phase_communicating in Hph as (_ & Hst & H0 & log & Hd & Hlog & _); [|done].
    cbn [fst snd] in *. exists log. split; [|exact Hd]. rewrite Hlog.
    pose proof (opened_window _ _ (st_running _ Hst) (st_open _ Hst)) as Hw.
    change W with (v_window (viewOf p)).
    pose proof (rmi_window _ _ (run_rm _ _ (st_running _ Hst))) as (Hl & _).
    pose proof (st_open _ Hst). unfold pipeOf.
    replace (lastOpened (viewOf p)) with (lastOpened (viewOf p) - 0) at 1 by lia.
    eapply pipe_moves; [done|unfold lastOpened, lastClosed in *; lia..].
  - intros p' tr' [ms Hstep].
    destruct (communicating_moves ms p tr p' tr' HI Hc Hstep) as (_ & os & Ho & Hp & _).
    destruct HI as [_ Hph]. apply phase_communicating in Hph as (_ & Hst & _ & _); [|done].
    cbn [fst snd] in *. destruct (pg_downs _ _ _ Hp) as (log & Hd & Hlog & _). exists log.
    rewrite Hlog. split; [exact (pipe_of_progress _ _ _ Hst Hp)|]. by rewrite Ho, downs_app, Hd.
Qed.

(** ** Failures *)

Definition is_data (m : message CS) : Prop :=
  match m with MUpstream _ | MOpenClosed _ | MDCCipher _ => True | _ => False end.

Lemma bad_cell_panics c : bad_cell c → c = RuntimeError ∨ ∃ m, c = Panicked m.
Proof. intros Hb. destruct c; try done; [by left | right; by eexists]. Qed.

(** In its own state an assertion succeeds. *)
Lemma assert_own st p tr : stateOf p = st → st ∈ states (r_stateMachine p) →
  (r_AssertState st : handler (PriFiLibRelayInstance CS) bool) (p, tr) = Ret (true, (p, tr)).
Proof.
  intros Hc Hin. unfold r_AssertState. rewrite run_bind. cbn [get fst snd]. unfold lift, assertOrFatal.
  by rewrite (proj2 (AssertState_true _ _) (conj Hin Hc)).
Qed.

Lemma assert_own2 st st' p tr : stateOf p = st → st ∈ states (r_stateMachine p) →
  st' ∈ states (r_stateMachine p) →
  (r_AssertStateOrState st st' : handler (PriFiLibRelayInstance CS) bool) (p, tr) = Ret (true, (p, tr)).
Proof.
  intros Hc H1 H2. unfold r_AssertStateOrState. rewrite run_bind. cbn [get fst snd].
  unfold lift, assertOrFatal2.
  by rewrite (proj2 (AssertStateOrState_true _ _ _) (conj H1 (conj H2 (or_introl Hc)))).
Qed.

Lemma communicating_data rnd1 rnd2 msg p tr :
  stats_ok (relayState p) → settled (viewOf p) → stateOf p = "COMMUNICATING"%string →
  room 2 (viewOf p) → is_data msg →
  wp bad_cell (r_ReceivedMessage rnd1 rnd2 msg) (λ _ w, advances [msg] p tr w) (p, tr).
Proof.
  intros Hs Hst Hc Hroom Hmsg. assert (room 1 (viewOf p)) as Hroom1 by (unfold room in *; lia).
  assert (states (r_stateMachine p) = relayStates) as Hsm by apply (run_states _ _ (st_running _ Hst)).
  unfold wp, r_ReceivedMessage. destruct msg; try done; rewrite run_bind.
  - rewrite assert_own by (done || rewrite Hsm; set_solver).
    apply (data_wp _ bad_cell); [done|by apply upstream_spec|done].
  - rewrite assert_own by (done || rewrite Hsm; set_solver).
    apply (data_wp _ bad_cell); [done|by apply openclosed_spec|done].
  - rewrite assert_own2 by (done || rewrite Hsm; set_solver).
    apply (data_wp _ bad_cell); [done|by apply cipher_spec|done].
Qed.

(** C15: A communicating relay that is sent a cipher or an open/closed request,
    of whatever size and content, for whatever round, from whatever client or
    trustee, and a relay whose timeout expires, never exits through log.Fatal,
    never blocks on its own channel of priority data and never loops: the
    handler returns, or the cell it decodes is ill-formed and it panics. *)
Theorem relay_data_safe sk t out data p0 p tr :
  NewRelay sk t out data = Ret p0 → rreach (p0, []) (p, tr) → room 2 (viewOf p) →
  (∀ rnd1 rnd2 msg, stateOf p = "COMMUNICATING"%string → is_data msg →
     match r_ReceivedMessage rnd1 rnd2 msg (p, tr) with
     | Ret _ => True
     | Crash c => c = RuntimeError ∨ ∃ m, c = Panicked m
     end)
  ∧ (∀ round, match checkIfRoundHasEndedAfterTimeOut_Phase1 round (p, tr) with
              | Ret _ => True
              | Crash c => c = RuntimeError ∨ ∃ m, c = Panicked m
              end).
Proof.
  intros E H Hroom. pose proof (reach_inv _ _ _ _ _ _ E H) as HI.
  split.
  - intros rnd1 rnd2 msg Hc Hmsg. pose proof HI as [Hsm Hph].
    apply phase_communicating in Hph as (Hs & Hst & _); [|done]. cbn [fst] in *.
    pose proof (communicating_data rnd1 rnd2 msg p tr Hs Hst Hc Hroom Hmsg) as Hd. unfold wp in Hd.
    destruct (r_ReceivedMessage _ _ _ _) as [[r w]|c]; [done | by apply bad_cell_panics].
  - intros round. pose proof (timeout_inv round p tr HI Hroom) as Hd. unfold wp in Hd.
    destruct (checkIfRoundHasEndedAfterTimeOut_Phase1 _ _) as [[r w]|c]; [done | by apply bad_cell_panics].
Qed.

(** C14: When the timeout of a round expires while the round is open, the relay
    does not stay where it is: after too many failed rounds in a row it tells
    the timeout handler which clients and trustees it misses, and changes
    nothing else; otherwise it gives the oldest open round up (not the one that
    timed out), opens rounds until the window is full again, and returns.  Only if
    every client and trustee has already sent its cipher for the following round is
    that one processed too, and then a cell that cannot be decoded may make the
    relay panic. *)
Theorem relay_timeout_progress sk t out data p0 p tr round :
  NewRelay sk t out data = Ret p0 → rreach (p0, []) (p, tr) → room 2 (viewOf p) →
  stateOf p = "COMMUNICATING"%string → isRoundOpen (r_roundManager (relayState p)) round = true →
  let b := r_roundManager (relayState p) in
  let timeout := checkIfRoundHasEndedAfterTimeOut_Phase1 round (p, tr) in
  if too_many_failures p then
    timeout = Ret (tt, (failed_once p, tr ++ [TimedOut (MissingCiphersForCurrentRound b).1
                                                        (MissingCiphersForCurrentRound b).2]))
  else
    match timeout with
    | Ret (_, w) => let b' := r_roundManager (relayState w.1) in
        lastRoundClosed b < lastRoundClosed b'
        ∧ (¬ all_sent b (lastRoundClosed b + 2) → lastRoundClosed b' = lastRoundClosed b + 1)
        ∧ Z.of_nat (size (openRounds b')) = r_WindowSize (relayState p)
    | Crash c => all_sent b (lastRoundClosed b + 2) ∧ (c = RuntimeError ∨ ∃ m, c = Panicked m)
    end.
Proof.
  intros E H Hroom Hc Ho b timeout. pose proof (reach_inv _ _ _ _ _ _ E H) as [_ Hph].
  apply phase_communicating in Hph as (Hs & Hst & _); [|done]. cbn [fst] in *.
  assert (timely p round = true) as Ht.
  { unfold timely, State. rewrite Ho. fold (stateOf p). by rewrite Hc. }
  unfold timeout. destruct (too_many_failures p) eqn:Hf.
  - rewrite timeout_cases, Ht, Hf. cbn [negb]. fold b. by destruct (MissingCiphersForCurrentRound b).
  - pose proof (timeout_wp p tr round Hs Hst Hroom Ht Hf) as Hw. unfold wp in Hw.
    destruct (checkIfRoundHasEndedAfterTimeOut_Phase1 _ _) as [[r w]|c].
    2:{ destruct Hw as [Hbad Hnext]. split; [exact Hnext | by apply bad_cell_panics]. }
    destruct Hw as (_ & os & _ & Hp & [Hl Hl'] & Hfull). split; [exact Hl|]. split; [exact Hl'|]. unfold full in Hfull.
    transitivity (v_window (viewOf w.1)); [exact Hfull|].
    by rewrite (f_equal v_window (pg_frame _ _ _ (proj1 Hp))).
Qed.
End run.

(** ** A concrete relay with two clients and one trustee *)

Module RelayDemo.
Import ToySuite.
#[local] Existing Instance suite.

Instance net : Network suite := {| net_send := λ _ _ _, None |}.
Instance clock : Clock suite := {| time_Now := λ tr, 1000000 * len tr |}.
Instance proofs : ProofSystem suite := {|
  HashProve := λ _ _ _ _ _ _, Ok []; HashVerify := λ _ _ _ _, true |}.

Abbreviation world := (PriFiLibRelayInstance suite * list (event suite))%type.

Definition dummy : PriFiLibRelayInstance suite :=
  mkRelayInstance (@mkRelayState suite None [] zeroManager newNeffRelay [] [] [] false 0 "" 0 0 0 0
    (fp_of 0) (fp_of 0) 0 [] 0 false false false 0 0 [] None (NewSchedulesStatistics 0) ∅ "" 0 None
    false 0 ∅ 0 0 0 0 0 0 false ∅ ∅ ∅ ∅ false ∅ ∅ (mkBlaming 0 0 0 0 0 0) None false [] 0)
    (mkStateMachine "" "" []) ∅.
Definition start : PriFiLibRelayInstance suite :=
  match NewRelay (fp_of 13 : @Scalar suite) 0 true [] with Ret p => p | Crash _ => dummy end.

Definition params : message suite :=
  MParameters ((Add (Add (Add (Add (Add (Add (Add newParams "NTrustees" (PInt 1)) "NClients" (PInt 2))
    "PayloadSize" (PInt 4)) "WindowSize" (PInt 2)) "StartNow" (PBool true))
    "RelayMaxNumberOfConsecutiveFailedRounds" (PInt 2)) "ExperimentRoundLimit" (PInt (-1)))
    <| ForceParams := true |>).
Definition trusteePk : message suite := MTellPk (@mkTellPk suite 0 (Some (fp_of 5))).
Definition clientPk (i k e : Z) : message suite :=
  MTellPkEph (@mkTellPkEph suite i (Some (fp_of k)) (Some (fp_of e))).
(** the trustee multiplies the keys 11 and 22 by 5 and swaps them *)
Definition shuffled : list (option fp) := [Some (fp_of 110); Some (fp_of 55)].
Definition shuffle : message suite :=
  MNewBase (@mkNewBase suite (Some (fp_of 5)) (Some shuffled) (Some (zeros 50)) []).
Definition signature : message suite :=
  let M := default [] (marshal (fp_of 5)) ++ mjoin ((λ k, default [] (k ≫= marshal)) <$> shuffled) in
  MShuffleSig (mkShuffleSig 0 (5 :: be_encode 8 (checksum M))).

Definition receive (msg : message suite) (w : world) : world :=
  match r_ReceivedMessage [1] [2] msg w with Ret (_, w') => w' | Crash _ => w end.
Definition expire (round : Z) (w : world) : world :=
  match checkIfRoundHasEndedAfterTimeOut_Phase1 round w with Ret (_, w') => w' | Crash _ => w end.

Definition can_number (w : world) : bool :=
  bool_decide (lastRoundClosed (r_roundManager (relayState w.1)) + r_WindowSize (relayState w.1) + 2
               < MaxInt32 - 1).

Lemma relay_receive_step msg w :
  can_number w = true → rnormal w.1 msg → returns (r_ReceivedMessage [1] [2] msg w) = true →
  rlabelled [msg] w (receive msg w).
Proof.
  intros Hr Hn H. unfold receive. destruct w as [p tr]. apply bool_decide_eq_true in Hr.
  destruct (r_ReceivedMessage [1] [2] msg (p, tr)) as [[r w']|] eqn:E; [|done].
  by eapply rstep_receive.
Qed.

Lemma relay_expire_step round w :
  can_number w = true → returns (checkIfRoundHasEndedAfterTimeOut_Phase1 round w) = true →
  rlabelled [] w (expire round w).
Proof.
  intros Hr H. unfold expire. destruct w as [p tr]. apply bool_decide_eq_true in Hr.
  destruct (checkIfRoundHasEndedAfterTimeOut_Phase1 round (p, tr)) as [[[] w']|] eqn:E; [|done].
  by eapply rstep_timeout.
Qed.

Definition setup : list (message suite) :=
  [params; trusteePk; clientPk 0 3 11; clientPk 1 77 22; shuffle; signature].
(** communicating, round 0 is open *)
Definition w0 : world := foldl (λ w m, receive m w) (start, []) setup.
(** round 0 timed out: it was given up, rounds 1 and 2 are open *)
Definition w1 : world := expire 0 w0.

Definition normal (w : world) (m : message suite) : bool :=
  match m with
  | MParameters m => negb (ForceParams m) || String.eqb (stateOf w.1) "BEFORE_INIT"
  | _ => true
  end.
Fixpoint accepts (w : world) (ms : list (message suite)) : bool :=
  match ms with
  | [] => true
  | m :: ms => can_number w && normal w m && returns (r_ReceivedMessage [1] [2] m w)
               && accepts (receive m w) ms
  end.

Lemma normal_rnormal w m : normal w m = true → rnormal w.1 m.
Proof.
  destruct m; try done. cbn. destruct (ForceParams m); [right; by apply String.eqb_eq | by left].
Qed.

Lemma accepts_reach ms : ∀ w, accepts w ms = true → rreach w (foldl (λ w m, receive m w) w ms).
Proof.
  induction ms as [|m ms IH]; intros w H; [constructor|]. cbn in H.
  repeat (apply andb_prop in H as [H ?]). eapply rtc_l; [|by apply IH].
  exists [m]. apply relay_receive_step; [done | by apply normal_rnormal | done].
Qed.

Lemma w0_reached : rreach (start, []) (w0.1, w0.2).
Proof. rewrite <- surjective_pairing. apply accepts_reach. vm_compute. reflexivity. Qed.

Lemma w1_reached : rreach (start, []) (w1.1, w1.2).
Proof.
  rewrite <- surjective_pairing. pose proof w0_reached as H. rewrite <- surjective_pairing in H.
  refine (rtc_r _ _ _ H _). exists []. apply relay_expire_step; vm_compute; reflexivity.
Qed.

Lemma start_new : NewRelay (fp_of 13 : @Scalar suite) 0 true [] = Ret start.
Proof. reflexivity. Qed.

Lemma relay_window_witness :
  let s := relayState w1.1 in
  Z.of_nat (size (openRounds (r_roundManager s))) = 2 ∧ r_numberOfNonAckedDownstreamPackets s = 2
  ∧ isRoundOpen (r_roundManager s) 1 = true.
Proof.
  destruct (@relay_window suite net clock proofs laws (fp_of 13) 0 true [] start w1.1 w1.2)
    as (_ & H1 & H2 & _).
  - exact start_new.
  - exact w1_reached.
  - vm_compute. reflexivity.
  - intros s. split; [vm_compute; reflexivity|]. split; [|apply H2; split].
    + unfold s. rewrite H1. vm_compute. reflexivity.
    + vm_compute. reflexivity.
    + vm_compute. discriminate.
Defined.

Lemma relay_announces_in_order_witness :
  ∃ n log, dd_RoundID <$> log = rounds_from 0 n
  ∧ downs (observe w1.2) = flat_map (announce (viewOf w1.1)) log ∧ Z.of_nat n = 2.
Proof.
  destruct (@relay_announces_in_order suite net clock proofs laws (fp_of 13) 0 true [] start w1.1 w1.2)
    as (n & log & H0 & H1 & H2).
  - exact start_new.
  - exact w1_reached.
  - exists n, log. split; [exact H0|]. split; [exact H1|]. rewrite H2; vm_compute; reflexivity.
Defined.

Lemma relay_refines_pipeline_witness :
  ∃ log, pipe 2 (pipeOf w0.1) (dd_RoundID <$> log) (pipeOf w1.1)
  ∧ downs (observe w1.2) = downs (observe w0.2) ++ flat_map (announce (viewOf w0.1)) log.
Proof.
  destruct (@relay_refines_pipeline suite net clock proofs laws (fp_of 13) 0 true [] start w0.1 w0.2)
    as (_ & H).
  - exact start_new.
  - exact w0_reached.
  - vm_compute. reflexivity.
  - destruct (H w1.1 w1.2) as (rs & H1 & H2).
    + rewrite <- !surjective_pairing. exists []. apply relay_expire_step; vm_compute; reflexivity.
    + exists rs. split; [|exact H2]. change 2 with (Z.of_nat 2).
      replace (Z.of_nat 2) with (r_WindowSize (relayState w0.1)) by (vm_compute; reflexivity).
      exact H1.
Defined.

Lemma relay_data_safe_witness :
  match r_ReceivedMessage [1] [2] (MUpstream (mkUpstream 7 (-5) None)) (w1.1, w1.2) with
  | Ret _ => True
  | Crash c => c = RuntimeError ∨ ∃ m, c = Panicked m
  end.
Proof.
  destruct (@relay_data_safe suite net clock proofs laws (fp_of 13) 0 true [] start w1.1 w1.2)
    as [H _].
  - exact start_new.
  - exact w1_reached.
  - unfold room. vm_compute. reflexivity.
  - apply H; [vm_compute; reflexivity | done].
Defined.

Lemma relay_timeout_progress_witness :
  ∃ w, checkIfRoundHasEndedAfterTimeOut_Phase1 0 (w0.1, w0.2) = Ret (tt, w)
  ∧ -1 < lastRoundClosed (r_roundManager (relayState w.1)).
Proof.
  pose proof (@relay_timeout_progress suite net clock proofs laws (fp_of 13) 0 true [] start w0.1 w0.2 0
    start_new w0_reached ltac:(unfold room; vm_compute; reflexivity)
    ltac:(vm_compute; reflexivity) ltac:(vm_compute; reflexivity)) as H.
  replace (too_many_failures w0.1) with false in H by (vm_compute; reflexivity).
  destruct (checkIfRoundHasEndedAfterTimeOut_Phase1 0 (w0.1, w0.2)) as [[[] w]|c] eqn:E.
  - exists w. split; [reflexivity|]. destruct H as [H _].
    replace (lastRoundClosed (r_roundManager (relayState w0.1))) with (-1) in H by (vm_compute; reflexivity).
    exact H.
  - exfalso. apply (f_equal returns) in E. vm_compute in E. discriminate E.
Defined.
End RelayDemo.
