(* ===== verification/RelayDelivery.v ===== *)
(** * From the clients' cells to the application

    The relay and the DC-net together: when the last cipher of a round of honest
    clients and trustees arrives, the relay hands the payload of the slot owner
    to the application, closes the round and refills its window. *)

From S2P Require Import Prelude Bytes Crypto DCNetCipher Equivocation DCNet DCNetRound DCNetSession.
From S2P Require Import BitMask Messages StateMachine Measurements Statistics RoundManager.
From S2P Require Import RoundManagerInv RoundManagerSpec NeffShuffle Network HandlerLogic Trustee.
From S2P Require Import Relay RelayStates RelayInv RelayPhases RelaySteps RelaySetup RelaySpec.

Open Scope Z_scope.

Section delivery.
Context {CS : CryptoSuite} `{!Network CS} `{!Clock CS} `{!ProofSystem CS} {CL : CryptoLaws CS}.
Implicit Types v : view (CS:=CS).

(** The manager after a data message. *)
Definition accepted (b : BufferableRoundManager) (m : message CS) : option BufferableRoundManager :=
  match m with
  | MUpstream m =>
    match AddClientCipher b (up_RoundID m) (up_ClientID m) (up_Data m) with
    | Ret (_, b') => Some b' | Crash _ => None end
  | MDCCipher m => Some (AddTrusteeCipher b (tc_RoundID m) (tc_TrusteeID m) (tc_Data m)).2
  | _ => None
  end.

(** The buffers hold, for the round of [x], what the entities of the session
    encode for it. *)
Definition buffered (ses : session CS) (x : roundInput) (b : BufferableRoundManager) : Prop :=
  (∀ i e, ses_clients ses !! i = Some e → ∃ cell plain e',
     EncodeForRound e (ri_round x) (ri_owns x i) (ri_sends x i) = Ret (cell, plain, e')
     ∧ bufferOf (bufferedClientCiphers b) (Z.of_nat i) !! ri_round x = Some cell)
  ∧ (∀ j e, ses_trustees ses !! j = Some e → ∃ cell e',
     TrusteeEncodeForRound e (ri_round x) = Ret (cell, e')
     ∧ bufferOf (bufferedTrusteeCiphers b) (Z.of_nat j) !! ri_round x = Some cell).

Lemma buffered_cells {X} (f : X → go bytes) (g : nat → X) n r (buffer : gmap Z (gmap Z bytes)) :
  (∀ i, (i < n)%nat → ∃ cell, f (g i) = Ret cell ∧ bufferOf buffer (Z.of_nat i) !! r = Some cell) →
  mapM f (g <$> seq 0 n) = Ret (cells buffer (Z.of_nat n) r).
Proof.
  intros H. unfold cells, ids. rewrite Nat2Z.id, mapM_go_fmap, <- list_fmap_compose.
  apply mapM_go_ret. intros i Hi. apply elem_of_seq in Hi as [_ Hi].
  destruct (H i Hi) as (cell & -> & E). cbn. by rewrite E.
Qed.

Lemma buffered_decodes N K equiv ses x b :
  session_inv N (Z.to_nat (nClients b)) (Z.to_nat (nTrustees b)) K equiv ses →
  input_ok N (Z.to_nat (nClients b)) equiv x → buffered ses x b →
  0 ≤ nClients b → 0 ≤ nTrustees b → ri_round x = lastRoundClosed b + 1 →
  ∃ c, decoded b (ses_relay ses) false
       = Ret (padPayload (cell_size N equiv) (Some (ri_payload x)), c).
Proof.
  intros Hs Hx [Hc Ht] HC HT Hr. destruct (session_decodes N _ _ K equiv ses x Hs Hx) as [c E].
  exists c. rewrite <- E. unfold decoded, dcnetRound. rewrite <- Hr.
  destruct Hs as [_ _ Hnc Hnt _ _]. unfold theClients, theTrustees.
  rewrite (buffered_cells _ _ _ (ri_round x) (bufferedTrusteeCiphers b)).
  1: rewrite (buffered_cells _ _ _ (ri_round x) (bufferedClientCiphers b)); cbn [mbind go_bind].
  - by rewrite !Z2Nat.id by done.
  - intros i Hi. destruct (Hc i (nth i (ses_clients ses) entity_default)) as (cell & pl & e' & Ee & Eb).
    { apply nthE_lookup. lia. } exists cell. by rewrite Ee.
  - intros j Hj. destruct (Ht j (nth j (ses_trustees ses) entity_default)) as (cell & e' & -> & Eb).
    { apply nthE_lookup. lia. } by exists cell.
Qed.

Abbreviation never := (λ _ : crash, False).

(** The current round holds a well-formed cell of the application. *)
Lemma good_cell v plain c :
  is_oc v = false → cellOf v false = Ret (plain, c) → (v_disr v = true → plain ≠ []) →
  ¬ is_pcap (payloadOf v plain) → cell_errors never v.
Proof.
  intros Hoc E Hd Hp. split.
  - rewrite Hoc, E. done.
  - intros _ pt ct. rewrite E. intros [= <- <-]. split; [intros H1 H2; by apply (Hd H1) | done].
Qed.

Lemma process_delivers v :
  settled v → hasAllCiphersForCurrentRound (v_rm v) = true → room 1 v → cell_errors never v →
  vspec never (_ ← processIfComplete true; mret (Ok tt : result unit)) v (λ res v' os,
    res = Ok tt ∧ next_round v v' ∧ ∃ os', os = outputOf v ++ os'
    ∧ announces v v' (lastOpened v) (S (Z.to_nat (v_window v) - opened v)) os').
Proof.
  intros Hst Hall Hroom Hc. apply vspec_bind, vspec_bind, vspec_getR. intros p Hp _.
  assert (r_roundManager (relayState p) = v_rm v) as -> by exact (f_equal v_rm Hp).
  rewrite Hall. eapply vspec_mono; [|by apply phase1_spec]. cbn beta.
  intros _ v' os (Hn & os' & -> & Ha). apply vspec_ret. rewrite app_nil_r. by eauto.
Qed.

Lemma accepted_window v m b :
  settled v → accepted (v_rm v) m = Some b → same_window (v_rm v) b ∧ rm_inv b false.
Proof.
  intros Hst. pose proof (run_rm _ _ (st_running _ Hst)) as Hb. destruct m; try done; cbn.
  - destruct (AddClientCipher _ _ _ _) as [[res b']|] eqn:E; [|done]. intros [= <-].
    split; [by eapply AddClientCipher_window | by eapply AddClientCipher_inv].
  - destruct (AddTrusteeCipher _ _ _ _) as [[res evs] b'] eqn:E. intros [= <-].
    split; [by eapply AddTrusteeCipher_window | by eapply AddTrusteeCipher_inv].
Qed.

(** A message that completes the current round. *)
Lemma accepted_delivers rnd1 rnd2 msg p tr b :
  stats_ok (relayState p) → settled (viewOf p) → stateOf p = "COMMUNICATING"%string →
  accepted (r_roundManager (relayState p)) msg = Some b →
  let v := (viewOf p) <| v_rm := b |> in
  hasAllCiphersForCurrentRound b = true → room 1 v → cell_errors never v →
  ∃ w, r_ReceivedMessage rnd1 rnd2 msg (p, tr) = Ret (Ok tt, w) ∧ next_round v (viewOf w.1)
  ∧ ∃ os, observe w.2 = observe tr ++ outputOf v ++ os
          ∧ announces v (viewOf w.1) (lastOpened v) (S (Z.to_nat (v_window v) - opened v)) os.
Proof.
  intros Hs Hst Hc Ha v Hall Hroom Hcell. destruct (accepted_window _ _ _ Hst Ha) as [Hw Hb].
  destruct (settled_rm _ b Hst Hw Hb) as [Hst' _]. fold v in Hst'.
  assert (states (r_stateMachine p) = relayStates) as Hsm by apply (run_states _ _ (st_running _ Hst)).
  set (Q := λ (res : result unit) v' os, res = Ok tt ∧ next_round v v' ∧ ∃ os', os = outputOf v ++ os'
    ∧ announces v v' (lastOpened v) (S (Z.to_nat (v_window v) - opened v)) os').
  assert (wp never (r_ReceivedMessage rnd1 rnd2 msg) (λ a w, stats_ok (relayState w.1) ∧
    ∃ os, observe w.2 = observe tr ++ os ∧ Q a (viewOf w.1) os) (p, tr)) as Hwp.
  { unfold wp, r_ReceivedMessage. pose proof (process_delivers v Hst' Hall Hroom Hcell) as Hd.
    destruct msg; try done; rewrite run_bind.
    - rewrite assert_own by (done || rewrite Hsm; set_solver).
      apply (vspec_run never _ Q p tr Hs), upstream_then; [done|]. intros res b' E.
      cbn in Ha. change (r_roundManager (relayState p)) with (v_rm (viewOf p)) in Ha.
      rewrite E in Ha. injection Ha as ->. exact Hd.
    - rewrite assert_own2 by (done || rewrite Hsm; set_solver).
      apply (vspec_run never _ Q p tr Hs), cipher_then. intros res evs b' E.
      cbn in Ha. change (r_roundManager (relayState p)) with (v_rm (viewOf p)) in Ha.
      rewrite E in Ha. injection Ha as ->. exact Hd. }
  unfold wp in Hwp. destruct (r_ReceivedMessage _ _ _ _) as [[res w]|c]; [|done].
  destruct Hwp as (_ & os & Ho & -> & Hn & os' & -> & Han). exists w. by eauto.
Qed.

Lemma good_output v plain c :
  is_oc v = false → cellOf v false = Ret (plain, c) → len (payloadOf v plain) = payloadSize v →
  outputOf v = if v_output v then [Out (payloadOf v plain)] else [].
Proof.
  intros Hoc E El. unfold outputOf. rewrite Hoc, E. cbn zeta. rewrite El, Z.eqb_refl.
  by destruct (v_output v).
Qed.

(** The owner's payload has the size the relay expects. *)
Lemma plain_size v n x :
  input_ok (v_size v) n (v_equiv v) x → 1 ≤ v_size v →
  let plain := padPayload (cell_size (v_size v) (v_equiv v)) (Some (ri_payload x)) in
  (v_disr v = true → plain ≠ []) → len (payloadOf v plain) = payloadSize v.
Proof.
  intros (_ & _ & Hx) Hsz plain Hd. pose proof (len_nonneg (ri_payload x)).
  assert (length plain = cell_size (v_size v) (v_equiv v)) as Hl.
  { apply length_padPayload. simpl. unfold cell_size, len in *. destruct (v_equiv v); lia. }
  unfold payloadOf, payloadSize, len, cell_size in *.
  destruct (v_disr v); [|destruct (v_equiv v); lia]. specialize (Hd eq_refl).
  rewrite length_drop. destruct plain; [done|]. cbn [length] in *. destruct (v_equiv v); lia.
Qed.

Lemma buffered_complete N n m K equiv ses x b :
  session_inv N n m K equiv ses → buffered ses x b → Z.to_nat (nClients b) = n →
  Z.to_nat (nTrustees b) = m → rm_inv b false → size (openRounds b) ≠ 0%nat →
  ri_round x = lastRoundClosed b + 1 → hasAllCiphersForCurrentRound b = true.
Proof.
  intros [_ _ Hnc Hnt _ _] [Hc Ht] HC HT Hb Ho Hr. apply hasAll_spec; [done..|]. rewrite <- Hr.
  split; intros i Hi.
  - destruct (Hc (Z.to_nat i) (nth (Z.to_nat i) (ses_clients ses) entity_default)) as (cell & _ & _ & _ & E).
    { apply nthE_lookup. lia. } rewrite Z2Nat.id in E by lia. by exists cell.
  - destruct (Ht (Z.to_nat i) (nth (Z.to_nat i) (ses_trustees ses) entity_default)) as (cell & _ & _ & E).
    { apply nthE_lookup. lia. } rewrite Z2Nat.id in E by lia. by exists cell.
Qed.

(** C2: When the last cipher of the current round arrives, from a client or from
    a trustee, and the round's ciphers are those its clients and trustees encode
    (the owner of the slot sending a payload that fits in a non-empty cell), then the relay returns
    normally, hands exactly the owner's zero-padded payload (less the echo flag
    of the disruption protection) to the application, closes the round, and
    opens and announces the rounds that fill its window again. *)
Theorem relay_delivers sk t out data p0 p tr rnd1 rnd2 msg b K ses x :
  NewRelay sk t out data = Ret p0 → rreach (p0, []) (p, tr) → stateOf p = "COMMUNICATING"%string →
  room 2 (viewOf p) →
  let s := relayState p in
  let N := r_PayloadSize s in
  let equiv := r_EquivocationProtectionEnabled s in
  accepted (r_roundManager s) msg = Some b →
  session_inv N (Z.to_nat (r_nClients s)) (Z.to_nat (r_nTrustees s)) K equiv ses →
  r_DCNet s = Some (ses_relay ses) →
  input_ok N (Z.to_nat (r_nClients s)) equiv x → ri_round x = lastRoundClosed (r_roundManager s) + 1 →
  buffered ses x b → r_OpenClosedSlotsRequestsRoundID s !! ri_round x = None →
  let plain := padPayload (cell_size N equiv) (Some (ri_payload x)) in
  let x' := if r_DisruptionProtectionEnabled s then drop 1 plain else plain in
  plain ≠ [] → ¬ is_pcap x' →
  ∃ w, r_ReceivedMessage rnd1 rnd2 msg (p, tr) = Ret (Ok tt, w)
  ∧ (let b' := r_roundManager (relayState w.1) in
     lastRoundClosed b' = ri_round x ∧ Z.of_nat (size (openRounds b')) = r_WindowSize s
     ∧ ∃ log, dd_RoundID <$> log = rounds_from (lastOpened (viewOf p))
                (S (Z.to_nat (r_WindowSize s) - size (openRounds (r_roundManager s))))
       ∧ observe w.2 = observe tr ++ (if r_DataOutputEnabled s then [Out x'] else [])
           ++ flat_map (announce (viewOf p)) log).
Proof.
  intros E H Hc Hroom s N equiv Ha Hses Hd Hx Hr Hbuf Hoc plain x' Hne Hpcap.
  pose proof (reach_inv _ _ _ _ _ _ E H) as [_ Hph].
  apply phase_communicating in Hph as (Hs & Hst & _); [|done]. cbn [fst] in *.
  destruct (accepted_window (viewOf p) msg b Hst Ha) as [(Hdim & Hob & Hlb) Hb].
  destruct Hdim as (_ & HnC & HnT). pose proof (st_running _ Hst) as Hrun.
  rewrite (run_nC _ _ Hrun) in HnC. rewrite (run_nT _ _ Hrun) in HnT.
  set (v := (viewOf p) <| v_rm := b |>). change (v_nC (viewOf p)) with (r_nClients s) in HnC.
  change (v_nT (viewOf p)) with (r_nTrustees s) in HnT.
  assert (ri_round x = lastRoundClosed b + 1) as Hrb by (rewrite Hlb; exact Hr).
  assert (size (openRounds b) ≠ 0%nat) as Hop by (rewrite Hob; apply (st_open _ Hst)).
  assert (hasAllCiphersForCurrentRound b = true) as Hall
    by (eapply buffered_complete; [exact Hses|exact Hbuf|by rewrite HnC|by rewrite HnT|done..]).
  destruct (rmi_counts _ _ Hb) as [HC HT]. rewrite <- HnC, <- HnT in Hses. rewrite <- HnC in Hx.
  destruct (buffered_decodes N K equiv ses x b Hses Hx Hbuf HC HT Hrb) as [c Edec].
  assert (cellOf v false = Ret (plain, c)) as Ecell
    by (unfold cellOf, entityOf; cbn; fold s; by rewrite Hd).
  assert (is_oc v = false) as Eoc.
  { unfold is_oc, lastClosed. cbn. rewrite <- Hrb. fold s. rewrite Hoc. by apply bool_decide_eq_false_2, is_Some_None. }
  destruct (accepted_delivers rnd1 rnd2 msg p tr b Hs Hst Hc Ha Hall)
    as (w & Ew & Hn & os & Ho & log & -> & Hlog & _).
  { unfold room, lastClosed in *. cbn. rewrite Hlb. cbn in *. lia. }
  { by eapply good_cell; [..|intros _|]. }
  exists w. split; [exact Ew|]. cbn zeta. fold v in Hn, Ho, Hlog.
  rewrite (good_output v plain c Eoc Ecell (plain_size v _ x Hx (run_size _ _ Hrun) (λ _, Hne))) in Ho.
  destruct Hn as (_ & _ & Hl' & Hw' & _).
  assert (lastOpened v = lastOpened (viewOf p) ∧ opened v = opened (viewOf p)) as [Elo Eop].
  { unfold lastOpened, lastClosed, opened. cbn. by rewrite Hlb, Hob. }
  split_and!; [|exact (eq_sym Hw')|].
  - rewrite Hrb. exact Hl'.
  - exists log. rewrite Ho, Hlog, Elo, Eop. by split.
Qed.
End delivery.

(** ** Round 0 of the concrete relay *)

Module DeliveryDemo.
Import ToySuite RelayDemo.
#[local] Existing Instance suite.

Definition entities : session suite :=
  match @deploy suite 4 false [fp_of 3; fp_of 77] [fp_of 5] (λ i, [Z.of_nat i]) with
  | Ret s => s | Crash _ => mkSession [] [] entity_default end.
(** client 1 sends 7, 8 in round 0 *)
Definition input : roundInput := mkRoundInput 0 1 [7; 8] [].
Definition cellOfClient (i : nat) : bytes :=
  match ses_clients entities !! i with
  | Some e => match EncodeForRound e 0 (ri_owns input i) (ri_sends input i) with
              | Ret (c, _, _) => c | Crash _ => [] end
  | None => [] end.
Definition cellOfTrustee : bytes :=
  match ses_trustees entities !! 0%nat with
  | Some e => match TrusteeEncodeForRound e 0 with Ret (c, _) => c | Crash _ => [] end
  | None => [] end.

Definition early : list (message suite) :=
  [MUpstream (mkUpstream 0 0 (Some (cellOfClient 0))); MDCCipher (mkDCCipher 0 0 (Some cellOfTrustee))].
Definition last : message suite := MUpstream (mkUpstream 1 0 (Some (cellOfClient 1))).
Definition wE : world := foldl (λ w m, receive m w) w0 early.
Definition bE : BufferableRoundManager :=
  default zeroManager (accepted (r_roundManager (relayState wE.1)) last).
Definition ses : session suite :=
  mkSession (ses_clients entities) (ses_trustees entities)
    (default entity_default (r_DCNet (relayState wE.1))).

Lemma wE_reached : rreach (start, []) (wE.1, wE.2).
Proof.
  rewrite <- surjective_pairing. pose proof w0_reached as H. rewrite <- surjective_pairing in H.
  unfold rreach in *. etrans; [exact H|]. apply accepts_reach. vm_compute. reflexivity.
Qed.

Lemma ses_inv : session_inv 4 2 1 (@secretK suite [fp_of 3; fp_of 77] [fp_of 5]) false ses.
Proof.
  destruct (@deploy_ok suite laws 4 false [fp_of 3; fp_of 77] [fp_of 5] (λ i, [Z.of_nat i]))
    as (s & E & [H1 (h & Hr & Hc) H3 H4 H5 H6]); [lia|].
  assert (entities = s) as Es by (unfold entities; by rewrite E).
  unfold ses. rewrite Es.
  split; cbn [ses_clients ses_trustees ses_relay]; [lia| |exact H3|exact H4|exact H5|vm_compute; reflexivity].
  exists h. split; [|exact Hc]. split; [vm_compute; reflexivity | intros [=]].
Qed.

Lemma ses_relay_is : r_DCNet (relayState wE.1) = Some (ses_relay ses).
Proof.
  assert (bool_decide (is_Some (r_DCNet (relayState wE.1))) = true) as H by (vm_compute; reflexivity).
  apply bool_decide_eq_true in H as [d H]. unfold ses. cbn [ses_relay]. by rewrite H.
Qed.

Definition sends_of (i : nat) (e : DCNetEntity suite) : option bytes :=
  match EncodeForRound e 0 (ri_owns input i) (ri_sends input i) with
  | Ret (c, _, _) => Some c | Crash _ => None end.

Lemma ses_buffered : buffered ses input bE.
Proof.
  assert (imap sends_of (ses_clients ses) = [Some (cellOfClient 0); Some (cellOfClient 1)]) as Hc
    by (vm_compute; reflexivity).
  split.
  - intros i e He. pose proof (f_equal (.!! i) Hc) as Hi. rewrite list_lookup_imap, He in Hi. cbn in Hi.
    assert (i < 2)%nat as Hlt by (apply lookup_lt_Some in He; exact He).
    change (ri_round input) with 0. unfold sends_of in Hi.
    destruct (EncodeForRound e 0 _ _) as [[[c plain] e']|]; [|destruct i as [|[|i]]; [done..|lia]].
    exists c, plain, e'. split; [reflexivity|].
    destruct i as [|[|i]]; [| |lia]; injection Hi as ->; vm_compute; reflexivity.
  - intros j e He. assert (j < 1)%nat as Hj by exact (lookup_lt_Some _ _ _ He).
    assert (j = 0)%nat as -> by lia.
    assert (ses_trustees ses !! 0%nat = Some e) as He' by exact He.
    assert (returns (TrusteeEncodeForRound e 0) = true) as Hr.
    { revert He. vm_compute ses. intros [= <-]. vm_compute. reflexivity. }
    change (ri_round input) with 0.
    assert (cellOfTrustee = match TrusteeEncodeForRound e 0 with Ret (c, _) => c | Crash _ => [] end) as Ec.
    { unfold cellOfTrustee. change (ses_trustees entities) with (ses_trustees ses). by rewrite He'. }
    destruct (TrusteeEncodeForRound e 0) as [[c e']|]; [|done]. exists c, e'. split; [reflexivity|].
    rewrite <- Ec. vm_compute. reflexivity.
Qed.

Lemma relay_delivers_witness :
  ∃ w, r_ReceivedMessage [1] [2] last (wE.1, wE.2) = Ret (Ok tt, w)
  ∧ lastRoundClosed (r_roundManager (relayState w.1)) = 0
  ∧ ∃ m1 m2, dd_RoundID m1 = 1 ∧ dd_RoundID m2 = 2
  ∧ observe w.2 = [Out [7; 8; 0; 0]; Down (ToClient 0) m1; Down (ToClient 1) m1;
                   Down (ToClient 0) m2; Down (ToClient 1) m2].
Proof.
  destruct (@relay_delivers suite net clock proofs laws (fp_of 13) 0 true [] start wE.1 wE.2 [1] [2]
    last bE (@secretK suite [fp_of 3; fp_of 77] [fp_of 5]) ses input) as (w & E & H1 & _ & log & H2 & H3).
  - exact start_new.
  - exact wE_reached.
  - vm_compute. reflexivity.
  - unfold room. vm_compute. reflexivity.
  - vm_compute. reflexivity.
  - replace (r_PayloadSize (relayState wE.1)) with 4 by (vm_compute; reflexivity).
    replace (r_nClients (relayState wE.1)) with 2 by (vm_compute; reflexivity).
    replace (r_nTrustees (relayState wE.1)) with 1 by (vm_compute; reflexivity).
    replace (r_EquivocationProtectionEnabled (relayState wE.1)) with false by (vm_compute; reflexivity).
    exact ses_inv.
  - exact ses_relay_is.
  - vm_compute. split; [split; [discriminate | reflexivity]|]. split; [lia | discriminate].
  - vm_compute. reflexivity.
  - exact ses_buffered.
  - vm_compute. reflexivity.
  - vm_compute. discriminate.
  - intros [_ H]. vm_compute in H. discriminate H.
  - exists w. split; [exact E|]. split; [exact H1|].
    replace (rounds_from _ _) with [1; 2] in H2 by (vm_compute; reflexivity).
    destruct log as [|m1 [|m2 [|]]]; [discriminate H2..| |discriminate H2].
    injection H2 as H21 H22. exists m1, m2. split; [exact H21|]. split; [exact H22|]. rewrite H3.
    replace (flat_map (announce (viewOf wE.1)) [m1; m2]) with
      [Down (ToClient 0) m1; Down (ToClient 1) m1; Down (ToClient 0) m2; Down (ToClient 1) m2];
      [vm_compute; reflexivity|].
    unfold flat_map, announce.
    replace (v_udp (viewOf wE.1)) with false by (vm_compute; reflexivity).
    replace (v_nC (viewOf wE.1)) with 2 by (vm_compute; reflexivity). reflexivity.
Defined.
End DeliveryDemo.
