(* ===== verification/RelayOrigin.v ===== *)
(** * Where the relay's output comes from

    Runs of the relay with the messages they received, and integrity: whatever
    clients, trustees and the network do, every payload the relay hands to the
    application is what its decoder makes of one received cell of each client
    and one of each trustee, all of them for the same round, and that round was
    not announced as a request for the open/closed slots. *)

From S2P Require Import Prelude Bytes Crypto DCNetCipher Equivocation DCNet DCNetRound BitMask.
From S2P Require Import Messages StateMachine Measurements Statistics RoundManager RoundManagerInv.
From S2P Require Import RoundManagerSpec NeffShuffle Network HandlerLogic Trustee Relay RelayInv.
From S2P Require Import RelayStates RelayPhases RelaySteps RelaySetup RelaySpec RelayDelivery.
From Stdlib Require Import Sorted.

Open Scope Z_scope.

Section origin.
Context {CS : CryptoSuite} `{!Network CS} `{!Clock CS} `{!ProofSystem CS} {CL : CryptoLaws CS}.
Abbreviation rworld := (PriFiLibRelayInstance CS * list (event CS))%type.
Implicit Types (w : rworld) (v : view (CS:=CS)).

(** A run, with the messages received in it, the last one at the end. *)
Inductive rrun (w0 : rworld) : list (message CS) → rworld → Prop :=
| rrun_nil : rrun w0 [] w0
| rrun_snoc ms w l w' : rrun w0 ms w → rlabelled l w w' → rrun w0 (ms ++ l) w'.

Lemma rrun_reach w0 ms w : rrun w0 ms w → rreach w0 w.
Proof. intros H. induction H as [|ms w l w' _ IH Hs]; [constructor|]. eapply rtc_r; [exact IH | by exists l]. Qed.

(** One received cell of round [r] for each of the [n] entities. *)
Definition gathered (cipher : message CS → option (Z * Z * bytes)) (ms : list (message CS)) (n r : Z)
    (cs : list bytes) : Prop :=
  length cs = Z.to_nat n ∧ ∀ i c, cs !! i = Some c → Some (Z.of_nat i, r, c) ∈ cipher <$> ms.

(** [x] is what a relay configured as [v] decodes from received cells of round [r]. *)
Definition originates (ms : list (message CS)) v (r : Z) (x : bytes) : Prop :=
  ∃ rnd1 rnd2 d cs ts pt ct,
    NewDCNetEntity rnd1 rnd2 0 DCNET_RELAY (v_size v) (v_equiv v) [] = Ret d
    ∧ gathered clientCipher ms (v_nC v) r cs ∧ gathered trusteeCipher ms (v_nT v) r ts
    ∧ decodeRound d r false cs ts = Ret (pt, ct) ∧ x = payloadOf v pt.

(** Every buffered cipher was received. *)
Definition from_messages (ms : list (message CS)) (b : BufferableRoundManager) : Prop :=
  (∀ i r c, bufferOf (bufferedClientCiphers b) i !! r = Some c → Some (i, r, c) ∈ clientCipher <$> ms)
  ∧ (∀ j r c, bufferOf (bufferedTrusteeCiphers b) j !! r = Some c → Some (j, r, c) ∈ trusteeCipher <$> ms).

Lemma gathered_app cipher ms l n r cs : gathered cipher ms n r cs → gathered cipher (ms ++ l) n r cs.
Proof.
  intros [H1 H2]. split; [done|]. intros i c Hc. rewrite fmap_app. apply elem_of_app. left. by apply H2.
Qed.

Lemma originates_app ms l v r x : originates ms v r x → originates (ms ++ l) v r x.
Proof.
  intros (rnd1 & rnd2 & d & cs & ts & pt & ct & H1 & H2 & H3 & H4).
  exists rnd1, rnd2, d, cs, ts, pt, ct. split; [done|]. split; [by apply gathered_app|].
  split; [by apply gathered_app | done].
Qed.

Lemma originates_frame ms v v' r x : frame v v' → originates ms v r x → originates ms v' r x.
Proof.
  intros Hf (rnd1 & rnd2 & d & cs & ts & pt & ct & H). rewrite Hf.
  by exists rnd1, rnd2, d, cs, ts, pt, ct.
Qed.

Lemma sourced_originates ms v r x : from_messages ms (v_rm v) → sourced v r x → originates ms v r x.
Proof.
  intros [HC HT] (rnd1 & rnd2 & d & cs & ts & pt & ct & H1 & [Hn Hc] & [Hm Ht] & H4).
  exists rnd1, rnd2, d, cs, ts, pt, ct. split; [done|]. split; [by split; auto|]. by split; [split; auto|].
Qed.

Lemma from_messages_received ms l b b' :
  from_messages ms b → received l b b' → from_messages (ms ++ l) b'.
Proof.
  intros [HC HT] [RC RT].
  split; intros i r c Hc; rewrite fmap_app, elem_of_app; [apply RC in Hc | apply RT in Hc]; naive_solver.
Qed.

Lemma from_messages_shrinks ms b b' : from_messages ms b → shrinks b b' → from_messages ms b'.
Proof.
  intros [HC HT] [SC ST]. split; intros i r c Hc; [apply HC | apply HT];
    (eapply lookup_weaken; [exact Hc | done]).
Qed.

Lemma shrinks_received ms b b' : shrinks b b' → received ms b b'.
Proof. intros [SC ST]. split; intros i r c Hc; left; (eapply lookup_weaken; [exact Hc | done]). Qed.

(** A round was announced; round 0 starts without an announcement. *)
Definition covered (os : list obs) (r : Z) : Prop :=
  r = 0 ∨ ∃ d m, Down d m ∈ os ∧ dd_RoundID m = r.

Lemma covered_app os os' r : covered os r → covered (os ++ os') r.
Proof. intros [->|(d & m & H & E)]; [by left|right]. exists d, m. split; [apply elem_of_app; by left | done]. Qed.

(** The payloads delivered so far, with the rounds they come from, and the
    announcements made so far. *)
Definition delivered (ms : list (message CS)) v (os : list obs) : Prop :=
  (∃ rs, StronglySorted Z.lt rs
   ∧ Forall2 (λ r x, (0 ≤ r ≤ lastClosed v ∧ covered os r) ∧ v_oc v !! r = None ∧ originates ms v r x) rs (outs os))
  ∧ Forall (λ o, match o with Down _ m => announcement v m | Out _ => True end) os.

(** Before the first round nothing was delivered. *)
Record oinv (ms : list (message CS)) w : Prop := {
  oi_buffers : from_messages ms (v_rm (viewOf w.1));
  oi_delivered : delivered ms (viewOf w.1) (observe w.2);
  oi_idle : stateOf w.1 = "COMMUNICATING"%string ∨ stateOf w.1 = "SHUTDOWN"%string
            ∨ observe w.2 = []
}.

Lemma delivered_nil ms v : delivered ms v [].
Proof. split; [exists []; split; constructor | constructor]. Qed.

Lemma delivered_sm ms l v sm os : delivered ms v os → delivered (ms ++ l) (v <| v_sm := sm |>) os.
Proof.
  intros [(rs & H1 & H2) H3]. split; [|done]. exists rs. split; [done|].
  eapply Forall2_impl; [exact H2|]. intros r x (Hr & Ho & Hx). split; [done|]. split; [done|].
  by apply originates_app.
Qed.

(** The observed announcements are among those of the log. *)
Lemma announced_in_log v log d m os : downs os = announceAll v log → Down d m ∈ os → m ∈ log.
Proof.
  intros E Hin. assert (Down d m ∈ announceAll v log) as H.
  { rewrite <- E. unfold downs. apply list_elem_of_In, filter_In. split; [by apply list_elem_of_In | done]. }
  unfold announceAll in H. apply list_elem_of_In, in_flat_map in H as (m' & Hm' & H).
  apply list_elem_of_In in Hm'. apply list_elem_of_In in H. unfold announce in H. destruct (v_udp v).
  - apply list_elem_of_singleton in H. by injection H as _ ->.
  - apply list_elem_of_fmap in H as (i & H & _). by injection H as _ ->.
Qed.

Lemma announced_downs v v' a n os :
  announces v v' a n (downs os) →
  Forall (λ o, match o with Down _ m => announcement v' m | Out _ => True end) os.
Proof.
  intros (log & Hd & _ & Ha). apply Forall_forall. intros [d m|x] Hin; [|done].
  pose proof (announced_in_log v log d m os Hd Hin) as Hm. rewrite Forall_forall in Ha. by apply Ha.
Qed.

Lemma announcement_progress v v' os m : progress v v' os → announcement v m → announcement v' m.
Proof.
  intros Hp (H1 & H2 & H3). pose proof (pg_opened _ _ _ Hp). split_and!; [lia | done |].
  intros Hreq. rewrite (pg_oc _ _ _ Hp) by done. auto.
Qed.

(** Every round that was opened was announced. *)
Lemma announces_covers v v' a n os r :
  1 ≤ v_nC v → announces v v' a n (downs os) → a < r ≤ a + Z.of_nat n → covered os r.
Proof.
  intros Hn (log & Hd & Hl & _) Hr. right.
  assert (r ∈ dd_RoundID <$> log) as (m & -> & Hm)%list_elem_of_fmap.
  { rewrite Hl. unfold rounds_from. apply list_elem_of_fmap. exists (Z.to_nat (r - a - 1)).
    split; [lia|]. apply elem_of_seq. lia. }
  assert (∃ d, Down d m ∈ announce v m) as [d Hdm].
  { unfold announce. destruct (v_udp v); [exists ToAllClients; apply list_elem_of_here|].
    exists (ToClient 0). apply list_elem_of_fmap. exists 0. split; [done|]. apply list_elem_of_fmap.
    exists 0%nat. split; [done|]. apply elem_of_seq. lia. }
  exists d, m. split; [|done]. assert (Down d m ∈ downs os) as Hin.
  { rewrite Hd. unfold announceAll. apply list_elem_of_In, in_flat_map. exists m.
    split; by apply list_elem_of_In. }
  apply list_elem_of_In, filter_In in Hin as [Hin _]. by apply list_elem_of_In.
Qed.

(** ... also across a step. *)
Lemma step_covers v v' os os' r :
  settled v → 0 ≤ lastOpened v → announces v v 0 (Z.to_nat (lastOpened v)) (downs os) → progress v v' os' →
  0 ≤ r ≤ lastClosed v' → covered (os ++ os') r.
Proof.
  intros Hst H0 Ha Hp Hr. pose proof (run_pos _ _ (st_running _ Hst)) as Hn.
  destruct (Z.eq_dec r 0) as [->|Hne]; [by left|]. pose proof (pg_opened _ _ _ Hp).
  destruct (Z.le_gt_cases r (lastOpened v)) as [Hle|Hgt].
  - apply covered_app. eapply announces_covers; [done|exact Ha|]. lia.
  - assert (covered os' r) as [->|(d & m & Hm & E)]; [|done|].
    + assert (lastClosed v' ≤ lastOpened v') by (unfold lastOpened; lia).
      eapply announces_covers; [done|exact (pg_downs _ _ _ Hp)|]. lia.
    + right. exists d, m. split; [apply elem_of_app; by right | done].
Qed.

Lemma communicating_delivered ms l v v' os os' :
  settled v → 0 ≤ lastOpened v → announces v v 0 (Z.to_nat (lastOpened v)) (downs os) →
  from_messages ms (v_rm v) → delivered ms v os → step_ok l v v' os' →
  from_messages (ms ++ l) (v_rm v') ∧ delivered (ms ++ l) v' (os ++ os').
Proof.
  intros Hst H0 Ha Hf [(rs & Hrs & Hout) Hdown] (Hp & b & (_ & _ & Hlb) & Hrec & Hfol & rs' & Hrs' & Hout').
  pose proof (from_messages_received _ _ _ _ Hf Hrec) as Hb. pose proof (pg_closed _ _ _ Hp).
  pose proof (rmi_window _ _ (run_rm _ _ (st_running _ Hst))) as (Hl & _). change (lastRoundClosed (v_rm v)) with (lastClosed v) in Hl.
  assert (lastClosed (v <| v_rm := b |>) = lastClosed v) as Elc by exact Hlb. rewrite Elc in Hout'.
  split; [by eapply from_messages_shrinks; [|apply (fo_shrinks _ _ Hfol)]|]. split.
  - exists (rs ++ rs'). rewrite outs_app. split; [|apply Forall2_app].
    + apply (StronglySorted_app_lt _ _ (lastClosed v)); try done.
      * eapply Forall2_Forall_l; [exact Hout|]. apply Forall_forall. intros x _ r (((? & ?) & _) & _). lia.
      * eapply Forall2_Forall_l; [exact Hout'|]. apply Forall_forall. intros x _ r ((? & ?) & _). lia.
    + eapply Forall2_impl; [exact Hout|]. intros r x ((Hr & Hc) & Ho & Hx).
      split; [split; [lia | by apply covered_app]|]. split.
      * rewrite (pg_oc _ _ _ Hp); [done|]. unfold lastOpened. lia.
      * by eapply originates_frame, originates_app; [apply Hp|].
    + eapply Forall2_impl; [exact Hout'|]. intros r x (Hr & Ho & Hx).
      split; [split; [lia | apply (step_covers v v'); [done..|lia]]|]. split; [done|].
      eapply originates_frame; [apply Hfol|]. by apply sourced_originates.
  - apply Forall_app. split; [|by eapply announced_downs, pg_downs].
    eapply Forall_impl; [exact Hdown|]. intros [d m|x]; [|done]. by eapply announcement_progress.
Qed.

Lemma communicating_oinv ms l p tr w :
  oinv ms (p, tr) → rinv (p, tr) → stateOf p = "COMMUNICATING"%string →
  advances l p tr w → oinv (ms ++ l) w.
Proof.
  intros [Hb Hd _] [_ Hph] Hc (_ & os & Ho & Hok). cbn [fst snd] in *.
  apply phase_communicating in Hph as (_ & Hst & H0 & Ha); [|done].
  destruct (communicating_delivered ms l _ _ _ _ Hst H0 Ha Hb Hd Hok) as [Hb' Hd'].
  split; [done | by rewrite Ho |]. destruct (pg_sm _ _ _ (proj1 Hok)) as [E|[E _]]; [left|by right; left].
  rewrite <- Hc. exact (f_equal currentState E).
Qed.

(** ** Before and after the rounds *)

(** A relay that is not communicating shows nothing and buffers only what it
    receives; one that was shut down stays that way. *)
Definition idles (l : list (message CS)) (p : PriFiLibRelayInstance CS) tr w : Prop :=
  observe w.2 = observe tr ∧ received l (v_rm (viewOf p)) (v_rm (viewOf w.1))
  ∧ (stateOf p = "SHUTDOWN"%string →
     stateOf w.1 = "SHUTDOWN"%string ∧ ∃ sm, viewOf w.1 = (viewOf p) <| v_sm := sm |>).

Lemma view_sm_same v : v = v <| v_sm := v_sm v |>.
Proof. by destruct v. Qed.

Lemma idles_refl l p tr : idles l p tr (p, tr).
Proof.
  split; [done|]. split; [apply received_refl|]. intros Hc. split; [done|].
  exists (v_sm (viewOf p)). exact (view_sm_same (viewOf p)).
Qed.

(** A handler specified on the view. *)
Lemma idles_vspec {A} l (m : handler (PriFiLibRelayInstance CS) A) Q p tr :
  stats_ok (relayState p) → stateOf p ≠ "SHUTDOWN"%string →
  vspec any m (viewOf p) (λ _ v os, os = [] ∧ Q v) →
  (∀ v, Q v → received l (v_rm (viewOf p)) (v_rm v)) → wp any m (λ _ w, idles l p tr w) (p, tr).
Proof.
  intros Hs Hne Hm HQ. eapply wp_mono; [|by apply (vspec_run any m _ p tr Hs Hm)]. cbn beta.
  intros _ w (_ & os & Ho & -> & Hq). rewrite app_nil_r in Ho.
  split; [done|]. split; [by apply HQ | done].
Qed.

Lemma moved_received x l v v' : moved x v v' → received l (v_rm v) (v_rm v').
Proof. intros (sm & -> & _). apply received_refl. Qed.

Lemma parameters_idle l m p tr :
  rinv (p, tr) → stateOf p = "BEFORE_INIT"%string →
  wp any (r_Received_ALL_ALL_PARAMETERS m) (λ _ w, idles l p tr w) (p, tr).
Proof.
  intros [_ Hph] Hc. apply phase_before in Hph as (Ht & Hp & Hop & _); [|done].
  eapply wp_mono; [|by apply parameters_wp]. cbn beta. intros _ w (_ & Ho & Hsh & _).
  split; [done|]. split; [by apply shrinks_received | congruence].
Qed.

Lemma shutdown_idle l p tr :
  wp any r_Received_ALL_ALL_SHUTDOWN (λ _ w, idles l p tr w) (p, tr).
Proof.
  eapply wp_mono; [|apply shutdown_run]. cbn beta. intros _ [p' tr'] (Ho & sm & Ep & Hc & _).
  cbn [fst snd] in *. subst p'. split; [done|]. split; [apply received_refl|]. intros _. split; [done|].
  by exists sm.
Qed.

(** In a state of the setup phase. *)
Ltac setup_state := unfold stateOf in *; congruence.

Lemma idle_receive rnd1 rnd2 msg p tr :
  rinv (p, tr) → stateOf p ≠ "COMMUNICATING"%string → rnormal p msg →
  wp any (r_ReceivedMessage rnd1 rnd2 msg) (λ _ w, idles [msg] p tr w) (p, tr).
Proof.
  intros HI Hne Hn. pose proof (idles_refl [msg] p tr) as Hrefl. pose proof HI as [_ Hph]. cbn [fst snd] in Hph.
  unfold r_ReceivedMessage. destruct msg; try (by apply wp_ret); try (by apply guarded_wp).
  - destruct (ForceParams m) eqn:E; [destruct Hn as [|Hn]; [congruence|]; by apply parameters_idle|].
    apply guarded_wp; [done|]. intros Hs. by apply parameters_idle.
  - by apply shutdown_idle.
  - apply guarded_wp; [done|]. intros Hc. apply phase_collecting in Hph as (Hs & _); [|by right].
    eapply idles_vspec; [done|setup_state|apply tellPkEph_spec|]. cbn beta.
    intros v [->|[_ Hm]]; [apply received_refl | exact (moved_received _ _ _ _ Hm)].
  - wp_step. apply wp_bind, wp_get, wp_lift; [|done]. intros [] Hok; [|by apply wp_ret].
    apply assertOrFatal2_true in Hok as [Hc|Hc]; [done|].
    apply phase_signing in Hph as (Hs & Hsg & _); [|done].
    eapply idles_vspec; [done|setup_state|by apply early_cipher_spec|]. cbn beta. intros v (_ & b & -> & Hb). done.
  - apply guarded_wp; [done|]. intros Hc. apply phase_signing in Hph as (Hs & Hsg & _); [|done].
    eapply idles_vspec; [done|setup_state|by apply shuffleSig_spec|]. cbn beta.
    intros v [->|(_ & Hf & _)]; [apply received_refl | apply shrinks_received, Hf].
  - apply guarded_wp; [done|]. intros Hc. apply phase_shuffling in Hph as (Hs & _); [|done].
    eapply idles_vspec; [done|setup_state|apply newBase_spec|]. cbn beta.
    intros v [->|(d & _ & _ & Hm)]; [apply received_refl | exact (moved_received _ _ _ _ Hm)].
  - apply guarded_wp; [done|]. intros Hc. apply phase_collecting in Hph as (Hs & _); [|by left].
    eapply idles_vspec; [done|setup_state|apply tellPk_spec|]. cbn beta.
    intros v [->|Hm]; [apply received_refl | exact (moved_received _ _ _ _ Hm)].
Qed.

Lemma idle_oinv ms l p tr w :
  oinv ms (p, tr) → stateOf p ≠ "COMMUNICATING"%string → idles l p tr w → oinv (ms ++ l) w.
Proof.
  intros [Hb Hd Hi] Hne (Ho & Hr & Hs). cbn [fst snd] in *.
  pose proof (from_messages_received _ _ _ _ Hb Hr) as Hb'.
  destruct Hi as [|[Hc|Hi]]; [done| |].
  - destruct (Hs Hc) as (Hc' & sm & Ev). split; [done| |by right; left]. rewrite Ho, Ev. by apply delivered_sm.
  - rewrite Hi in Ho. split; [done|rewrite Ho; apply delivered_nil|by right; right].
Qed.

Lemma labelled_idle l p tr w :
  rinv (p, tr) → stateOf p ≠ "COMMUNICATING"%string → rlabelled l (p, tr) w → idles l p tr w.
Proof.
  intros HI Hne Hs. remember (p, tr) as w0 eqn:Ew.
  destruct Hs as [rnd1 rnd2 msg p1 tr1 r w1 Hroom Hn E|round p1 tr1 w1 Hroom E|d p1 tr1];
    injection Ew as -> ->.
  - exact (wp_inv any _ (λ _ w, idles [msg] p tr w) _ _ _ (idle_receive rnd1 rnd2 msg p tr HI Hne Hn) E).
  - destruct (timely p round) eqn:Ht.
    { exfalso. by apply Hne, (timely_communicating p _ round (ri_phase _ HI)). }
    rewrite timeout_cases, Ht in E. injection E as <-. apply idles_refl.
  - split; [done|]. split; [apply received_refl|]. intros Hc. split; [done|].
    exists (v_sm (viewOf p)). exact (view_sm_same (viewOf p)).
Qed.

Lemma labelled_oinv ms l w w' : rinv w → oinv ms w → rlabelled l w w' → oinv (ms ++ l) w'.
Proof.
  destruct w as [p tr], w' as [p' tr']. intros HI Ho Hs.
  destruct (String.eqb_spec (stateOf p) "COMMUNICATING") as [Hc|Hc].
  - eapply communicating_oinv; [done..|]. by apply communicating_moves.
  - eapply idle_oinv; [done..|]. by apply labelled_idle.
Qed.

Lemma NewRelay_oinv sk t out data p : NewRelay sk t out data = Ret p → oinv [] (p, []).
Proof.
  intros E. unfold NewRelay in E. destruct (NewKeyPair sk) as [pk x]. cbn in E. injection E as <-.
  split; [|apply delivered_nil|by right; right]. split; intros i r c Hc; cbn in Hc; unfold bufferOf in Hc; by rewrite !lookup_empty in Hc.
Qed.

Lemma run_oinv sk t out data p ms w : NewRelay sk t out data = Ret p → rrun (p, []) ms w → oinv ms w.
Proof.
  intros E H. induction H as [|ms w l w' Hr IH Hs]; [by eapply NewRelay_oinv|].
  eapply labelled_oinv; [|done..]. by eapply reach_inv, rrun_reach.
Qed.

(** C5: Integrity of the relay's output against arbitrary peers.  In any run, from
    the creation of the relay and with any messages received in any order
    (forged, duplicated, reordered, stale, of any size) and any timeouts, the
    payloads handed to the application belong to strictly increasing rounds; each of
    them is what the decoder of a new relay entity yields for exactly one received
    cell of each client and one of each trustee, all tagged with that round; and
    the round is 0 or was announced, and no announcement of it asked for the
    open/closed slots. *)
Theorem relay_integrity sk t out data p0 ms p tr :
  NewRelay sk t out data = Ret p0 → rrun (p0, []) ms (p, tr) →
  let s := relayState p in
  ∃ rs, StronglySorted Z.lt rs
  ∧ Forall2 (λ r x,
      (∃ rnd1 rnd2 d cs ts pt ct,
        NewDCNetEntity rnd1 rnd2 0 DCNET_RELAY (r_PayloadSize s) (r_EquivocationProtectionEnabled s) [] = Ret d
        ∧ gathered clientCipher ms (r_nClients s) r cs ∧ gathered trusteeCipher ms (r_nTrustees s) r ts
        ∧ decodeRound d r false cs ts = Ret (pt, ct)
        ∧ x = if r_DisruptionProtectionEnabled s then drop 1 pt else pt)
      ∧ 0 ≤ r ∧ (r = 0 ∨ ∃ d m, Down d m ∈ observe tr ∧ dd_RoundID m = r)
      ∧ (∀ d m, Down d m ∈ observe tr → dd_RoundID m = r → dd_FlagOpenClosedRequest m = false))
    rs (outs (observe tr)).
Proof.
  intros E H s. pose proof (run_oinv _ _ _ _ _ _ _ E H) as [_ [(rs & Hrs & Hf) Hdown] _]. cbn [fst snd] in *.
  exists rs. split; [exact Hrs|]. eapply Forall2_impl; [exact Hf|]. intros r x ((Hr & Hcov) & Hoc & Hx).
  split; [exact Hx|]. split; [apply Hr|]. split; [exact Hcov|]. intros d m Hin <-. rewrite Forall_forall in Hdown.
  destruct (Hdown _ Hin) as (_ & _ & Hreq). destruct (dd_FlagOpenClosedRequest m); [|done].
  destruct (Hreq eq_refl) as [? Hsome]. congruence.
Qed.
End origin.

(** ** Round 0 of the concrete relay *)

Module OriginDemo.
Import ToySuite RelayDemo DeliveryDemo.
#[local] Existing Instance suite.

Lemma accepts_run ms : ∀ w0 l w, rrun w0 l w → accepts w ms = true →
  rrun w0 (l ++ ms) (foldl (λ w m, receive m w) w ms).
Proof.
  induction ms as [|m ms IH]; intros w0 l w Hr H; [by rewrite app_nil_r|]. cbn in H.
  repeat (apply andb_prop in H as [H ?]). rewrite cons_middle, app_assoc. apply IH; [|done].
  apply rrun_snoc with w; [done|]. apply relay_receive_step; [done | by apply normal_rnormal | done].
Qed.

Definition sent : list (message suite) := setup ++ early ++ [last].
Definition wF : world := foldl (λ w m, receive m w) (start, []) sent.

Lemma wF_run : rrun (start, []) sent (wF.1, wF.2).
Proof.
  rewrite <- surjective_pairing. apply (accepts_run sent (start, []) [] (start, [])); [constructor|].
  vm_compute. reflexivity.
Qed.

(** One payload was delivered; it comes from the cells the two clients and the
    trustee sent for one round. *)
Lemma relay_integrity_witness :
  ∃ r cs ts, gathered clientCipher sent 2 r cs ∧ gathered trusteeCipher sent 1 r ts
  ∧ outs (observe wF.2) = [[7; 8; 0; 0]].
Proof.
  destruct (@relay_integrity suite net clock proofs laws (fp_of 13) 0 true [] start sent wF.1 wF.2
    start_new wF_run) as (rs & _ & H).
  assert (outs (observe wF.2) = [[7; 8; 0; 0]]) as E by (vm_compute; reflexivity).
  rewrite E in H.
  destruct rs as [|r rs]; [inversion H|]. apply Forall2_cons_1 in H as [[H _] _].
  destruct H as (rnd1 & rnd2 & d & cs & ts & pt & ct & _ & Hc & Ht & _). exists r, cs, ts.
  replace (r_nClients (relayState wF.1)) with 2 in Hc by (vm_compute; reflexivity).
  replace (r_nTrustees (relayState wF.1)) with 1 in Ht by (vm_compute; reflexivity).
  split; [exact Hc|]. split; [exact Ht | exact E].
Defined.
End OriginDemo.
