(* ===== verification/RelayKeys.v ===== *)
(** * What the relay tells the nodes in the setup

    The relay hands every node its number and the parameters of the deployment,
    gives the clients the keys of the trustees and the trustees those of the
    clients, and announces the result of the shuffle.  In every run, what it told
    each node agrees with its own parameters ([configured]), every key it passes on
    under a number was sent to it under that number ([keys_from]), and there is one
    announcement of the shuffle for all clients. *)

From S2P Require Import Prelude Bytes Crypto DCNet DCNetRound NeffShuffle Messages StateMachine Statistics.
From S2P Require Import RoundManager RoundManagerInv Network Relay RelayStates RelayInv RelaySpec RelayOrigin.

Open Scope Z_scope.

Section relay_keys.
Context {CS : CryptoSuite} {NW : Network CS} {CK : Clock CS} {PS : ProofSystem CS} {CL : CryptoLaws CS}.
Abbreviation inst := (PriFiLibRelayInstance CS).
Abbreviation trace := (list (event CS)).

(** ** What is told *)

(** Parameters [m] that agree with those of the relay *)
Record configured (m : ALL_ALL_PARAMETERS CS) (s : RelayState CS) : Prop := {
  cf_clients : ∀ d, IntValueOrElse m "NClients" d = r_nClients s;
  cf_trustees : ∀ d, IntValueOrElse m "NTrustees" d = r_nTrustees s;
  cf_size : ∀ d, IntValueOrElse m "PayloadSize" d = r_PayloadSize s;
  cf_equiv : ∀ d, BoolValueOrElse m "EquivocationProtectionEnabled" d = r_EquivocationProtectionEnabled s
}.

(** The keys that were received for a number *)
Definition trusteeKey (ms : list (message CS)) (j : Z) (pk : Point) : Prop :=
  MTellPk (mkTellPk j (Some pk)) ∈ ms.
Definition clientKey (ms : list (message CS)) (i : Z) (pk : Point) : Prop :=
  ∃ eph, MTellPkEph (mkTellPkEph i (Some pk) eph) ∈ ms.

(** A list of [n] keys, each missing or received for its place *)
Definition keys_from (R : Z → Point → Prop) (n : Z) (pks : list (option Point)) : Prop :=
  length pks = Z.to_nat n ∧ ∀ k pk, pks !! k = Some (Some pk) → R (Z.of_nat k) pk.

Definition nodes_from (R : Z → Point → Prop) (nodes : list (NodeRepresentation CS)) : Prop :=
  ∀ k node pk, nodes !! k = Some node → nr_PublicKey node = Some pk → R (Z.of_nat k) pk.

(** An event that tells a node what the relay knows *)
Definition told (ms : list (message CS)) (s : RelayState CS) (e : event CS) : Prop :=
  match e with
  | Sent (ToTrustee j) (MParameters m) =>
    configured m s ∧ ∀ d, IntValueOrElse m "NextFreeTrusteeID" d = j
  | Sent (ToClient i) (MParameters m) =>
    configured m s ∧ (∀ d, IntValueOrElse m "NextFreeClientID" d = i)
    ∧ (∀ d, BoolValueOrElse m "ForceDisruptionSinceRound3" d = r_ForceDisruptionSinceRound3 s)
    ∧ keys_from (trusteeKey ms) (r_nTrustees s) (TrusteesPks m)
  | Sent ToAllClients (MParameters _) => False
  | Sent (ToTrustee _) (MTellClients m) =>
    ∃ pks, tb_Pks m = Some pks ∧ keys_from (clientKey ms) (r_nClients s) pks
  | _ => True
  end.

(** The announcement of the shuffle *)
Definition announces_eph (m0 : REL_CLI_TELL_EPH_PKS_AND_TRUSTEES_SIG CS) (e : event CS) : Prop :=
  ∀ d m, e = Sent d (MTellEphPks m) → m = m0.
Definition no_eph (e : event CS) : Prop := ∀ d m, e ≠ Sent d (MTellEphPks m).

Record kinv (ms : list (message CS)) (w : inst * trace) : Prop := {
  ki_clean : stateOf w.1 = "BEFORE_INIT" → Forall (sentBy dataSends) w.2;
  ki_trustees : nodes_from (trusteeKey ms) (r_trustees (relayState w.1));
  ki_clients : nodes_from (clientKey ms) (r_clients (relayState w.1));
  ki_told : Forall (told ms (relayState w.1)) w.2;
  ki_eph : Forall no_eph w.2 ∨ (stateOf w.1 = "COMMUNICATING" ∨ stateOf w.1 = "SHUTDOWN")
                               ∧ ∃ m0, Forall (announces_eph m0) w.2
}.

(** ** Messages that come later, and steps that keep the agreement *)

Lemma trusteeKey_mono ms l j pk : trusteeKey ms j pk → trusteeKey (ms ++ l) j pk.
Proof. intros H. apply elem_of_app. by left. Qed.
Lemma clientKey_mono ms l i pk : clientKey ms i pk → clientKey (ms ++ l) i pk.
Proof. intros [eph H]. exists eph. apply elem_of_app. by left. Qed.

Lemma keys_from_mono (R R' : Z → Point → Prop) n pks :
  (∀ k pk, R k pk → R' k pk) → keys_from R n pks → keys_from R' n pks.
Proof. intros HR [Hl H]. split; [done|]. intros k pk Hk. by apply HR, H. Qed.
Lemma nodes_from_mono (R R' : Z → Point → Prop) nodes :
  (∀ k pk, R k pk → R' k pk) → nodes_from R nodes → nodes_from R' nodes.
Proof. intros HR H k node pk Hk Hp. by eapply HR, H. Qed.

(** The parameters the nodes were told *)
Definition agreed (s : RelayState CS) :=
  (r_nClients s, r_nTrustees s, r_PayloadSize s, r_EquivocationProtectionEnabled s, r_ForceDisruptionSinceRound3 s).

Lemma told_mono ms l s s' e : agreed s' = agreed s → told ms s e → told (ms ++ l) s' e.
Proof.
  unfold agreed. intros [= E1 E2 E3 E4 E5]. destruct e as [d m| | | | | | | |]; try done.
  destruct d, m; try done; cbn [told].
  - intros ([] & Hid & Hf & Hk). split; [split; congruence|]. split; [done|]. split; [congruence|].
    rewrite E2. eapply keys_from_mono; [|done]. intros. by apply trusteeKey_mono.
  - intros ([] & Hid). split; [split; congruence | done].
  - intros (pks & Hp & Hk). exists pks. split; [done|]. rewrite E1.
    eapply keys_from_mono; [|done]. intros. by apply clientKey_mono.
Qed.

Lemma data_told ms s e : sentBy dataSends e → told ms s e ∧ no_eph e.
Proof.
  destruct e as [d m| | | | | | | |]; try done. cbn [sentBy].
  destruct d, m; try done; intros _; split; done.
Qed.

Lemma no_eph_announces m0 e : no_eph e → announces_eph m0 e.
Proof. intros H d m E. by destruct (H d m). Qed.

(** A step that keeps the parameters and announces no shuffle *)
Lemma kinv_grows ms l p tr p' new :
  agreed (relayState p') = agreed (relayState p) →
  (stateOf p' = "BEFORE_INIT" → stateOf p = "BEFORE_INIT" ∧ Forall (sentBy dataSends) new) →
  (stateOf p = "COMMUNICATING" ∨ stateOf p = "SHUTDOWN" → stateOf p' = stateOf p ∨ stateOf p' = "SHUTDOWN") →
  nodes_from (trusteeKey (ms ++ l)) (r_trustees (relayState p')) →
  nodes_from (clientKey (ms ++ l)) (r_clients (relayState p')) →
  Forall (λ e, told (ms ++ l) (relayState p') e ∧ no_eph e) new →
  kinv ms (p, tr) → kinv (ms ++ l) (p', tr ++ new).
Proof.
  intros Ha Hb Hst Ht Hc Hn [Hcl _ _ Hto Hep]. cbn [fst snd] in *.
  apply Forall_and in Hn as [Hn He]. split; cbn [fst snd]; try done.
  - intros E. destruct (Hb E) as [E' HD]. apply Forall_app. split; [by apply Hcl | done].
  - apply Forall_app. split; [|done]. eapply Forall_impl; [exact Hto|]. intros e. by apply told_mono.
  - destruct Hep as [Hep|[Hs [m0 Hep]]]; [left; by apply Forall_app|].
    right. split; [destruct (Hst Hs) as [->|]; tauto|]. exists m0. apply Forall_app. split; [done|].
    eapply Forall_impl; [exact He|]. intros e. by apply no_eph_announces.
Qed.

Lemma setup_inv (p p' : inst) : setup p' = setup p →
  agreed (relayState p') = agreed (relayState p) ∧ r_trustees (relayState p') = r_trustees (relayState p)
  ∧ r_clients (relayState p') = r_clients (relayState p).
Proof. unfold setup, agreed. intros [= -> -> -> -> -> -> -> _]. done. Qed.

(** A handler of a running relay *)
Lemma kinv_quiet {A} ms l (m : handler inst A) p tr a p' tr' :
  keeps_proj setup m → emits (sentBy dataSends) m → rests m →
  m (p, tr) = Ret (a, (p', tr')) → kinv ms (p, tr) → kinv (ms ++ l) (p', tr').
Proof.
  intros Hk He Hr H HI. apply Hk in H as Hs. apply setup_inv in Hs as (Ha & Ht & Hc).
  apply He in H as Hn. destruct Hn as (new & -> & Hn). apply Hr in H.
  apply (kinv_grows _ _ p); [done| | | | |by eapply Forall_impl; [|apply data_told]|done].
  - intros E. split; [|done]. destruct H as [<-|H]; congruence.
  - done.
  - rewrite Ht. eapply nodes_from_mono; [|apply HI]. intros. by apply trusteeKey_mono.
  - rewrite Hc. eapply nodes_from_mono; [|apply HI]. intros. by apply clientKey_mono.
Qed.

(** ** The handlers of the setup *)

Lemma publicKeys_from R nodes n pks :
  nodes_from R nodes → publicKeys nodes n = Ret pks → keys_from R n pks.
Proof.
  intros HR H. unfold publicKeys in H. apply mapM_go_Forall2 in H.
  split; [by rewrite <- (Forall2_length _ _ _ H); unfold ids; rewrite length_fmap, length_seq|].
  intros k pk Hk. destruct (Forall2_lookup_r _ _ _ _ _ H Hk) as (i & Hi & Hf).
  unfold ids in Hi. apply list_lookup_fmap_Some in Hi as (k' & -> & [-> Hk']%lookup_seq).
  apply go_bind_inv in Hf as (node & Hnode & [= Hpk]).
  unfold index in Hnode. destruct (_ <? 0); [done|]. rewrite Nat2Z.id in Hnode.
  destruct (nodes !! _) as [node'|] eqn:E; [|done]. injection Hnode as ->. by eapply HR.
Qed.

Lemma nodes_from_set R nodes i node nodes' :
  nodes_from R nodes → set_index nodes i node = Ret nodes' →
  (∀ pk, nr_PublicKey node = Some pk → R i pk) → nodes_from R nodes'.
Proof.
  intros HR H Hnode k x pk Hk Hp. unfold set_index in H.
  destruct (_ || _) eqn:E; [done|]. injection H as <-. apply orb_false_iff in E as [E%Z.ltb_ge _].
  apply list_lookup_insert_Some in Hk as [(<- & -> & _)|[_ Hk]]; [|by eapply HR].
  rewrite Z2Nat.id by lia. by apply Hnode.
Qed.

Lemma nodes_from_none R n nodes : make_slice n (noNode (CS:=CS)) = Ret nodes → nodes_from R nodes.
Proof.
  unfold make_slice. destruct (_ <? _); [done|]. intros [= <-] k node pk Hk Hp.
  apply lookup_replicate in Hk as [-> _]. done.
Qed.

Lemma told_trustee_parameters ms s j :
  told ms s (Sent (ToTrustee j) (MParameters (Add ((commonParams s) <| ForceParams := true |>) "NextFreeTrusteeID" (PInt j)))).
Proof. split; [split|]; done. Qed.

Lemma told_client_parameters ms s pks i :
  keys_from (trusteeKey ms) (r_nTrustees s) pks →
  told ms s (Sent (ToClient i) (MParameters (Add ((Add (commonParams s) "ForceDisruptionSinceRound3"
      (PBool (r_ForceDisruptionSinceRound3 s))) <| TrusteesPks := pks |>) "NextFreeClientID" (PInt i)))).
Proof. intros Hk. split; [split|]; done. Qed.

Definition quietly (ms : list (message CS)) (s : RelayState CS) (e : event CS) : Prop := told ms s e ∧ no_eph e.

Lemma changeState_effect x p tr r p' tr' :
  r_ChangeState x (p, tr) = Ret (r, (p', tr')) →
  tr' = tr ∧ relayState p' = relayState p ∧ stateOf p' = x.
Proof. unfold r_ChangeState. intros H. h_run H. by use changeOrFatal_ret as [? ?]. Qed.

Lemma r_guarded_inv st (h : handler inst (result unit)) p tr r p' tr' :
  (ok ← r_AssertState st; if ok : bool then h else mret (Ok tt)) (p, tr) = Ret (r, (p', tr')) →
  (p' = p ∧ tr' = tr) ∨ (stateOf p = st ∧ h (p, tr) = Ret (r, (p', tr'))).
Proof.
  intros H. unfold r_AssertState in H. h_step H.
  match type of H with (if ?b then _ else _) _ = _ => destruct b end.
  - right. use assertOrFatal_true as E. done.
  - left. by h_run H.
Qed.

(** A loop of messages *)
Lemma sendEach_effect P (dest : Z → dest) (msg : Z → message CS) l (p : inst) tr r p' tr' :
  (∀ j, P (Sent (dest j) (msg j))) → (∀ d m, P (SendFailed d m)) → (∀ e, P (NetworkError e)) →
  forEach (λ j, _ ← sendToWithLog (dest j) (msg j); mret tt) l (p, tr) = Ret (r, (p', tr')) →
  p' = p ∧ ∃ new, tr' = tr ++ new ∧ Forall P new.
Proof.
  intros HP H1 H2 H. split.
  - assert (keeps_proj id (forEach (λ j, _ ← sendToWithLog (dest j) (msg j); mret tt) l : handler inst unit)) as Hk.
    { solve_keeps. }
    by apply Hk in H.
  - assert (emits P (forEach (λ j, _ ← sendToWithLog (dest j) (msg j); mret tt) l : handler inst unit)) as He.
    { apply emits_forEach. intros j _. apply emits_bind; [by apply emits_send | intros; apply emits_ret]. }
    by apply He in H.
Qed.

Lemma tell_pk_effect ms m p tr r p' tr' :
  nodes_from (trusteeKey ms) (r_trustees (relayState p)) → MTellPk m ∈ ms →
  Received_TRU_REL_TELL_PK m (p, tr) = Ret (r, (p', tr')) →
  agreed (relayState p') = agreed (relayState p)
  ∧ r_clients (relayState p') = r_clients (relayState p)
  ∧ nodes_from (trusteeKey ms) (r_trustees (relayState p'))
  ∧ (stateOf p' = stateOf p ∨ stateOf p' = "COLLECTING_CLIENT_PKS")
  ∧ ∃ new, tr' = tr ++ new ∧ Forall (quietly ms (relayState p')) new.
Proof.
  intros Hn Hm H. unfold Received_TRU_REL_TELL_PK, getR, setR in H. h_step H. h_step H.
  assert (nodes_from (trusteeKey ms) a0) as Hn'.
  { eapply nodes_from_set; [exact Hn | exact E0|]. cbn. destruct m as [j pk]. intros k Hk. cbn in *. by subst. }
  h_step H. h_step H.
  match type of H with (if ?b then _ else _) _ = _ => destruct b end; [|].
  2:{ h_run H. split_and!; [done..|by left|]. exists []. by rewrite app_nil_r. }
  h_step H. h_step H. h_run H.
  apply (publicKeys_from _ _ _ _ Hn') in E1. set (s1 := _ <| r_nTrusteesPkCollected := _ |>) in *.
  apply (sendEach_effect (quietly ms s1) ToClient (λ j, _)) in E as [-> (new & -> & Hnew)]; [|by intros j; split; [apply told_client_parameters|]|done..].
  apply changeState_effect in E2 as (-> & E2 & Hst). rewrite E2. cbn [relayState].
  split_and!; [done..|by right|]. by exists new.
Qed.

(** The relay counts the keys of trustees and does not look which trustee they
    come from: one that comes twice completes the count while another trustee's
    is missing, and the clients are sent a missing key for that trustee. *)
Lemma repeated_key_missing m k node p tr r p' tr' :
  let s := relayState p in
  r_nTrusteesPkCollected s + 1 = r_nTrustees s → Z.of_nat k < r_nTrustees s →
  r_trustees s !! k = Some node → nr_PublicKey node = None → tk_TrusteeID m ≠ Z.of_nat k →
  Received_TRU_REL_TELL_PK m (p, tr) = Ret (r, (p', tr')) →
  stateOf p' = "COLLECTING_CLIENT_PKS"
  ∧ ∃ new, tr' = tr ++ new
    ∧ Forall (λ e, ∀ d x, e = Sent d (MParameters x) → TrusteesPks x !! k = Some None) new.
Proof.
  intros s Hc Hk Hnode Hnone Hid H. unfold Received_TRU_REL_TELL_PK, getR, setR in H. h_step H. h_step H.
  assert (a0 !! k = Some node) as Ha0.
  { unfold set_index in E0. destruct (_ || _) eqn:E1; [done|]. injection E0 as <-.
    apply orb_false_iff in E1 as [E1%Z.ltb_ge _]. rewrite list_lookup_insert_ne by lia. exact Hnode. }
  h_step H. h_step H. cbn in H. fold s in H. rewrite Hc, Z.eqb_refl in H. h_step H. h_step H. h_run H.
  apply (sendEach_effect (λ e, ∀ d x, e = Sent d (MParameters x) → TrusteesPks x !! k = Some None) ToClient (λ j, _))
    in E as [-> (new & -> & Hnew)]; [| |done..].
  - apply changeState_effect in E2 as (-> & _ & Hst). split; [done|]. by exists new.
  - intros j d x [= _ <-]. cbn. unfold publicKeys in E1. apply mapM_go_Forall2 in E1.
    assert (ids (r_nTrustees s) !! k = Some (Z.of_nat k)) as Hi.
    { unfold ids. apply list_lookup_fmap_Some. exists k. split; [done|]. apply lookup_seq. lia. }
    destruct (Forall2_lookup_l _ _ _ _ _ E1 Hi) as (pk & Hpk & Hf). rewrite Hpk.
    apply go_bind_inv in Hf as (node' & Hn & [= <-]). apply index_ret in Hn as [_ Hn].
    rewrite Nat2Z.id, Ha0 in Hn. injection Hn as <-. by rewrite Hnone.
Qed.

Lemma next_trustee_effect ms p tr r p' tr' :
  nodes_from (clientKey ms) (r_clients (relayState p)) →
  sendToNextTrustee (p, tr) = Ret (r, (p', tr')) →
  setup p' = setup p ∧ stateOf p' = stateOf p
  ∧ ∃ new, tr' = tr ++ new ∧ Forall (quietly ms (relayState p')) new.
Proof.
  intros Hn H. unfold sendToNextTrustee, getR, setR in H. h_step H.
  destruct (SendToNextTrustee _) as [res n]. h_step H. destruct res as [[toSend id]|]; h_run H.
  2:{ split_and!; [done..|]. exists []. by rewrite app_nil_r. }
  apply (publicKeys_from _ _ _ _ Hn) in E0. unfold SendToTrusteeWithLog in E.
  apply send_trace in E as [[= -> ->] _].
  split_and!; [done..|]. eexists. split; [done|].
  destruct (net_send _ _ _); repeat constructor; try done. by exists a0.
Qed.

Lemma sendToTrustees_effect P m (p : inst) tr r p' tr' :
  (∀ j, P (Sent (ToTrustee j) m)) → (∀ d m, P (SendFailed d m)) → (∀ e, P (NetworkError e)) →
  sendToTrustees m (p, tr) = Ret (r, (p', tr')) → p' = p ∧ ∃ new, tr' = tr ++ new ∧ Forall P new.
Proof.
  intros HP H1 H2 H. unfold sendToTrustees, getR in H. h_run H.
  by apply (sendEach_effect P ToTrustee (λ _, m)) in H.
Qed.
Lemma sendToClients_effect P m (p : inst) tr r p' tr' :
  (∀ j, P (Sent (ToClient j) m)) → (∀ d m, P (SendFailed d m)) → (∀ e, P (NetworkError e)) →
  sendToClients m (p, tr) = Ret (r, (p', tr')) → p' = p ∧ ∃ new, tr' = tr ++ new ∧ Forall P new.
Proof.
  intros HP H1 H2 H. unfold sendToClients, getR in H. h_run H.
  by apply (sendEach_effect P ToClient (λ _, m)) in H.
Qed.

Lemma startMeasure_effect x (p : inst) tr r p' tr' :
  startMeasure x (p, tr) = Ret (r, (p', tr')) → ∃ g, p' = p <| r_timing := g |> ∧ tr' = tr.
Proof. unfold startMeasure. intros H. h_run H. by eexists. Qed.
Lemma stopMeasure_effect x (p : inst) tr r p' tr' :
  stopMeasure x (p, tr) = Ret (r, (p', tr')) → ∃ g, p' = p <| r_timing := g |> ∧ tr' = tr.
Proof. unfold stopMeasure. intros H. h_step H. h_step H. destruct (StopMeasure _ _ _). h_run H. by eexists. Qed.

Lemma tell_pk_eph_effect ms m p tr r p' tr' :
  nodes_from (clientKey ms) (r_clients (relayState p)) → MTellPkEph m ∈ ms →
  Received_CLI_REL_TELL_PK_AND_EPH_PK m (p, tr) = Ret (r, (p', tr')) →
  agreed (relayState p') = agreed (relayState p)
  ∧ r_trustees (relayState p') = r_trustees (relayState p)
  ∧ nodes_from (clientKey ms) (r_clients (relayState p'))
  ∧ (stateOf p' = stateOf p ∨ stateOf p' = "COLLECTING_SHUFFLES")
  ∧ ∃ new, tr' = tr ++ new ∧ Forall (quietly ms (relayState p')) new.
Proof.
  intros Hn Hm H. unfold Received_CLI_REL_TELL_PK_AND_EPH_PK, getR, setR in H. h_step H. h_step H.
  assert (nodes_from (clientKey ms) a0) as Hn'.
  { eapply nodes_from_set; [exact Hn | exact E0|]. cbn. destruct m as [j pk eph]. intros k Hk. cbn in *. subst. by exists eph. }
  h_step H. h_step H.
  match type of H with (if ?b then _ else _) _ = _ => destruct b end; [|].
  2:{ h_run H. split_and!; [done..|by left|]. exists []. by rewrite app_nil_r. }
  h_step H. h_step H. h_step H. h_step H. h_step H.
  apply stopMeasure_effect in E as (g & -> & ->). apply startMeasure_effect in E1 as (g' & -> & ->).
  apply (next_trustee_effect ms) in E2 as (Hs & Hst & new & -> & Hnew); [|done].
  apply setup_inv in Hs as (Ha & Ht & Hc). destruct a2; h_run H.
  - apply changeState_effect in E as (-> & E & Hst'). rewrite E, Ha, Ht, Hc.
    split_and!; [done..|by right|]. by exists new.
  - rewrite Ha, Ht, Hc. split_and!; [done..|by left|]. by exists new.
Qed.

Lemma new_base_effect ms rnd1 rnd2 m p tr r p' tr' :
  nodes_from (clientKey ms) (r_clients (relayState p)) →
  Received_TRU_REL_TELL_NEW_BASE rnd1 rnd2 m (p, tr) = Ret (r, (p', tr')) →
  setup p' = setup p ∧ (stateOf p' = stateOf p ∨ stateOf p' = "COLLECTING_SHUFFLE_SIGNATURES")
  ∧ ∃ new, tr' = tr ++ new ∧ Forall (quietly ms (relayState p')) new.
Proof.
  intros Hn H. unfold Received_TRU_REL_TELL_NEW_BASE, getR, setR in H. h_step H. h_step H. h_step H.
  destruct a1 as [res n]. h_step H. destruct res as [[]|].
  - h_step H. h_step H. h_step H.
    apply stopMeasure_effect in E as (g & -> & ->). apply startMeasure_effect in E2 as (g' & -> & ->).
    match type of H with (match ?res with _ => _ end) _ = _ => destruct res end; h_run H.
    + apply (sendToTrustees_effect (λ e, ∀ s, quietly ms s e)) in E as (-> & new & -> & Hnew); [|done..].
      apply changeState_effect in E2 as (-> & E2 & Hst). unfold setup. rewrite E2.
      split_and!; [done|by right|]. exists new. split; [done|]. eapply Forall_impl; [exact Hnew | done].
    + split_and!; [done|by left|]. exists []. by rewrite app_nil_r.
  - apply (next_trustee_effect ms) in H as (Hs & Hst & Hnew); [|done]. split_and!; [done|by left|done].
  - h_run H. split_and!; [done|by left|]. exists []. by rewrite app_nil_r.
Qed.

Lemma shuffle_sig_effect m p tr r p' tr' :
  Received_TRU_REL_SHUFFLE_SIG m (p, tr) = Ret (r, (p', tr')) →
  setup p' = setup p
  ∧ ((stateOf p' = stateOf p ∧ tr' = tr)
     ∨ stateOf p' = "COMMUNICATING" ∧ ∃ new m0, tr' = tr ++ new ∧ Forall (λ e, announces_eph m0 e ∧ ∀ ms s, told ms s e) new).
Proof.
  intros H. unfold Received_TRU_REL_SHUFFLE_SIG, getR, setManager, setR in H. h_step H. h_step H.
  destruct a0 as [res n]. h_step H. destruct res as [[]|]; [|h_run H; by auto..].
  h_step H. h_step H. h_step H. h_step H.
  match type of H with (match ?res with _ => _ end) _ = _ => destruct res as [m0|] end; [|h_run H; by auto].
  h_step H. h_step H. match type of H with (let '_ := ?x in _) _ = _ => destruct x end. h_run H.
  apply changeState_effect in E as (-> & Es & Hst).
  apply stopMeasure_effect in E5 as (g1 & -> & ->). apply stopMeasure_effect in E6 as (g2 & -> & ->).
  apply stopMeasure_effect in E7 as (g3 & -> & ->).
  apply (sendToClients_effect (λ e, announces_eph m0 e ∧ ∀ ms s, told ms s e)) in E8 as (-> & new & -> & Hnew);
    [|intros j; split; [by intros d m' [= _ <-] | done]|done..].
  unfold setup. cbn. rewrite Es. split; [done|]. right. split; [exact Hst|]. by exists new, m0.
Qed.

(** The end of Received_ALL_ALL_PARAMETERS *)
Lemma start_effect startNow q tr r p' tr' :
  (s ← getR;
   _ ← (if negb (DoSendStopResumeMessages (r_roundManager s)) then
          setManager (AddRateLimiter (r_roundManager s) (r_TrusteeCacheLowBound s)
                        (r_TrusteeCacheHighBound s) true true).2
        else mret tt);
   _ ← (if startNow : bool then
          _ ← r_ChangeState "COLLECTING_TRUSTEES_PKS"; BroadcastParameters
        else mret (Ok tt));
   _ ← stopMeasure "resync-boot";
   _ ← startMeasure "resync-shuffle";
   _ ← startMeasure "resync-shuffle-collect-client-pk";
   mret (Ok tt)) (q, tr) = Ret (r, (p', tr')) →
  setup p' = setup q
  ∧ ((stateOf p' = stateOf q ∧ tr' = tr)
     ∨ stateOf p' = "COLLECTING_TRUSTEES_PKS"
       ∧ ∃ new, tr' = tr ++ new ∧ Forall (λ e, ∀ ms, quietly ms (relayState p') e) new).
Proof.
  intros H. unfold getR in H. h_run H.
  apply stopMeasure_effect in E1 as (g1 & -> & ->). apply startMeasure_effect in E2 as (g2 & -> & ->).
  apply startMeasure_effect in E3 as (g3 & -> & ->).
  assert (setup s = setup q ∧ stateOf s = stateOf q ∧ tr0 = tr) as (Hs & Hst & ->).
  { destruct (negb _); unfold setManager, setR in E; by h_run E. }
  destruct startNow; h_run E0; [|by auto].
  apply changeState_effect in E1 as (-> & E1 & Hst1). unfold BroadcastParameters, getR in E0. h_run E0.
  apply (sendEach_effect (λ e, ∀ ms, quietly ms (relayState s1) e) ToTrustee (λ j, _)) in E2 as (-> & new & -> & Hnew);
    [|intros j ms; split; [apply told_trustee_parameters|]; done|done..].
  split; [unfold setup in *; cbn in *; by rewrite E1|]. right. split; [done|]. by exists new.
Qed.

Lemma parameters_relay_effect m p tr r p' tr' :
  r_Received_ALL_ALL_PARAMETERS m (p, tr) = Ret (r, (p', tr')) →
  (p' = p ∧ tr' = tr)
  ∨ (∀ R, nodes_from R (r_trustees (relayState p')) ∧ nodes_from R (r_clients (relayState p')))
    ∧ ((stateOf p' = stateOf p ∧ tr' = tr)
       ∨ stateOf p' = "COLLECTING_TRUSTEES_PKS"
         ∧ ∃ new, tr' = tr ++ new ∧ Forall (λ e, ∀ ms, quietly ms (relayState p') e) new).
Proof.
  intros H. unfold r_Received_ALL_ALL_PARAMETERS, setR in H. h_step H. unfold getR in E. h_run E.
  match type of H with (if ?b then _ else _) _ = _ => destruct b end; [h_run H; by left|].
  do 6 h_step H. match type of H with (if ?b then _ else _) _ = _ => destruct b end; [by h_run H|]. right.
  apply start_effect in H as [Hs Ht]. apply setup_inv in Hs as (_ & -> & ->).
  split; [|done]. intros R. split; by eapply nodes_from_none.
Qed.

(** ** Runs *)

Lemma keys_weaken ms l p tr : kinv ms (p, tr) → kinv (ms ++ l) (p, tr).
Proof.
  intros HI. rewrite <- (app_nil_r tr). apply (kinv_grows ms l p tr p []); [done|by split|by left| | |constructor|done].
  - eapply nodes_from_mono; [|apply HI]. intros. by apply trusteeKey_mono.
  - eapply nodes_from_mono; [|apply HI]. intros. by apply clientKey_mono.
Qed.

Lemma kinv_parameters ms l m p tr r p' tr' :
  kinv ms (p, tr) → stateOf p = "BEFORE_INIT" →
  r_Received_ALL_ALL_PARAMETERS m (p, tr) = Ret (r, (p', tr')) → kinv (ms ++ l) (p', tr').
Proof.
  intros HI Hb H. apply parameters_relay_effect in H as [[-> ->]|[HR H]]; [by apply keys_weaken|].
  pose proof (ki_clean _ _ HI Hb) as Hcl. cbn in Hcl.
  assert (Forall no_eph tr) as He by (eapply Forall_impl; [exact Hcl | intros e Hd; by apply (data_told ms (relayState p))]).
  assert (Forall (told (ms ++ l) (relayState p')) tr) as Ht by (eapply Forall_impl; [exact Hcl | intros e Hd; by apply data_told]).
  destruct H as [[Hs ->]|(Hs & new & -> & Hn)]; split; cbn [fst snd]; try apply HR; try done; try (by left).
  - by rewrite Hs.
  - apply Forall_app. split; [done|]. eapply Forall_impl; [exact Hn|]. intros e Hq. apply Hq.
  - left. apply Forall_app. split; [done|]. eapply Forall_impl; [exact Hn|]. intros e Hq. by apply (Hq []).
Qed.

Lemma kinv_setup ms msg p tr p' new :
  kinv ms (p, tr) → stateOf p ≠ "BEFORE_INIT" → stateOf p ≠ "COMMUNICATING" → stateOf p ≠ "SHUTDOWN" →
  agreed (relayState p') = agreed (relayState p) → stateOf p' ≠ "BEFORE_INIT" →
  nodes_from (trusteeKey (ms ++ [msg])) (r_trustees (relayState p')) →
  nodes_from (clientKey (ms ++ [msg])) (r_clients (relayState p')) →
  Forall (quietly (ms ++ [msg]) (relayState p')) new → kinv (ms ++ [msg]) (p', tr ++ new).
Proof. intros HI H1 H2 H3 Ha Hb Ht Hc Hn. eapply kinv_grows; [exact Ha|..]; try done; tauto. Qed.

Lemma kinv_shuffle_sig ms l m p tr r p' tr' :
  kinv ms (p, tr) → stateOf p = "COLLECTING_SHUFFLE_SIGNATURES" →
  Received_TRU_REL_SHUFFLE_SIG m (p, tr) = Ret (r, (p', tr')) → kinv (ms ++ l) (p', tr').
Proof.
  intros HI Hs H. apply shuffle_sig_effect in H as [Hse H]. apply setup_inv in Hse as (Ha & Ht & Hc).
  apply (keys_weaken _ l) in HI. destruct HI as [_ HT HC Hto Hep]. cbn [fst snd] in *.
  rewrite <- Ht in HT. rewrite <- Hc in HC.
  assert (Forall no_eph tr) as He by (destruct Hep as [|[[] _]]; congruence).
  assert (Forall (told (ms ++ l) (relayState p')) tr) as Hto'.
  { eapply Forall_impl; [exact Hto|]. intros e Hq. rewrite <- (app_nil_r (ms ++ l)). by eapply told_mono. }
  destruct H as [[Hs' ->]|(Hs' & new & m0 & -> & Hn)]; split; cbn [fst snd]; try done; try (by left); try congruence.
  - apply Forall_app. split; [done|]. eapply Forall_impl; [exact Hn|]. intros e Hq. apply Hq.
  - right. split; [by left|]. exists m0. apply Forall_app. split.
    + eapply Forall_impl; [exact He|]. intros e. by apply no_eph_announces.
    + eapply Forall_impl; [exact Hn|]. intros e Hq. apply Hq.
Qed.

Lemma kinv_receive ms rnd1 rnd2 msg p tr r p' tr' :
  rnormal p msg → kinv ms (p, tr) →
  r_ReceivedMessage rnd1 rnd2 msg (p, tr) = Ret (r, (p', tr')) → kinv (ms ++ [msg]) (p', tr').
Proof.
  intros Hn HI H. destruct (setupMessage msg) eqn:Hm.
  2:{ eapply (kinv_quiet _ _ (r_ReceivedMessage rnd1 rnd2 msg)); [| | |done..].
      - apply (relay_quiet (λ A m, keeps_proj setup m)); [done | by destruct msg].
      - apply (relay_quiet (λ A m, emits (sentBy dataSends) m) (SW := sends_quiet dataSends ltac:(done))); [done | by destruct msg].
      - apply (relay_quiet (λ A m, rests m)); [done | by destruct msg]. }
  assert (∀ m, m ∈ ms ++ [msg] ↔ m ∈ ms ∨ m = msg) as Hel by (intros; by rewrite elem_of_app, list_elem_of_singleton).
  pose proof (keys_weaken _ [msg] _ _ HI) as HI'. destruct HI' as [_ HT HC _ _]. cbn [fst snd] in *.
  destruct msg as [m| |m| | | | | | | | |m| |m|m| | | | | | | |]; try discriminate Hm; cbn [r_ReceivedMessage rnormal] in H, Hn.
  - destruct (ForceParams m).
    + destruct Hn as [|Hb]; [done|]. by eapply kinv_parameters.
    + apply r_guarded_inv in H as [[-> ->]|[Hb H]]; [by apply keys_weaken | by eapply kinv_parameters].
  - apply r_guarded_inv in H as [[-> ->]|[Hb H]]; [by apply keys_weaken|].
    apply (tell_pk_eph_effect (ms ++ [MTellPkEph m])) in H as (Ha & Ht & Hc & Hs & new & -> & Hnew); [|done|set_solver].
    apply (kinv_setup _ _ p); try done; try congruence; [destruct Hs; congruence | by rewrite Ht].
  - apply r_guarded_inv in H as [[-> ->]|[Hb H]]; [by apply keys_weaken|]. by eapply kinv_shuffle_sig.
  - apply r_guarded_inv in H as [[-> ->]|[Hb H]]; [by apply keys_weaken|].
    apply (new_base_effect (ms ++ [MNewBase m])) in H as (Hse & Hs & new & -> & Hnew); [|done].
    apply setup_inv in Hse as (Ha & Ht & Hc).
    apply (kinv_setup _ _ p); try done; try congruence; [destruct Hs; congruence | by rewrite Ht | by rewrite Hc].
  - apply r_guarded_inv in H as [[-> ->]|[Hb H]]; [by apply keys_weaken|].
    apply (tell_pk_effect (ms ++ [MTellPk m])) in H as (Ha & Hc & Ht & Hs & new & -> & Hnew); [|done|set_solver].
    apply (kinv_setup _ _ p); try done; try congruence; [destruct Hs; congruence | by rewrite Hc].
Qed.

Lemma kinv_labelled ms l w w' : rlabelled l w w' → kinv ms w → kinv (ms ++ l) w'.
Proof.
  intros [rnd1 rnd2 msg p tr r [p' tr'] _ Hn H|round p tr [p' tr'] _ H|data p tr] HI.
  - by eapply kinv_receive.
  - eapply (kinv_quiet _ _ (checkIfRoundHasEndedAfterTimeOut_Phase1 round)); [| | |done..].
    + exact (step_timeout (λ A m, keeps_proj setup m) round).
    + apply (step_timeout (λ A m, emits (sentBy dataSends) m) (SW := sends_quiet dataSends ltac:(done))).
    + exact (step_timeout (λ A m, rests m) round).
  - rewrite <- (app_nil_r tr). apply (kinv_grows ms [] p); [done|by split|by left| | |constructor|done];
      rewrite app_nil_r; apply HI.
Qed.

(** The invariant of all runs of a relay *)
Lemma kinv_run sk t out data p ms w : NewRelay sk t out data = Ret p → rrun (p, []) ms w → kinv ms w.
Proof.
  intros E H. induction H as [|ms w l w' _ IH Hs]; [|by eapply kinv_labelled].
  unfold NewRelay in E. destruct (NewKeyPair sk) as [pk x]. cbn in E. injection E as <-.
  split; cbn; [done|by intros k node ? Hk..|constructor|left; constructor].
Qed.

End relay_keys.
