(* ===== verification/RelayBlame.v ===== *)
(** * The disruption protection of the relay

    Phase 1 compares revealed bits with the stored ciphertexts of the blamed
    round; phase 2 replays the pads of a revealed secret.  The replay agrees
    with what an honest party revealed; the comparison finds no ciphertext,
    because closing a round deletes them, unless a late cell of the round was
    stored again. *)

From S2P Require Import Prelude Bytes Crypto DCNetCipher Equivocation DCNet DCNetRound DCNetSession.
From S2P Require Import BitMask Messages StateMachine Measurements Statistics RoundManager.
From S2P Require Import NeffShuffle Network HandlerLogic Trustee Relay RelayStates RelaySpec RelayDelivery RelayOrigin.

Open Scope Z_scope.

Section blame.
Context {CS : CryptoSuite} `{!Network CS} `{!Clock CS} `{!ProofSystem CS} {CL : CryptoLaws CS}.

(** ** Replaying the pads of a revealed secret *)

(** The bit at [pos] of a pad, read the way the relay reads it *)
Definition pad_bit (pos : Z) (pad : bytes) : go Z :=
  b ← index pad (Z.quot pos 8 + 1); Ret (if Z.land b (bitMask pos) =? 0 then 0 else 1).

Lemma replayRounds_pad (s : RelayState CS) d key :
  r_DCNet s = Some d → is_Some key →
  replayRounds s key = pad_bit (bd_BitPos (r_blamingData s))
    (pad_at (DCNetPayloadSize d) (Z.to_nat (bd_RoundID (r_blamingData s))) key).
Proof.
  intros Hd [k ->]. unfold replayRounds, theDCNet, seedPRNG. rewrite Hd. cbn [mbind go_bind].
  destruct (point_marshal_ret "Could not extract data from shared key" k) as (bs & Es & E).
  rewrite Es. cbn [mbind go_bind]. unfold pad_at, prng_at, xof_of. cbn [mbind option_bind].
  rewrite E. cbn [default from_option id].
  by destruct (readPad (DCNetPayloadSize d) _) as [pad rest].
Qed.

Lemma mapM_go_lookup {X Y} (f : X → go Y) l ys i x :
  mapM f l = Ret ys → l !! i = Some x → ∃ y, ys !! i = Some y ∧ f x = Ret y.
Proof.
  intros H Hx. apply mapM_go_Forall2 in H. exact (Forall2_lookup_l _ _ _ _ _ H Hx).
Qed.

(** What an entity without equivocation protection reveals of a secret is what
    the relay reads in the replayed pad. *)
Lemma GetBitsOfRound_pad_bit e r pos bits pads e' k key :
  synced e → EquivocationProtectionEnabled e = false → 0 ≤ r < DCNet.currentRound e →
  GetBitsOfRound e r pos = Ret (Some (bits, pads), e') → sharedKeys e !! k = Some key →
  ∃ bit, bits !! k = Some bit ∧ pad_bit pos (pad_at (DCNetPayloadSize e) (Z.to_nat r) key) = Ret bit.
Proof.
  intros He Heq Hr HG Hk. rewrite GetBitsOfRound_run in HG by done. rewrite Heq in HG.
  destruct (mapM _ _) as [bs|] eqn:E; [|done]. cbn [mbind go_bind] in HG. injection HG as -> _ _.
  rewrite mapM_go_fmap in E. by apply (mapM_go_lookup _ _ _ _ _ E) in Hk.
Qed.

(** Phase 2 of the blame is fair without equivocation protection: when a
    trustee that revealed its bits of a past round is asked for the secret of
    the mismatching pair and sends it, the relay accepts the trustee exactly if
    the bit it had revealed is the one its pads give; otherwise it names the
    trustee as the disruptor and exits. *)
Theorem honest_secret_accepted e d r pos bits pads e' k key (msg : TRU_REL_SHARED_SECRET CS) p tr :
  synced e → EquivocationProtectionEnabled e = false → 0 ≤ r < DCNet.currentRound e →
  GetBitsOfRound e r pos = Ret (Some (bits, pads), e') → sharedKeys e !! k = Some key →
  let s := relayState p in
  r_DCNet s = Some d → DCNetPayloadSize d = DCNetPayloadSize e →
  bd_RoundID (r_blamingData s) = r → bd_BitPos (r_blamingData s) = pos →
  ts_Secret msg = key → 0 ≤ ts_TrusteeID msg < len (r_trustees s) →
  ∃ bit, bits !! k = Some bit ∧
  Received_TRU_REL_SHARED_SECRETS msg (p, tr) =
    if bit =? bd_TrusteeBitRevealed (r_blamingData s) then Ret (Ok tt, (p, tr))
    else Crash (Fatal "Disruption Phase 2: Disruptor is Trustee").
Proof.
  intros He Heq Hr HG Hk s Hd Hsz Hrd Hpos Hsec Hid.
  destruct (GetBitsOfRound_pad_bit _ _ _ _ _ _ _ _ He Heq Hr HG Hk) as (bit & Hb & Hpad).
  exists bit. split; [done|]. unfold Received_TRU_REL_SHARED_SECRETS, checkSecret.
  assert (is_Some key) as Hkey.
  { pose proof (synced_keys _ He) as HF. rewrite Forall_lookup in HF. by eapply HF. }
  destruct (lookup_lt_is_Some_2 (r_trustees s) (Z.to_nat (ts_TrusteeID msg))) as [node Hnode];
    [unfold len in Hid; lia|].
  rewrite !run_bind. unfold getR. rewrite !run_bind. cbn [get fst snd mret handler_ret]. fold s.
  rewrite run_bind, run_lift, (index_lookup _ _ node) by (done || lia).
  rewrite run_lift, Hsec, (replayRounds_pad s d key Hd Hkey), Hsz, Hrd, Hpos, Hpad.
  rewrite !run_bind. cbn [get fst snd mret handler_ret]. fold s. by destruct (bit =? _).
Qed.

(** ** Blaming a round that was closed *)

(** A handler after which no ciphertext of round [r] is stored if none was before *)
Definition keeps_forgotten (r : Z) {A} (m : handler (PriFiLibRelayInstance CS) A) : Prop :=
  ∀ p tr a p' tr', m (p, tr) = Ret (a, (p', tr')) → ¬ stored p r → ¬ stored p' r.

Lemma keeps_forgotten_bind r {A B} (m : handler (PriFiLibRelayInstance CS) A) (f : A → handler _ B) :
  keeps_forgotten r m → (∀ a, keeps_forgotten r (f a)) → keeps_forgotten r (m ≫= f).
Proof.
  intros Hm Hf p tr b p' tr' H Hp. apply handler_bind_inv in H as (a & [p1 tr1] & E & H).
  by eapply Hf, Hm.
Qed.

Lemma keeps_forgotten_modify r f :
  (∀ p : PriFiLibRelayInstance CS, stored (f p) r → stored p r) → keeps_forgotten r (modify f).
Proof. intros Hf p tr a p' tr' [= _ <- _] Hp Hs. by apply Hp, Hf. Qed.

Lemma keeps_forgotten_same r {A} (m : handler (PriFiLibRelayInstance CS) A) :
  keeps_proj relayState m → keeps_forgotten r m.
Proof. intros Hm p tr a p' tr' H%Hm Hp Hs. apply Hp. unfold stored in *. by rewrite <- H. Qed.

Lemma remember_other history id k data i r :
  k ≠ r → is_Some (bufferOf (remember history id k data) i !! r) → is_Some (bufferOf history i !! r).
Proof.
  intros Hne. unfold remember. destruct (decide (i32 id = i)) as [<-|Hi].
  - unfold bufferOf at 1. rewrite lookup_insert_eq. cbn. by rewrite lookup_insert_ne.
  - unfold bufferOf at 1. by rewrite lookup_insert_ne.
Qed.

(** Whatever a handler does, it stores ciphertexts of the rounds of the cells it is
    given, and of no other. *)
#[export] Instance forgotten_quiet r : Quiet (λ k, k ≠ r) (λ A m, keeps_forgotten r m).
Proof.
  assert (∀ x, keeps_forgotten r (r_ChangeState x)) as Hchange.
  { intros x. apply keeps_forgotten_same. unfold r_ChangeState. solve_keeps. }
  split; intros.
  - apply keeps_forgotten_same, keeps_ret.
  - by apply keeps_forgotten_bind.
  - apply keeps_forgotten_same, keeps_lift.
  - apply keeps_forgotten_same, keeps_get.
  - apply keeps_forgotten_same, keeps_now.
  - apply keeps_forgotten_modify. intros p. apply H.
  - apply keeps_forgotten_modify. intros p [i [Hs|Hs]]; exists i; [left | by right].
    exact (remember_other _ _ _ _ _ _ H Hs).
  - apply keeps_forgotten_modify. intros p [i [Hs|Hs]]; exists i; [by left | right].
    exact (remember_other _ _ _ _ _ _ H Hs).
  - apply Hchange.
  - apply keeps_forgotten_same, keeps_emit.
  - apply keeps_forgotten_same, keeps_send.
  - unfold startPhase2, getR, setR. intros p tr a p' tr' H Hp. h_run H. destruct (_ && _); [|by h_run H].
    destruct (checkMismatchingPairs _) as [mm s1] eqn:Es. h_run H. destruct mm; [|by h_run H]. h_run H.
    unfold SendToTrusteeWithLog, SendToClientWithLog in *.
    repeat match goal with E : sendToWithLog _ _ _ = Ret _ |- _ => apply (keeps_send relayState) in E end.
    intros Hs. apply Hp. unfold stored in *. revert Hs. rewrite E0, E. cbn. unfold checkMismatchingPairs in Es.
    destruct (mismatches _ _) as [|[[] []]]; [discriminate Es|]. injection Es as <-. done.
Qed.
#[export] Instance forgotten_stepwise r : Stepwise (λ k, k ≠ r) (λ A m, keeps_forgotten r m).
Proof.
  split; intros; [apply forgotten_quiet | | |].
  - apply keeps_forgotten_modify. intros p. apply H.
  - apply keeps_forgotten_same. unfold r_ChangeState. solve_keeps.
  - apply keeps_forgotten_same, keeps_send.
Qed.

(** As long as no cell of round [r] arrives, its ciphertexts stay forgotten. *)
Lemma run_forgotten r w ms w' :
  rrun w ms w' → Forall (brings (λ k, k ≠ r)) ms → ¬ stored w.1 r → ¬ stored w'.1 r.
Proof.
  intros H Hms Hw. induction H as [|ms w1 l w2 Hrun IH Hl]; [done|].
  apply Forall_app in Hms as [Hms Hb]. specialize (IH Hms). revert IH.
  destruct Hl as [rnd1 rnd2 msg p tr res [p' tr'] _ _ E|round p tr [p' tr'] _ E|data p tr]; cbn [fst]; intros IH; [| |done].
  - rewrite Forall_singleton in Hb.
    by eapply (relay_stepwise (λ A m, keeps_forgotten r m) rnd1 rnd2 msg Hb).
  - by eapply (step_timeout (λ A m, keeps_forgotten r m) round).
Qed.

(** Closing a round deletes its ciphertexts. *)
Lemma deleted_forgotten (p : PriFiLibRelayInstance CS) r :
  ¬ stored (p <| relayState := (relayState p)
    <| r_CiphertextsHistoryTrustees := delete r <$> r_CiphertextsHistoryTrustees (relayState p) |>
    <| r_CiphertextsHistoryClients := delete r <$> r_CiphertextsHistoryClients (relayState p) |> |>) r.
Proof. intros [id H]. cbn in H. rewrite !bufferOf_delete, !lookup_delete_eq in H. by destruct H as [[? ?]|[? ?]]. Qed.

Lemma finalize_forgets r p tr res p' tr' :
  upstreamPhase3_finalizeRound r (p, tr) = Ret (res, (p', tr')) → ¬ stored p' r.
Proof.
  intros H. unfold upstreamPhase3_finalizeRound in H. do 5 (apply handler_bind_inv in H as (? & [? ?] & _ & H)).
  destruct (CloseRound _) as [[rs evs] b]. do 2 (apply handler_bind_inv in H as (? & [? ?] & _ & H)).
  apply handler_bind_inv in H as (u & [q0 t0] & E & H). unfold setR in E. injection E as _ <- _.
  match type of H with _ (?q, _) = _ => assert (¬ stored q r) as Hq; [|generalize dependent q] end.
  { intros Hs. eapply deleted_forgotten. exact Hs. }
  intros q H Hq. destruct (RoundManager.currentRound b) as [roundOpened next].
  apply handler_bind_inv in H as (? & [q' ?] & E & H). h_run H.
  destruct roundOpened; [|by h_run E]. unfold setR in E. by h_run E.
Qed.

Lemma process_forgets fin r p tr p' tr' :
  CurrentRound (r_roundManager (relayState p)) = Ret r →
  upstreamPhase1_processCiphers fin (p, tr) = Ret (tt, (p', tr')) → ¬ stored p' r.
Proof.
  intros Hr H. unfold upstreamPhase1_processCiphers in H.
  apply handler_bind_inv in H as (d & [p1 tr1] & E1 & H). apply handler_bind_inv in H as (u & [p2 tr2] & E2 & H).
  assert (r_roundManager (relayState p2) = r_roundManager (relayState p)) as Hrm.
  { transitivity (r_roundManager (relayState p1)).
    - revert E2. generalize (if fin then "waiting-on-trustees" else "waiting-on-clients"). intros x E2.
      unfold addTime, getR, setR in E2. h_run E2. destruct (_ !! x); by h_run E2.
    - unfold stopMeasure in E1. h_run E1. destruct (StopMeasure _ _ _). by h_run E1. }
  apply handler_bind_inv in H as (s & [p3 tr3] & E & H). unfold getR in E. h_run E.
  apply handler_bind_inv in H as (r' & [p4 tr4] & E & H). rewrite run_lift, Hrm, Hr in E. injection E as <- <- <-.
  apply handler_bind_inv in H as (? & [p5 tr5] & _ & H).
  apply handler_bind_inv in H as (? & [p6 tr6] & E & H). apply finalize_forgets in E.
  apply handler_bind_inv in H as (? & [p7 tr7] & E' & H). unfold getR in E'. h_run E'.
  apply handler_bind_inv in H as (? & [p8 tr8] & E' & H).
  assert (p8 = p6) as -> by (destruct (0 <? _); by h_run E').
  by eapply (step_send_many (λ A m, keeps_forgotten r m)).
Qed.

Lemma compareBits_forgotten p id bits history :
  let s := relayState p in
  ¬ stored p (bd_RoundID (r_blamingData s)) →
  history = r_CiphertextsHistoryClients s ∨ history = r_CiphertextsHistoryTrustees s →
  compareBits s id bits history = Crash RuntimeError.
Proof.
  intros s Hp Hh. unfold compareBits.
  destruct (bufferOf history (i32 id) !! bd_RoundID (r_blamingData s)) as [c|] eqn:E.
  - exfalso. apply Hp. exists (i32 id). destruct Hh as [-> | ->]; [left | right]; by exists c.
  - cbn. unfold index. by destruct (_ <? 0).
Qed.

(** C34: Processing a complete round closes it and deletes its stored
    ciphertexts.  Unless another cell of that round arrives afterwards, they stay
    deleted, whatever else happens; so if the round is blamed then, a client or a
    trustee that reveals its bits with a proof that verifies makes the relay panic
    with an index out of range instead of being compared.  (The relay stores a late
    cell of a closed round like any other; then its sender can be compared.) *)
Theorem reveal_of_closed_round_panics fin r p tr p1 tr1 ms p2 tr2 :
  CurrentRound (r_roundManager (relayState p)) = Ret r →
  upstreamPhase1_processCiphers fin (p, tr) = Ret (tt, (p1, tr1)) →
  rrun (p1, tr1) ms (p2, tr2) → Forall (brings (λ k, k ≠ r)) ms →
  bd_RoundID (r_blamingData (relayState p2)) = r →
  let pred := revealPredicate (r_nTrustees (relayState p2)) in
  (∀ msg, HashVerify "DISRUPTION" pred (cr_Pval msg) (cr_NIZK msg) = true →
     Received_CLI_REL_DISRUPTION_REVEAL msg (p2, tr2) = Crash RuntimeError)
  ∧ (∀ msg, HashVerify "DISRUPTION" pred (tr_Pval msg) (tr_NIZK msg) = true →
     Received_TRU_REL_DISRUPTION_REVEAL msg (p2, tr2) = Crash RuntimeError).
Proof.
  intros Hc E Hrun Hms Hr pred. apply process_forgets with (r := r) in E; [|done].
  pose proof (run_forgotten r _ _ _ Hrun Hms E) as Hno. cbn [fst] in Hno. rewrite <- Hr in Hno. split; intros msg Hv.
  - unfold Received_CLI_REL_DISRUPTION_REVEAL. rewrite run_bind. unfold getR. rewrite run_bind.
    cbn [get fst snd mret handler_ret]. fold pred. rewrite Hv. cbn [negb].
    rewrite run_bind. unfold setR, modify. cbn [fst snd]. rewrite run_bind, run_lift.
    by rewrite compareBits_forgotten by (done || by left).
  - unfold Received_TRU_REL_DISRUPTION_REVEAL. rewrite run_bind. unfold getR. rewrite run_bind.
    cbn [get fst snd mret handler_ret]. fold pred. rewrite Hv. cbn [negb].
    rewrite run_bind. unfold setR, modify. cbn [fst snd]. rewrite run_bind, run_lift.
    by rewrite compareBits_forgotten by (done || by right).
Qed.
End blame.

(** ** Concrete blames *)

Module BlameDemo.
Import ToySuite RelayDemo DeliveryDemo.
#[local] Existing Instances suite laws.

(** a trustee at round 5 that is asked about bit 11 of round 2 *)
Definition trustee : DCNetEntity suite := at_round (Demo.entity DCNET_TRUSTEE 8 false) 5.
Definition revealed : Z :=
  match GetBitsOfRound trustee 2 11 with Ret (Some (b :: _, _), _) => b | _ => 7 end.
Definition blamed : PriFiLibRelayInstance suite :=
  dummy <| relayState := (relayState dummy) <| r_DCNet := Some (Demo.entity DCNET_RELAY 8 false) |>
    <| r_trustees := [noNode] |> <| r_blamingData := mkBlaming 2 11 0 0 0 revealed |> |>.
Definition secret : TRU_REL_SHARED_SECRET suite := @mkTrusteeSecret suite 0 0 Demo.key [] ∅.

Lemma honest_secret_accepted_witness :
  Received_TRU_REL_SHARED_SECRETS secret (blamed, []) = Ret (Ok tt, (blamed, [])).
Proof.
  assert (synced trustee) as Hs by (by apply synced_at_round; [apply Demo.entity_synced|]).
  assert (match GetBitsOfRound trustee 2 11 with
    | Ret (Some (bits, _), _) => bool_decide (bits = [revealed]) | _ => false end = true) as H
    by (vm_compute; reflexivity).
  destruct (GetBitsOfRound trustee 2 11) as [[[[bits pads]|] e']|] eqn:E; try discriminate H.
  apply bool_decide_eq_true in H. subst bits.
  destruct (honest_secret_accepted trustee (Demo.entity DCNET_RELAY 8 false) 2 11 [revealed] pads e' 0
    Demo.key secret blamed [] Hs) as (bit & Hb & ->).
  - reflexivity.
  - split; [discriminate | reflexivity].
  - exact E.
  - reflexivity.
  - reflexivity.
  - reflexivity.
  - reflexivity.
  - reflexivity.
  - reflexivity.
  - split; [discriminate | reflexivity].
  - change (Some revealed = Some bit) in Hb. apply (inj Some) in Hb. rewrite <- Hb.
    change (bd_TrusteeBitRevealed (r_blamingData (relayState blamed))) with revealed.
    rewrite Z.eqb_refl. reflexivity.
Defined.

Definition reveal : CLI_REL_DISRUPTION_REVEAL suite := @mkClientReveal suite 0 None [] ∅.

(** the relay when the last cell of round 0 is buffered, after it processed the
    round, and after a client blamed bit 3 of round 0 *)
Definition wL : world :=
  (wE.1 <| relayState := (relayState wE.1)
     <| r_CiphertextsHistoryClients := remember (r_CiphertextsHistoryClients (relayState wE.1)) 1 0 (Some (cellOfClient 1)) |>
     <| r_roundManager := bE |> |>, wE.2).
Definition wP : world := match upstreamPhase1_processCiphers true wL with Ret (_, w) => w | Crash _ => wL end.
Definition blame : message suite := MBlame (@mkBlame suite 0 [] 3 ∅).
Definition wB : world := receive blame wP.

Lemma reveal_of_closed_round_panics_witness :
  stored wL.1 0 ∧ bd_RoundID (r_blamingData (relayState wB.1)) = 0
  ∧ Received_CLI_REL_DISRUPTION_REVEAL reveal (wB.1, wB.2) = Crash RuntimeError.
Proof.
  split; [exists 1; left; vm_compute; by eexists|].
  assert (upstreamPhase1_processCiphers true (wL.1, wL.2) = Ret (tt, (wP.1, wP.2))) as E.
  { rewrite <- !surjective_pairing. assert (returns (upstreamPhase1_processCiphers true wL) = true) as H
      by (vm_compute; reflexivity). unfold wP. by destruct (upstreamPhase1_processCiphers true wL) as [[[] w]|]. }
  assert (rrun (wP.1, wP.2) [blame] (wB.1, wB.2)) as Hrun.
  { rewrite <- !surjective_pairing. apply (rrun_snoc _ [] wP [blame]); [constructor|].
    apply relay_receive_step; [vm_compute; reflexivity | exact I | vm_compute; reflexivity]. }
  assert (bd_RoundID (r_blamingData (relayState wB.1)) = 0) as Hr by (vm_compute; reflexivity).
  split; [exact Hr|].
  assert (CurrentRound (r_roundManager (relayState wL.1)) = Ret 0) as Hc by (vm_compute; reflexivity).
  destruct (reveal_of_closed_round_panics true 0 wL.1 wL.2 wP.1 wP.2 [blame] wB.1 wB.2 Hc E Hrun) as [H _].
  - apply Forall_singleton. exact I.
  - exact Hr.
  - apply H. reflexivity.
Defined.

(** A late cell of the closed round is stored again. *)
Lemma late_cell_stored : ¬ stored wP.1 0 ∧ stored (receive last wP).1 0.
Proof.
  split.
  - assert (CurrentRound (r_roundManager (relayState wL.1)) = Ret 0) as Hc by (vm_compute; reflexivity).
    assert (returns (upstreamPhase1_processCiphers true wL) = true) as H by (vm_compute; reflexivity).
    unfold wP. destruct (upstreamPhase1_processCiphers true wL) as [[[] [p' tr']]|] eqn:E; [|done].
    rewrite (surjective_pairing wL) in E. by eapply process_forgets.
  - exists 1. left. vm_compute. by eexists.
Qed.
End BlameDemo.
