(* ===== verification/Multiplexer.v ===== *)
(** * The stream multiplexer (stream-multiplexer/ingress.go, egress.go)

    TCP connections of a client's applications are cut into frames (a 4-byte
    stream ID, a 4-byte length, the data), the frames are the payloads of DC-net
    cells, and the relay's egress server rebuilds one outgoing connection per
    stream ID.  The answers travel back the same way.

    Sockets are outside the program: what a dial or a write answers is a
    function of everything observed before ([Sockets]); what an accept or a read
    returns is an input of the step.  A loop of the code is modelled by its body,
    one iteration per step.  Log output (the verbose mode) is left out. *)

From S2P Require Import Prelude Bytes.

Open Scope Z_scope.

(** const MULTIPLEXER_HEADER_SIZE *)
Definition MULTIPLEXER_HEADER_SIZE : Z := 8.

(** ** Sockets *)

(** What the outside world observes; a socket is named by a handle. *)
Inductive sockEvent :=
| Dialled (h : Z)
| DialFailed
| Wrote (h : Z) (data : bytes) (n : Z)   (* conn.Write accepted n bytes of data *)
| Closed (h : Z)
| ReaderStarted (h : Z)
| ListenerClosed.

Class Sockets := {
  sock_Dial : list sockEvent → option Z;
  sock_Write : list sockEvent → Z → bytes → Z * bool   (* n, err != nil *)
}.

(** What conn.Read and listener.Accept return. *)
Inductive readResult := ReadTimeout | ReadEOF | ReadError | ReadData (data : bytes).
Inductive acceptResult := AcceptTimeout | AcceptError | Accepted (h : Z).

(** A method call on a nil connection is a nil dereference. *)
Definition deref (conn : option Z) : go Z :=
  match conn with Some h => Ret h | None => Crash RuntimeError end.

(** ** Connections *)

(** type MultiplexedConnection; [mc_stop] tells whether the one-element buffer
    of stopChan is full. *)
Record MultiplexedConnection := mkConn {
  mc_ID : bytes;
  mc_ID_bytes : bytes;
  mc_conn : option Z;
  mc_stop : bool;
  mc_maxMessageLength : Z
}.
#[export] Instance eta_Conn : Eta MultiplexedConnection := λ r,
  mkConn (mc_ID r) (mc_ID_bytes r) (mc_conn r) (mc_stop r) (mc_maxMessageLength r).

(** [mc.stopChan <- true] *)
Definition sendStop (mc : MultiplexedConnection) : go MultiplexedConnection :=
  if mc_stop mc then Crash Blocks else Ret (mc <| mc_stop := true |>).

(** strconv.Itoa of a number that fits a uint32: its decimal digits in ASCII. *)
Fixpoint itoa_digits (fuel : nat) (n : Z) (acc : bytes) : bytes :=
  match fuel with
  | O => acc
  | S fuel => if n <? 10 then (48 + n) :: acc
              else itoa_digits fuel (n / 10) ((48 + n mod 10) :: acc)
  end.
Definition itoa (n : Z) : bytes := itoa_digits 10 n [].

(** func generateRandomID; [n] is the draw *)
Definition generateRandomID (n : Z) : bytes := itoa (u32 n).

(** What one iteration of a reader loop does. *)
Inductive readerStep :=
| ReaderClosed           (* a stop was received: the connection is closed *)
| ReaderContinues        (* a timeout *)
| ReaderReturns          (* end of file or an error *)
| ReaderSends (frame : bytes).

(** The frame of the [n] bytes read into [buffer]: the stream ID, the length,
    the data. *)
Definition makeFrame (mc : MultiplexedConnection) (buffer : bytes) (n : Z) : go bytes :=
  s ← make_bytes (n + MULTIPLEXER_HEADER_SIZE);
  s ← copy_into s 0 4 (mc_ID_bytes mc);
  s ← copy_into s 4 8 (put_u32 n);
  data ← slice buffer 0 n;
  copy_into s MULTIPLEXER_HEADER_SIZE (len s) data.

(** ** The ingress server *)

(** type IngressServer; the channels and the lock have no data of their own *)
Record IngressServer := mkIngress {
  ig_activeConnections : list MultiplexedConnection;
  ig_maxMessageSize : Z;
  ig_maxPayloadSize : Z
}.
#[export] Instance eta_Ingress : Eta IngressServer := λ r,
  mkIngress (ig_activeConnections r) (ig_maxMessageSize r) (ig_maxPayloadSize r).

Section sockets.
Context {SK : Sockets}.

(** func StartIngressServer, up to its loop *)
Definition newIngressServer (maxMessageSize : Z) : IngressServer :=
  mkIngress [] maxMessageSize (maxMessageSize - MULTIPLEXER_HEADER_SIZE).

(** A new connection of the ingress server.  [spare] is the capacity, beyond its
    length, that the runtime gives to the slice made from a string: re-slicing
    it to 4 bytes reaches into that capacity. *)
Definition ingressAccept (ig : IngressServer) (spare : nat) (draw : Z) (h : Z) : go IngressServer :=
  let id := generateRandomID draw in
  ID_bytes ← slice (id ++ zeros spare) 0 4;
  let mc := mkConn id ID_bytes (Some h) false (ig_maxMessageSize ig) in
  Ret (ig <| ig_activeConnections := ig_activeConnections ig ++ [mc] |>).

(** The loop of StartIngressServer, one iteration: [stopping] tells whether
    stopChan holds a value.  The boolean says whether the loop goes on. *)
Definition ingressLoop (ig : IngressServer) (tr : list sockEvent) (stopping : bool)
    (res : acceptResult) (spare : nat) (draw : Z)
    : go (IngressServer * list sockEvent * bool) :=
  if stopping then
    conns ← mapM sendStop (ig_activeConnections ig);
    Ret (ig <| ig_activeConnections := conns |>, tr ++ [ListenerClosed], false)
  else
    match res with
    | AcceptTimeout => Ret (ig, tr, true)
    | AcceptError => Ret (ig, tr ++ [ListenerClosed], false)
    | Accepted h =>
        ig ← ingressAccept ig spare draw h;
        Ret (ig, tr ++ [ReaderStarted h], true)
    end.

(** [v.conn.Write(data)] for the first connection that has this ID *)
Fixpoint writeToID (conns : list MultiplexedConnection) (tr : list sockEvent)
    (ID data : bytes) : go (list sockEvent) :=
  match conns with
  | [] => Ret tr
  | v :: conns =>
      if bool_decide (mc_ID_bytes v = ID) then
        h ← deref (mc_conn v);
        Ret (tr ++ [Wrote h data (sock_Write tr h data).1])
      else writeToID conns tr ID data
  end.

(** The loop of multiplexedChannelReader, one iteration *)
Definition multiplexedChannelReader (ig : IngressServer) (tr : list sockEvent) (cell : bytes)
    : go (list sockEvent) :=
  if len cell <? MULTIPLEXER_HEADER_SIZE then Ret tr
  else
    ID ← slice cell 0 4;
    l ← slice cell 4 MULTIPLEXER_HEADER_SIZE;
    let length := be_decode l in
    data ← slice_from cell MULTIPLEXER_HEADER_SIZE;
    data ← (if length <? len data then slice data 0 length else Ret data);
    writeToID (ig_activeConnections ig) tr ID data.

(** The loop of a connection reader, one iteration: a pending stop, then the
    outcome of the read into a buffer of [maxPayloadSize] bytes. *)
Definition readerLoop (maxPayloadSize : Z) (mc : MultiplexedConnection) (r : readResult)
    : go (readerStep * MultiplexedConnection) :=
  if mc_stop mc then Ret (ReaderClosed, mc <| mc_stop := false |>)
  else
    buffer ← make_bytes maxPayloadSize;
    match r with
    | ReadTimeout => Ret (ReaderContinues, mc)
    | ReadEOF | ReadError => Ret (ReaderReturns, mc)
    | ReadData data =>
        frame ← makeFrame mc (copy_bytes buffer data) (len data);
        Ret (ReaderSends frame, mc)
    end.

(** func ingressConnectionReader: what is sent goes to upstreamChan *)
Definition ingressConnectionReader (ig : IngressServer) (mc : MultiplexedConnection)
    (r : readResult) : go (readerStep * MultiplexedConnection) :=
  readerLoop (ig_maxPayloadSize ig) mc r.

(** ** The egress server *)

(** type EgressServer.  A connection is shared between the map and its reader,
    so the map holds references into [eg_heap], the connections made so far. *)
Record EgressServer := mkEgress {
  eg_heap : list MultiplexedConnection;
  eg_activeConnections : gmap bytes (option nat);
  eg_maxMessageSize : Z;
  eg_maxPayloadSize : Z
}.
#[export] Instance eta_Egress : Eta EgressServer := λ r,
  mkEgress (eg_heap r) (eg_activeConnections r) (eg_maxMessageSize r) (eg_maxPayloadSize r).

(** func StartEgressHandler, up to its loop *)
Definition newEgressServer (maxMessageSize : Z) : EgressServer :=
  mkEgress [] ∅ maxMessageSize (maxMessageSize - MULTIPLEXER_HEADER_SIZE).

(** The connection of a stream, if there is one: an entry of the map that is not
    nil, whose socket is not nil *)
Definition activeConnection (eg : EgressServer) (ID : bytes)
    : option (nat * MultiplexedConnection * Z) :=
  i ← mjoin (eg_activeConnections eg !! ID);
  mc ← eg_heap eg !! i;
  h ← mc_conn mc;
  Some (i, mc, h).

(** Dial the server if the stream has no connection yet; [None] when the dial
    fails and the data is discarded. *)
Definition egressConnect (eg : EgressServer) (tr : list sockEvent) (ID : bytes)
    : option EgressServer * list sockEvent :=
  match activeConnection eg ID with
  | Some _ => (Some eg, tr)
  | None =>
      match sock_Dial tr with
      | None => (None, tr ++ [DialFailed])
      | Some h =>
          let mc := mkConn ID ID (Some h) false (eg_maxMessageSize eg) in
          (Some (eg <| eg_heap := eg_heap eg ++ [mc] |>
                    <| eg_activeConnections :=
                         <[ID := Some (length (eg_heap eg))]> (eg_activeConnections eg) |>),
           tr ++ [Dialled h; ReaderStarted h])
      end
  end.

(** Write to the connection of the stream; if it fails, clean it. *)
Definition egressWrite (eg : EgressServer) (tr : list sockEvent) (ID data : bytes)
    : go (EgressServer * list sockEvent) :=
  match activeConnection eg ID with
  | None => Crash RuntimeError
  | Some (i, mc, h) =>
      let '(n, failed) := sock_Write tr h data in
      let tr := tr ++ [Wrote h data n] in
      if failed || negb (n =? len data) then
        mc ← sendStop mc;
        Ret (eg <| eg_heap := <[i := mc]> (eg_heap eg) |>
                <| eg_activeConnections := <[ID := None]> (eg_activeConnections eg) |>,
             tr ++ [Closed h])
      else Ret (eg, tr)
  end.

(** The loop of StartEgressHandler, one iteration: the cell read from
    upstreamChan *)
Definition egressLoop (eg : EgressServer) (tr : list sockEvent) (dataRead : bytes)
    : go (EgressServer * list sockEvent) :=
  if len dataRead <? 4 then Ret (eg, tr)
  else
    head ← slice dataRead 0 4;
    if bool_decide (head = zeros 4) then Ret (eg, tr)
    else if len dataRead <? MULTIPLEXER_HEADER_SIZE then Ret (eg, tr)
    else
      ID ← slice dataRead 0 4;
      l ← slice dataRead 4 8;
      let size := be_decode l in
      data ← slice_from dataRead 8;
      data ← (if size <? len data then slice data 0 size else Ret data);
      match egressConnect eg tr ID with
      | (None, tr) => Ret (eg, tr)
      | (Some eg, tr) => egressWrite eg tr ID data
      end.

(** func egressConnectionReader, one iteration, for the connection [i] of the
    heap: what is sent goes to downstreamChan *)
Definition egressConnectionReader (eg : EgressServer) (tr : list sockEvent) (i : nat)
    (r : readResult) : go (readerStep * EgressServer * list sockEvent) :=
  match eg_heap eg !! i with
  | None => Crash RuntimeError
  | Some mc =>
      '(out, mc) ← readerLoop (eg_maxPayloadSize eg) mc r;
      let eg := eg <| eg_heap := <[i := mc]> (eg_heap eg) |> in
      match out, mc_conn mc with
      | ReaderClosed, Some h => Ret (out, eg, tr ++ [Closed h])
      | _, _ => Ret (out, eg, tr)
      end
  end.

(** A sequence of cells *)
Fixpoint egressRun (eg : EgressServer) (tr : list sockEvent) (cells : list bytes)
    : go (EgressServer * list sockEvent) :=
  match cells with
  | [] => Ret (eg, tr)
  | c :: cells => '(eg, tr) ← egressLoop eg tr c; egressRun eg tr cells
  end.

Fixpoint ingressRun (ig : IngressServer) (tr : list sockEvent) (cells : list bytes)
    : go (list sockEvent) :=
  match cells with
  | [] => Ret tr
  | c :: cells => tr ← multiplexedChannelReader ig tr c; ingressRun ig tr cells
  end.
End sockets.
