(* ===== verification/MultiplexerSpec.v ===== *)
(** * Streams through the multiplexer and the DC-net

    What the egress server writes on the connection of a stream is exactly what
    the ingress servers read from the connections with that stream ID, in order,
    when the frames travel as payloads of DC-net rounds; the answers come back
    the same way; and which frames fit a cell. *)

From S2P Require Import Prelude Bytes Crypto DCNet DCNetRound DCNetSession Multiplexer.

Open Scope Z_scope.

(** The wire format of a frame. *)
Definition frame (ID data : bytes) : bytes := ID ++ put_u32 (len data) ++ data.

Lemma len_frame ID data : length ID = 4%nat → len (frame ID data) = len data + 8.
Proof. intros H. unfold frame. rewrite !len_app, len_be_encode. unfold len in *. lia. Qed.

(** ** Stream IDs *)

Lemma itoa_digits_range fuel n acc :
  0 ≤ n → Forall (λ b, 48 ≤ b < 58) acc → Forall (λ b, 48 ≤ b < 58) (itoa_digits fuel n acc).
Proof.
  revert n acc. induction fuel as [|fuel IH]; intros n acc Hn Hacc; [done|]. cbn [itoa_digits].
  destruct (Z.ltb_spec n 10).
  - constructor; [lia | done].
  - apply IH; [apply Z.div_pos; lia|]. constructor; [|done].
    pose proof (Z.mod_pos_bound n 10). lia.
Qed.

Lemma itoa_digits_length fuel n acc : (length acc ≤ length (itoa_digits fuel n acc))%nat.
Proof.
  revert n acc. induction fuel as [|fuel IH]; intros n acc; [done|]. cbn [itoa_digits].
  destruct (n <? 10); [simpl; lia|]. etrans; [|apply IH]. simpl. lia.
Qed.

Lemma itoa_head n : 0 ≤ n → ∃ b rest, itoa n = b :: rest ∧ 48 ≤ b < 58.
Proof.
  intros Hn. pose proof (itoa_digits_range 10 n [] Hn (Forall_nil_2 _)) as H.
  assert (1 ≤ length (itoa n))%nat as Hl.
  { unfold itoa. cbn [itoa_digits]. destruct (n <? 10); [simpl; lia|].
    etrans; [|apply (itoa_digits_length 9)]. simpl. lia. }
  fold (itoa n) in H. destruct (itoa n) as [|b rest]; [simpl in Hl; lia|].
  inversion_clear H. eauto.
Qed.

(** A stream ID has four bytes and is not the mark of an idle cell; the
    connection has a socket. *)
Definition labelled (mc : MultiplexedConnection) : Prop :=
  length (mc_ID_bytes mc) = 4%nat ∧ mc_ID_bytes mc ≠ zeros 4 ∧ is_Some (mc_conn mc).

(** ** Runs of an ingress server *)

Inductive ig_reach (max : Z) : IngressServer → Prop :=
| ig_start : ig_reach max (newIngressServer max)
| ig_loop ig tr stopping res spare draw ig' tr' more :
    ig_reach max ig → ingressLoop ig tr stopping res spare draw = Ret (ig', tr', more) →
    ig_reach max ig'.

Lemma ingressAccept_inv ig spare draw h ig' :
  ingressAccept ig spare draw h = Ret ig' →
  ∃ mc, ig' = ig <| ig_activeConnections := ig_activeConnections ig ++ [mc] |>
        ∧ labelled mc.
Proof.
  unfold ingressAccept. intros H. go_inv H. injection H as <-.
  eexists. split; [reflexivity|]. unfold labelled. cbn [mc_ID_bytes mc_conn].
  destruct (itoa_head (u32 draw)) as (b & rest & Hi & Hb); [by apply wrap_u_range|].
  unfold generateRandomID in E. rewrite Hi in E. unfold slice in E.
  destruct (_ || _) eqn:Hg in E; [done|]. injection E as <-.
  apply orb_false_iff in Hg as [_ Hl%Z.ltb_ge]. unfold len in Hl.
  split; [|split; [intros [= ? _]; lia | done]]. cbn [length app] in *. rewrite length_take. lia.
Qed.

Lemma sendStop_inv mc mc' :
  sendStop mc = Ret mc' → mc_ID_bytes mc' = mc_ID_bytes mc ∧ mc_conn mc' = mc_conn mc.
Proof. unfold sendStop. destruct (mc_stop mc); [done|]. by intros [= <-]. Qed.

Lemma ig_reach_inv max ig :
  ig_reach max ig →
  ig_maxPayloadSize ig = max - 8 ∧ Forall labelled (ig_activeConnections ig).
Proof.
  induction 1 as [|ig tr stopping res spare draw ig' tr' more _ [IHm IHa] E];
    [by split; [|constructor]|].
  unfold ingressLoop in E. destruct stopping.
  - go_inv E. injection E as <- _ _. split; [done|]. cbn.
    apply mapM_go_Forall2 in E0. revert IHa. clear -E0.
    induction E0 as [|mc mc' l l' Hs _ IH]; [done|]. intros Ha.
    inversion_clear Ha as [|?? Hm Hr]. constructor; [|auto].
    unfold labelled. destruct (sendStop_inv _ _ Hs) as [-> ->]. done.
  - destruct res as [| |h].
    + by injection E as <- _ _.
    + by injection E as <- _ _.
    + go_inv E. injection E as <- _ _.
      apply ingressAccept_inv in E0 as (mc & -> & Hl). split; [done|]. cbn.
      apply Forall_app. split; [done | by apply Forall_singleton].
Qed.

(** ** Frames *)

Lemma makeFrame_ok mc buffer data :
  length (mc_ID_bytes mc) = 4%nat → (length data ≤ length buffer)%nat →
  makeFrame mc (copy_bytes buffer data) (len data) = Ret (frame (mc_ID_bytes mc) data).
Proof.
  intros HID Hb. unfold makeFrame, MULTIPLEXER_HEADER_SIZE.
  rewrite make_bytes_ret by (unfold len; lia). cbn [mbind go_bind].
  replace (zeros (Z.to_nat (len data + 8)))
    with ([] ++ zeros 4 ++ (zeros 4 ++ zeros (length data)))
    by (rewrite app_nil_l; unfold zeros; rewrite <- !replicate_add; f_equal; unfold len; lia).
  rewrite copy_into_mid by (try rewrite len_zeros; try rewrite length_zeros; done).
  cbn [mbind go_bind]. rewrite app_nil_l.
  rewrite copy_into_mid
    by (try rewrite len_zeros; try rewrite length_zeros; try rewrite length_be_encode;
        unfold len; rewrite ?HID; done).
  cbn [mbind go_bind].
  rewrite copy_bytes_short by done. rewrite slice_app_l by done. cbn [mbind go_bind].
  rewrite <- (app_nil_r (zeros (length data))), 2!(assoc_L (++)) at 1.
  rewrite <- (assoc_L (++) (mc_ID_bytes mc ++ _)).
  rewrite copy_into_mid.
  - rewrite app_nil_r. unfold frame. by rewrite (assoc_L (++)).
  - rewrite len_app, len_be_encode. unfold len. rewrite HID. done.
  - rewrite !len_app, len_be_encode, len_zeros. unfold len. simpl. lia.
  - by rewrite length_zeros.
Qed.

(** What a reader sends for the bytes it reads. *)
Lemma readerLoop_data max mc data :
  mc_stop mc = false → length (mc_ID_bytes mc) = 4%nat → len data ≤ max →
  readerLoop max mc (ReadData data) = Ret (ReaderSends (frame (mc_ID_bytes mc) data), mc).
Proof.
  intros Hs HID Hd. pose proof (len_nonneg data). unfold readerLoop. rewrite Hs.
  rewrite make_bytes_ret by lia. cbn [mbind go_bind].
  rewrite makeFrame_ok; [done..|]. rewrite length_zeros. unfold len in *. lia.
Qed.

(** Reading a frame back, whatever zeros the cell is padded with. *)
Lemma frame_fields ID data k :
  length ID = 4%nat → len data < 2 ^ 32 →
  slice (frame ID data ++ zeros k) 0 4 = Ret ID
  ∧ slice (frame ID data ++ zeros k) 4 8 = Ret (put_u32 (len data))
  ∧ slice_from (frame ID data ++ zeros k) 8 = Ret (data ++ zeros k)
  ∧ be_decode (put_u32 (len data)) = len data.
Proof.
  intros HID Hd. unfold frame. rewrite <- !(assoc_L (++)).
  assert (len ID = 4) as HI by (unfold len; lia). split_and!.
  - by apply slice_app_l.
  - apply slice_app_mid; rewrite ?len_be_encode; lia.
  - rewrite (assoc_L (++) ID). apply slice_from_app. rewrite len_app, len_be_encode. lia.
  - rewrite be_u32. apply wrap_u_small. pose proof (len_nonneg data). lia.
Qed.

Lemma frame_trim (data : bytes) k :
  (if len data <? len (data ++ zeros k) then slice (data ++ zeros k) 0 (len data)
   else Ret (data ++ zeros k)) = Ret data.
Proof.
  rewrite len_app, len_zeros. destruct (Z.ltb_spec (len data) (len data + Z.of_nat k)).
  - by apply slice_app_l.
  - replace k with 0%nat by lia. by rewrite app_nil_r.
Qed.

Lemma frame_long ID data k :
  length ID = 4%nat → 8 ≤ len (frame ID data ++ zeros k).
Proof. intros H. rewrite len_app, len_frame by done. pose proof (len_nonneg data). unfold len. lia. Qed.

(** ** The egress server on frames *)

Section egress.
Context {SK : Sockets}.

Lemma egressLoop_idle eg tr n : egressLoop eg tr (zeros n) = Ret (eg, tr).
Proof.
  unfold egressLoop. rewrite len_zeros. destruct (Z.ltb_spec (Z.of_nat n) 4); [done|].
  rewrite (slice_ret (zeros n) 0 4) by (rewrite ?len_zeros; lia). cbn [mbind go_bind].
  rewrite bool_decide_eq_true_2; [done|]. unfold zeros. rewrite drop_replicate, take_replicate.
  f_equal. lia.
Qed.

Lemma egressLoop_frame eg tr ID data k :
  length ID = 4%nat → ID ≠ zeros 4 → len data < 2 ^ 32 →
  egressLoop eg tr (frame ID data ++ zeros k) =
  match egressConnect eg tr ID with
  | (None, tr) => Ret (eg, tr)
  | (Some eg, tr) => egressWrite eg tr ID data
  end.
Proof.
  intros HID Hz Hd. unfold egressLoop, MULTIPLEXER_HEADER_SIZE.
  pose proof (frame_long ID data k HID) as Hl.
  rewrite (proj2 (Z.ltb_ge _ 4)) by lia.
  destruct (frame_fields ID data k HID Hd) as (E1 & E2 & E3 & E4).
  rewrite E1. cbn [mbind go_bind]. rewrite bool_decide_eq_false_2 by done.
  rewrite (proj2 (Z.ltb_ge _ 8)) by lia. cbn [mbind go_bind].
  rewrite E2. cbn [mbind go_bind]. rewrite E3. cbn [mbind go_bind]. rewrite E4.
  by rewrite frame_trim.
Qed.

(** A network on which dials and writes succeed, and no handle is given out
    twice. *)
Record reliable : Prop := {
  dial_fresh : ∀ tr, ∃ h, sock_Dial tr = Some h ∧ Dialled h ∉ tr;
  write_all : ∀ tr h data, sock_Write tr h data = (len data, false)
}.

(** The bytes a socket has received. *)
Definition wroteOn (h : Z) (e : sockEvent) : bytes :=
  match e with
  | Wrote h' data n => if bool_decide (h' = h) then take (Z.to_nat n) data else []
  | _ => []
  end.
Definition written (h : Z) (tr : list sockEvent) : bytes := tr ≫= wroteOn h.

(** The bytes delivered to the server on behalf of a stream. *)
Definition delivered (eg : EgressServer) (tr : list sockEvent) (ID : bytes) : bytes :=
  match activeConnection eg ID with Some (_, _, h) => written h tr | None => [] end.

(** Every connection made serves its stream, on a socket of its own. *)
Record eg_inv (eg : EgressServer) (tr : list sockEvent) : Prop := {
  inv_heap : ∀ i mc, eg_heap eg !! i = Some mc →
    eg_activeConnections eg !! mc_ID_bytes mc = Some (Some i)
    ∧ ∃ h, mc_conn mc = Some h ∧ Dialled h ∈ tr;
  inv_active : ∀ ID r, eg_activeConnections eg !! ID = Some r →
    ∃ i mc, r = Some i ∧ eg_heap eg !! i = Some mc ∧ mc_ID_bytes mc = ID;
  inv_socket : ∀ i j mc mc', eg_heap eg !! i = Some mc → eg_heap eg !! j = Some mc' →
    mc_conn mc = mc_conn mc' → i = j;
  inv_wrote : ∀ h data n, Wrote h data n ∈ tr → Dialled h ∈ tr
}.

Lemma eg_inv_new max : eg_inv (newEgressServer max) [].
Proof.
  split; cbn; [intros i mc H; by rewrite lookup_nil in H | intros ID r H; by rewrite lookup_empty in H
    | intros i j mc mc' H; by rewrite lookup_nil in H | by intros ??? ?%elem_of_nil].
Qed.

Lemma activeConnection_Some eg tr ID i mc h :
  eg_inv eg tr →
  activeConnection eg ID = Some (i, mc, h) ↔
  eg_heap eg !! i = Some mc ∧ mc_ID_bytes mc = ID ∧ mc_conn mc = Some h.
Proof.
  intros Hi. unfold activeConnection. split.
  - intros H. destruct (eg_activeConnections eg !! ID) as [r|] eqn:Ha; [|done].
    destruct (inv_active _ _ Hi _ _ Ha) as (i' & mc' & -> & Hh & HID). cbn in H.
    rewrite Hh in H. cbn in H. destruct (mc_conn mc') eqn:Hc; [|done]. cbn in H.
    injection H as -> -> ->. done.
  - intros (Hh & <- & Hc). destruct (inv_heap _ _ Hi _ _ Hh) as [-> _]. cbn. rewrite Hh. cbn.
    rewrite Hc. done.
Qed.

Lemma written_app h tr tr' : written h (tr ++ tr') = written h tr ++ written h tr'.
Proof. apply bind_app. Qed.

Lemma written_unopened eg tr h : eg_inv eg tr → Dialled h ∉ tr → written h tr = [].
Proof.
  intros Hi Hn. unfold written. pose proof (inv_wrote _ _ Hi h) as Hw.
  assert (∀ data n, Wrote h data n ∉ tr) as H by (intros ?? ?; eauto). clear -H.
  induction tr as [|e tr IH]; [done|]. rewrite bind_cons, IH by (intros ?? ?; set_solver).
  rewrite app_nil_r. destruct e; try done. cbn. case_bool_decide; [|done]. subst. set_solver.
Qed.

Lemma eg_inv_connect eg tr ID h :
  eg_inv eg tr → activeConnection eg ID = None → Dialled h ∉ tr →
  eg_inv (eg <| eg_heap := eg_heap eg ++ [mkConn ID ID (Some h) false (eg_maxMessageSize eg)] |>
             <| eg_activeConnections :=
                  <[ID := Some (length (eg_heap eg))]> (eg_activeConnections eg) |>)
         (tr ++ [Dialled h; ReaderStarted h]).
Proof.
  intros Hi Hnone Hh.
  assert (∀ i mc, eg_heap eg !! i = Some mc → mc_ID_bytes mc ≠ ID ∧ mc_conn mc ≠ Some h) as Hfresh.
  { intros i mc Hmc. destruct (inv_heap _ _ Hi i mc Hmc) as (_ & h' & Hc & Hd). split.
    - intros HID. rewrite (proj2 (activeConnection_Some eg tr ID i mc h' Hi)) in Hnone; done.
    - rewrite Hc. by intros [= ->]. }
  split; cbn.
  - intros i mc [Hmc|[Hi' Hmc]]%lookup_app_Some.
    + destruct (Hfresh i mc Hmc) as [HID _]. rewrite lookup_insert_ne by done.
      destruct (inv_heap _ _ Hi i mc Hmc) as (? & h' & ? & ?). split; [done|]. set_solver.
    + apply list_lookup_singleton_Some in Hmc as [Hl <-]. cbn. rewrite lookup_insert_eq.
      split; [do 2 f_equal; lia | set_solver].
  - intros ID' r [[<- <-]|[Hne Hr]]%lookup_insert_Some.
    + eexists _, _. split; [done|]. by rewrite lookup_app_r, Nat.sub_diag by lia.
    + destruct (inv_active _ _ Hi _ _ Hr) as (i & mc & -> & Hmc & HID). exists i, mc.
      by rewrite (lookup_app_l_Some _ _ _ _ Hmc).
  - intros i j mc mc' [H1|[H1 H1']]%lookup_app_Some [H2|[H2 H2']]%lookup_app_Some Hc.
    + by eapply inv_socket.
    + apply list_lookup_singleton_Some in H2' as [_ <-]. by destruct (Hfresh i mc H1).
    + apply list_lookup_singleton_Some in H1' as [_ <-]. by destruct (Hfresh j mc' H2).
    + apply list_lookup_singleton_Some in H1' as [? _], H2' as [? _]. lia.
  - intros h' data n Hw. apply elem_of_app in Hw as [Hw|Hw]; [|set_solver].
    apply elem_of_app. left. by eapply inv_wrote.
Qed.

(** The connection of a stream, dialled if needed, without loss for any stream. *)
Lemma egressConnect_ok eg tr ID :
  reliable → eg_inv eg tr →
  ∃ eg' tr' i mc h, egressConnect eg tr ID = (Some eg', tr') ∧ eg_inv eg' tr'
    ∧ activeConnection eg' ID = Some (i, mc, h)
    ∧ ∀ ID', delivered eg' tr' ID' = delivered eg tr ID'.
Proof.
  intros Hrel Hi. unfold egressConnect.
  destruct (activeConnection eg ID) as [[[i mc] h]|] eqn:Ha; [by exists eg, tr, i, mc, h|].
  destruct (dial_fresh Hrel tr) as (h & -> & Hh).
  pose proof (eg_inv_connect eg tr ID h Hi Ha Hh) as Hi'.
  set (mc := mkConn ID ID (Some h) false (eg_maxMessageSize eg)) in *.
  assert (activeConnection (eg <| eg_heap := eg_heap eg ++ [mc] |>
     <| eg_activeConnections := <[ID := Some (length (eg_heap eg))]> (eg_activeConnections eg) |>) ID
     = Some (length (eg_heap eg), mc, h)) as Ha'.
  { eapply activeConnection_Some; [exact Hi'|]. cbn.
    by rewrite lookup_app_r, Nat.sub_diag by lia. }
  eexists _, _, _, mc, h. split; [reflexivity|]. split; [done|]. split; [exact Ha'|].
  intros ID'. unfold delivered. destruct (decide (ID' = ID)) as [->|Hne].
  - rewrite Ha', Ha, written_app, (written_unopened eg tr h) by done. done.
  - destruct (activeConnection eg ID') as [[[j mc'] h']|] eqn:Hj.
    + rewrite (proj2 (activeConnection_Some _ _ ID' j mc' h' Hi')).
      * rewrite written_app. cbn. by rewrite app_nil_r.
      * apply (activeConnection_Some eg tr) in Hj as (Hl & ? & ?); [|done]. cbn.
        by rewrite (lookup_app_l_Some _ _ _ _ Hl).
    + destruct (activeConnection _ ID') as [[[j mc'] h']|] eqn:Hj' in |- *; [|done]. exfalso.
      apply (activeConnection_Some _ _ _ _ _ _ Hi') in Hj' as (Hl & HID & Hc). cbn in Hl.
      apply lookup_app_Some in Hl as [Hl|[_ Hl]].
      * by rewrite (proj2 (activeConnection_Some eg tr ID' j mc' h' Hi)) in Hj.
      * apply list_lookup_singleton_Some in Hl as [_ <-]. done.
Qed.

Lemma egressWrite_ok eg tr ID data i mc h :
  reliable → eg_inv eg tr → activeConnection eg ID = Some (i, mc, h) →
  ∃ tr', egressWrite eg tr ID data = Ret (eg, tr') ∧ eg_inv eg tr'
    ∧ ∀ ID', delivered eg tr' ID' = delivered eg tr ID' ++ if bool_decide (ID' = ID) then data else [].
Proof.
  intros Hrel Hi Ha. exists (tr ++ [Wrote h data (len data)]). unfold egressWrite.
  rewrite Ha, (write_all Hrel). rewrite Z.eqb_refl. split; [done|]. split.
  - destruct Hi as [H1 H2 H3 H4]. split; [|done..|].
    + intros j mc' Hj. destruct (H1 j mc' Hj) as (? & h' & ? & ?). set_solver.
    + intros h' data' n Hw. apply elem_of_app in Hw as [Hw|Hw].
      * apply elem_of_app. left. by eapply H4.
      * apply list_elem_of_singleton in Hw. injection Hw as -> -> ->. apply elem_of_app. left.
        apply (activeConnection_Some eg tr) in Ha as (Hl & _ & Hc); [|done].
        destruct (H1 _ _ Hl) as (_ & h' & Hc' & ?). congruence.
  - intros ID'. unfold delivered. case_bool_decide as HID.
    + subst ID'. rewrite Ha, written_app. f_equal. cbn. rewrite bool_decide_eq_true_2 by done.
      by rewrite to_nat_len, firstn_all, app_nil_r.
    + destruct (activeConnection eg ID') as [[[j mc'] h']|] eqn:Hj; [|done].
      rewrite written_app, app_nil_r. cbn. rewrite bool_decide_eq_false_2; [by rewrite !app_nil_r|].
      intros <-. apply HID. apply (activeConnection_Some eg tr) in Ha as (Ha & <- & Hc), Hj as (Hj & <- & Hc'); [|done..].
      assert (i = j) as <- by (eapply inv_socket; [done..|]; congruence). congruence.
Qed.

(** One frame reaches the connection of its stream and no other. *)
Lemma egress_step eg tr ID data k :
  reliable → eg_inv eg tr → length ID = 4%nat → ID ≠ zeros 4 → len data < 2 ^ 32 →
  ∃ eg' tr', egressLoop eg tr (frame ID data ++ zeros k) = Ret (eg', tr') ∧ eg_inv eg' tr'
    ∧ ∀ ID', delivered eg' tr' ID'
             = delivered eg tr ID' ++ if bool_decide (ID' = ID) then data else [].
Proof.
  intros Hrel Hi HID Hz Hd. rewrite egressLoop_frame by done.
  destruct (egressConnect_ok eg tr ID Hrel Hi) as (eg' & tr1 & i & mc & h & -> & Hi' & Ha & Hsame).
  destruct (egressWrite_ok eg' tr1 ID data i mc h Hrel Hi' Ha) as (tr' & -> & Hi2 & Hdel).
  exists eg', tr'. split; [done|]. split; [done|]. intros ID'. by rewrite Hdel, Hsame.
Qed.
End egress.

(** ** Streams over the DC-net *)

(** What a client puts into a slot it owns: the frame of bytes an ingress server
    reads from one of its connections, or nothing. *)
Definition slotRead : Type := option (IngressServer * MultiplexedConnection * bytes).

Definition upstreamPayload (r : slotRead) : go bytes :=
  match r with
  | None => Ret []
  | Some (ig, mc, data) =>
      '(step, _) ← ingressConnectionReader ig mc (ReadData data);
      match step with ReaderSends f => Ret f | _ => Ret [] end
  end.

Definition slotFrame (r : slotRead) : bytes :=
  match r with None => [] | Some (_, mc, data) => frame (mc_ID_bytes mc) data end.

(** The bytes read from connections with stream ID [ID]. *)
Definition readOn (ID : bytes) (r : slotRead) : bytes :=
  match r with
  | None => []
  | Some (_, mc, data) => if bool_decide (ID = mc_ID_bytes mc) then data else []
  end.

(** The connection is one of an ingress server for messages of [N] bytes, and
    the frame leaves room for what the DC-net adds. *)
Definition slotRead_ok (N : Z) (equiv : bool) (r : slotRead) : Prop :=
  match r with
  | None => True
  | Some (ig, mc, data) =>
      ig_reach N ig ∧ mc ∈ ig_activeConnections ig ∧ mc_stop mc = false
      ∧ len data + 8 + (if equiv then 16 else 0) ≤ N
  end.

Lemma reach_labelled N ig mc : ig_reach N ig → mc ∈ ig_activeConnections ig → labelled mc.
Proof. intros [_ H]%ig_reach_inv Hmc. by eapply (proj1 (Forall_forall _ _)). Qed.

Lemma upstreamPayload_ok N equiv r :
  slotRead_ok N equiv r → upstreamPayload r = Ret (slotFrame r).
Proof.
  destruct r as [[[ig mc] data]|]; [|done]. intros (Hr & Hmc & Hs & Hl).
  destruct (reach_labelled N ig mc Hr Hmc) as [HID _]. destruct (ig_reach_inv N ig Hr) as [Hm _].
  unfold upstreamPayload, ingressConnectionReader. rewrite Hm.
  rewrite readerLoop_data by (done || destruct equiv; lia). done.
Qed.

Section over_dcnet.
Context {SK : Sockets} {CS : CryptoSuite} {CL : CryptoLaws CS}.
Context (N : Z) (equiv : bool) (a t : list Scalar) (rnd : nat → bytes).

(** A round: its number, the owner of the slot, what is sent downstream. *)
Definition roundOf (slot : Z * nat * bytes) (payload : bytes) : roundInput :=
  mkRoundInput slot.1.1 slot.1.2 payload slot.2.

Lemma egressRun_cells size reads eg tr :
  reliable → N < 2 ^ 32 → eg_inv eg tr → Forall (slotRead_ok N equiv) reads →
  ∃ eg' tr', egressRun eg tr ((λ r, padPayload size (Some (slotFrame r))) <$> reads) = Ret (eg', tr')
    ∧ eg_inv eg' tr'
    ∧ ∀ ID, delivered eg' tr' ID = delivered eg tr ID ++ (reads ≫= readOn ID).
Proof.
  intros Hrel HN Hi Hreads. revert eg tr Hi.
  induction Hreads as [|r reads Hr _ IH]; intros eg tr Hi.
  { exists eg, tr. split; [done|]. split; [done|]. intros ID. by rewrite app_nil_r. }
  rewrite fmap_cons. cbn [egressRun]. destruct r as [[[ig mc] data]|]; unfold padPayload; cbn [default slotFrame].
  - destruct Hr as (Hrch & Hmc & _ & Hl). destruct (reach_labelled N ig mc Hrch Hmc) as (HID & Hz & _).
    edestruct (egress_step eg tr (mc_ID_bytes mc) data) as (eg1 & tr1 & E & Hi1 & Hd1);
      [done|done|done|done| destruct equiv; lia |].
    simpl. rewrite E. cbn [mbind go_bind]. destruct (IH eg1 tr1 Hi1) as (eg' & tr' & E' & Hi' & Hd').
    exists eg', tr'. split; [done|]. split; [done|]. intros ID. by rewrite Hd', Hd1, <- (assoc_L (++)).
  - simpl. rewrite egressLoop_idle. cbn [mbind go_bind]. apply IH. done.
Qed.

Lemma rounds_ok slots reads :
  Forall (λ '(round, owner, _), 0 ≤ round < MaxInt32 ∧ (owner < length a)%nat) slots →
  8 + (if equiv then 16 else 0) ≤ N → length slots = length reads → Forall (slotRead_ok N equiv) reads →
  Forall (input_ok N (length a) equiv) (zip_with roundOf slots (slotFrame <$> reads)).
Proof.
  intros Hs HN. revert reads. induction Hs as [|[[round owner] d] slots [Hr Ho] _ IH];
    intros [|r reads] Hlen Hrs; try done.
  inversion_clear Hrs as [|?? Hok Hrest]. rewrite fmap_cons. cbn [zip_with].
  constructor; [|apply IH; [by injection Hlen | done]].
  split; [done|]. split; [done|]. cbn. destruct r as [[[ig mc] data]|]; cbn [slotFrame].
  - destruct Hok as (Hrch & Hmc & _ & Hl). destruct (reach_labelled N ig mc Hrch Hmc) as [HID _].
    rewrite len_frame by done. lia.
  - unfold len. simpl length. lia.
Qed.

(** C6: Streams cross the multiplexer and the DC-net.  Let the owners of a
    sequence of rounds send the frames their ingress servers make of the bytes
    read from accepted connections, or nothing, and let the network towards the
    server be reliable.  Then every frame is made, every round decodes, the
    egress server accepts every cell, and on behalf of each stream ID it has
    written exactly the bytes read from connections with that ID, in order. *)
Theorem streams_delivered slots reads :
  8 + (if equiv then 16 else 0) ≤ N < 2 ^ 32 → reliable →
  Forall (λ '(round, owner, _), 0 ≤ round < MaxInt32 ∧ (owner < length a)%nat) slots →
  length slots = length reads → Forall (slotRead_ok N equiv) reads →
  ∃ payloads s cells eg tr,
    mapM upstreamPayload reads = Ret payloads
    ∧ deploy N equiv a t rnd = Ret s
    ∧ runSession s (zip_with roundOf slots payloads) = Ret cells
    ∧ egressRun (newEgressServer N) [] cells = Ret (eg, tr)
    ∧ ∀ ID, delivered eg tr ID = reads ≫= readOn ID.
Proof.
  intros HN Hrel Hslots Hlen Hreads. destruct (deploy_ok N equiv a t rnd) as (s & Hs & Hinv); [destruct equiv; lia|].
  set (xs := zip_with roundOf slots (slotFrame <$> reads)).
  assert (Forall (input_ok N (length a) equiv) xs) as Hxs by (apply rounds_ok; done || lia).
  destruct (egressRun_cells (cell_size N equiv) reads (newEgressServer N) [])
    as (eg & tr & E & _ & Hd); [done | lia | apply eg_inv_new | done |].
  exists (slotFrame <$> reads), s, ((λ r, padPayload (cell_size N equiv) (Some (slotFrame r))) <$> reads), eg, tr.
  split; [apply mapM_go_ret; intros r Hr; eapply upstreamPayload_ok, (proj1 (Forall_forall _ _) Hreads); done|].
  split; [done|]. split; [|split; [done | intros ID; by rewrite Hd]].
  fold xs. rewrite (runSession_ok _ _ _ _ _ s xs Hinv Hxs). f_equal. unfold xs. clear -Hlen.
  revert reads Hlen. induction slots as [|x slots IH]; intros [|r reads] Hlen; try done.
  rewrite fmap_cons. cbn [zip_with]. rewrite !fmap_cons. f_equal. apply IH. by injection Hlen.
Qed.
End over_dcnet.

(** ** Answers *)

Section replies.
Context {SK : Sockets}.

(** What the egress server sends downstream: a connection of its heap, the bytes
    read from it, and the zeros the relay pads the cell with. *)
Definition reply : Type := EgressServer * nat * bytes * nat.

Definition downstreamCell (r : reply) : go bytes :=
  let '(eg, i, data, pad) := r in
  '(step, _, _) ← egressConnectionReader eg [] i (ReadData data);
  match step with ReaderSends f => Ret (f ++ zeros pad) | _ => Ret [] end.

Definition replyID (r : reply) : bytes :=
  let '(eg, i, _, _) := r in from_option mc_ID_bytes [] (eg_heap eg !! i).
Definition replyData (r : reply) : bytes := let '(_, _, data, _) := r in data.
Definition replyPad (r : reply) : nat := let '(_, _, _, pad) := r in pad.

Definition reply_ok (r : reply) : Prop :=
  let '(eg, i, data, _) := r in
  len data ≤ eg_maxPayloadSize eg ∧ len data < 2 ^ 32 ∧
  ∃ mc, eg_heap eg !! i = Some mc ∧ mc_stop mc = false ∧ length (mc_ID_bytes mc) = 4%nat.

Definition repliedOn (ID : bytes) (r : reply) : bytes :=
  if bool_decide (ID = replyID r) then replyData r else [].

Lemma downstreamCell_ok r :
  reply_ok r → downstreamCell r = Ret (frame (replyID r) (replyData r) ++ zeros (replyPad r)).
Proof.
  destruct r as [[[eg i] data] pad]. intros (Hl & _ & mc & Hmc & Hs & HID).
  unfold downstreamCell, egressConnectionReader. rewrite Hmc, readerLoop_data by done.
  cbn. by rewrite Hmc.
Qed.

Lemma multiplexedChannelReader_frame ig tr ID data k :
  length ID = 4%nat → len data < 2 ^ 32 →
  multiplexedChannelReader ig tr (frame ID data ++ zeros k)
  = writeToID (ig_activeConnections ig) tr ID data.
Proof.
  intros HID Hd. unfold multiplexedChannelReader, MULTIPLEXER_HEADER_SIZE.
  rewrite (proj2 (Z.ltb_ge _ 8)) by (by apply frame_long).
  destruct (frame_fields ID data k HID Hd) as (-> & -> & -> & E4). cbn [mbind go_bind].
  by rewrite E4, frame_trim.
Qed.

(** The first connection with the ID, if there is one, gets the data. *)
Lemma writeToID_spec conns tr ID data :
  Forall labelled conns →
  (∃ mc h, mc ∈ conns ∧ mc_ID_bytes mc = ID ∧ mc_conn mc = Some h
     ∧ writeToID conns tr ID data = Ret (tr ++ [Wrote h data (sock_Write tr h data).1]))
  ∨ ((∀ mc, mc ∈ conns → mc_ID_bytes mc ≠ ID) ∧ writeToID conns tr ID data = Ret tr).
Proof.
  induction 1 as [|v conns (_ & _ & h & Hv) _ IH]; [right; split; [by intros ? ?%elem_of_nil | done]|].
  cbn [writeToID]. case_bool_decide as Heq.
  - left. exists v, h. rewrite Hv. split; [set_solver|]. done.
  - destruct IH as [(mc & h' & Hmc & HID & Hc & E)|[Hno E]].
    + left. exists mc, h'. split; [set_solver|]. done.
    + right. split; [|done]. intros mc [->|Hmc]%elem_of_cons; [done | by apply Hno].
Qed.

(** Writing to a stream among connections with different IDs and sockets. *)
Lemma writeToID_ok conns tr ID data :
  (∀ tr h d, sock_Write tr h d = (len d, false)) →
  Forall labelled conns → NoDup (mc_ID_bytes <$> conns) → NoDup (mc_conn <$> conns) →
  ∃ tr', writeToID conns tr ID data = Ret tr'
    ∧ ∀ mc h, mc ∈ conns → mc_conn mc = Some h →
        written h tr' = written h tr ++ if bool_decide (mc_ID_bytes mc = ID) then data else [].
Proof.
  intros Hw Hl HID Hc.
  destruct (writeToID_spec conns tr ID data Hl) as [(v & hv & Hv & HIDv & Hcv & ->)|[Hno ->]].
  - eexists. split; [reflexivity|]. intros mc h Hmc Hh. rewrite written_app. f_equal.
    rewrite Hw. cbn. rewrite app_nil_r. case_bool_decide as E.
    + subst hv. assert (mc = v) as -> by (eapply (NoDup_fmap_eq mc_conn); [done..|congruence]).
      by rewrite bool_decide_eq_true_2, to_nat_len, firstn_all.
    + rewrite bool_decide_eq_false_2; [done|]. intros Hm. apply E.
      assert (mc = v) as -> by (eapply (NoDup_fmap_eq mc_ID_bytes); [done..|congruence]). congruence.
  - exists tr. split; [done|]. intros mc h Hmc _.
    rewrite bool_decide_eq_false_2 by (by apply Hno). by rewrite app_nil_r.
Qed.

Lemma ingressRun_cells max ig tr replies :
  (∀ tr h d, sock_Write tr h d = (len d, false)) →
  ig_reach max ig → NoDup (mc_ID_bytes <$> ig_activeConnections ig) →
  NoDup (mc_conn <$> ig_activeConnections ig) → Forall reply_ok replies →
  ∃ tr', ingressRun ig tr
           ((λ r, frame (replyID r) (replyData r) ++ zeros (replyPad r)) <$> replies) = Ret tr'
    ∧ ∀ mc h, mc ∈ ig_activeConnections ig → mc_conn mc = Some h →
        written h tr' = written h tr ++ (replies ≫= repliedOn (mc_ID_bytes mc)).
Proof.
  intros Hw Hr HID Hc Hok. revert tr. destruct (ig_reach_inv max ig Hr) as [_ Hl].
  induction Hok as [|r replies Hr1 _ IH]; intros tr.
  { exists tr. split; [done|]. intros. by rewrite app_nil_r. }
  rewrite fmap_cons. cbn [ingressRun].
  assert (length (replyID r) = 4%nat ∧ len (replyData r) < 2 ^ 32) as [H4 Hd].
  { destruct r as [[[eg i] data] pad]. destruct Hr1 as (_ & ? & mc & Hmc & _ & ?).
    cbn. by rewrite Hmc. }
  rewrite multiplexedChannelReader_frame by done.
  destruct (writeToID_ok (ig_activeConnections ig) tr (replyID r) (replyData r))
    as (tr1 & -> & H1); [done..|]. cbn [mbind go_bind].
  destruct (IH tr1) as (tr' & -> & H2). exists tr'. split; [done|].
  intros mc h Hmc Hh. rewrite (H2 mc h Hmc Hh), (H1 mc h Hmc Hh), <- (assoc_L (++)). done.
Qed.

(** C19: Answers come back.  Whatever the egress server reads from its connections
    is framed, and an ingress server whose connections have different stream IDs
    and sockets, fed with the frames in zero-padded cells, writes to each of its
    connections exactly the data read on behalf of its stream ID, in order, and
    nothing of the streams of other clients. *)
Theorem replies_delivered max ig replies :
  (∀ tr h d, sock_Write tr h d = (len d, false)) →
  ig_reach max ig → NoDup (mc_ID_bytes <$> ig_activeConnections ig) →
  NoDup (mc_conn <$> ig_activeConnections ig) → Forall reply_ok replies →
  ∃ cells tr, mapM downstreamCell replies = Ret cells ∧ ingressRun ig [] cells = Ret tr
    ∧ ∀ mc h, mc ∈ ig_activeConnections ig → mc_conn mc = Some h →
        written h tr = replies ≫= repliedOn (mc_ID_bytes mc).
Proof.
  intros Hw Hr HID Hc Hok.
  destruct (ingressRun_cells max ig [] replies) as (tr & E & H); [done..|].
  eexists _, tr. split; [|split; [exact E | exact H]]. apply mapM_go_ret. intros r Hrr.
  by apply downstreamCell_ok, (proj1 (Forall_forall _ _) Hok).
Qed.
End replies.

(** ** Which frames fit a cell *)

(** C22: An ingress server reads at most the payload size less the 8-byte header,
    so its frames never exceed the payload size [N], and a client of a DC-net
    with cells of [N] bytes can send any of them.  The two protections need room
    that the ingress server does not leave: with the equivocation protection a
    frame that leaves less than 16 bytes crashes the owner of the slot, and with
    the flag byte of the disruption protection in front a full one makes it
    panic. *)
Theorem frame_fits_cell {CS : CryptoSuite} {CL : CryptoLaws CS} N ig mc data
    (e : DCNetEntity CS) r :
  ig_reach N ig → mc ∈ ig_activeConnections ig → mc_stop mc = false →
  len data ≤ ig_maxPayloadSize ig →
  synced e → Entity e = DCNET_CLIENT → DCNetPayloadSize e = N → 0 ≤ r < MaxInt32 →
  ∃ f, ingressConnectionReader ig mc (ReadData data) = Ret (ReaderSends f, mc)
  ∧ len f = len data + 8 ∧ len f ≤ N
  ∧ (EquivocationProtectionEnabled e = false →
       returns (EncodeForRound e r true (Some f)) = true)
  ∧ (EquivocationProtectionEnabled e = true → N - 24 < len data →
       EncodeForRound e r true (Some f) = Crash RuntimeError)
  ∧ (len data = ig_maxPayloadSize ig → ∀ b_echo_last,
       EncodeForRound e r true (Some (b_echo_last :: f))
       = Crash (Panicked "DCNet: cannot encode Payload of length")).
Proof.
  intros Hr Hmc Hs Hd He HE HN Hround.
  destruct (reach_labelled N ig mc Hr Hmc) as (HID & _). destruct (ig_reach_inv N ig Hr) as [Hm _].
  exists (frame (mc_ID_bytes mc) data). rewrite len_frame by done.
  split; [by apply readerLoop_data|]. split; [done|]. split; [lia|]. split_and!.
  - intros Heq. rewrite EncodeForRound_client_plain; [done..|lia|lia|].
    cbn [default]. simpl. rewrite len_frame by done. lia.
  - intros Heq Hl. apply EncodeForRound_no_tag_room; [done|lia|done|done|].
    rewrite len_frame by done. lia.
  - intros Hfull b. apply EncodeForRound_longer. change (b :: ?l) with ([b] ++ l).
    rewrite len_app, len_frame by done. change (len [b]) with 1. lia.
Qed.

(** A client with disruption protection but no equivocation protection writes
    its number over the fourth byte of what it sends: the frame then belongs to
    another stream. *)
Lemma relabelled_frame ID data b :
  length ID = 4%nat →
  set_index (frame ID data) 3 b = Ret (frame (take 3 ID ++ [b]) data).
Proof.
  intros HID. rewrite set_index_ret by (rewrite len_frame by done; pose proof (len_nonneg data); lia).
  destruct ID as [|i0 [|i1 [|i2 [|i3 [|]]]]]; done.
Qed.

(** ** Concrete streams *)

Module MuxDemo.

(** Sockets that always work; a dial returns a handle above all given out. *)
Definition next_handle (tr : list sockEvent) : Z :=
  foldr (λ e m, match e with Dialled h => Z.max m (h + 1) | _ => m end) 0 tr.

#[export] Instance sockets : Sockets := {|
  sock_Dial tr := Some (next_handle tr);
  sock_Write tr h data := (len data, false)
|}.

Lemma next_handle_above h tr : Dialled h ∈ tr → h < next_handle tr.
Proof.
  induction tr as [|e tr IH]; [by intros ?%elem_of_nil|]. intros [<-|Hin]%elem_of_cons; cbn [next_handle foldr].
  - lia.
  - apply IH in Hin. unfold next_handle in Hin. destruct e; lia.
Qed.

Lemma sockets_reliable : reliable.
Proof.
  split; [|done]. intros tr. exists (next_handle tr). split; [done|].
  intros H%next_handle_above. lia.
Qed.

(** Two connections with the draws 1234567 and 89898989. *)
Definition conn1 : MultiplexedConnection :=
  mkConn (generateRandomID 1234567) [49; 50; 51; 52] (Some 7) false 24.
Definition conn2 : MultiplexedConnection :=
  mkConn (generateRandomID 89898989) [56; 57; 56; 57] (Some 8) false 24.
Definition ingress : IngressServer := mkIngress [conn1; conn2] 24 16.

Lemma ingress_reach : ig_reach 24 ingress.
Proof.
  eapply (ig_loop 24 (mkIngress [conn1] 24 16) [] false (Accepted 8) 0 89898989 _ _ true); [|reflexivity].
  eapply (ig_loop 24 (newIngressServer 24) [] false (Accepted 7) 0 1234567 _ _ true); [|reflexivity]. apply ig_start.
Qed.

(** Stream IDs are the first four digits of a draw, so different draws may
    collide: the second connection never receives an answer. *)
Example ids_collide :
  ingressAccept (newIngressServer 24) 0 1234567 7 ≫= (λ ig, ingressAccept ig 0 1234999 8)
  = Ret (mkIngress [conn1; mkConn (generateRandomID 1234999) [49; 50; 51; 52] (Some 8) false 24] 24 16)
  ∧ multiplexedChannelReader (mkIngress
        [conn1; mkConn (generateRandomID 1234999) [49; 50; 51; 52] (Some 8) false 24] 24 16) []
      (frame [49; 50; 51; 52] [5]) = Ret [Wrote 7 [5] 1].
Proof. by vm_compute. Qed.

Definition reads : list slotRead :=
  [Some (ingress, conn1, [1; 2]); None; Some (ingress, conn2, [9]); Some (ingress, conn1, [3])].
Definition slots : list (Z * nat * bytes) :=
  [(0, 1%nat, []); (1, 0%nat, [4]); (2, 0%nat, []); (5, 1%nat, [])].

Lemma streams_delivered_witness :
  ∃ payloads s cells eg tr,
    mapM upstreamPayload reads = Ret payloads
    ∧ @deploy ToySuite.suite 24 false [ToySuite.fp_of 3; ToySuite.fp_of 77] [ToySuite.fp_of 5]
        (λ i, [Z.of_nat i]) = Ret s
    ∧ @runSession ToySuite.suite s (zip_with roundOf slots payloads) = Ret cells
    ∧ egressRun (newEgressServer 24) [] cells = Ret (eg, tr)
    ∧ delivered eg tr [49; 50; 51; 52] = [1; 2; 3] ∧ delivered eg tr [56; 57; 56; 57] = [9].
Proof.
  destruct (@streams_delivered sockets ToySuite.suite ToySuite.laws 24 false
    [ToySuite.fp_of 3; ToySuite.fp_of 77] [ToySuite.fp_of 5] (λ i, [Z.of_nat i]) slots reads)
    as (payloads & s & cells & eg & tr & H1 & H2 & H3 & H4 & H5).
  - lia.
  - apply sockets_reliable.
  - repeat constructor; done || lia.
  - reflexivity.
  - repeat constructor; try apply ingress_reach; try reflexivity; by vm_compute.
  - exists payloads, s, cells, eg, tr.
    exact (conj H1 (conj H2 (conj H3 (conj H4 (conj (H5 _) (H5 _)))))).
Defined.

Definition egress : EgressServer :=
  mkEgress [mkConn [49; 50; 51; 52] [49; 50; 51; 52] (Some 0) false 24;
            mkConn [50; 50; 51; 52] [50; 50; 51; 52] (Some 1) false 24]
    {[ [49; 50; 51; 52] := Some 0%nat; [50; 50; 51; 52] := Some 1%nat ]} 24 16.

Lemma replies_delivered_witness :
  ∃ cells tr,
    mapM downstreamCell [(egress, 0%nat, [5; 6], 3%nat); (egress, 1%nat, [9], 0%nat);
                         (egress, 0%nat, [7], 1%nat)] = Ret cells
    ∧ ingressRun ingress [] cells = Ret tr ∧ written 7 tr = [5; 6; 7] ∧ written 8 tr = [].
Proof.
  destruct (@replies_delivered sockets 24 ingress
    [(egress, 0%nat, [5; 6], 3%nat); (egress, 1%nat, [9], 0%nat); (egress, 0%nat, [7], 1%nat)])
    as (cells & tr & H1 & H2 & H3).
  - reflexivity.
  - apply ingress_reach.
  - apply (bool_decide_unpack _). exact I.
  - apply (bool_decide_unpack _). exact I.
  - repeat constructor; try (vm_compute; done); eexists; split; reflexivity || done.
  - exists cells, tr. split; [exact H1|]. split; [exact H2|]. split.
    + rewrite (H3 conn1 7); [reflexivity | left | reflexivity].
    + rewrite (H3 conn2 8); [reflexivity | right; left | reflexivity].
Defined.

Lemma frame_fits_cell_witness :
  ∃ f, ingressConnectionReader ingress conn1 (ReadData (zeros 16)) = Ret (ReaderSends f, conn1)
  ∧ len f = 24
  ∧ EncodeForRound (Demo.entity DCNET_CLIENT 24 true) 3 true (Some f) = Crash RuntimeError.
Proof.
  destruct (@frame_fits_cell ToySuite.suite ToySuite.laws 24 ingress conn1 (zeros 16)
    (Demo.entity DCNET_CLIENT 24 true) 3) as (f & H1 & H2 & _ & _ & H3 & _).
  - apply ingress_reach.
  - left.
  - reflexivity.
  - by vm_compute.
  - by apply Demo.entity_synced.
  - reflexivity.
  - reflexivity.
  - done.
  - exists f. split; [exact H1|]. split; [exact H2|]. apply H3; [reflexivity | done].
Defined.
End MuxDemo.
