(* ===== verification/Protocol.v ===== *)
(** * The SDA protocol (sda/protocols/prifi.go, protocol.go, message_sender.go,
      message_binders.go; prifi-lib/prifi.go)

    The wrapper that gives a PriFi-lib instance its configuration and its
    message sender, forwards it the messages of the tree, starts it and stops
    it.  The onet framework is the class [Onet]: identities of servers, the order
    of the nodes of a tree, what a send over the tree answers.  The message sender
    the wrapper builds is an instance of the interface [Network] that the
    entities are verified against ([ms_network]). *)

From S2P Require Import Prelude Bytes Crypto Messages StateMachine Network Trustee Client Relay.

Open Scope Z_scope.

(** What the service and the protocol use of onet. *)
Class Onet (CS : CryptoSuite) := {
  ServerIdentity : Type;
  ServerIdentity_eq_dec :: EqDecision ServerIdentity;
  si_Public : ServerIdentity → string;         (* Public.String() *)
  si_Equal : ServerIdentity → ServerIdentity → bool;
  si_Address : ServerIdentity → string;        (* Address.String() *)
  (* List() of the tree GenerateNaryTreeWithRoot makes of a roster and a root *)
  tree_List : list ServerIdentity → ServerIdentity → list ServerIdentity;
  (* SendTo: the error, or nil, given everything observed before *)
  tree_SendTo : list (event CS) → ServerIdentity → message CS → option string
}.

(** What onet documents: identities are equal iff their public keys are, and a
    tree made of a roster of at most 101 servers lists exactly these. *)
Class OnetLaws (CS : CryptoSuite) {O : Onet CS} := {
  si_Equal_spec : ∀ a b, si_Equal a b = true ↔ si_Public a = si_Public b;
  tree_List_perm : ∀ roster root, root ∈ roster → (length roster ≤ 101)%nat →
    tree_List roster root ≡ₚ roster
}.

(** type PriFiRole *)
Inductive PriFiRole := Role_Relay | Role_Client | Role_Trustee.

#[export] Instance PriFiRole_eq_dec : EqDecision PriFiRole.
Proof. solve_decision. Defined.

(** type PrifiTomlConfig *)
Record PrifiTomlConfig := mkToml {
  tm_EnforceSameVersionOnNodes : bool;
  tm_ForceConsoleColor : bool;
  tm_OverrideLogLevel : Z;
  tm_ClientDataOutputEnabled : bool;
  tm_RelayDataOutputEnabled : bool;
  tm_PayloadSize : Z;
  tm_CellSizeDown : Z;
  tm_RelayWindowSize : Z;
  tm_RelayUseOpenClosedSlots : bool;
  tm_RelayUseDummyDataDown : bool;
  tm_RelayReportingLimit : Z;
  tm_UseUDP : bool;
  tm_DoLatencyTests : bool;
  tm_SocksServerPort : Z;
  tm_SocksClientPort : Z;
  tm_ProtocolVersion : string;
  tm_DCNetType : string;
  tm_ReplayPCAP : bool;
  tm_PCAPFolder : string;
  tm_TrusteeSleepTimeBetweenMessages : Z;
  tm_TrusteeAlwaysSlowDown : bool;
  tm_TrusteeNeverSlowDown : bool;
  tm_SimulDelayBetweenClients : Z;
  tm_DisruptionProtectionEnabled : bool;
  tm_EquivocationProtectionEnabled : bool;
  tm_OpenClosedSlotsMinDelayBetweenRequests : Z;
  tm_RelayMaxNumberOfConsecutiveFailedRounds : Z;
  tm_RelayProcessingLoopSleepTime : Z;
  tm_RelayRoundTimeOut : Z;
  tm_RelayTrusteeCacheLowBound : Z;
  tm_RelayTrusteeCacheHighBound : Z;
  tm_VerboseIngressEgressServers : bool;
  tm_ForceDisruptionSinceRound3 : bool
}.

#[export] Instance eta_Toml : Eta PrifiTomlConfig := λ t,
  mkToml (tm_EnforceSameVersionOnNodes t) (tm_ForceConsoleColor t) (tm_OverrideLogLevel t)
    (tm_ClientDataOutputEnabled t) (tm_RelayDataOutputEnabled t) (tm_PayloadSize t)
    (tm_CellSizeDown t) (tm_RelayWindowSize t) (tm_RelayUseOpenClosedSlots t)
    (tm_RelayUseDummyDataDown t) (tm_RelayReportingLimit t) (tm_UseUDP t) (tm_DoLatencyTests
    t) (tm_SocksServerPort t) (tm_SocksClientPort t) (tm_ProtocolVersion t) (tm_DCNetType t)
    (tm_ReplayPCAP t) (tm_PCAPFolder t) (tm_TrusteeSleepTimeBetweenMessages t)
    (tm_TrusteeAlwaysSlowDown t) (tm_TrusteeNeverSlowDown t) (tm_SimulDelayBetweenClients t)
    (tm_DisruptionProtectionEnabled t) (tm_EquivocationProtectionEnabled t)
    (tm_OpenClosedSlotsMinDelayBetweenRequests t)
    (tm_RelayMaxNumberOfConsecutiveFailedRounds t) (tm_RelayProcessingLoopSleepTime t)
    (tm_RelayRoundTimeOut t) (tm_RelayTrusteeCacheLowBound t) (tm_RelayTrusteeCacheHighBound
    t) (tm_VerboseIngressEgressServers t) (tm_ForceDisruptionSinceRound3 t).

(** type SOCKSConfig; a channel is the list of what waits in it *)
Record SOCKSConfig := mkSocks {
  sk_ListeningAddr : string;
  sk_Port : Z;
  sk_PayloadSize : Z;
  sk_UpstreamChannel : list bytes;
  sk_DownstreamChannel : list bytes
}.

Section protocol.
Context {CS : CryptoSuite} {CK : Clock CS} {PS : ProofSystem CS} {O : Onet CS}.

(** ** prifi-lib/prifi.go *)

(** type SpecializedLibInstance: the three kinds of entities *)
Inductive SpecializedLibInstance :=
| LibRelay (p : PriFiLibRelayInstance CS)
| LibClient (p : PriFiLibClientInstance CS)
| LibTrustee (p : PriFiLibTrusteeInstance CS).

(** What the lib takes from outside: random draws and clock readings *)
Record libInputs := mkLibInputs {
  li_sk : Scalar;
  li_now : Z;
  li_msNow : Z;
  li_rnd1 : bytes;
  li_rnd2 : bytes;
  li_draws : @trusteeDraws CS;
  li_client : @clientInputs CS
}.

(** func NewPriFiRelay, NewPriFiTrustee, NewPriFiClient *)
Definition NewPriFiRelay (li : libInputs) (dataOutputEnabled : bool) (dataForClients : list bytes)
    : go SpecializedLibInstance :=
  r ← NewRelay (li_sk li) (li_now li) dataOutputEnabled dataForClients; Ret (LibRelay r).
Definition NewPriFiTrustee (li : libInputs) (neverSlowDown alwaysSlowDown : bool)
    (baseSleepTime : Z) : go SpecializedLibInstance :=
  t ← NewTrustee (li_sk li) neverSlowDown alwaysSlowDown baseSleepTime; Ret (LibTrustee t).
Definition NewPriFiClient (li : libInputs) (doLatencyTest dataOutputEnabled : bool)
    (dataForDCNet : list bytes) (doReplayPcap : bool) (pcapFolder : string)
    : go SpecializedLibInstance :=
  c ← NewClient (li_sk li) (li_now li) (li_msNow li) doLatencyTest dataOutputEnabled dataForDCNet
        doReplayPcap pcapFolder; Ret (LibClient c).

(** func (p) ReceivedMessage: the entity's own handler *)
Definition lib_ReceivedMessage (nw : Network CS) (li : libInputs) (msg : message CS)
    : handler SpecializedLibInstance (result unit) := λ w,
  match w.1 with
  | LibRelay p =>
      '(r, (p, tr)) ← r_ReceivedMessage (li_rnd1 li) (li_rnd2 li) msg (p, w.2);
      Ret (r, (LibRelay p, tr))
  | LibClient p =>
      '(r, (p, tr)) ← c_ReceivedMessage (li_client li) msg (p, w.2); Ret (r, (LibClient p, tr))
  | LibTrustee p =>
      '(r, (p, tr)) ← t_ReceivedMessage (li_draws li) msg (p, w.2); Ret (r, (LibTrustee p, tr))
  end.

(** ** The message sender *)

(** type PriFiIdentity *)
Record PriFiIdentity := mkIdentity {
  id_Role : PriFiRole;
  id_ID : Z;
  id_ServerID : ServerIdentity
}.

(** type MessageSender; the tree is the environment's *)
Record MessageSender := mkMessageSender {
  ms_relay : option ServerIdentity;
  ms_clients : gmap Z ServerIdentity;
  ms_trustees : gmap Z ServerIdentity
}.

(** The loop of buildMessageSender, with the counters clientID and trusteeID *)
Definition addNode (identities : gmap string PriFiIdentity)
    (acc : MessageSender * Z * Z) (node : ServerIdentity) : go (MessageSender * Z * Z) :=
  let '(ms, clientID, trusteeID) := acc in
  match identities !! si_Public node with
  | None => Ret acc
  | Some id =>
      match id_Role id with
      | Role_Client =>
          Ret (mkMessageSender (ms_relay ms) (<[clientID := node]> (ms_clients ms)) (ms_trustees ms),
               clientID + 1, trusteeID)
      | Role_Trustee =>
          Ret (mkMessageSender (ms_relay ms) (ms_clients ms) (<[trusteeID := node]> (ms_trustees ms)),
               clientID, trusteeID + 1)
      | Role_Relay =>
          match ms_relay ms with
          | None => Ret (mkMessageSender (Some node) (ms_clients ms) (ms_trustees ms),
                         clientID, trusteeID)
          | Some _ => Crash (Fatal "Multiple relays")
          end
      end
  end.

(** func (p) buildMessageSender, for the nodes of the tree *)
Definition buildMessageSender (nodes : list ServerIdentity) (identities : gmap string PriFiIdentity)
    : go MessageSender :=
  '(ms, _, _) ← go_fold (addNode identities) (mkMessageSender None ∅ ∅, 0, 0) nodes;
  Ret ms.

(** func (ms) SendToClient, FastSendToClient; SendToTrustee; SendToRelay *)
Definition ms_SendToClient (ms : MessageSender) (tr : list (event CS)) (i : Z) (msg : message CS)
    : option string :=
  match ms_clients ms !! i with
  | Some client => tree_SendTo tr client msg
  | None => Some "Client is unknown !"
  end.
Definition ms_SendToTrustee (ms : MessageSender) (tr : list (event CS)) (i : Z) (msg : message CS)
    : option string :=
  match ms_trustees ms !! i with
  | Some trustee => tree_SendTo tr trustee msg
  | None => Some "Trustee is unknown !"
  end.
Definition ms_SendToRelay (ms : MessageSender) (tr : list (event CS)) (msg : message CS)
    : option string :=
  match ms_relay ms with
  | Some relay => tree_SendTo tr relay msg
  | None => Some "Sent to a nil TreeNode"
  end.

(** The sender as the network of an entity; BroadcastToAllClients reports no
    error *)
Definition ms_network (ms : MessageSender) : Network CS := {|
  net_send tr d msg :=
    match d with
    | ToClient i => ms_SendToClient ms tr i msg
    | ToTrustee i => ms_SendToTrustee ms tr i msg
    | ToRelay => ms_SendToRelay ms tr msg
    | ToAllClients => None
    end
|}.

(** ** The protocol *)

(** type PriFiSDAWrapperConfig *)
Record PriFiSDAWrapperConfig := mkConfig {
  cf_Toml : option PrifiTomlConfig;
  cf_Identities : gmap string PriFiIdentity;
  cf_Role : PriFiRole;
  cf_ClientSideSocksConfig : option SOCKSConfig;
  cf_RelaySideSocksConfig : option SOCKSConfig
}.

(** type PriFiSDAProtocol.  [p_trace] is what its lib instance did; [p_locked]
    tells whether a goroutine of the relay holds processingLock. *)
Record PriFiSDAProtocol := mkProtocol {
  p_nodes : list ServerIdentity;
  p_configSet : bool;
  p_config : PriFiSDAWrapperConfig;
  p_role : PriFiRole;
  p_ms : MessageSender;
  p_prifiLibInstance : option SpecializedLibInstance;
  p_HasStopped : bool;
  p_locked : bool;
  p_trace : list (event CS)
}.
#[export] Instance eta_Protocol : Eta PriFiSDAProtocol := λ r,
  mkProtocol (p_nodes r) (p_configSet r) (p_config r) (p_role r) (p_ms r)
    (p_prifiLibInstance r) (p_HasStopped r) (p_locked r) (p_trace r).

(** func NewPriFiSDAWrapperProtocol *)
Definition NewPriFiSDAWrapperProtocol (nodes : list ServerIdentity) : PriFiSDAProtocol :=
  mkProtocol nodes false (mkConfig None ∅ Role_Relay None None) Role_Relay
    (mkMessageSender None ∅ ∅) None false false [].

Definition nonNil {A} (x : option A) : go A :=
  match x with Some a => Ret a | None => Crash RuntimeError end.

(** The sanity checks of SetConfigFromPriFiService *)
Definition sanityCheck (role : PriFiRole) (ms : MessageSender) : go unit :=
  match role with
  | Role_Trustee =>
      if decide (ms_relay ms = None)
      then Crash (Fatal "Relay is not reachable (I'm a trustee, and I need it) !") else Ret tt
  | Role_Client =>
      if decide (ms_relay ms = None)
      then Crash (Fatal "Relay is not reachable (I'm a client, and I need it) !") else Ret tt
  | Role_Relay =>
      if (size (ms_clients ms) <? 1)%nat
      then Crash (Fatal "Less than one client reachable (I'm a relay, and there's no use starting the protocol) !")
      else if (size (ms_trustees ms) <? 1)%nat
      then Crash (Fatal "No trustee reachable (I'm a relay, and I cannot start the protocol) !")
      else Ret tt
  end.

(** The lib instance SetConfigFromPriFiService makes for a role *)
Definition newLibInstance (li : libInputs) (config : PriFiSDAWrapperConfig)
    : go SpecializedLibInstance :=
  toml ← nonNil (cf_Toml config);
  match cf_Role config with
  | Role_Relay =>
      socks ← nonNil (cf_RelaySideSocksConfig config);
      NewPriFiRelay li (tm_RelayDataOutputEnabled toml) (sk_DownstreamChannel socks)
  | Role_Trustee =>
      NewPriFiTrustee li (tm_TrusteeNeverSlowDown toml) (tm_TrusteeAlwaysSlowDown toml)
        (tm_TrusteeSleepTimeBetweenMessages toml)
  | Role_Client =>
      socks ← nonNil (cf_ClientSideSocksConfig config);
      NewPriFiClient li (tm_DoLatencyTests toml) (tm_ClientDataOutputEnabled toml)
        (sk_UpstreamChannel socks) (tm_ReplayPCAP toml) (tm_PCAPFolder toml)
  end.

(** func (p) SetConfigFromPriFiService *)
Definition SetConfigFromPriFiService (li : libInputs) (p : PriFiSDAProtocol)
    (config : PriFiSDAWrapperConfig) : go PriFiSDAProtocol :=
  ms ← buildMessageSender (p_nodes p) (cf_Identities config);
  _ ← sanityCheck (cf_Role config) ms;
  lib ← newLibInstance li config;
  Ret (p <| p_config := config |> <| p_role := cf_Role config |> <| p_ms := ms |>
         <| p_prifiLibInstance := Some lib |> <| p_configSet := true |>).

(** The message Start sends to its own node *)
Definition startParameters (toml : PrifiTomlConfig) (nTrustees nClients : Z)
    : ALL_ALL_PARAMETERS CS :=
  let m := Add newParams "StartNow" (PBool true) in
  let m := Add m "NTrustees" (PInt nTrustees) in
  let m := Add m "NClients" (PInt nClients) in
  let m := Add m "PayloadSize" (PInt (tm_PayloadSize toml)) in
  let m := Add m "DownstreamCellSize" (PInt (tm_CellSizeDown toml)) in
  let m := Add m "WindowSize" (PInt (tm_RelayWindowSize toml)) in
  let m := Add m "UseOpenClosedSlots" (PBool (tm_RelayUseOpenClosedSlots toml)) in
  let m := Add m "UseDummyDataDown" (PBool (tm_RelayUseDummyDataDown toml)) in
  let m := Add m "ExperimentRoundLimit" (PInt (tm_RelayReportingLimit toml)) in
  let m := Add m "UseUDP" (PBool (tm_UseUDP toml)) in
  let m := Add m "DCNetType" (PStr (tm_DCNetType toml)) in
  let m := Add m "DisruptionProtectionEnabled" (PBool (tm_DisruptionProtectionEnabled toml)) in
  let m := Add m "OpenClosedSlotsMinDelayBetweenRequests"
             (PInt (tm_OpenClosedSlotsMinDelayBetweenRequests toml)) in
  let m := Add m "RelayMaxNumberOfConsecutiveFailedRounds"
             (PInt (tm_RelayMaxNumberOfConsecutiveFailedRounds toml)) in
  let m := Add m "RelayProcessingLoopSleepTime" (PInt (tm_RelayProcessingLoopSleepTime toml)) in
  let m := Add m "RelayRoundTimeOut" (PInt (tm_RelayRoundTimeOut toml)) in
  let m := Add m "RelayTrusteeCacheLowBound" (PInt (tm_RelayTrusteeCacheLowBound toml)) in
  let m := Add m "RelayTrusteeCacheHighBound" (PInt (tm_RelayTrusteeCacheHighBound toml)) in
  let m := Add m "EquivocationProtectionEnabled" (PBool (tm_EquivocationProtectionEnabled toml)) in
  let m := Add m "ForceDisruptionSinceRound3" (PBool (tm_ForceDisruptionSinceRound3 toml)) in
  m <| ForceParams := true |>.

(** func (p) Start: the message it sends to itself *)
Definition Start (p : PriFiSDAProtocol) : go (ALL_ALL_PARAMETERS CS) :=
  if negb (p_configSet p) then Crash (Fatal "Trying to start PriFi-lib, but config not set !") else
  toml ← nonNil (cf_Toml (p_config p));
  Ret (startParameters toml (Z.of_nat (size (ms_trustees (p_ms p))))
         (Z.of_nat (size (ms_clients (p_ms p))))).

(** prifiLibInstance.ReceivedMessage: the relay takes its processingLock, which
    is not reentrant *)
Definition forward (li : libInputs) (p : PriFiSDAProtocol) (msg : message CS)
    : go (result unit * PriFiSDAProtocol) :=
  lib ← nonNil (p_prifiLibInstance p);
  _ ← match lib with
      | LibRelay _ => if p_locked p then Crash Blocks else Ret tt
      | _ => Ret tt
      end;
  '(r, (lib, tr)) ← lib_ReceivedMessage (ms_network (p_ms p)) li msg (lib, p_trace p);
  Ret (r, p <| p_prifiLibInstance := Some lib |> <| p_trace := tr |>).

(** func (p) Stop *)
Definition Stop (li : libInputs) (p : PriFiSDAProtocol) : go PriFiSDAProtocol :=
  p ← match p_prifiLibInstance p with
      | Some _ => '(_, p) ← forward li p MShutdown; Ret p
      | None => Ret p
      end;
  Ret (p <| p_HasStopped := true |>).

(** The wrapper structs of messages.go: what the tree hands to a handler, the
    message and the node of the tree that sent it (nil for a message the protocol
    sends to itself) *)
Record Struct := mkStruct {
  TreeNode : option ServerIdentity;
  Wrapped : message CS;
}.

(** The handlers of message_binders.go: a shutdown stops the protocol and is
    forwarded, every other message is forwarded; none looks at the sender *)
Definition Received_ALL_ALL_SHUTDOWN (li : libInputs) (p : PriFiSDAProtocol) (msg : Struct)
    : go (result unit * PriFiSDAProtocol) :=
  p ← Stop li p; forward li p (Wrapped msg).
Definition p_Received (li : libInputs) (p : PriFiSDAProtocol) (msg : Struct)
    : go (result unit * PriFiSDAProtocol) :=
  match Wrapped msg with
  | MShutdown => Received_ALL_ALL_SHUTDOWN li p msg
  | m => forward li p m
  end.

(** func (p) registerHandlers: the messages the tree dispatches to the protocol;
    the others are dropped by the framework *)
Definition registered (msg : message CS) : bool :=
  match msg with
  | MParameters _ | MShutdown => true
  | MDownstream _ | MTellEphPks _ => true
  | MTellPkEph _ | MUpstream _ | MDCCipher _ | MShuffleSig _ | MNewBase _ | MTellPk _
  | MOpenClosed _ => true
  | MTellClients _ | MTranscript _ | MRateChange _ => true
  | MDisruptedRound _ | MBlame _ | MReveal _ | MClientReveal _ | MTrusteeReveal _
  | MRevealSecrets _ | MClientSecret _ | MTrusteeSecret _ => true
  | MDownstreamUDP _ => false
  end.

(** func init: the messages registered with the network library, which marshals
    them; the list has neither ALL_ALL_SHUTDOWN nor REL_CLI_DOWNSTREAM_DATA_UDP *)
Definition init_registered (msg : message CS) : bool :=
  match msg with
  | MParameters _ | MTellPkEph _ | MUpstream _ | MDownstream _ | MOpenClosed _ | MTellEphPks _
  | MTellClients _ | MTranscript _ | MDCCipher _ | MRateChange _ | MShuffleSig _ | MNewBase _
  | MTellPk _ | MDisruptedRound _ | MBlame _ | MReveal _ | MClientReveal _ | MTrusteeReveal _
  | MRevealSecrets _ | MClientSecret _ | MTrusteeSecret _ => true
  | MShutdown | MDownstreamUDP _ => false
  end.

Definition p_Dispatch (li : libInputs) (p : PriFiSDAProtocol) (msg : Struct)
    : go (result unit * PriFiSDAProtocol) :=
  if registered (Wrapped msg) then p_Received li p msg else Ret (Ok tt, p).

(** Whatever node sends a message, the protocol does the same with it: the
    identities inside the messages are what the library goes by. *)
Lemma sender_unchecked (li : libInputs) (p : PriFiSDAProtocol) (n n' : option ServerIdentity)
    (m : message CS) :
  p_Dispatch li p (mkStruct n m) = p_Dispatch li p (mkStruct n' m).
Proof. by destruct m. Qed.

(** func (p) handleTimeout: the addresses of the late nodes, for toHandler *)
Definition p_handleTimeout (p : PriFiSDAProtocol) (clientsIds trusteesIds : list Z)
    : go (list string * list string) :=
  clients ← mapM (λ v, n ← nonNil (ms_clients (p_ms p) !! v); Ret (si_Address n)) clientsIds;
  trustees ← mapM (λ v, n ← nonNil (ms_trustees (p_ms p) !! v); Ret (si_Address n)) trusteesIds;
  Ret (clients, trustees).
End protocol.

Arguments SpecializedLibInstance CS : clear implicits.
Arguments libInputs CS : clear implicits.
Arguments PriFiIdentity CS {O}.
Arguments MessageSender CS {O}.
Arguments PriFiSDAWrapperConfig CS {O}.
Arguments PriFiSDAProtocol CS {O}.
Arguments Struct CS {O}.
Arguments mkStruct {CS O}.
