(* ===== verification/Service.v ===== *)
(** * The SDA service (sda/services/churn.go, prifi.go, service.go, config.go)

    Every node runs a service.  The relay's keeps the nodes that want to take
    part in a churn handler, and starts and stops the protocol as they come and
    go.  A call of the service reads and writes its state and a trace of what
    the outside world observes ([svc]); each handler of a message is one step.
    Goroutines that ping periodically are modelled by one tick of their loop.

    The order in which Go ranges over a map is the oracle [Range]: the n-th
    iteration of a run goes over some list of the entries. *)

From stdpp Require Import pretty.
From S2P Require Import Prelude Bytes Crypto Messages StateMachine Network Trustee Client Relay Protocol.

Open Scope Z_scope.

Section service.
Context {CS : CryptoSuite} {CK : Clock CS} {PS : ProofSystem CS} {O : Onet CS}.

(** ** Churn: data *)

(** type waitQueueEntry *)
Record waitQueueEntry := mkEntry {
  w_serverID : ServerIdentity;
  w_numericID : Z;
  w_role : PriFiRole
}.

(** type waitQueue *)
Record waitQueue := mkQueue {
  wq_trustees : gmap string waitQueueEntry;
  wq_clients : gmap string waitQueueEntry
}.

(** type churnHandler; the callbacks stopProtocol and isProtocolRunning are
    always the service's, [ch_canStart] tells whether startProtocol is set *)
Record churnHandler := mkChurn {
  ch_waitQueue : waitQueue;
  ch_nextFreeClientID : Z;
  ch_nextFreeTrusteeID : Z;
  ch_relayIdentity : ServerIdentity;
  ch_trusteesIDs : list ServerIdentity;
  ch_canStart : bool
}.
#[export] Instance eta_Churn : Eta churnHandler := λ r,
  mkChurn (ch_waitQueue r) (ch_nextFreeClientID r) (ch_nextFreeTrusteeID r) (ch_relayIdentity r)
    (ch_trusteesIDs r) (ch_canStart r).

(** ** The service: data and effects *)

(** The messages between services *)
Inductive serviceMsg := StopProtocol | StopSOCKS | ConnectionRequest (version : string)
  | HelloMsg | DisconnectionRequest.

(** What the outside world observes of a service *)
Inductive serviceEvent :=
| ProtocolStarted (roster : list ServerIdentity) (params : ALL_ALL_PARAMETERS CS)
| ProtocolStopped
| RawSent (to : ServerIdentity) (m : serviceMsg)
| GoRoutine (what : string)
| Profiling (on : bool).

(** type ServiceState.  A stop channel is the list of values that wait in it;
    [None] is nil.  connectToRelayStopChan has no buffer.  socksClientConfig and
    socksServerConfig are variables of the package. *)
Record ServiceState := mkService {
  s_prifiTomlConfig : option PrifiTomlConfig;
  s_role : PriFiRole;
  s_relayIdentity : option ServerIdentity;
  s_trusteeIDs : list ServerIdentity;
  s_connectToRelayRunning : bool;
  s_receivedHello : bool;
  s_AutoStart : bool;
  s_churnHandler : option churnHandler;
  s_PriFiSDAProtocol : option (PriFiSDAProtocol CS);
  s_socksStopChan : list (list bool);
  s_hasSocksClientGoRoutine : bool;
  s_hasSocksServerGoRoutine : bool;
  s_socksClientConfig : option SOCKSConfig;
  s_socksServerConfig : option SOCKSConfig;
  s_ranges : nat
}.
#[export] Instance eta_Service : Eta ServiceState := λ r,
  mkService (s_prifiTomlConfig r) (s_role r) (s_relayIdentity r) (s_trusteeIDs r)
    (s_connectToRelayRunning r) (s_receivedHello r) (s_AutoStart r) (s_churnHandler r)
    (s_PriFiSDAProtocol r) (s_socksStopChan r) (s_hasSocksClientGoRoutine r)
    (s_hasSocksServerGoRoutine r) (s_socksClientConfig r) (s_socksServerConfig r) (s_ranges r).

Definition svc (A : Type) : Type :=
  ServiceState * list serviceEvent → go (A * (ServiceState * list serviceEvent)).

#[export] Instance svc_ret : MRet svc := λ A a w, Ret (a, w).
#[export] Instance svc_bind : MBind svc := λ A B f m w,
  match m w with Ret (a, w) => f a w | Crash c => Crash c end.
Definition sLift {A} (m : go A) : svc A := λ w,
  match m with Ret a => Ret (a, w) | Crash c => Crash c end.
Definition sGet : svc ServiceState := λ w, Ret (w.1, w).
Definition sSet (f : ServiceState → ServiceState) : svc unit := λ w, Ret (tt, (f w.1, w.2)).
Definition sEmit (e : serviceEvent) : svc unit := λ w, Ret (tt, (w.1, w.2 ++ [e])).
Fixpoint sForEach {X} (f : X → svc unit) (l : list X) : svc unit :=
  match l with [] => mret tt | x :: l => _ ← f x; sForEach f l end.

(** The oracle for the order of map iterations *)
Context (Range : nat → gmap string waitQueueEntry → list (string * waitQueueEntry)).

Definition rangeMap (m : gmap string waitQueueEntry) : svc (list waitQueueEntry) :=
  s ← sGet;
  _ ← sSet (λ s, s <| s_ranges := S (s_ranges s) |>);
  mret ((Range (s_ranges s) m).*2).

(** [s.churnHandler] where the code dereferences it *)
Definition theChurn : svc churnHandler := s ← sGet; sLift (nonNil (s_churnHandler s)).
Definition setChurn (c : churnHandler) : svc unit := sSet (λ s, s <| s_churnHandler := Some c |>).

(** ** Churn: the operations that only read *)

Definition idFromServerIdentity (si : ServerIdentity) : string := si_Public si.

(** func (c) init *)
Definition churn_init (relayID : option ServerIdentity)
    (trusteesIDs : option (list ServerIdentity)) : go churnHandler :=
  match relayID, trusteesIDs with
  | None, _ => Crash (Fatal "Can't start the churnHandler without the relayID")
  | Some _, None => Crash (Fatal "Can't start the churnHandler without the trusteesIDs")
  | Some relayID, Some trusteesIDs => Ret (mkChurn (mkQueue ∅ ∅) 0 0 relayID trusteesIDs false)
  end.

(** func (wq) contains *)
Definition contains (wq : waitQueue) (stringID : string) (isTrustee : bool) : bool :=
  if isTrustee then bool_decide (is_Some (wq_trustees wq !! stringID))
  else bool_decide (is_Some (wq_clients wq !! stringID)).

(** func (wq) count *)
Definition count (wq : waitQueue) : Z * Z :=
  (Z.of_nat (size (wq_clients wq)), Z.of_nat (size (wq_trustees wq))).

(** func (c) isATrustee *)
Definition isATrustee (c : churnHandler) (ID : ServerIdentity) : bool :=
  existsb (λ v, si_Equal v ID) (ch_trusteesIDs c).

(** [participants[i] = v.serverID; i++] *)
Definition placeAll (acc : list ServerIdentity * Z) (l : list waitQueueEntry)
    : go (list ServerIdentity * Z) :=
  go_fold (λ '(ps, i) v, ps ← set_index ps i (w_serverID v); Ret (ps, i + 1)) acc l.

(** func (c) createRoster *)
Definition createRoster (c : churnHandler) : svc (list ServerIdentity) :=
  let '(n, m) := count (ch_waitQueue c) in
  let participants := replicate (Z.to_nat (n + m + 1)) (ch_relayIdentity c) in
  clients ← rangeMap (wq_clients (ch_waitQueue c));
  '(participants, i) ← sLift (placeAll (participants, 1) clients);
  trustees ← rangeMap (wq_trustees (ch_waitQueue c));
  '(participants, _) ← sLift (placeAll (participants, i) trustees);
  mret participants.

(** func (c) CountParticipants *)
Definition CountParticipants (c : churnHandler) : Z * Z := count (ch_waitQueue c).

(** [res[id(v)] = PriFiIdentity{role, v.numericID, v.serverID}] *)
Definition addIdentities (role : PriFiRole) (res : gmap string (PriFiIdentity CS))
    (l : list waitQueueEntry) : gmap string (PriFiIdentity CS) :=
  foldl (λ res v, <[idFromServerIdentity (w_serverID v) :=
                     mkIdentity role (w_numericID v) (w_serverID v)]> res) res l.

(** func (c) createIdentitiesMap *)
Definition createIdentitiesMap (c : churnHandler) : svc (gmap string (PriFiIdentity CS)) :=
  let res := {[ idFromServerIdentity (ch_relayIdentity c) :=
                  mkIdentity Role_Relay 0 (ch_relayIdentity c) ]} in
  clients ← rangeMap (wq_clients (ch_waitQueue c));
  let res := addIdentities Role_Client res clients in
  trustees ← rangeMap (wq_trustees (ch_waitQueue c));
  mret (addIdentities Role_Trustee res trustees).

(** func (c) getClientsIdentities, getTrusteesIdentities *)
Definition getClientsIdentities (c : churnHandler) : svc (list ServerIdentity) :=
  l ← rangeMap (wq_clients (ch_waitQueue c)); mret (w_serverID <$> l).
Definition getTrusteesIdentities (c : churnHandler) : svc (list ServerIdentity) :=
  l ← rangeMap (wq_trustees (ch_waitQueue c)); mret (w_serverID <$> l).

(** ** Starting and stopping the protocol *)

(** func (s) IsPriFiProtocolRunning *)
Definition IsPriFiProtocolRunning (s : ServiceState) : bool :=
  match s_PriFiSDAProtocol s with Some p => negb (p_HasStopped p) | None => false end.

(** func (s) setConfigToPriFiProtocol *)
Definition setConfigToPriFiProtocol (li : libInputs CS) (wrapper : PriFiSDAProtocol CS)
    : svc (PriFiSDAProtocol CS) :=
  s ← sGet;
  relay ← sLift (nonNil (s_relayIdentity s));
  identitiesMap ←
    (if decide (s_role s = Role_Relay) then c ← theChurn; createIdentitiesMap c
     else mret {[ idFromServerIdentity relay := mkIdentity Role_Relay 0 relay ]});
  sLift (SetConfigFromPriFiService li wrapper
    (mkConfig (s_prifiTomlConfig s) identitiesMap (s_role s) (s_socksClientConfig s)
       (s_socksServerConfig s))).

(** func (s) StartPriFiCommunicateProtocol.  [tmp] and [created] are the answers
    of TempFile and CreateProtocol. *)
Definition StartPriFiCommunicateProtocol (tmp created : bool) (li : libInputs CS) : svc unit :=
  if negb tmp then sLift (Crash (Fatal "Cannot create temporary file")) else
  _ ← sEmit (Profiling true);
  s ← sGet;
  if decide (s_role s ≠ Role_Relay) then mret tt else
  c ← theChurn;
  roster ← createRoster c;
  if negb created then sLift (Crash (Fatal "Unable to start Prifi protocol:")) else
  let wrapper := NewPriFiSDAWrapperProtocol (tree_List roster (ch_relayIdentity c)) in
  _ ← sSet (λ s, s <| s_PriFiSDAProtocol := Some wrapper |>);
  wrapper ← setConfigToPriFiProtocol li wrapper;
  _ ← sSet (λ s, s <| s_PriFiSDAProtocol := Some wrapper |>);
  params ← sLift (Start wrapper);
  sEmit (ProtocolStarted roster params).

(** func (s) StopPriFiCommunicateProtocol *)
Definition StopPriFiCommunicateProtocol (li : libInputs CS) : svc unit :=
  s ← sGet;
  if negb (IsPriFiProtocolRunning s) then mret tt else
  match s_PriFiSDAProtocol s with
  | None => mret tt
  | Some p =>
      _ ← sLift (Stop li p);
      _ ← sSet (λ s, s <| s_PriFiSDAProtocol := None |>);
      sEmit ProtocolStopped
  end.

(** ** Churn: the operations that change the queue *)

(** What a step of the service takes from outside *)
Record serviceInputs := mkServiceInputs {
  si_tmp : bool;
  si_created : bool;
  si_lib : libInputs CS
}.

(** func (c) tryStartProtocol *)
Definition tryStartProtocol (x : serviceInputs) : svc unit :=
  c ← theChurn;
  let '(nClients, nTrustees) := count (ch_waitQueue c) in
  if (1 <=? nClients) && (1 <=? nTrustees) then
    s ← sGet;
    _ ← (if IsPriFiProtocolRunning s then StopPriFiCommunicateProtocol (si_lib x) else mret tt);
    if negb (ch_canStart c) then mret tt
    else StartPriFiCommunicateProtocol (si_tmp x) (si_created x) (si_lib x)
  else mret tt.

(** func (c) handleConnection, for the sender of the envelope *)
Definition handleConnection (x : serviceInputs) (from : ServerIdentity) : svc unit :=
  c ← theChurn;
  let ID := idFromServerIdentity from in
  let isTrustee := isATrustee c from in
  let wq := ch_waitQueue c in
  if contains wq ID isTrustee then mret tt else
  _ ← setChurn
        (if isTrustee then
           c <| ch_waitQueue := mkQueue (<[ID := mkEntry from (ch_nextFreeTrusteeID c) Role_Trustee]>
                                           (wq_trustees wq)) (wq_clients wq) |>
             <| ch_nextFreeTrusteeID := ch_nextFreeTrusteeID c + 1 |>
         else
           c <| ch_waitQueue := mkQueue (wq_trustees wq)
                                  (<[ID := mkEntry from (ch_nextFreeClientID c) Role_Client]>
                                     (wq_clients wq)) |>
             <| ch_nextFreeClientID := ch_nextFreeClientID c + 1 |>);
  tryStartProtocol x.

(** func (c) handleUnknownDisconnection *)
Definition handleUnknownDisconnection (x : serviceInputs) : svc unit :=
  c ← theChurn;
  _ ← setChurn (c <| ch_waitQueue := mkQueue ∅ ∅ |> <| ch_nextFreeClientID := 0 |>
                  <| ch_nextFreeTrusteeID := 0 |>);
  _ ← StopPriFiCommunicateProtocol (si_lib x);
  tryStartProtocol x.

(** func (c) handleDisconnection *)
Definition handleDisconnection (x : serviceInputs) (from : ServerIdentity) : svc unit :=
  c ← theChurn;
  if negb (contains (ch_waitQueue c) (idFromServerIdentity from) (isATrustee c from)) then mret tt
  else handleUnknownDisconnection x.

(** ** The handlers of the service *)

(** func (s) HandleStop *)
Definition HandleStop (x : serviceInputs) : svc unit := StopPriFiCommunicateProtocol (si_lib x).

(** func (s) HandleHelloMsg *)
Definition HandleHelloMsg (from : ServerIdentity) : svc unit :=
  s ← sGet;
  if decide (s_role s ≠ Role_Trustee) then mret tt else
  if s_receivedHello s then mret tt else
  _ ← sSet (λ s, s <| s_relayIdentity := Some from |>);
  _ ← sEmit (GoRoutine "connectToRelay2");
  sSet (λ s, s <| s_receivedHello := true |>).

(** func (s) HandleConnection *)
Definition HandleConnection (x : serviceInputs) (from : ServerIdentity) (version : string) : svc unit :=
  s ← sGet;
  if decide (s_churnHandler s = None)
  then sLift (Crash (Fatal "Can't handle a connection without a churnHandler")) else
  toml ← sLift (nonNil (s_prifiTomlConfig s));
  if negb (String.eqb (tm_ProtocolVersion toml) version)
  then sLift (Crash (Fatal "Different CommitID between relay and ")) else
  handleConnection x from.

(** func (s) HandleDisconnection *)
Definition HandleDisconnection (x : serviceInputs) (from : ServerIdentity) : svc unit :=
  s ← sGet;
  match s_churnHandler s with
  | None => sLift (Crash (Fatal "Can't handle a disconnection without a churnHandler"))
  | Some _ => handleDisconnection x from
  end.

(** func (s) NetworkErrorHappened; stopping the goroutine of a node that is not
    the relay is a send on a channel without buffer *)
Definition NetworkErrorHappened (x : serviceInputs) : svc unit :=
  _ ← sEmit (Profiling false);
  s ← sGet;
  if decide (s_role s ≠ Role_Relay) then
    if s_connectToRelayRunning s then sSet (λ s, s <| s_connectToRelayRunning := false |>)
    else sLift (Crash Blocks)
  else
    match s_churnHandler s with
    | None => sLift (Crash (Fatal "Can't handle a network error without a churnHandler"))
    | Some _ => handleUnknownDisconnection x
    end.

(** func (s) handleTimeout *)
Definition s_handleTimeout (x : serviceInputs) (lateClients lateTrustees : list string) : svc unit :=
  NetworkErrorHappened x.

(** func (s) HasEnoughParticipants, CountParticipants *)
Definition HasEnoughParticipants : svc bool :=
  c ← theChurn; let '(t, c) := CountParticipants c in mret ((1 <=? t) && (1 <=? c)).

(** func (s) sendConnectionRequest, sendHelloMessage *)
Definition sendConnectionRequest (relayID : ServerIdentity) : svc unit :=
  s ← sGet;
  toml ← sLift (nonNil (s_prifiTomlConfig s));
  sEmit (RawSent relayID (ConnectionRequest (tm_ProtocolVersion toml))).
Definition sendHelloMessage (trusteeID : ServerIdentity) : svc unit := sEmit (RawSent trusteeID HelloMsg).

(** One tick of connectToTrustees and of connectToRelay *)
Definition connectToTrusteesTick (trusteesIDs : list ServerIdentity) : svc unit :=
  s ← sGet;
  if negb (IsPriFiProtocolRunning s) then sForEach sendHelloMessage trusteesIDs else mret tt.
Definition connectToRelayTick (relayID : ServerIdentity) : svc unit :=
  s ← sGet;
  if negb (IsPriFiProtocolRunning s) then sendConnectionRequest relayID else mret tt.

(** ** Starting a node *)

(** func mapIdentities; a group is the list of its nodes with their descriptions *)
Definition mapIdentities (group : list (ServerIdentity * string))
    : option ServerIdentity * list ServerIdentity :=
  foldl (λ '(relay, trustees) '(si, description),
           if String.eqb description "relay" then (Some si, trustees)
           else if String.eqb description "trustee" then (relay, trustees ++ [si])
           else (relay, trustees)) (None, []) group.

(** func newService and SetConfigFromToml *)
Definition newService (toml : PrifiTomlConfig) (autoStart : bool) : ServiceState :=
  mkService (Some toml) Role_Relay None [] false false autoStart None None [] false false None None 0.

(** ["127.0.0.1:" + strconv.Itoa(port)] *)
Definition localPort (port : Z) : string := "127.0.0.1:" +:+ pretty port.

(** func (s) StartRelay *)
Definition StartRelay (group : list (ServerIdentity * string)) : svc unit :=
  let '(relayID, trusteesIDs) := mapIdentities group in
  _ ← sSet (λ s, s <| s_role := Role_Relay |> <| s_relayIdentity := relayID |>);
  s ← sGet;
  c ← sLift (churn_init relayID (Some trusteesIDs));
  _ ← setChurn (c <| ch_canStart := s_AutoStart s |>);
  toml ← sLift (nonNil (s_prifiTomlConfig s));
  _ ← sSet (λ s, s <| s_socksServerConfig :=
                      Some (mkSocks (localPort (tm_SocksClientPort toml)) 0 (tm_PayloadSize toml) [] []) |>);
  _ ← (if negb (s_hasSocksClientGoRoutine s) then
         _ ← sEmit (GoRoutine "StartEgressHandler");
         sSet (λ s, s <| s_socksStopChan := s_socksStopChan s ++ [[]] |>
                      <| s_hasSocksClientGoRoutine := true |>)
       else mret tt);
  _ ← sEmit (GoRoutine "connectToTrustees");
  sForEach sendHelloMessage trusteesIDs.

(** func (s) RelayAllowAutoStart *)
Definition RelayAllowAutoStart : svc unit :=
  s ← sGet;
  match s_churnHandler s with
  | None => sLift (Crash (Fatal "Cannot allow auto start when relay has not been initialized"))
  | Some c => setChurn (c <| ch_canStart := true |>)
  end.

(** func (s) StartClient *)
Definition StartClient (group : list (ServerIdentity * string)) : svc unit :=
  let '(relayID, trusteeIDs) := mapIdentities group in
  _ ← sSet (λ s, s <| s_role := Role_Client |> <| s_relayIdentity := relayID |>);
  s ← sGet;
  toml ← sLift (nonNil (s_prifiTomlConfig s));
  _ ← sSet (λ s, s <| s_socksClientConfig :=
                      Some (mkSocks "" (tm_SocksServerPort toml) (tm_PayloadSize toml) [] []) |>);
  _ ← (if negb (s_hasSocksServerGoRoutine s) then
         _ ← sEmit (GoRoutine "StartIngressServer");
         sSet (λ s, s <| s_socksStopChan := s_socksStopChan s ++ [[]] |>
                      <| s_hasSocksServerGoRoutine := true |>)
       else mret tt);
  _ ← sSet (λ s, s <| s_trusteeIDs := trusteeIDs |> <| s_connectToRelayRunning := true |>);
  sEmit (GoRoutine "connectToRelay").

(** func (s) StartTrustee *)
Definition StartTrustee (group : list (ServerIdentity * string)) : svc unit :=
  let '(relayID, _) := mapIdentities group in
  _ ← sSet (λ s, s <| s_role := Role_Trustee |> <| s_relayIdentity := relayID |>
                   <| s_connectToRelayRunning := true |>);
  sEmit (GoRoutine "connectToRelay").

(** func (s) StartSocksTunnelOnly: the two SOCKS ends share their channels *)
Definition StartSocksTunnelOnly : svc unit :=
  s ← sGet;
  toml ← sLift (nonNil (s_prifiTomlConfig s));
  _ ← sSet (λ s,
        s <| s_socksClientConfig :=
               Some (mkSocks "" (tm_SocksServerPort toml) (tm_PayloadSize toml) [] []) |>
          <| s_socksServerConfig :=
               Some (mkSocks (localPort (tm_SocksClientPort toml)) 0 (tm_PayloadSize toml) [] []) |>);
  _ ← sEmit (GoRoutine "StartIngressServer");
  _ ← sEmit (GoRoutine "StartEgressHandler");
  sSet (λ s, s <| s_socksStopChan := s_socksStopChan s ++ [[]; []] |>).

(** func (s) NewProtocol: on every node but the relay, when the first message of
    a protocol comes *)
Definition NewProtocol (li : libInputs CS) (nodes : list ServerIdentity) : svc unit :=
  let wrapper := NewPriFiSDAWrapperProtocol nodes in
  _ ← sSet (λ s, s <| s_PriFiSDAProtocol := Some wrapper |>);
  wrapper ← setConfigToPriFiProtocol li wrapper;
  sSet (λ s, s <| s_PriFiSDAProtocol := Some wrapper |>).

(** [v <- true] on a channel with a buffer of one *)
Definition pushStop (ch : list bool) : go (list bool) :=
  if (length ch <? 1)%nat then Ret (ch ++ [true]) else Crash Blocks.

(** func (s) ShutdownSocks, HandleStopSOCKS *)
Definition ShutdownSocks : svc unit :=
  s ← sGet;
  chans ← sLift (mapM pushStop (s_socksStopChan s));
  sSet (λ s, s <| s_socksStopChan := chans |>).

(** func (s) GlobalShutDownSocks *)
Definition GlobalShutDownSocks : svc unit :=
  c ← theChurn;
  clients ← getClientsIdentities c;
  _ ← sForEach (λ v, sEmit (RawSent v StopSOCKS)) clients;
  ShutdownSocks.

(** ** What reaches the running protocol *)

(** A message of the tree for the running protocol *)
Definition protocolMessage (x : serviceInputs) (msg : Struct CS) : svc unit :=
  s ← sGet;
  match s_PriFiSDAProtocol s with
  | None => mret tt
  | Some p =>
      '(_, p) ← sLift (p_Dispatch (si_lib x) p msg);
      sSet (λ s, s <| s_PriFiSDAProtocol := Some p |>)
  end.

(** The timeout of a round of the relay: its goroutine holds processingLock, and
    calls the timeout handler of the protocol, which calls the service's, before
    it releases it. *)
Definition timedOut (new : list (event CS)) : option (list Z * list Z) :=
  match last new with Some (TimedOut cs ts) => Some (cs, ts) | _ => None end.

Definition roundTimeout (x : serviceInputs) (roundID : Z) : svc unit :=
  s ← sGet;
  match s_PriFiSDAProtocol s with
  | Some p =>
      match p_prifiLibInstance p with
      | Some (LibRelay r) =>
          '(_, (r, tr)) ← sLift (@checkIfRoundHasEndedAfterTimeOut_Phase1 CS (ms_network (p_ms p)) CK
                                   roundID (r, p_trace p));
          let new := drop (length (p_trace p)) tr in
          let p := p <| p_prifiLibInstance := Some (LibRelay r) |> <| p_trace := tr |> in
          match timedOut new with
          | None => sSet (λ s, s <| s_PriFiSDAProtocol := Some p |>)
          | Some (cs, ts) =>
              _ ← sSet (λ s, s <| s_PriFiSDAProtocol := Some (p <| p_locked := true |>) |>);
              '(clients, trustees) ← sLift (p_handleTimeout p cs ts);
              _ ← s_handleTimeout x clients trustees;
              sSet (λ s, s <| s_PriFiSDAProtocol :=
                          (λ p, p <| p_locked := false |>) <$> s_PriFiSDAProtocol s |>)
          end
      | _ => mret tt
      end
  | None => mret tt
  end.

(** ** Symbolic evaluation *)

Lemma s_run_bind {A B} (m : svc A) (f : A → svc B) w :
  (m ≫= f) w = match m w with Ret (a, w) => f a w | Crash c => Crash c end.
Proof. done. Qed.

Lemma s_run_churn c s tr : s_churnHandler s = Some c → theChurn (s, tr) = Ret (c, (s, tr)).
Proof. intros H. unfold theChurn. rewrite s_run_bind. cbn. by rewrite H. Qed.

(** ** Calls that leave a part of the state alone *)

Definition sKeeps {A T} (proj : ServiceState → T) (m : svc A) : Prop :=
  ∀ s tr a s' tr', m (s, tr) = Ret (a, (s', tr')) → proj s' = proj s.

Lemma svc_bind_inv {A B} (m : svc A) (f : A → svc B) w b w' :
  (m ≫= f) w = Ret (b, w') → ∃ a w1, m w = Ret (a, w1) ∧ f a w1 = Ret (b, w').
Proof. unfold mbind, svc_bind. destruct (m w) as [[a w1]|]; [eauto | done]. Qed.

Section skeeps.
Context {T : Type} (proj : ServiceState → T).

Lemma sKeeps_ret {A} (a : A) : sKeeps proj (mret a).
Proof. by intros s tr a' s' tr' [= <- <- <-]. Qed.

Lemma sKeeps_bind {A B} (m : svc A) (f : A → svc B) :
  sKeeps proj m → (∀ a, sKeeps proj (f a)) → sKeeps proj (m ≫= f).
Proof.
  intros Hm Hf s tr b s' tr' H. apply svc_bind_inv in H as (a & [s1 tr1] & H1 & H2).
  apply Hm in H1. apply Hf in H2. congruence.
Qed.

Lemma sKeeps_lift {A} (m : go A) : sKeeps proj (sLift m).
Proof. intros s tr a s' tr'. unfold sLift. destruct m; [|done]. by intros [= <- <- <-]. Qed.

Lemma sKeeps_get : sKeeps proj sGet.
Proof. by intros s tr a s' tr' [= <- <- <-]. Qed.

Lemma sKeeps_set f : (∀ s, proj (f s) = proj s) → sKeeps proj (sSet f).
Proof. intros Hf s tr a s' tr' [= <- <-]. apply Hf. Qed.

Lemma sKeeps_emit e : sKeeps proj (sEmit e).
Proof. by intros s tr a s' tr' [= <- <-]. Qed.

Lemma sKeeps_forEach {X} (f : X → svc unit) l :
  (∀ x, sKeeps proj (f x)) → sKeeps proj (sForEach f l).
Proof.
  intros Hf. induction l as [|x l IH]; [apply sKeeps_ret|]. by apply sKeeps_bind.
Qed.
End skeeps.
End service.

(** Go through a call of the service. *)
Ltac solve_skeeps :=
  repeat first
    [ apply sKeeps_ret | apply sKeeps_lift | apply sKeeps_get | apply sKeeps_set; done
    | apply sKeeps_emit | apply sKeeps_forEach; intros ? | apply sKeeps_bind; [|intros ?]
    | match goal with
      | |- sKeeps _ (if ?b then _ else _) => destruct b
      | |- sKeeps _ (match ?x with _ => _ end) => destruct x
      end ].
