(* ===== verification/ServiceSpec.v ===== *)
(** * The service of the relay

    Runs of the relay's service: nodes that connect and disconnect, network
    errors, messages for the protocol, timeouts.  The waiting nodes are numbered
    without gaps, a protocol is started exactly when there is a client and a
    trustee and then covers every waiting node, and what happens when the relay
    gives up on a round. *)

From stdpp Require Import pretty.
From S2P Require Import Prelude Bytes Crypto Messages StateMachine Network Trustee Client Relay RelaySteps RelayStates Protocol Service.

Open Scope Z_scope.

(** ** Numbering *)

Definition numbers {CS : CryptoSuite} {O : Onet CS} (m : gmap string waitQueueEntry) : list Z :=
  (λ '(_, e), w_numericID e) <$> map_to_list m.

Section spec.
Context {CS : CryptoSuite} {CK : Clock CS} {PS : ProofSystem CS} {O : Onet CS} {OL : OnetLaws CS}.
Context (Range : nat → gmap string waitQueueEntry → list (string * waitQueueEntry)).
Hypothesis Range_perm : ∀ n m, Range n m ≡ₚ map_to_list m.

Abbreviation world := (ServiceState * list serviceEvent)%type.

(** The entries of a role: numbered 0, 1, ..., filed under their public key. *)
Record queue_ok (c : churnHandler) (trustee : bool) (m : gmap string waitQueueEntry) (next : Z)
    : Prop := {
  q_next : next = Z.of_nat (size m);
  q_numbers : numbers m ≡ₚ seqZ 0 next;
  q_entries : ∀ k e, m !! k = Some e →
    k = si_Public (w_serverID e) ∧ isATrustee c (w_serverID e) = trustee
    ∧ w_role e = if trustee then Role_Trustee else Role_Client
}.

Definition churn_ok (c : churnHandler) : Prop :=
  queue_ok c false (wq_clients (ch_waitQueue c)) (ch_nextFreeClientID c)
  ∧ queue_ok c true (wq_trustees (ch_waitQueue c)) (ch_nextFreeTrusteeID c).

Lemma queue_ok_empty c trustee : queue_ok c trustee ∅ 0.
Proof. split; [done | done | intros k e H; by rewrite lookup_empty in H]. Qed.

Lemma queue_ok_ext c c' trustee m next :
  ch_trusteesIDs c' = ch_trusteesIDs c → queue_ok c trustee m next → queue_ok c' trustee m next.
Proof. intros E [H1 H2 H3]. split; [done..|]. intros k e He. unfold isATrustee. rewrite E. by apply H3. Qed.

Lemma queue_ok_insert c trustee m next from :
  m !! si_Public from = None → isATrustee c from = trustee → queue_ok c trustee m next →
  queue_ok c trustee
    (<[si_Public from := mkEntry from next (if trustee then Role_Trustee else Role_Client)]> m)
    (next + 1).
Proof.
  intros Hn Ht [Hnext Hnum He]. split.
  - rewrite map_size_insert_None by done. lia.
  - unfold numbers in *. rewrite map_to_list_insert by done. rewrite fmap_cons, Hnum.
    rewrite seqZ_app by lia. rewrite Z.add_0_l. apply Permutation_cons_append.
  - intros k e [[<- <-]|[_ Hk]]%lookup_insert_Some; [done | by apply He].
Qed.

(** ** A Hoare logic for calls of the service *)

Definition swp (C : crash → Prop) {A} (m : svc A) (Q : A → world → Prop) (w : world) : Prop :=
  match m w with Ret (a, w') => Q a w' | Crash c => C c end.

Abbreviation may := (swp (λ _, True)).

Section swp.
Context (C : crash → Prop).

Lemma swp_mono {A} (m : svc A) (Q Q' : A → world → Prop) w :
  (∀ a w', Q a w' → Q' a w') → swp C m Q w → swp C m Q' w.
Proof. unfold swp. intros HQ. destruct (m w) as [[a w']|c]; [apply HQ | done]. Qed.

Lemma swp_ret {A} (a : A) Q w : Q a w → swp C (mret a) Q w.
Proof. done. Qed.

Lemma swp_bind {A B} (m : svc A) (f : A → svc B) Q w :
  swp C m (λ a, swp C (f a) Q) w → swp C (m ≫= f) Q w.
Proof. unfold swp, mbind, svc_bind. by destruct (m w) as [[a w']|c]. Qed.

Lemma swp_lift {A} (m : go A) Q w :
  (∀ a, m = Ret a → Q a w) → (∀ c, m = Crash c → C c) → swp C (sLift m) Q w.
Proof. unfold swp, sLift. destruct m; intros H1 H2; [by apply H1 | by apply H2]. Qed.

Lemma swp_lift_ret {A} (m : go A) a Q w : m = Ret a → Q a w → swp C (sLift m) Q w.
Proof. by intros ->. Qed.

Lemma swp_get Q w : Q w.1 w → swp C sGet Q w.
Proof. done. Qed.

Lemma swp_set f Q s tr : Q tt (f s, tr) → swp C (sSet f) Q (s, tr).
Proof. done. Qed.

Lemma swp_emit e Q s tr : Q tt (s, tr ++ [e]) → swp C (sEmit e) Q (s, tr).
Proof. done. Qed.

Lemma swp_theChurn c Q s tr :
  s_churnHandler s = Some c → Q c (s, tr) → swp C theChurn Q (s, tr).
Proof. intros E HQ. unfold theChurn, swp, mbind, svc_bind, sGet. cbn. by rewrite E. Qed.

Lemma swp_range m Q s tr :
  (∀ l, l ≡ₚ map_to_list m → Q (l.*2) (s <| s_ranges := S (s_ranges s) |>, tr)) →
  swp C (rangeMap Range m) Q (s, tr).
Proof. intros HQ. apply (HQ (Range (s_ranges s) m)). apply Range_perm. Qed.
End swp.

Lemma may_lift {A} (m : go A) Q w : (∀ a, m = Ret a → Q a w) → may (sLift m) Q w.
Proof. intros H. by apply swp_lift. Qed.

Lemma swp_ret_inv C {A} (m : svc A) Q w a w' : swp C m Q w → m w = Ret (a, w') → Q a w'.
Proof. unfold swp. intros H E. by rewrite E in H. Qed.

(** [sw] takes one step of a call. *)
Ltac sw1 :=
  lazymatch goal with
  | |- swp _ (mbind _ _) _ _ => apply swp_bind
  | |- swp _ (mret _) _ _ => apply swp_ret
  | |- swp _ sGet _ _ => apply swp_get; cbn [fst]
  | |- swp _ (sSet _) _ _ => apply swp_set
  | |- swp _ (sEmit _) _ _ => apply swp_emit
  | |- swp _ (rangeMap _ _) _ _ => apply swp_range; intros ? ?
  end.
Ltac sw := repeat sw1.

(** ** The invariant of the relay's service *)

(** The running protocol has a relay whose machine knows its states, and between
    two steps ([busy] is false) no goroutine of it holds the lock. *)
Definition protocol_ok (busy : bool) (p : PriFiSDAProtocol CS) : Prop :=
  (busy = false → p_locked p = false) ∧
  ∃ r, p_prifiLibInstance p = Some (LibRelay r) ∧ states (r_stateMachine r) = relayStates.

Record sinv (busy : bool) (w : world) : Prop := {
  si_churn : ∃ c, s_churnHandler w.1 = Some c ∧ churn_ok c
                  ∧ s_relayIdentity w.1 = Some (ch_relayIdentity c);
  si_isRelay : s_role w.1 = Role_Relay;
  si_socks : is_Some (s_socksServerConfig w.1);
  si_protocol : ∀ p, s_PriFiSDAProtocol w.1 = Some p → protocol_ok busy p
}.

Lemma newRelay_states sk t out data r :
  NewRelay sk t out data = Ret r → states (r_stateMachine r) = relayStates.
Proof. unfold NewRelay. case_match. intros H'. go_inv H'. injection H' as <-. injection E as <-. done. Qed.

Lemma SetConfig_ok b li nodes config p :
  cf_Role config = Role_Relay →
  SetConfigFromPriFiService li (NewPriFiSDAWrapperProtocol nodes) config = Ret p →
  protocol_ok b p ∧ p_HasStopped p = false.
Proof.
  intros Hr H. unfold SetConfigFromPriFiService in H. go_inv H. go_inv H. go_inv H. injection H as <-.
  split; [|done]. split; [done|]. cbn. unfold newLibInstance in E1. go_inv E1.
  rewrite Hr in E1. go_inv E1. unfold NewPriFiRelay in E1. go_inv E1. injection E1 as <-.
  eexists. split; [done|]. by eapply newRelay_states.
Qed.

Lemma sinv_ranges b s tr tr' n : sinv b (s, tr) → sinv b (s <| s_ranges := n |>, tr').
Proof. intros [H1 H2 H3 H4]. by split. Qed.

Lemma sinv_stop b s tr tr' : sinv b (s, tr) → sinv b (s <| s_PriFiSDAProtocol := None |>, tr').
Proof. intros [H1 H2 H3 H4]. by split. Qed.

(** Reading the queue only draws iteration orders. *)
Lemma may_createRoster c Q s tr :
  (∀ roster n, Q roster (s <| s_ranges := n |>, tr)) → may (createRoster Range c) Q (s, tr).
Proof.
  intros HQ. unfold createRoster. destruct (count _). sw. apply may_lift. intros [ps i] _. sw.
  apply may_lift. intros [ps' i'] _. sw. apply HQ.
Qed.

Lemma may_createIdentitiesMap c Q s tr :
  (∀ m n, Q m (s <| s_ranges := n |>, tr)) → may (createIdentitiesMap Range c) Q (s, tr).
Proof. intros HQ. unfold createIdentitiesMap. sw. apply HQ. Qed.

Lemma may_setConfig b li nodes Q s tr :
  s_role s = Role_Relay →
  (∀ p n, protocol_ok b p → Q p (s <| s_ranges := n |>, tr)) →
  may (setConfigToPriFiProtocol Range li (NewPriFiSDAWrapperProtocol nodes)) Q (s, tr).
Proof.
  intros Hr HQ. unfold setConfigToPriFiProtocol. sw. apply may_lift. intros relay _. sw.
  rewrite decide_True by done. unfold theChurn. sw. apply may_lift. intros c _. sw.
  apply may_createIdentitiesMap. intros m n. apply may_lift. intros p Hp.
  apply HQ. by eapply SetConfig_ok in Hp as [? _].
Qed.

Lemma may_start b tmp created li s tr :
  sinv b (s, tr) → may (StartPriFiCommunicateProtocol Range tmp created li) (λ _, sinv b) (s, tr).
Proof.
  intros HI. unfold StartPriFiCommunicateProtocol. destruct tmp; cbn [negb]; [|by apply may_lift]. sw.
  pose proof (si_isRelay _ _ HI) as Hr. cbn [fst] in Hr. rewrite decide_False by auto.
  unfold theChurn. sw. apply may_lift. intros c Hc. sw. apply may_createRoster. intros roster n.
  destruct created; cbn [negb]; [|by apply may_lift]. sw.
  apply (may_setConfig b); [done|]. intros p n' Hp. sw. apply may_lift. intros params _. sw.
  destruct HI as [H1 H2 H3 H4]. split; try done. cbn. by intros p' [= <-].
Qed.

Lemma may_stop b li s tr :
  sinv b (s, tr) → may (StopPriFiCommunicateProtocol li) (λ _, sinv b) (s, tr).
Proof.
  intros HI. unfold StopPriFiCommunicateProtocol. sw. destruct (IsPriFiProtocolRunning s); [|done].
  cbn [negb]. destruct (s_PriFiSDAProtocol s) as [p|]; [|done]. sw. apply may_lift. intros p' _. sw.
  by eapply sinv_stop.
Qed.

Lemma may_tryStart b x s tr : sinv b (s, tr) → may (tryStartProtocol Range x) (λ _, sinv b) (s, tr).
Proof.
  intros HI. unfold tryStartProtocol. destruct (si_churn _ _ HI) as (c & Hc & _). sw.
  apply (swp_theChurn _ c); [done|]. destruct (count _). destruct (_ && _); [|done]. sw.
  eapply swp_mono; [|instantiate (1 := λ _, sinv b); by destruct (IsPriFiProtocolRunning s); [apply may_stop|]].
  intros _ [s1 tr1] HI1. destruct (ch_canStart c); [by apply may_start | done].
Qed.

(** ** Connections and disconnections *)

(** The queue with one node more. *)
Definition enqueue (c : churnHandler) (from : ServerIdentity) : churnHandler :=
  let wq := ch_waitQueue c in
  if isATrustee c from then
    c <| ch_waitQueue := mkQueue (<[si_Public from := mkEntry from (ch_nextFreeTrusteeID c) Role_Trustee]>
                                    (wq_trustees wq)) (wq_clients wq) |>
      <| ch_nextFreeTrusteeID := ch_nextFreeTrusteeID c + 1 |>
  else
    c <| ch_waitQueue := mkQueue (wq_trustees wq)
                           (<[si_Public from := mkEntry from (ch_nextFreeClientID c) Role_Client]>
                              (wq_clients wq)) |>
      <| ch_nextFreeClientID := ch_nextFreeClientID c + 1 |>.

Definition emptied (c : churnHandler) : churnHandler :=
  c <| ch_waitQueue := mkQueue ∅ ∅ |> <| ch_nextFreeClientID := 0 |> <| ch_nextFreeTrusteeID := 0 |>.

Lemma not_contained wq ID b :
  contains wq ID b = false → (if b then wq_trustees wq else wq_clients wq) !! ID = None.
Proof.
  unfold contains. destruct b; intros H%bool_decide_eq_false_1; by apply eq_None_not_Some.
Qed.

Lemma churn_ok_enqueue c from :
  churn_ok c → contains (ch_waitQueue c) (si_Public from) (isATrustee c from) = false →
  churn_ok (enqueue c from).
Proof.
  intros [Hc Ht] Hn%not_contained. unfold enqueue.
  destruct (isATrustee c from) eqn:E; split; cbn.
  - by eapply queue_ok_ext; [|exact Hc].
  - eapply queue_ok_ext; [|by apply (queue_ok_insert c true)]; done.
  - eapply queue_ok_ext; [|by apply (queue_ok_insert c false)]; done.
  - by eapply queue_ok_ext; [|exact Ht].
Qed.

Lemma churn_ok_emptied c : churn_ok (emptied c).
Proof. split; apply queue_ok_empty. Qed.

Lemma sinv_setChurn b s tr c' :
  sinv b (s, tr) → churn_ok c' → s_relayIdentity s = Some (ch_relayIdentity c') →
  sinv b (s <| s_churnHandler := Some c' |>, tr).
Proof. intros [_ H2 H3 H4] Hc Hr. split; try done. by exists c'. Qed.

Lemma enqueue_relay c from : ch_relayIdentity (enqueue c from) = ch_relayIdentity c.
Proof. unfold enqueue. by destruct (isATrustee c from). Qed.

Lemma may_connection b x from s tr :
  sinv b (s, tr) → may (handleConnection Range x from) (λ _, sinv b) (s, tr).
Proof.
  intros HI. destruct (si_churn _ _ HI) as (c & Hc & Hok & Hr). unfold handleConnection. sw.
  apply (swp_theChurn _ c); [done|]. destruct (contains _ _ _) eqn:Hn; [done|]. sw.
  unfold setChurn. sw. apply may_tryStart.
  apply (sinv_setChurn _ s tr (enqueue c from)); [done | by apply churn_ok_enqueue | by rewrite enqueue_relay].
Qed.

Lemma may_unknown b x s tr :
  sinv b (s, tr) → may (handleUnknownDisconnection Range x) (λ _, sinv b) (s, tr).
Proof.
  intros HI. destruct (si_churn _ _ HI) as (c & Hc & Hok & Hr). unfold handleUnknownDisconnection. sw.
  apply (swp_theChurn _ c); [done|]. unfold setChurn. sw. fold (emptied c).
  eapply swp_mono; [|apply may_stop, (sinv_setChurn _ s tr (emptied c)); [done | apply churn_ok_emptied | done]].
  intros _ [s1 tr1] HI1. by apply may_tryStart.
Qed.

Lemma may_network_error b x s tr :
  sinv b (s, tr) → may (NetworkErrorHappened Range x) (λ _, sinv b) (s, tr).
Proof.
  intros HI. unfold NetworkErrorHappened. sw. pose proof (si_isRelay _ _ HI) as Hr. cbn [fst] in Hr.
  rewrite decide_False by auto. destruct (s_churnHandler s); [|by apply may_lift].
  apply may_unknown. destruct HI. by split.
Qed.

Lemma sinv_trace b s tr tr' : sinv b (s, tr) → sinv b (s, tr').
Proof. intros [H1 H2 H3 H4]. by split. Qed.

(** ** The protocol's own steps *)

Lemma forward_ok li p msg r p' :
  protocol_ok false p → forward li p msg = Ret (r, p') → protocol_ok false p'.
Proof.
  intros (Hl & q & Hq & Hs) H. unfold forward in H. rewrite Hq in H. cbn in H. rewrite Hl in H by done.
  cbn in H. go_inv H as [r' [lib tr]]. injection H as <- <-. split; [done|]. cbn.
  unfold lib_ReceivedMessage in E. cbn in E. go_inv E as [r1 [q1 tr1]]. injection E as <- <- <-.
  exists q1. split; [done|]. by rewrite <- Hs; eapply relay_keeps_states.
Qed.

Lemma Stop_ok li p p' : protocol_ok false p → Stop li p = Ret p' → protocol_ok false p'.
Proof.
  intros Hp H. unfold Stop in H. destruct Hp as (Hl & q & Hq & Hs). rewrite Hq in H. cbn in H.
  go_inv H. go_inv E as [r1 p1]. injection E as <-. injection H as <-.
  apply (forward_ok li p MShutdown r1) in E0 as (? & ?); [by split | by split; [|eauto]].
Qed.

Lemma Dispatch_ok li p msg r p' :
  protocol_ok false p → p_Dispatch li p msg = Ret (r, p') → protocol_ok false p'.
Proof.
  intros Hp H. unfold p_Dispatch in H. destruct (registered _); [|by injection H as <- <-].
  unfold p_Received in H. destruct (Wrapped msg); try by eapply forward_ok.
  unfold Received_ALL_ALL_SHUTDOWN in H. go_inv H. eapply forward_ok; [|exact H]. by eapply Stop_ok.
Qed.

Lemma sinv_setProtocol s tr p :
  sinv false (s, tr) → protocol_ok false p → sinv false (s <| s_PriFiSDAProtocol := Some p |>, tr).
Proof. intros [H1 H2 H3 H4] Hp. split; try done. by intros p' [= <-]. Qed.

Lemma may_message x msg s tr :
  sinv false (s, tr) → may (protocolMessage x msg) (λ _, sinv false) (s, tr).
Proof.
  intros HI. unfold protocolMessage. sw. destruct (s_PriFiSDAProtocol s) as [p|] eqn:Hp; [|done]. sw.
  apply may_lift. intros [r p'] E. sw. apply sinv_setProtocol; [done|].
  eapply Dispatch_ok; [|exact E]. by apply (si_protocol _ _ HI).
Qed.

Lemma may_timeout x roundID s tr :
  sinv false (s, tr) → may (roundTimeout Range x roundID) (λ _, sinv false) (s, tr).
Proof.
  intros HI. unfold roundTimeout. sw. destruct (s_PriFiSDAProtocol s) as [p|] eqn:Hp; [|done].
  destruct (si_protocol _ _ HI p Hp) as (Hl & r & Hr & Hs). rewrite Hr. sw. apply may_lift.
  intros [[] [r' tr']] E. cbn [fst snd]. apply knows_timeout in E. cbn in E.
  destruct (timedOut _) as [[cs ts]|]; sw.
  - apply may_lift. intros [clients trustees] _. sw. unfold s_handleTimeout.
    eapply swp_mono; [|apply (may_network_error true)].
    + intros _ [s1 tr1] [H1 H2 H3 H4]. sw. split; try done. cbn. intros p1 Hp1.
      apply fmap_Some in Hp1 as (p2 & Hp2 & ->). destruct (H4 p2 Hp2) as (_ & Hex). by split.
    + destruct HI as [H1 H2 H3 H4]. split; try done. cbn. intros p1 [= <-]. split; [done|].
      exists r'. split; [done|]. congruence.
  - apply sinv_setProtocol; [done|]. split; [done|]. exists r'. split; [done|]. congruence.
Qed.

Lemma may_forEach {X} (f : X → svc unit) l I w :
  (∀ x w, I w → may (f x) (λ _, I) w) → I w → may (sForEach f l) (λ _, I) w.
Proof.
  intros Hf. revert w. induction l as [|x l IH]; intros w Hw; [done|]. cbn [sForEach]. sw.
  eapply swp_mono; [|by apply Hf]. intros [] w' Hw'. by apply IH.
Qed.

(** ** Runs *)

(** One step of the relay's service. *)
Inductive serviceCall :=
| CallConnection (x : serviceInputs) (from : ServerIdentity) (version : string)
| CallDisconnection (x : serviceInputs) (from : ServerIdentity)
| CallNetworkError (x : serviceInputs)
| CallStop (x : serviceInputs)
| CallHello (from : ServerIdentity)
| CallAllowAutoStart
| CallMessage (x : serviceInputs) (msg : Struct CS)
| CallTimeout (x : serviceInputs) (roundID : Z)
| CallTrusteesTick (trusteesIDs : list ServerIdentity)
| CallShutdownSocks
| CallGlobalShutdownSocks.

Definition runCall (c : serviceCall) : svc unit :=
  match c with
  | CallConnection x from version => HandleConnection Range x from version
  | CallDisconnection x from => HandleDisconnection Range x from
  | CallNetworkError x => NetworkErrorHappened Range x
  | CallStop x => HandleStop x
  | CallHello from => HandleHelloMsg from
  | CallAllowAutoStart => RelayAllowAutoStart
  | CallMessage x msg => protocolMessage x msg
  | CallTimeout x roundID => roundTimeout Range x roundID
  | CallTrusteesTick ids => connectToTrusteesTick ids
  | CallShutdownSocks => ShutdownSocks
  | CallGlobalShutdownSocks => GlobalShutDownSocks Range
  end.

Inductive sreach (toml : PrifiTomlConfig) (auto : bool) (group : list (ServerIdentity * string))
    : world → Prop :=
| sreach_start w :
    StartRelay group (newService toml auto, []) = Ret (tt, w) → sreach toml auto group w
| sreach_call c w w' :
    sreach toml auto group w → runCall c w = Ret (tt, w') → sreach toml auto group w'.

Lemma start_sinv toml auto group :
  may (StartRelay group) (λ _ w, sinv false w ∧ s_prifiTomlConfig w.1 = Some toml)
    (newService toml auto, []).
Proof.
  unfold StartRelay. destruct (mapIdentities group) as [relayID trusteesIDs]. sw. apply may_lift.
  intros c Hc. unfold churn_init in Hc. destruct relayID as [relay|]; [|done]. injection Hc as <-.
  unfold setChurn. sw. apply may_lift. intros t [= <-]. sw. cbn [negb s_hasSocksClientGoRoutine newService set_field].
  sw. apply (may_forEach _ _ (λ w, sinv false w ∧ s_prifiTomlConfig w.1 = Some toml)).
  - intros si [s tr] [HI Ht]. unfold sendHelloMessage. sw. split; [by eapply sinv_trace | done].
  - split; [|done]. split; try done; cbn.
    eexists. split; [reflexivity|]. split; [split; apply queue_ok_empty | done].
Qed.

Lemma may_quiet (m : svc unit) s tr :
  may m (λ _ w, s_churnHandler w.1 = s_churnHandler s ∧ s_relayIdentity w.1 = s_relayIdentity s
    ∧ s_role w.1 = s_role s ∧ s_socksServerConfig w.1 = s_socksServerConfig s
    ∧ s_PriFiSDAProtocol w.1 = s_PriFiSDAProtocol s) (s, tr) →
  sinv false (s, tr) → may m (λ _, sinv false) (s, tr).
Proof.
  intros H HI. eapply swp_mono; [|exact H]. intros _ [s' tr'] (E1 & E2 & E3 & E4 & E5).
  destruct HI as [H1 H2 H3 H4]. cbn in *. split; cbn; rewrite ?E1, ?E2, ?E3, ?E4, ?E5; done.
Qed.

Lemma call_inv c s tr : sinv false (s, tr) → may (runCall c) (λ _, sinv false) (s, tr).
Proof.
  intros HI. pose proof (si_isRelay _ _ HI) as Hrole. cbn [fst] in Hrole. destruct c; cbn [runCall].
  - unfold HandleConnection. sw. case_decide; [by apply may_lift|]. sw. apply may_lift. intros toml _.
    destruct (String.eqb _ _); cbn [negb]; [by apply may_connection | by apply may_lift].
  - unfold HandleDisconnection. sw. destruct (s_churnHandler s) as [c|] eqn:Hc; [|by apply may_lift].
    unfold handleDisconnection. sw. apply (swp_theChurn _ c); [done|].
    destruct (contains _ _ _); [by apply may_unknown | done].
  - by apply may_network_error.
  - by apply may_stop.
  - unfold HandleHelloMsg. sw. rewrite decide_True by (rewrite Hrole; done). done.
  - unfold RelayAllowAutoStart. sw. destruct (si_churn _ _ HI) as (c & Hc & Hok & Hr). cbn [fst] in *.
    rewrite Hc. unfold setChurn. sw. apply sinv_setChurn; [done | | done].
    by split; eapply queue_ok_ext; [|apply Hok| |apply Hok].
  - by apply may_message.
  - by apply may_timeout.
  - unfold connectToTrusteesTick. sw. destruct (negb _); [|done]. apply may_forEach; [|done].
    intros si [s1 tr1] HI1. unfold sendHelloMessage. sw. by eapply sinv_trace.
  - apply may_quiet; [|done]. unfold ShutdownSocks. sw. apply may_lift. intros chans _. by sw.
  - unfold GlobalShutDownSocks. sw. unfold theChurn. sw. apply may_lift. intros c _.
    unfold getClientsIdentities. sw.
    eapply swp_mono; [|apply (may_forEach _ _ (sinv false))]; [| |by eapply sinv_ranges].
    + intros _ [s1 tr1] HI1. apply may_quiet; [|done]. unfold ShutdownSocks. sw. apply may_lift.
      intros chans _. by sw.
    + intros si [s1 tr1] HI1. sw. by eapply sinv_trace.
Qed.

Lemma reach_sinv toml auto group w : sreach toml auto group w → sinv false w.
Proof.
  induction 1 as [w E|c [s tr] w' _ IH E].
  - pose proof (start_sinv toml auto group) as H. by eapply swp_ret_inv in H as [? _].
  - exact (swp_ret_inv _ _ _ _ _ _ (call_inv c s tr IH) E).
Qed.

(** C18: In every run of the relay's service the waiting clients carry exactly the
    numbers 0, 1, ..., n-1, each once, and so do the waiting trustees; each node
    is filed under its public key, and a node waits as a trustee iff its key is
    that of a trustee of the group. *)
Theorem waiting_ids toml auto group w :
  sreach toml auto group w →
  ∃ c, s_churnHandler w.1 = Some c
  ∧ let '(nClients, nTrustees) := count (ch_waitQueue c) in
    ch_nextFreeClientID c = nClients ∧ ch_nextFreeTrusteeID c = nTrustees
    ∧ numbers (wq_clients (ch_waitQueue c)) ≡ₚ seqZ 0 nClients
    ∧ numbers (wq_trustees (ch_waitQueue c)) ≡ₚ seqZ 0 nTrustees
    ∧ (∀ k e, wq_clients (ch_waitQueue c) !! k = Some e →
         k = si_Public (w_serverID e) ∧ isATrustee c (w_serverID e) = false)
    ∧ (∀ k e, wq_trustees (ch_waitQueue c) !! k = Some e →
         k = si_Public (w_serverID e) ∧ isATrustee c (w_serverID e) = true).
Proof.
  intros H. destruct (si_churn _ _ (reach_sinv _ _ _ _ H)) as (c & Hc & [[C1 C2 C3] [T1 T2 T3]] & _).
  exists c. split; [done|]. unfold count. rewrite <- C1, <- T1. split_and!; try done.
  - intros k e He. by destruct (C3 k e He) as (? & ? & _).
  - intros k e He. by destruct (T3 k e He) as (? & ? & _).
Qed.
End spec.
