(* ===== verification/ServiceStart.v ===== *)
(** * What a protocol start covers

    When enough nodes wait, the relay's service starts a protocol whose roster,
    message sender and parameters cover exactly the waiting nodes; and what its
    relay does with the parameters. *)

From stdpp Require Import pretty.
From S2P Require Import Prelude Bytes Crypto Messages StateMachine RoundManager Network HandlerLogic Trustee Client Relay RelaySteps RelayStates Protocol Service ServiceSpec.

Open Scope Z_scope.

Section start.
Context {CS : CryptoSuite} {CK : Clock CS} {PS : ProofSystem CS} {O : Onet CS} {OL : OnetLaws CS}.
Context (Range : nat → gmap string waitQueueEntry → list (string * waitQueueEntry)).
Hypothesis Range_perm : ∀ n m, Range n m ≡ₚ map_to_list m.

Abbreviation must := (swp (λ _, False)).

(** The servers that wait in a queue. *)
Definition servers (m : gmap string waitQueueEntry) : list ServerIdentity :=
  w_serverID <$> (map_to_list m).*2.

Lemma length_servers m : length (servers m) = size m.
Proof. unfold servers. by rewrite !length_fmap, length_map_to_list. Qed.

Lemma servers_elem m si : si ∈ servers m ↔ ∃ k e, m !! k = Some e ∧ w_serverID e = si.
Proof.
  unfold servers. rewrite list_elem_of_fmap. setoid_rewrite list_elem_of_fmap. split.
  - intros (e & -> & [k e'] & -> & He). exists k, e'. by apply elem_of_map_to_list in He.
  - intros (k & e & He & <-). exists e. split; [done|]. exists (k, e). split; [done|].
    by apply elem_of_map_to_list.
Qed.

(** ** The roster *)

Lemma placeAll_ok l pre post :
  (length l ≤ length post)%nat →
  placeAll (pre ++ post, len pre) l
  = Ret (pre ++ (w_serverID <$> l) ++ drop (length l) post, len pre + len l).
Proof.
  revert pre post. induction l as [|e l IH]; intros pre post Hl; unfold placeAll.
  { cbn. f_equal. f_equal. unfold len. simpl. lia. }
  rewrite go_fold_cons. destruct post as [|si post]; [simpl in Hl; lia|].
  rewrite set_index_ret by (rewrite len_app; unfold len; simpl; lia). cbn [mbind go_bind].
  rewrite to_nat_len. replace (length pre) with (length pre + 0)%nat by lia.
  rewrite insert_app_r. cbn [insert list_insert].
  replace (pre ++ w_serverID e :: post) with ((pre ++ [w_serverID e]) ++ post) by by rewrite <- app_assoc.
  replace (len pre + 1) with (len (pre ++ [w_serverID e])) by (rewrite len_app; done).
  specialize (IH (pre ++ [w_serverID e]) post). unfold placeAll in IH. rewrite IH by (simpl in Hl; lia).
  rewrite fmap_cons. cbn [drop length]. rewrite <- !app_assoc. rewrite len_app.
  change (len (e :: l)) with (len ([e] ++ l)). rewrite (len_app [e]). change (len [e]) with 1.
  change (len [w_serverID e]) with 1. do 2 f_equal. lia.
Qed.

Lemma must_createRoster c Q s tr :
  (∀ cl tl n, cl ≡ₚ servers (wq_clients (ch_waitQueue c)) →
     tl ≡ₚ servers (wq_trustees (ch_waitQueue c)) →
     Q (ch_relayIdentity c :: cl ++ tl) (s <| s_ranges := n |>, tr)) →
  must (createRoster Range c) Q (s, tr).
Proof.
  intros HQ. unfold createRoster, count. apply swp_bind, swp_range; [done|]. intros cl Hcl. apply swp_bind.
  assert (length cl = size (wq_clients (ch_waitQueue c))) as Hlc
    by (rewrite Hcl; apply length_map_to_list).
  set (n := size (wq_clients (ch_waitQueue c))) in *. set (m := size (wq_trustees (ch_waitQueue c))).
  replace (replicate (Z.to_nat (Z.of_nat n + Z.of_nat m + 1)) (ch_relayIdentity c))
    with ([ch_relayIdentity c] ++ replicate (n + m) (ch_relayIdentity c))
    by (change ([?x] ++ ?l) with (x :: l); rewrite <- replicate_S; f_equal; lia).
  eapply swp_lift_ret; [apply (placeAll_ok cl.*2 [ch_relayIdentity c]); rewrite length_fmap, length_replicate; lia|].
  rewrite drop_replicate, length_fmap, Hlc.
  apply swp_bind, swp_range; [done|]. intros tl Htl. apply swp_bind.
  assert (length tl = m) as Hlt by (rewrite Htl; apply length_map_to_list).
  rewrite (assoc_L (++)).
  eapply swp_lift_ret.
  - replace (len [ch_relayIdentity c] + len cl.*2) with (len ([ch_relayIdentity c] ++ (w_serverID <$> cl.*2)))
      by (rewrite len_app; unfold len; by rewrite !length_fmap).
    apply placeAll_ok. rewrite length_fmap, length_replicate. lia.
  - rewrite length_fmap, Hlt, drop_replicate. replace (n + m - n - m)%nat with 0%nat by lia.
    rewrite app_nil_r. apply swp_ret.
    apply (HQ (w_serverID <$> cl.*2) (w_serverID <$> tl.*2)); unfold servers; by f_equiv; f_equiv.
Qed.

(** ** The identities *)

Lemma addIdentities_role role res l k :
  id_Role <$> (addIdentities role res l !! k)
  = if decide (k ∈ (λ e, si_Public (w_serverID e)) <$> l) then Some role else id_Role <$> (res !! k).
Proof.
  revert res. induction l as [|e l IH]; intros res; [done|]. unfold addIdentities in *. cbn [foldl].
  rewrite IH. rewrite fmap_cons. unfold idFromServerIdentity.
  destruct (decide (k ∈ _ <$> l)) as [Hin|Hin]; [by rewrite decide_True by set_solver|].
  destruct (decide (k = si_Public (w_serverID e))) as [->|Hne].
  - rewrite lookup_insert_eq, decide_True by set_solver. done.
  - rewrite lookup_insert_ne, decide_False by set_solver. done.
Qed.

Lemma must_createIdentitiesMap c Q s tr :
  (∀ ids n,
     (∀ k, id_Role <$> (ids !! k)
       = if decide (k ∈ si_Public <$> servers (wq_trustees (ch_waitQueue c))) then Some Role_Trustee
         else if decide (k ∈ si_Public <$> servers (wq_clients (ch_waitQueue c))) then Some Role_Client
         else if decide (k = si_Public (ch_relayIdentity c)) then Some Role_Relay else None) →
     Q ids (s <| s_ranges := n |>, tr)) →
  must (createIdentitiesMap Range c) Q (s, tr).
Proof.
  intros HQ. unfold createIdentitiesMap. apply swp_bind, swp_range; [done|]. intros cl Hcl.
  apply swp_bind, swp_range; [done|]. intros tl Htl. apply swp_ret, HQ. intros k.
  rewrite !addIdentities_role.
  assert (∀ l (m : gmap string waitQueueEntry) (k : string), l ≡ₚ map_to_list m →
    k ∈ (λ e, si_Public (w_serverID e)) <$> l.*2 ↔ k ∈ si_Public <$> servers m) as Hperm.
  { intros l m k' Hl. unfold servers. by rewrite <- Hl, <- (list_fmap_compose w_serverID). }
  pose proof (Hperm tl _ k Htl) as Ht. pose proof (Hperm cl _ k Hcl) as Hc.
  unfold idFromServerIdentity. repeat case_decide; try (done || tauto).
  - subst. by rewrite lookup_singleton_eq.
  - by rewrite lookup_singleton_ne.
Qed.

(** ** The message sender *)

(** [m] numbers the elements of [l]: 0, 1, ... in order. *)
Definition numbered (m : gmap Z ServerIdentity) (l : list ServerIdentity) : Prop :=
  size m = length l ∧ ∀ i, m !! i = if 0 <=? i then l !! Z.to_nat i else None.

Lemma numbered_empty : numbered ∅ [].
Proof. split; [done|]. intros i. rewrite lookup_empty, lookup_nil. by destruct (0 <=? i). Qed.

Lemma numbered_snoc m l x : numbered m l → numbered (<[len l := x]> m) (l ++ [x]).
Proof.
  intros [Hs Hm].
  assert (m !! len l = None) as Hn.
  { rewrite Hm, to_nat_len. destruct (0 <=? len l); [by rewrite lookup_ge_None_2 by lia | done]. }
  split.
  - rewrite map_size_insert_None by done. rewrite length_app. simpl. lia.
  - intros i. destruct (decide (i = len l)) as [->|Hne].
    + rewrite lookup_insert_eq, to_nat_len.
      rewrite (proj2 (Z.leb_le _ _)) by apply len_nonneg. by rewrite lookup_app_r, Nat.sub_diag by lia.
    + rewrite lookup_insert_ne by done. rewrite Hm. destruct (Z.leb_spec 0 i) as [Hi|Hi]; [|done].
      destruct (decide (Z.to_nat i < length l)%nat) as [Hlt|Hge].
      * by rewrite lookup_app_l.
      * unfold len in Hne. rewrite lookup_ge_None_2, lookup_ge_None_2; [done | |lia].
        rewrite length_app. simpl. lia.
Qed.

(** The nodes that have a role. *)
Definition withRole (ids : gmap string (PriFiIdentity CS)) (role : PriFiRole)
    (nodes : list ServerIdentity) : list ServerIdentity :=
  filter (λ n, id_Role <$> (ids !! si_Public n) = Some role) nodes.

Definition roleOf_key (ids : gmap string (PriFiIdentity CS)) (k : string) : option PriFiRole :=
  id_Role <$> (ids !! k).
Definition roleOf (ids : gmap string (PriFiIdentity CS)) (n : ServerIdentity) : option PriFiRole :=
  roleOf_key ids (si_Public n).

Definition pick (ids : gmap string (PriFiIdentity CS)) (role : PriFiRole) (n : ServerIdentity)
    : list ServerIdentity := if decide (roleOf ids n = Some role) then [n] else [].

Lemma withRole_cons ids role n nodes :
  withRole ids role (n :: nodes) = pick ids role n ++ withRole ids role nodes.
Proof. unfold withRole, pick. rewrite filter_cons. unfold roleOf, roleOf_key. by case_decide. Qed.

Lemma addNode_step ids n ms cl tl :
  numbered (ms_clients ms) cl → numbered (ms_trustees ms) tl →
  (length (option_list (ms_relay ms) ++ pick ids Role_Relay n) ≤ 1)%nat →
  ∃ ms', addNode ids (ms, len cl, len tl) n
    = Ret (ms', len (cl ++ pick ids Role_Client n), len (tl ++ pick ids Role_Trustee n))
  ∧ numbered (ms_clients ms') (cl ++ pick ids Role_Client n)
  ∧ numbered (ms_trustees ms') (tl ++ pick ids Role_Trustee n)
  ∧ option_list (ms_relay ms') = option_list (ms_relay ms) ++ pick ids Role_Relay n.
Proof.
  intros Hc Ht Hr. unfold addNode, pick, roleOf, roleOf_key in *.
  destruct (ids !! si_Public n) as [id|]; cbn [fmap option_fmap option_map] in *.
  2:{ repeat case_decide; try done. exists ms. by rewrite !app_nil_r. }
  destruct (id_Role id); repeat case_decide; try done; rewrite ?app_nil_r.
  - destruct (ms_relay ms); [cbn in Hr; lia|]. by eexists.
  - eexists. split; [by rewrite len_app|]. split; [by apply numbered_snoc | done].
  - eexists. split; [by rewrite len_app|]. split; [done|]. split; [by apply numbered_snoc | done].
Qed.

Lemma addNode_fold ids nodes ms cl tl :
  numbered (ms_clients ms) cl → numbered (ms_trustees ms) tl →
  (length (option_list (ms_relay ms) ++ withRole ids Role_Relay nodes) ≤ 1)%nat →
  ∃ ms' i j, go_fold (addNode ids) (ms, len cl, len tl) nodes = Ret (ms', i, j)
  ∧ numbered (ms_clients ms') (cl ++ withRole ids Role_Client nodes)
  ∧ numbered (ms_trustees ms') (tl ++ withRole ids Role_Trustee nodes)
  ∧ option_list (ms_relay ms') = option_list (ms_relay ms) ++ withRole ids Role_Relay nodes.
Proof.
  revert ms cl tl. induction nodes as [|n nodes IH]; intros ms cl tl Hc Ht Hr.
  { exists ms, (len cl), (len tl). unfold withRole. cbn. by rewrite !app_nil_r. }
  rewrite !withRole_cons, !(assoc_L (++)) in *. rewrite go_fold_cons.
  destruct (addNode_step ids n ms cl tl) as (ms1 & -> & Hc1 & Ht1 & Hr1); [done..| |].
  { rewrite length_app in Hr. lia. }
  cbn [mbind go_bind]. rewrite <- Hr1. apply IH; [done..|]. by rewrite Hr1.
Qed.

(** A sender built from nodes with one relay numbers the clients and the
    trustees in the order of the tree. *)
Lemma buildMessageSender_ok ids nodes relay :
  withRole ids Role_Relay nodes = [relay] →
  ∃ ms, buildMessageSender nodes ids = Ret ms ∧ ms_relay ms = Some relay
  ∧ numbered (ms_clients ms) (withRole ids Role_Client nodes)
  ∧ numbered (ms_trustees ms) (withRole ids Role_Trustee nodes).
Proof.
  intros Hr.
  destruct (addNode_fold ids nodes (mkMessageSender None ∅ ∅) [] [])
    as (ms & i & j & E & H1 & H2 & H3); [apply numbered_empty..| by rewrite Hr |].
  exists ms. unfold buildMessageSender. change (len (@nil ServerIdentity)) with 0 in E. rewrite E.
  split; [done|]. rewrite Hr in H3. cbn in H3. split; [|done].
  destruct (ms_relay ms); [|done]. cbn in H3. by injection H3 as ->.
Qed.

(** ** A started protocol *)

Abbreviation clientsOf c := (wq_clients (ch_waitQueue c)).
Abbreviation trusteesOf c := (wq_trustees (ch_waitQueue c)).

(** The relay itself does not wait. *)
Definition relay_apart (c : churnHandler) : Prop :=
  ∀ si, si ∈ servers (clientsOf c) ++ servers (trusteesOf c) →
    si_Public si ≠ si_Public (ch_relayIdentity c).

(** The protocol reaches exactly the waiting nodes: its clients are numbered 0,
    1, ..., in some order, and so are its trustees. *)
Record covers (c : churnHandler) (p : PriFiSDAProtocol CS) : Prop := {
  cov_relay : ms_relay (p_ms p) = Some (ch_relayIdentity c);
  cov_clients : ∃ cl, cl ≡ₚ servers (clientsOf c) ∧ numbered (ms_clients (p_ms p)) cl;
  cov_trustees : ∃ tl, tl ≡ₚ servers (trusteesOf c) ∧ numbered (ms_trustees (p_ms p)) tl;
  cov_running : p_HasStopped p = false;
  cov_ok : protocol_ok false p
}.

Lemma isATrustee_public c a b : si_Public a = si_Public b → isATrustee c a = isATrustee c b.
Proof.
  intros E. unfold isATrustee. apply existsb_ext. intros v.
  apply eq_true_iff_eq. rewrite !si_Equal_spec. by rewrite E.
Qed.

Lemma withRole_all ids role l :
  (∀ n, n ∈ l → roleOf ids n = Some role) → withRole ids role l = l.
Proof.
  induction l as [|n l IH]; intros H; [done|]. rewrite withRole_cons, IH by set_solver.
  unfold pick. by rewrite decide_True by (apply H; set_solver).
Qed.

Lemma withRole_none ids role role' l :
  (∀ n, n ∈ l → roleOf ids n = Some role') → role ≠ role' → withRole ids role l = [].
Proof.
  intros H Hne. induction l as [|n l IH]; [done|]. rewrite withRole_cons, IH by set_solver.
  unfold pick. rewrite decide_False; [done|]. rewrite (H n) by set_solver. congruence.
Qed.

Lemma withRole_app ids role l l' :
  withRole ids role (l ++ l') = withRole ids role l ++ withRole ids role l'.
Proof. apply filter_app. Qed.

(** The roles in a tree made of the relay and the waiting nodes. *)
Lemma withRole_tree ids relay cl tl nodes :
  nodes ≡ₚ relay :: cl ++ tl → roleOf ids relay = Some Role_Relay →
  (∀ n, n ∈ cl → roleOf ids n = Some Role_Client) →
  (∀ n, n ∈ tl → roleOf ids n = Some Role_Trustee) →
  withRole ids Role_Relay nodes = [relay] ∧ withRole ids Role_Client nodes ≡ₚ cl
  ∧ withRole ids Role_Trustee nodes ≡ₚ tl.
Proof.
  intros Hp Hr Hc Ht.
  assert (∀ role, withRole ids role nodes ≡ₚ pick ids role relay ++ withRole ids role cl ++ withRole ids role tl) as H.
  { intros role. rewrite <- withRole_app, <- withRole_cons. unfold withRole. by rewrite Hp. }
  split_and!.
  - specialize (H Role_Relay). rewrite (withRole_none _ _ _ cl Hc), (withRole_none _ _ _ tl Ht) in H by done.
    unfold pick in H. rewrite decide_True in H by done. by apply Permutation_singleton_r in H.
  - rewrite H, (withRole_all _ _ cl Hc), (withRole_none _ _ _ tl Ht) by done.
    unfold pick. rewrite decide_False by congruence. by rewrite app_nil_r.
  - rewrite H, (withRole_none _ _ _ cl Hc), (withRole_all _ _ tl Ht) by done.
    unfold pick. by rewrite decide_False by congruence.
Qed.

Lemma NewRelay_ret sk t out data : ∃ r, NewRelay sk t out data = Ret r.
Proof. unfold NewRelay. case_match. by eexists. Qed.

(** The roles the identities of a queue give. *)
Definition identifies (c : churnHandler) (ids : gmap string (PriFiIdentity CS)) : Prop :=
  ∀ k, roleOf_key ids k
     = if decide (k ∈ si_Public <$> servers (trusteesOf c)) then Some Role_Trustee
       else if decide (k ∈ si_Public <$> servers (clientsOf c)) then Some Role_Client
       else if decide (k = si_Public (ch_relayIdentity c)) then Some Role_Relay else None.

Lemma identifies_roles c ids :
  churn_ok c → relay_apart c → identifies c ids →
  roleOf ids (ch_relayIdentity c) = Some Role_Relay
  ∧ (∀ n, n ∈ servers (clientsOf c) → roleOf ids n = Some Role_Client)
  ∧ (∀ n, n ∈ servers (trusteesOf c) → roleOf ids n = Some Role_Trustee).
Proof.
  intros [Hqc Hqt] Hapart Hids. unfold roleOf. split_and!.
  - rewrite Hids. rewrite (decide_False (P := _ ∈ _)), (decide_False (P := _ ∈ _)), decide_True; [done..| |].
    all: intros (si & E & Hsi)%list_elem_of_fmap; eapply Hapart; [|exact (eq_sym E)]; set_solver.
  - intros n Hnc. rewrite Hids.
    rewrite decide_False, decide_True; [done | by apply list_elem_of_fmap_2 |].
    intros (si & E & Hsi)%list_elem_of_fmap.
    apply servers_elem in Hsi as (k & e & He & <-). apply servers_elem in Hnc as (k' & e' & He' & <-).
    destruct (q_entries _ _ _ _ Hqt _ _ He) as (_ & H1 & _).
    destruct (q_entries _ _ _ _ Hqc _ _ He') as (_ & H2 & _).
    rewrite (isATrustee_public c _ _ E) in H2. congruence.
  - intros n Hnt. rewrite Hids. by rewrite decide_True by (by apply list_elem_of_fmap_2).
Qed.

(** Configuring the protocol of a tree that holds the relay and the waiting
    nodes. *)
Lemma SetConfig_covers li c toml ids cc sc nodes :
  churn_ok c → relay_apart c → identifies c ids →
  nodes ≡ₚ ch_relayIdentity c :: servers (clientsOf c) ++ servers (trusteesOf c) →
  (0 < size (clientsOf c))%nat → (0 < size (trusteesOf c))%nat →
  ∃ p, SetConfigFromPriFiService li (NewPriFiSDAWrapperProtocol nodes)
         (mkConfig (Some toml) ids Role_Relay cc (Some sc)) = Ret p
  ∧ covers c p
  ∧ Start p = Ret (startParameters toml (Z.of_nat (size (trusteesOf c))) (Z.of_nat (size (clientsOf c)))).
Proof.
  intros Hok Hapart Hids Hn Hsc Hst.
  destruct (identifies_roles c ids Hok Hapart Hids) as (Rr & Rc & Rt).
  destruct (withRole_tree ids (ch_relayIdentity c) (servers (clientsOf c)) (servers (trusteesOf c)) nodes Hn)
    as (Hr & Hc & Ht); [done..|].
  destruct (buildMessageSender_ok ids nodes _ Hr) as (ms & E & Hrel & Hmc & Hmt).
  assert (size (ms_clients ms) = size (clientsOf c)) as Hzc
    by (rewrite (proj1 Hmc), Hc; apply length_servers).
  assert (size (ms_trustees ms) = size (trusteesOf c)) as Hzt
    by (rewrite (proj1 Hmt), Ht; apply length_servers).
  unfold SetConfigFromPriFiService. cbn [cf_Identities cf_Role p_nodes NewPriFiSDAWrapperProtocol].
  rewrite E. cbn [mbind go_bind]. unfold sanityCheck.
  rewrite (proj2 (Nat.ltb_ge _ 1)), (proj2 (Nat.ltb_ge _ 1)) by lia. cbn [mbind go_bind].
  unfold newLibInstance. cbn [cf_Toml nonNil mbind go_bind cf_Role cf_RelaySideSocksConfig].
  unfold NewPriFiRelay. destruct (NewRelay_ret (li_sk li) (li_now li) (tm_RelayDataOutputEnabled toml)
    (sk_DownstreamChannel sc)) as [r Hrelay]. rewrite Hrelay. cbn [mbind go_bind].
  eexists. split; [reflexivity|]. split; [split; cbn; [done|eauto|eauto|done|]|].
  - split; [done|]. exists r. split; [done|]. by eapply newRelay_states.
  - unfold Start. cbn. by rewrite Hzc, Hzt.
Qed.

Abbreviation nClientsOf c := (Z.of_nat (size (clientsOf c))).
Abbreviation nTrusteesOf c := (Z.of_nat (size (trusteesOf c))).

Lemma must_start li s tr c toml :
  s_churnHandler s = Some c → churn_ok c → relay_apart c →
  s_relayIdentity s = Some (ch_relayIdentity c) → s_role s = Role_Relay →
  is_Some (s_socksServerConfig s) → s_prifiTomlConfig s = Some toml →
  1 ≤ nClientsOf c → 1 ≤ nTrusteesOf c → nClientsOf c + nTrusteesOf c ≤ 100 →
  must (StartPriFiCommunicateProtocol Range true true li)
    (λ _ w, ∃ n p roster,
       w = (s <| s_ranges := n |> <| s_PriFiSDAProtocol := Some p |>,
            tr ++ [Profiling true;
                   ProtocolStarted roster (startParameters toml (nTrusteesOf c) (nClientsOf c))])
       ∧ covers c p
       ∧ roster ≡ₚ ch_relayIdentity c :: servers (clientsOf c) ++ servers (trusteesOf c)) (s, tr).
Proof.
  intros Hc Hok Hapart Hrel Hrole [sc Hsc] Htoml H1 H2 H3. unfold StartPriFiCommunicateProtocol.
  cbn [negb]. apply swp_bind, swp_emit, swp_bind, swp_get. cbn [fst]. rewrite decide_False by auto.
  apply swp_bind, (swp_theChurn _ c); [done|]. apply swp_bind, must_createRoster.
  intros cl tl n Hcl Htl. set (roster := _ :: cl ++ tl).
  assert (roster ≡ₚ ch_relayIdentity c :: servers (clientsOf c) ++ servers (trusteesOf c)) as Hroster
    by (unfold roster; by rewrite Hcl, Htl).
  apply swp_bind, swp_set, swp_bind. unfold setConfigToPriFiProtocol.
  apply swp_bind, swp_get. cbn [fst]. apply swp_bind.
  eapply swp_lift_ret; [cbn; rewrite Hrel; reflexivity|].
  apply swp_bind. rewrite decide_True by done.
  apply swp_bind, (swp_theChurn _ c); [done|]. apply must_createIdentitiesMap. intros ids n' Hids.
  destruct (SetConfig_covers li c toml ids (s_socksClientConfig s) sc
    (tree_List roster (ch_relayIdentity c)) Hok Hapart Hids) as (p & Hp & Hcov & Hstart).
  { rewrite tree_List_perm; [done | unfold roster; set_solver |].
    rewrite Hroster. cbn [length]. rewrite length_app, !length_servers. lia. }
  { lia. }
  { lia. }
  eapply swp_lift_ret; [cbn; rewrite Hrole, Htoml, Hsc; exact Hp|].
  apply swp_bind, swp_set, swp_bind. eapply swp_lift_ret; [exact Hstart|]. apply swp_emit.
  exists n', p, roster. split; [|done]. rewrite <- app_assoc. by destruct s.
Qed.

(** A relay that knows its states can be shut down. *)
Lemma relay_shutdown_ret `{!Network CS} rnd1 rnd2 r tr :
  states (r_stateMachine r) = relayStates →
  ∃ res w, r_ReceivedMessage rnd1 rnd2 MShutdown (r, tr) = Ret (res, w).
Proof.
  intros Hs. enough (wp (λ _, False) (r_ReceivedMessage rnd1 rnd2 MShutdown) (λ _ _, True) (r, tr)) as H.
  { unfold wp in H. destruct (r_ReceivedMessage _ _ _ _) as [[res w]|]; [eauto | done]. }
  change (r_ReceivedMessage rnd1 rnd2 MShutdown) with r_Received_ALL_ALL_SHUTDOWN.
  assert (∀ d (m : message CS) w, wp (λ _, False) (_ ← sendToWithLog d m; mret tt) (λ _ _, True)
    (w : PriFiLibRelayInstance CS * list (event CS))) as Hsend.
  { intros d m [p t]. apply wp_bind. apply wp_send. done. }
  unfold r_Received_ALL_ALL_SHUTDOWN, r_ChangeState, sendToTrustees, sendToClients, getR.
  apply wp_bind, wp_bind, wp_get, wp_bind.
  eapply wp_lift_ret; [unfold changeOrFatal; by rewrite Hs|]. apply wp_modify.
  apply wp_bind, wp_bind, wp_bind, wp_get, wp_ret.
  eapply wp_mono; [|apply (wp_forEach _ _ (λ _ _, True)); [intros; apply Hsend | done]].
  intros _ [p t] _. apply wp_bind, wp_bind, wp_bind, wp_get, wp_ret.
  eapply wp_mono; [|apply (wp_forEach _ _ (λ _ _, True)); [intros; apply Hsend | done]]. done.
Qed.

Lemma Stop_ret li p : protocol_ok false p → ∃ p', Stop li p = Ret p'.
Proof.
  intros (Hl & r & Hr & Hs). unfold Stop, forward. rewrite Hr. cbn [nonNil mbind go_bind].
  rewrite Hl by done. cbn [mbind go_bind]. unfold lib_ReceivedMessage. cbn [fst snd].
  destruct (@relay_shutdown_ret (ms_network (p_ms p)) (li_rnd1 li) (li_rnd2 li) r (p_trace p) Hs)
    as (res & [r' tr'] & ->). cbn. by eexists.
Qed.

(** ** Connections *)

Lemma must_stop li s tr :
  (∀ p, s_PriFiSDAProtocol s = Some p → protocol_ok false p) →
  must (if IsPriFiProtocolRunning s then StopPriFiCommunicateProtocol li else mret tt)
    (λ _ w, if IsPriFiProtocolRunning s
            then w = (s <| s_PriFiSDAProtocol := None |>, tr ++ [ProtocolStopped]) else w = (s, tr)) (s, tr).
Proof.
  intros Hp. destruct (IsPriFiProtocolRunning s) eqn:Hr; [|done].
  unfold StopPriFiCommunicateProtocol. apply swp_bind, swp_get. cbn [fst]. rewrite Hr. cbn [negb].
  unfold IsPriFiProtocolRunning in Hr. destruct (s_PriFiSDAProtocol s) as [p|]; [|done].
  destruct (Stop_ret li p (Hp p eq_refl)) as (p' & E). apply swp_bind.
  eapply swp_lift_ret; [exact E|]. by apply swp_bind, swp_set, swp_emit.
Qed.

(** What a start adds to the trace. *)
Definition startEvents (was_running : bool) (roster : list ServerIdentity)
    (params : ALL_ALL_PARAMETERS CS) : list serviceEvent :=
  (if was_running then [ProtocolStopped] else []) ++ [Profiling true; ProtocolStarted roster params].

Lemma must_tryStart x s tr c toml :
  sinv false (s, tr) → s_churnHandler s = Some c → churn_ok c → relay_apart c →
  s_relayIdentity s = Some (ch_relayIdentity c) → s_prifiTomlConfig s = Some toml →
  ch_canStart c = true → si_tmp x = true → si_created x = true →
  1 ≤ nClientsOf c → 1 ≤ nTrusteesOf c → nClientsOf c + nTrusteesOf c ≤ 100 →
  must (tryStartProtocol Range x)
    (λ _ w, s_churnHandler w.1 = Some c ∧ ∃ p roster, s_PriFiSDAProtocol w.1 = Some p ∧ covers c p
       ∧ roster ≡ₚ ch_relayIdentity c :: servers (clientsOf c) ++ servers (trusteesOf c)
       ∧ w.2 = tr ++ startEvents (IsPriFiProtocolRunning s) roster
                       (startParameters toml (nTrusteesOf c) (nClientsOf c))) (s, tr).
Proof.
  intros HI Hc Hok Hap Hrel Htoml Hcan Htmp Hcr H1 H2 H3. unfold tryStartProtocol, count.
  apply swp_bind, (swp_theChurn _ c); [done|]. cbn [fst snd].
  rewrite (proj2 (Z.leb_le 1 _) H1), (proj2 (Z.leb_le 1 _) H2). cbn [andb].
  apply swp_bind, swp_get, swp_bind. cbn [fst].
  eapply swp_mono; [|apply must_stop, HI]. intros [] w Hw. cbv beta in Hw. rewrite Hcan, Htmp, Hcr. cbn [negb].
  assert (∃ s1 tr1, w = (s1, tr1) ∧ s_churnHandler s1 = Some c ∧ s_relayIdentity s1 = s_relayIdentity s
    ∧ s_role s1 = s_role s ∧ s_socksServerConfig s1 = s_socksServerConfig s
    ∧ s_prifiTomlConfig s1 = s_prifiTomlConfig s
    ∧ tr1 = tr ++ if IsPriFiProtocolRunning s then [ProtocolStopped] else []) as (s1 & tr1 & -> & E1 & E2 & E3 & E4 & E5 & ->).
  { destruct (IsPriFiProtocolRunning s); subst w; eexists _, _; (split; [reflexivity|]);
      rewrite ?app_nil_r; done. }
  destruct HI as [_ Hrole Hsocks _]. cbn [fst] in *.
  eapply swp_mono; [|apply (must_start (si_lib x) s1 _ c toml); rewrite ?E2, ?E3, ?E4, ?E5; done].
  intros [] w (n & p & roster & -> & Hcov & Hroster). split; [done|]. exists p, roster.
  split; [done|]. split; [done|]. split; [done|]. cbn. by rewrite <- app_assoc.
Qed.

(** C17: Whenever a node that does not wait yet connects to a relay that may start
    protocols, the handler returns and the node waits.  If there is then a client
    and a trustee, a running protocol is stopped and a new one started: its
    roster is the relay and every waiting node once, its message sender numbers
    exactly the waiting clients and trustees 0, 1, ..., and its relay is told
    their numbers.  Otherwise nothing is started or stopped. *)
Theorem connection_starts_protocol x from s tr c toml :
  sinv false (s, tr) → s_churnHandler s = Some c → s_prifiTomlConfig s = Some toml →
  ch_canStart c = true → si_tmp x = true → si_created x = true →
  contains (ch_waitQueue c) (si_Public from) (isATrustee c from) = false →
  let c' := enqueue c from in
  relay_apart c' → nClientsOf c' + nTrusteesOf c' ≤ 100 →
  ∃ s' new, HandleConnection Range x from (tm_ProtocolVersion toml) (s, tr) = Ret (tt, (s', tr ++ new))
  ∧ s_churnHandler s' = Some c'
  ∧ if decide (1 ≤ nClientsOf c' ∧ 1 ≤ nTrusteesOf c') then
      ∃ p roster, s_PriFiSDAProtocol s' = Some p ∧ covers c' p
      ∧ roster ≡ₚ ch_relayIdentity c' :: servers (clientsOf c') ++ servers (trusteesOf c')
      ∧ new = startEvents (IsPriFiProtocolRunning s) roster
                (startParameters toml (nTrusteesOf c') (nClientsOf c'))
    else new = [] ∧ s_PriFiSDAProtocol s' = s_PriFiSDAProtocol s.
Proof.
  intros HI Hc Htoml Hcan Htmp Hcr Hnew c' Hap Hle.
  destruct (si_churn _ _ HI) as (c0 & Hc0 & Hok & Hrel). cbn [fst] in *.
  assert (c0 = c) as -> by congruence. clear Hc0.
  pose proof (churn_ok_enqueue c from Hok Hnew) as Hok'. fold c' in Hok'.
  assert (ch_canStart c' = true) as Hcan' by (unfold c', enqueue; by destruct (isATrustee c from)).
  pose proof (enqueue_relay c from : ch_relayIdentity c' = _) as Hr'.
  set (s1 := s <| s_churnHandler := Some c' |>).
  assert (HandleConnection Range x from (tm_ProtocolVersion toml) (s, tr)
          = tryStartProtocol Range x (s1, tr)) as ->.
  { unfold HandleConnection, mbind, svc_bind, sGet. cbn [fst]. rewrite decide_False by congruence.
    rewrite Htoml. cbn [nonNil sLift]. rewrite String.eqb_refl. cbn [negb].
    unfold handleConnection, theChurn, mbind, svc_bind, sGet. cbn [fst]. rewrite Hc.
    cbn [nonNil sLift]. unfold idFromServerIdentity. by rewrite Hnew. }
  case_decide as Henough.
  - destruct Henough as [H1 H2].
    pose proof (must_tryStart x s1 tr c' toml) as H. unfold swp in H.
    destruct (tryStartProtocol Range x (s1, tr)) as [[[] [s' tr']]|cr].
    + destruct H as (Hch & p & roster & Hp & Hcov & Hroster & Htr); try done.
      { apply sinv_setChurn; [done|done|]. by rewrite Hr'. }
      { by rewrite Hr'. }
      cbn [fst snd] in *. subst tr'. eexists s', _. split; [reflexivity|]. split; [done|]. by exists p, roster.
    + exfalso. apply H; try done; [apply sinv_setChurn; [done|done|] | ]; by rewrite Hr'.
  - exists s1, []. rewrite app_nil_r. split; [|done].
    unfold tryStartProtocol, theChurn, mbind, svc_bind, sGet, count. cbn [fst s_churnHandler s1 set_field nonNil sLift].
    destruct (Z.leb_spec 1 (nClientsOf c')), (Z.leb_spec 1 (nTrusteesOf c')); cbn [andb]; try done. lia.
Qed.

(** ** Giving up *)

(** The addresses of nodes the sender knows. *)
Lemma handleTimeout_ret (p : PriFiSDAProtocol CS) cs ts :
  Forall (λ i, is_Some (ms_clients (p_ms p) !! i)) cs →
  Forall (λ j, is_Some (ms_trustees (p_ms p) !! j)) ts → ∃ l, p_handleTimeout p cs ts = Ret l.
Proof.
  assert (∀ (m : gmap Z ServerIdentity) l, Forall (λ i, is_Some (m !! i)) l →
    ∃ k, mapM (λ v, n ← nonNil (m !! v); Ret (si_Address n)) l = Ret k) as Hm.
  { intros m l Hall. destruct (mapM_go_exists (λ v, n ← nonNil (m !! v); Ret (si_Address n)) id
      (λ _ _, True) l) as (k & E & _); [|eauto].
    intros i Hi. destruct (proj1 (Forall_forall _ _) Hall i Hi) as [n Hn]. rewrite Hn. by eexists. }
  intros Hcs Hts. unfold p_handleTimeout.
  destruct (Hm _ _ Hcs) as [k1 E1], (Hm _ _ Hts) as [k2 E2]. rewrite E1. cbn [mbind go_bind].
  rewrite E2. by eexists.
Qed.

(** C21: After too many failed rounds the relay's timeout calls the handler that
    should stop and restart the protocol, while it holds the relay's processing
    lock; the handler sends the relay a shutdown, which needs the same lock.  The
    goroutine blocks forever (and with it the queue of the service): the protocol
    is neither stopped nor restarted. *)
Theorem giving_up_blocks x round s tr p r :
  sinv false (s, tr) → s_PriFiSDAProtocol s = Some p → p_HasStopped p = false →
  p_prifiLibInstance p = Some (LibRelay r) →
  timely r round = true → too_many_failures r = true →
  (let '(cs, ts) := MissingCiphersForCurrentRound (r_roundManager (relayState r)) in
   Forall (λ i, is_Some (ms_clients (p_ms p) !! i)) cs
   ∧ Forall (λ j, is_Some (ms_trustees (p_ms p) !! j)) ts) →
  roundTimeout Range x round (s, tr) = Crash Blocks.
Proof.
  intros HI Hp Hrun Hlib Ht Hf Hknown. destruct (si_churn _ _ HI) as (c & Hc & _). cbn [fst] in Hc.
  pose proof (si_isRelay _ _ HI) as Hrole. cbn [fst] in Hrole.
  unfold roundTimeout, mbind, svc_bind, sGet. cbn [fst]. rewrite Hp, Hlib.
  rewrite timeout_cases, Ht, Hf. cbn [negb].
  destruct (MissingCiphersForCurrentRound _) as [cs ts]. destruct Hknown as [Hcs Hts].
  cbn [sLift]. rewrite drop_app_length. cbn [timedOut last].
  assert (∃ l, p_handleTimeout (p <| p_prifiLibInstance := Some (LibRelay (failed_once r)) |>
    <| p_trace := p_trace p ++ [TimedOut cs ts] |>) cs ts = Ret l) as [[l1 l2] Hl]
    by by apply handleTimeout_ret.
  cbn [sSet fst snd]. rewrite Hl. cbn [sLift].
  unfold s_handleTimeout, NetworkErrorHappened, sEmit, mbind, svc_bind, sGet.
  cbn [fst snd s_role set_field]. rewrite decide_False by (cbn; congruence). cbn [s_churnHandler set_field].
  rewrite Hc. unfold handleUnknownDisconnection, theChurn, setChurn, sSet, mbind, svc_bind, sGet.
  cbn [fst snd s_churnHandler set_field]. rewrite Hc. cbn [nonNil sLift].
  unfold StopPriFiCommunicateProtocol, mbind, svc_bind, sGet.
  cbn [fst snd IsPriFiProtocolRunning s_PriFiSDAProtocol set_field p_HasStopped]. rewrite Hrun. done.
Qed.
End start.
