(* ===== verification/Configuration.v ===== *)
(** * From prifi.toml to the relay

    The parameters the protocol sends to its own node (Start, in
    sda/protocols/protocol.go) configure the relay of prifi-lib exactly as
    prifi.toml says: every name of a parameter is read where it was written. *)

From S2P Require Import Prelude Bytes Crypto Messages StateMachine RoundManager Network HandlerLogic Trustee Client Relay RelayStates Protocol ServiceSpec.

Open Scope Z_scope.

Section parameters.
Context {CS : CryptoSuite} {NW : Network CS} {CK : Clock CS} {PS : ProofSystem CS}.

(** The configuration of a relay. *)
Definition configOf (p : PriFiLibRelayInstance CS) : list Z * list bool * string :=
  let s := relayState p in
  ([r_nTrustees s; r_nClients s; r_PayloadSize s; r_DownstreamCellSize s; r_WindowSize s;
    r_ExperimentRoundLimit s; r_OpenClosedSlotsMinDelayBetweenRequests s;
    r_MaxNumberOfConsecutiveFailedRounds s; r_ProcessingLoopSleepTime s; r_RoundTimeOut s;
    r_TrusteeCacheLowBound s; r_TrusteeCacheHighBound s],
   [r_UseOpenClosedSlots s; r_UseDummyDataDown s; r_UseUDP s; r_DisruptionProtectionEnabled s;
    r_EquivocationProtectionEnabled s; r_ForceDisruptionSinceRound3 s],
   r_dcNetType s).

(** The configuration the operator wrote in prifi.toml. *)
Definition configIn (toml : PrifiTomlConfig) (nT nC : Z) : list Z * list bool * string :=
  ([nT; nC; tm_PayloadSize toml; tm_CellSizeDown toml; tm_RelayWindowSize toml;
    tm_RelayReportingLimit toml; tm_OpenClosedSlotsMinDelayBetweenRequests toml;
    tm_RelayMaxNumberOfConsecutiveFailedRounds toml; tm_RelayProcessingLoopSleepTime toml;
    tm_RelayRoundTimeOut toml; tm_RelayTrusteeCacheLowBound toml; tm_RelayTrusteeCacheHighBound toml],
   [tm_RelayUseOpenClosedSlots toml; tm_RelayUseDummyDataDown toml; tm_UseUDP toml;
    tm_DisruptionProtectionEnabled toml; tm_EquivocationProtectionEnabled toml;
    tm_ForceDisruptionSinceRound3 toml],
   tm_DCNetType toml).

(** Total correctness gives a result. *)
Lemma wp_returns {S A} (m : handler S A) Q w :
  wp (λ _, False) m Q w → ∃ a w', m w = Ret (a, w') ∧ Q a w'.
Proof. unfold wp. destruct (m w) as [[a w']|]; [eauto | done]. Qed.

(** A handler that returns and keeps a part of the state. *)
Lemma wp_keep {S A T} (proj : S → T) (m : handler S A) x w :
  keeps_proj proj m → wp (λ _, False) m (λ _ _, True) w → proj w.1 = x →
  wp (λ _, False) m (λ _ w', proj w'.1 = x) w.
Proof.
  unfold wp. intros Hk Ht Hx. destruct w as [s tr]. destruct (m (s, tr)) as [[a [s' tr']]|] eqn:E; [|done].
  cbn in *. by rewrite (Hk _ _ _ _ _ E).
Qed.

Lemma make_slice_nonneg {A} n (zero : A) : 0 ≤ n → make_slice n zero = Ret (replicate (Z.to_nat n) zero).
Proof. intros H. unfold make_slice. by rewrite (proj2 (Z.ltb_ge n 0)) by lia. Qed.

Lemma keeps_config_ChangeState x : keeps_proj configOf (r_ChangeState x).
Proof. unfold r_ChangeState. solve_keeps. Qed.

(** Handlers that always return. *)
Definition total {S A} (m : handler S A) : Prop := ∀ w, wp (λ _, False) m (λ _ _, True) w.

Lemma total_ret {S A} (a : A) : total (mret a : handler S A).
Proof. intros w. done. Qed.
Lemma total_bind {S A B} (m : handler S A) (f : A → handler S B) :
  total m → (∀ a, total (f a)) → total (m ≫= f).
Proof. intros Hm Hf w. apply wp_bind. eapply wp_mono; [|apply Hm]. intros a w' _. apply Hf. Qed.
Lemma total_get {S} : total (get : handler S S).
Proof. intros [s tr]. by apply wp_get. Qed.
Lemma total_modify {S} (f : S → S) : total (modify f).
Proof. intros [s tr]. by apply wp_modify. Qed.
Lemma total_now {S} : total (now : handler S Z).
Proof. intros w. by apply wp_now. Qed.
Lemma total_send {S} d m : total (sendToWithLog d m : handler S bool).
Proof. intros [s tr]. by apply wp_send. Qed.
Lemma total_forEach {S X} (f : X → handler S unit) l : (∀ x, total (f x)) → total (forEach f l).
Proof. intros Hf w. apply (wp_forEach _ _ (λ _ _, True)); [intros; apply Hf | done]. Qed.

Ltac total :=
  repeat first
    [ apply total_ret | apply total_get | apply total_modify | apply total_now | apply total_send
    | apply total_forEach; intros ? | apply total_bind; [|intros ?]
    | match goal with
      | |- total (if ?b then _ else _) => destruct b
      | |- total (match ?x with _ => _ end) => destruct x
      end ].

Lemma total_ChangeState p tr x :
  states (r_stateMachine p) = relayStates → x ∈ relayStates →
  wp (λ _, False) (r_ChangeState x) (λ _ _, True) (p, tr).
Proof.
  intros Hs Hx. unfold r_ChangeState. apply wp_bind, wp_get, wp_bind.
  eapply wp_lift_ret; [unfold changeOrFatal; rewrite Hs, (proj2 (allowedState_spec _ _) Hx); done|].
  by apply wp_modify.
Qed.

(** What is left of the handler once the configuration is stored. *)
Definition afterConfig (startNow : bool) : handler (PriFiLibRelayInstance CS) (result unit) :=
  s ← getR;
  _ ← (if negb (DoSendStopResumeMessages (r_roundManager s)) then
         setManager (AddRateLimiter (r_roundManager s) (r_TrusteeCacheLowBound s)
                       (r_TrusteeCacheHighBound s) true true).2
       else mret tt);
  _ ← (if startNow then _ ← r_ChangeState "COLLECTING_TRUSTEES_PKS"; BroadcastParameters
       else mret (Ok tt));
  _ ← stopMeasure "resync-boot";
  _ ← startMeasure "resync-shuffle";
  _ ← startMeasure "resync-shuffle-collect-client-pk";
  mret (Ok tt).

Lemma afterConfig_total p tr startNow :
  states (r_stateMachine p) = relayStates →
  wp (λ _, False) (afterConfig startNow) (λ _ _, True) (p, tr).
Proof.
  intros Hs. unfold afterConfig, getR. apply wp_bind, wp_bind, wp_get, wp_ret, wp_bind.
  eapply wp_mono; [|apply (wp_keep (λ p, states (r_stateMachine p)) _ relayStates)]; [| | |exact Hs].
  - intros [] [p1 tr1] Hs1. cbn in Hs1.
    assert (total (_ ← stopMeasure "resync-boot"; _ ← startMeasure "resync-shuffle";
      _ ← startMeasure "resync-shuffle-collect-client-pk";
      (mret (Ok tt) : handler (PriFiLibRelayInstance CS) (result unit)))) as Hrest
      by (unfold stopMeasure, startMeasure; total).
    apply wp_bind. apply (wp_mono _ _ (λ _ _, True)); [intros ? ? _; apply Hrest|]. destruct startNow; [|done].
    apply wp_bind. eapply wp_mono; [|apply total_ChangeState; [done | apply (bool_decide_unpack _); exact I]].
    intros _ w _. unfold BroadcastParameters, getR, SendToTrusteeWithLog.
    assert (total BroadcastParameters) as Hb by (unfold BroadcastParameters, getR, SendToTrusteeWithLog; total).
    apply Hb.
  - destruct (negb _); [by apply keeps_modify | apply keeps_ret].
  - destruct (negb _); [unfold setManager, setR; by apply wp_modify | done].
Qed.

Lemma afterConfig_config p tr startNow expected :
  states (r_stateMachine p) = relayStates → configOf p = expected →
  wp (λ _, False) (afterConfig startNow) (λ _ w, configOf w.1 = expected) (p, tr).
Proof.
  intros Hs Hc. apply wp_keep; [|by apply afterConfig_total|done].
  unfold afterConfig, getR, setManager, setR, BroadcastParameters, SendToTrusteeWithLog, stopMeasure,
    startMeasure, getR.
  solve_keeps; apply keeps_config_ChangeState.
Qed.

(** Every parameter is read back under the name it was written with. *)
Record reads (m : ALL_ALL_PARAMETERS CS) (toml : PrifiTomlConfig) (nT nC : Z) : Prop := mkReads {
  rd_NTrustees : ∀ d, IntValueOrElse m "NTrustees" d = nT;
  rd_NClients : ∀ d, IntValueOrElse m "NClients" d = nC;
  rd_PayloadSize : ∀ d, IntValueOrElse m "PayloadSize" d = tm_PayloadSize toml;
  rd_DownstreamCellSize : ∀ d, IntValueOrElse m "DownstreamCellSize" d = tm_CellSizeDown toml;
  rd_WindowSize : ∀ d, IntValueOrElse m "WindowSize" d = tm_RelayWindowSize toml;
  rd_ExperimentRoundLimit : ∀ d, IntValueOrElse m "ExperimentRoundLimit" d = tm_RelayReportingLimit toml;
  rd_OpenClosedSlotsMinDelayBetweenRequests : ∀ d, IntValueOrElse m "OpenClosedSlotsMinDelayBetweenRequests" d = tm_OpenClosedSlotsMinDelayBetweenRequests toml;
  rd_RelayMaxNumberOfConsecutiveFailedRounds : ∀ d, IntValueOrElse m "RelayMaxNumberOfConsecutiveFailedRounds" d = tm_RelayMaxNumberOfConsecutiveFailedRounds toml;
  rd_RelayProcessingLoopSleepTime : ∀ d, IntValueOrElse m "RelayProcessingLoopSleepTime" d = tm_RelayProcessingLoopSleepTime toml;
  rd_RelayRoundTimeOut : ∀ d, IntValueOrElse m "RelayRoundTimeOut" d = tm_RelayRoundTimeOut toml;
  rd_RelayTrusteeCacheLowBound : ∀ d, IntValueOrElse m "RelayTrusteeCacheLowBound" d = tm_RelayTrusteeCacheLowBound toml;
  rd_RelayTrusteeCacheHighBound : ∀ d, IntValueOrElse m "RelayTrusteeCacheHighBound" d = tm_RelayTrusteeCacheHighBound toml;
  rd_StartNow : ∀ d, BoolValueOrElse m "StartNow" d = true;
  rd_UseOpenClosedSlots : ∀ d, BoolValueOrElse m "UseOpenClosedSlots" d = tm_RelayUseOpenClosedSlots toml;
  rd_UseDummyDataDown : ∀ d, BoolValueOrElse m "UseDummyDataDown" d = tm_RelayUseDummyDataDown toml;
  rd_UseUDP : ∀ d, BoolValueOrElse m "UseUDP" d = tm_UseUDP toml;
  rd_DisruptionProtectionEnabled : ∀ d, BoolValueOrElse m "DisruptionProtectionEnabled" d = tm_DisruptionProtectionEnabled toml;
  rd_EquivocationProtectionEnabled : ∀ d, BoolValueOrElse m "EquivocationProtectionEnabled" d = tm_EquivocationProtectionEnabled toml;
  rd_ForceDisruptionSinceRound3 : ∀ d, BoolValueOrElse m "ForceDisruptionSinceRound3" d = tm_ForceDisruptionSinceRound3 toml;
  rd_DCNetType : ∀ d, StringValueOrElse m "DCNetType" d = tm_DCNetType toml
}.

Lemma startParameters_reads toml nT nC : reads (startParameters toml nT nC) toml nT nC.
Proof. split; intros d; vm_compute; reflexivity. Qed.

Lemma parameters_configure rnd1 rnd2 m toml nT nC p tr :
  reads m toml nT nC → ForceParams m = true → states (r_stateMachine p) = relayStates →
  0 ≤ nT → 0 ≤ nC → 0 < nT + nC → 1 ≤ tm_PayloadSize toml →
  tm_DCNetType toml ≠ "Verifiable"%string →
  wp (λ _, False) (r_ReceivedMessage rnd1 rnd2 (MParameters m))
    (λ _ w, configOf w.1 = configIn toml nT nC) (p, tr).
Proof.
  intros Hm Hforce Hs HT HC Hsome Hsz Hty. unfold r_ReceivedMessage. rewrite Hforce.
  unfold r_Received_ALL_ALL_PARAMETERS. apply wp_bind, wp_bind, wp_get, wp_ret.
  rewrite (rd_PayloadSize _ _ _ _ Hm), (rd_NClients _ _ _ _ Hm), (rd_NTrustees _ _ _ _ Hm),
    (rd_DCNetType _ _ _ _ Hm), (rd_StartNow _ _ _ _ Hm).
  rewrite (proj2 (Z.ltb_ge _ 1)) by lia.
  apply wp_bind. eapply wp_lift_ret; [by apply make_slice_nonneg|].
  apply wp_bind. eapply wp_lift_ret; [by apply make_slice_nonneg|].
  apply wp_bind, wp_now. intros t. apply wp_bind. eapply wp_lift_ret; [by apply make_slice_nonneg|].
  apply wp_bind. eapply wp_lift_ret.
  { unfold NewBufferableRoundManager. rewrite (proj2 (Z.eqb_neq _ 0)) by lia. reflexivity. }
  apply wp_bind, wp_modify. rewrite (proj2 (String.eqb_neq _ _) Hty).
  apply (afterConfig_config _ _ true); [done|]. unfold configOf, configIn.
  cbn [relayState set_field]. cbn. destruct Hm. congruence.
Qed.

(** C20: A relay that receives the parameters Start makes from prifi.toml, with at
    least one node, a payload of at least one byte and a DC-net type other than
    the one the code does not implement, returns, and every field of its
    configuration is the value prifi.toml gives. *)
Theorem toml_configures_relay rnd1 rnd2 toml nT nC p tr :
  states (r_stateMachine p) = relayStates →
  0 ≤ nT → 0 ≤ nC → 0 < nT + nC → 1 ≤ tm_PayloadSize toml →
  tm_DCNetType toml ≠ "Verifiable"%string →
  ∃ res w, r_ReceivedMessage rnd1 rnd2 (MParameters (startParameters toml nT nC)) (p, tr) = Ret (res, w)
  ∧ configOf w.1 = configIn toml nT nC.
Proof.
  intros Hs HT HC Hsome Hsz Hty. apply wp_returns.
  apply parameters_configure; [apply startParameters_reads | vm_compute; reflexivity | assumption..].
Qed.
End parameters.
