(* ===== verification/ServiceDemo.v ===== *)
(** * A concrete deployment of the service

    A relay "R", a trustee "T" and two clients "A" and "B" on the toy suite: the
    theorems about the service, the protocol and its configuration applied to the
    run in which they connect one after the other. *)

From stdpp Require Import pretty.
From S2P Require Import Prelude Bytes Crypto Messages StateMachine RoundManager Network Trustee TrusteeSpec Client ClientSpec Relay RelaySteps RelaySpec RelayStates Protocol Service ServiceSpec ServiceStart Configuration.

Open Scope Z_scope.

Module ServiceDemo.
Import ToySuite.
#[local] Existing Instance suite.
#[local] Existing Instances RelayDemo.clock RelayDemo.proofs.

Instance onet : Onet suite := {|
  ServerIdentity := string;
  si_Public := id;
  si_Equal := String.eqb;
  si_Address := id;
  tree_List roster _ := roster;
  tree_SendTo _ _ _ := None
|}.

Instance onet_laws : OnetLaws suite.
Proof. split; [intros a b; apply String.eqb_eq | done]. Qed.

Definition range (n : nat) (m : gmap string waitQueueEntry) : list (string * waitQueueEntry) := map_to_list m.
Lemma range_perm n m : range n m ≡ₚ map_to_list m.
Proof. done. Qed.

Definition toml : PrifiTomlConfig :=
  mkToml false false 0 true true 4 10 2 false false (-1) false false 8080 8090 "v1" "Simple" false ""
    100 false false 0 false false 0 2 0 1000 2 5 false false.
Definition group : list (string * string) := [("R", "relay"); ("T", "trustee"); ("A", "client")]%string.

Definition lib : libInputs suite :=
  @mkLibInputs suite (fp_of 13) 0 0 [1] [2] TrusteeDemo.draws ClientDemo.inputs.
Definition inputs : serviceInputs := mkServiceInputs true true lib.

Abbreviation world := (ServiceState * list serviceEvent)%type.

Definition start : world :=
  match StartRelay group (newService toml true, []) with
  | Ret (_, w) => w | Crash _ => (newService toml true, []) end.
Definition connect (who : string) (w : world) : world :=
  match HandleConnection range inputs who "v1" w with Ret (_, w) => w | Crash _ => w end.

Definition w1 : world := connect "T"%string start.
Definition w2 : world := connect "A"%string w1.
Definition w3 : world := connect "B"%string w2.

Lemma start_reached : sreach range toml true group start.
Proof. apply sreach_start. reflexivity. Qed.

Lemma connect_reached who w :
  returns (HandleConnection range inputs who "v1" w) = true →
  sreach range toml true group w → sreach range toml true group (connect who w).
Proof.
  intros Hr Hw. unfold connect.
  destruct (HandleConnection range inputs who "v1" w) as [[[] w']|] eqn:E; [|done].
  by eapply (sreach_call _ _ _ _ (CallConnection inputs who "v1")).
Qed.

Lemma w2_reached : sreach range toml true group w2.
Proof.
  apply connect_reached; [vm_compute; reflexivity|].
  apply connect_reached; [vm_compute; reflexivity | apply start_reached].
Qed.

Lemma w3_reached : sreach range toml true group w3.
Proof. apply connect_reached; [vm_compute; reflexivity | apply w2_reached]. Qed.

Lemma waiting_ids_witness :
  ∃ c, s_churnHandler w3.1 = Some c ∧ ch_nextFreeClientID c = 2
  ∧ numbers (wq_clients (ch_waitQueue c)) ≡ₚ [0; 1] ∧ numbers (wq_trustees (ch_waitQueue c)) ≡ₚ [0].
Proof.
  destruct (waiting_ids range range_perm toml true group w3 w3_reached)
    as (c & Hc & Hn & _ & H1 & H2 & _).
  assert (count (ch_waitQueue c) = (2, 1)) as E.
  { apply (f_equal (from_option (λ c, count (ch_waitQueue c)) (0, 0))) in Hc. cbn in Hc.
    rewrite <- Hc. vm_compute. reflexivity. }
  unfold count in E. injection E as E1 E2. exists c. rewrite E1 in *. rewrite E2 in *.
  split; [exact Hc|]. split; [exact Hn|]. split; [exact H1 | exact H2].
Defined.

(** The relay of the communicating run of RelaySpec, one failed round away from
    giving up, in the service's protocol. *)
Definition communicating (w : world) : world :=
  (w.1 <| s_PriFiSDAProtocol :=
     (λ p, p <| p_prifiLibInstance := Some (LibRelay RelayDemo.w1.1) |>
             <| p_trace := RelayDemo.w1.2 |>) <$> s_PriFiSDAProtocol w.1 |>, w.2).

Definition churnOf (w : world) : churnHandler :=
  default (mkChurn (mkQueue ∅ ∅) 0 0 "" [] false) (s_churnHandler w.1).

Lemma connection_starts_protocol_witness :
  ∃ s' p roster params, HandleConnection range inputs "B"%string "v1" (w2.1, w2.2)
    = Ret (tt, (s', w2.2 ++ [ProtocolStopped; Profiling true; ProtocolStarted roster params]))
  ∧ roster ≡ₚ ["R"; "A"; "B"; "T"]%string ∧ IntValueOrElse params "NClients" 0 = 2
  ∧ s_PriFiSDAProtocol s' = Some p ∧ p_HasStopped p = false.
Proof.
  destruct (connection_starts_protocol range range_perm inputs "B"%string w2.1 w2.2 (churnOf w2) toml)
    as (s' & new & E & _ & Hif).
  - rewrite <- surjective_pairing. eapply reach_sinv; [apply range_perm | apply w2_reached].
  - reflexivity.
  - reflexivity.
  - reflexivity.
  - reflexivity.
  - reflexivity.
  - vm_compute. reflexivity.
  - unfold relay_apart. apply Forall_forall. apply (bool_decide_unpack _). vm_compute. exact I.
  - vm_compute. discriminate.
  - rewrite decide_True in Hif by (vm_compute; split; discriminate).
    destruct Hif as (p & roster & Hp & Hcov & Hroster & ->).
    exists s', p, roster. eexists. split; [exact E|]. split; [|split; [vm_compute; reflexivity|]].
    + rewrite Hroster. apply (bool_decide_unpack _). vm_compute. exact I.
    + split; [exact Hp | apply (cov_running _ _ Hcov)].
Defined.

Lemma sinv_communicating w : sinv false w → sinv false (communicating w).
Proof.
  destruct w as [s tr]. intros [H1 H2 H3 H4]. split; [exact H1 | exact H2 | exact H3 |]. cbn.
  intros p Hp. apply fmap_Some in Hp as (q & Hq & ->). destruct (H4 q Hq) as (Hl & _).
  split; [exact Hl|]. eexists. split; [reflexivity|]. vm_compute. reflexivity.
Qed.

(** A running protocol that knows the nodes its relay misses. *)
Definition knowsLate (p : option (PriFiSDAProtocol suite)) : bool :=
  match p with
  | Some p =>
      let '(cs, ts) := MissingCiphersForCurrentRound (r_roundManager (relayState RelayDemo.w1.1)) in
      negb (p_HasStopped p)
      && bool_decide (Forall (λ i, is_Some (ms_clients (p_ms p) !! i)) cs)
      && bool_decide (Forall (λ j, is_Some (ms_trustees (p_ms p) !! j)) ts)
  | None => false
  end.

Lemma giving_up_blocks_witness :
  roundTimeout range inputs 1 ((communicating w3).1, (communicating w3).2) = Crash Blocks.
Proof.
  assert (knowsLate (s_PriFiSDAProtocol w3.1) = true) as Hk by (vm_compute; reflexivity).
  pose proof (sinv_communicating w3 (reach_sinv range range_perm toml true group w3 w3_reached)) as HI.
  revert Hk HI. generalize w3. intros [s tr] Hk HI. unfold communicating in *. cbn [fst snd] in *.
  destruct (s_PriFiSDAProtocol s) as [q|]; [|discriminate Hk]. unfold knowsLate in Hk.
  eapply (giving_up_blocks range inputs 1 _ _
    (q <| p_prifiLibInstance := Some (LibRelay RelayDemo.w1.1) |> <| p_trace := RelayDemo.w1.2 |>)
    RelayDemo.w1.1).
  - exact HI.
  - reflexivity.
  - destruct (MissingCiphersForCurrentRound _). apply andb_prop in Hk as [[Hk _]%andb_prop _].
    cbn. by destruct (p_HasStopped q).
  - reflexivity.
  - vm_compute. reflexivity.
  - vm_compute. reflexivity.
  - destruct (MissingCiphersForCurrentRound _) as [cs ts]. apply andb_prop in Hk as [[_ Hk1]%andb_prop Hk2].
    split; [exact (bool_decide_eq_true_1 _ Hk1) | exact (bool_decide_eq_true_1 _ Hk2)].
Defined.

Lemma toml_configures_relay_witness :
  ∃ res w, @r_ReceivedMessage suite RelayDemo.net _ _ [1] [2] (MParameters (startParameters toml 1 2)) (RelayDemo.start, [])
           = Ret (res, w)
  ∧ configOf w.1 = configIn toml 1 2.
Proof.
  apply (@toml_configures_relay suite RelayDemo.net RelayDemo.clock RelayDemo.proofs [1] [2] toml 1 2
    RelayDemo.start []).
  - vm_compute. reflexivity.
  - lia.
  - lia.
  - lia.
  - vm_compute. discriminate.
  - vm_compute. discriminate.
Defined.
End ServiceDemo.
