(* ===== verification/Transport.v ===== *)
(** * Transport of messages (sda/protocols/tcp.go, udp.go, message_sender.go)

    The framing of the fast TCP channel, the two UDP channels and the loop that
    feeds a client with broadcast messages.  Sockets are inputs: what a write
    answers, the bytes that arrive on a stream, the datagram that arrives. *)

From S2P Require Import Prelude Bytes Crypto Messages.

Open Scope Z_scope.

(** ** TCP *)

(** conn.Write: how many bytes were written, and the error if any. *)
Definition connWrite : Type := bytes → Z * option string.

(** func writeMessage: what is handed to the connection, and the result *)
Definition writeMessage (conn : connWrite) (message : bytes) : go (bytes * result unit) :=
  let length := len message in
  buffer ← make_bytes length;
  buffer ← copy_into buffer 0 4 (put_u32 (u32 length));
  buffer ← copy_into buffer 4 (len buffer) message;
  let '(n, err) := conn buffer in
  if n <? length + 4 then Ret (buffer, Err "Couldn't write the full bytes")
  else match err with Some e => Ret (buffer, Err e) | None => Ret (buffer, Ok tt) end.

(** func (t) WriteMessage: an error is only logged *)
Definition WriteMessage (ready : bool) (conn : connWrite) (message : bytes) : go bytes :=
  '(buffer, _) ← writeMessage conn message; Ret buffer.

(** io.ReadFull of [n] bytes from a stream that ends *)
Definition ReadFull (stream : bytes) (n : Z) : result bytes * bytes :=
  if len stream <? n then (Err (if len stream =? 0 then "EOF" else "unexpected EOF"), [])
  else (Ok (take (Z.to_nat n) stream), drop (Z.to_nat n) stream).

(** func readMessage, with what is left of the stream *)
Definition readMessage (stream : bytes) : go (result bytes * bytes) :=
  match ReadFull stream 4 with
  | (Err e, rest) => Ret (Err e, rest)
  | (Ok header, rest) =>
      let bodySize := be_decode header in
      _ ← make_bytes bodySize;
      match ReadFull rest bodySize with
      | (Err e, rest) => Ret (Err e, rest)
      | (Ok body, rest) => Ret (Ok body, rest)
      end
  end.

(** The loop of StartListener and of ConnectToServer over a stream, [n]
    iterations: the handler gets the empty message when the read fails *)
Fixpoint listenLoop (n : nat) (stream : bytes) : go (list bytes) :=
  match n with
  | O => Ret []
  | S n =>
      '(r, stream) ← readMessage stream;
      rest ← listenLoop n stream;
      Ret (match r with Ok m => m | Err _ => [] end :: rest)
  end.

(** ** UDP *)

Definition MAX_UDP_SIZE : Z := 65507.

(** func (c) Broadcast of RealUDPChannel: the datagram *)
Definition udp_Broadcast (msg : REL_CLI_DOWNSTREAM_DATA) : go bytes :=
  data ← UDP_ToBytes msg;
  message ← make_bytes (4 + len data);
  message ← copy_into message 0 4 (put_u32 (u32 (len data)));
  copy_into message 4 (len message) data.

(** The message FromBytes returns along with an error *)
Definition zeroMessage : REL_CLI_DOWNSTREAM_DATA := mkDownstream 0 0 [] [] false false.

(** func (c) ListenAndBlock of RealUDPChannel, for the datagram that arrives;
    [err] is the error of ReadFromUDP.  When the sizes disagree the code calls
    err.Error(), a nil dereference if there was no error. *)
Definition udp_ListenAndBlock (datagram : bytes) (err : option string) : go REL_CLI_DOWNSTREAM_DATA :=
  buf ← make_bytes MAX_UDP_SIZE;
  let buf := copy_bytes buf datagram in
  let n := Z.min (len datagram) MAX_UDP_SIZE in
  h ← slice buf 0 4;
  let sizeAdvertised := be_decode h in
  _ ← (if negb (sizeAdvertised + 4 =? n)
       then match err with None => Crash RuntimeError | Some _ => Ret tt end else Ret tt);
  message ← make_bytes sizeAdvertised;
  body ← slice buf 4 (sizeAdvertised + 4);
  let message := copy_bytes message body in
  r ← UDP_FromBytes message;
  Ret (match r with Ok m => m | Err _ => zeroMessage end).

(** type LocalhostChannel *)
Record LocalhostChannel := mkLocal {
  lc_lastMessageID : Z;
  lc_lastMessage : option bytes
}.

(** func (lc) Broadcast of LocalhostChannel *)
Definition local_Broadcast (lc : LocalhostChannel) (msg : REL_CLI_DOWNSTREAM_DATA) : go LocalhostChannel :=
  let id := match lc_lastMessage lc with None => 0 | Some _ => lc_lastMessageID lc end in
  data ← UDP_ToBytes msg;
  Ret (mkLocal (id + 1) (Some data)).

(** func (lc) ListenAndBlock of LocalhostChannel: it waits while the last message
    was seen; the result of the decoding is dropped and the empty message that
    was passed in is returned.  The simulated loss is 0%. *)
Definition local_ListenAndBlock (lc : LocalhostChannel) (emptyMessage : REL_CLI_DOWNSTREAM_DATA)
    (lastSeenMessage : Z) : go REL_CLI_DOWNSTREAM_DATA :=
  if lc_lastMessageID lc =? lastSeenMessage then Crash Blocks
  else
    _ ← UDP_FromBytes (default [] (lc_lastMessage lc));
    Ret emptyMessage.

(** The loop of ClientSubscribeToBroadcast, one iteration: the value waiting in
    startStopChan, then, when listening, the datagram that arrives.  [None] is
    the end of the loop; the message is what messageReceived gets. *)
Definition subscribeLoop (listening : bool) (lastSeenMessage : Z) (signal : option bool)
    (datagram : bytes) (err : option string)
    : go (option (bool * Z * option REL_CLI_DOWNSTREAM_DATA)) :=
  match signal with
  | Some false => Ret None
  | _ =>
      let listening := listening || bool_decide (signal = Some true) in
      if listening then
        m ← udp_ListenAndBlock datagram err;
        Ret (Some (listening, lastSeenMessage + 1, Some m))
      else Ret (Some (listening, lastSeenMessage, None))
  end.

(** ** Theorems *)

(** What a write hands to the connection: the header and the message less its
    last four bytes. *)
Lemma writeMessage_buffer conn message :
  4 ≤ len message →
  writeMessage conn message
  = (let buffer := put_u32 (u32 (len message)) ++ take (length message - 4) message in
     let '(n, err) := conn buffer in
     if n <? len message + 4 then Ret (buffer, Err "Couldn't write the full bytes")
     else match err with Some e => Ret (buffer, Err e) | None => Ret (buffer, Ok tt) end).
Proof.
  intros Hl. unfold writeMessage. rewrite make_bytes_ret by lia. cbn [mbind go_bind]. rewrite to_nat_len.
  replace (zeros (length message)) with ([] ++ zeros 4 ++ zeros (length message - 4))
    by (rewrite app_nil_l; unfold zeros; rewrite <- replicate_add; f_equal; unfold len in *; lia).
  rewrite copy_into_mid by (try rewrite length_zeros; try rewrite length_be_encode; done).
  cbn [mbind go_bind]. rewrite app_nil_l.
  set (h := put_u32 (u32 (len message))). assert (len h = 4) as Hh by apply len_be_encode.
  assert (copy_into (h ++ zeros (length message - 4)) 4 (len (h ++ zeros (length message - 4))) message
          = Ret (h ++ take (length message - 4) message)) as ->; [|done].
  unfold copy_into. rewrite slice_app_r by (rewrite ?len_app; lia). cbn [mbind go_bind].
  rewrite (drop_ge (h ++ _)) by (rewrite to_nat_len; done). rewrite app_nil_r.
  replace (take (Z.to_nat 4) _) with h by (symmetry; apply take_app_length'; unfold len in Hh; lia).
  do 2 f_equal. unfold copy_bytes. rewrite length_zeros, drop_ge by (rewrite length_zeros; lia).
  by rewrite app_nil_r.
Qed.

Lemma ReadFull_app a b : ReadFull (a ++ b) (len a) = (Ok a, b).
Proof.
  unfold ReadFull. rewrite (proj2 (Z.ltb_ge _ _)) by (rewrite len_app; pose proof (len_nonneg b); lia).
  by rewrite to_nat_len, take_app_length, drop_app_length.
Qed.

(** A reader trusts the header. *)
Lemma readMessage_header size rest :
  0 ≤ size < 2 ^ 32 →
  readMessage (put_u32 size ++ rest)
  = Ret (if len rest <? size then Err (if len rest =? 0 then "EOF" else "unexpected EOF")
         else Ok (take (Z.to_nat size) rest),
         if len rest <? size then [] else drop (Z.to_nat size) rest).
Proof.
  intros Hs. unfold readMessage. change 4 with (len (put_u32 size)) at 1. rewrite ReadFull_app.
  rewrite be_u32, wrap_u_small by done. rewrite make_bytes_ret by lia. cbn [mbind go_bind].
  unfold ReadFull. by destruct (len rest <? size).
Qed.

(** C33: The fast TCP channel never delivers a message.  Its buffer has no room
    for the 4-byte header: on any connection that writes at most what it is given,
    a message of fewer than 4 bytes crashes the sender, and any other loses its
    last four bytes and is reported as an error.  A reader takes the first four
    bytes of what follows for the missing ones, or fails if they are not there. *)
Theorem tcp_never_delivers conn message next :
  (∀ buffer, (conn buffer).1 ≤ len buffer) → len message < 2 ^ 32 →
  (len message < 4 → writeMessage conn message = Crash RuntimeError)
  ∧ (4 ≤ len message →
     let sent := put_u32 (u32 (len message)) ++ take (length message - 4) message in
     (∃ e, writeMessage conn message = Ret (sent, Err e))
     ∧ (4 ≤ len next → readMessage (sent ++ next)
          = Ret (Ok (take (length message - 4) message ++ take 4 next), drop 4 next))
     ∧ (len next < 4 → ∃ e, readMessage (sent ++ next) = Ret (Err e, []))).
Proof.
  intros Hconn Hl. pose proof (len_nonneg message) as H0. split; intros H4.
  { unfold writeMessage. rewrite make_bytes_ret by lia. cbn [mbind go_bind]. unfold copy_into.
    by rewrite slice_crash by (rewrite len_zeros; lia). }
  intros sent. assert (len sent = len message) as Hsent.
  { unfold sent. rewrite len_app, len_be_encode. unfold len in *. rewrite length_take. lia. }
  split.
  { rewrite writeMessage_buffer by done. fold sent. specialize (Hconn sent). cbv zeta.
    destruct (conn sent) as [n err]. cbn [fst] in Hconn. rewrite (proj2 (Z.ltb_lt _ _)) by lia. by eexists. }
  unfold sent. rewrite <- (assoc_L (++)), wrap_u_small, readMessage_header by lia.
  assert (len (take (length message - 4) message) = len message - 4) as Ht
    by (unfold len in *; rewrite length_take; lia).
  rewrite !len_app, !Ht. split; intros Hn.
  - rewrite !(proj2 (Z.ltb_ge _ _)) by lia. rewrite take_app, drop_app.
    rewrite take_ge, drop_ge by (unfold len in *; lia).
    replace (Z.to_nat (len message) - length (take (length message - 4) message))%nat with 4%nat
      by (unfold len in *; lia). done.
  - rewrite !(proj2 (Z.ltb_lt _ _)) by lia. by eexists.
Qed.

Lemma tcp_never_delivers_witness :
  ∃ e, writeMessage (λ b, (len b, None)) [1; 2; 3; 4; 5; 6] = Ret ([0; 0; 0; 6; 1; 2], Err e)
  ∧ readMessage ([0; 0; 0; 6; 1; 2] ++ [0; 0; 0; 5; 9]) = Ret (Ok [1; 2; 0; 0; 0; 5], [9]).
Proof.
  destruct (tcp_never_delivers (λ b, (len b, None)) [1; 2; 3; 4; 5; 6] [0; 0; 0; 5; 9]) as [_ H].
  - intros buffer. cbn. lia.
  - vm_compute. reflexivity.
  - destruct H as ((e & H1) & H2 & _); [vm_compute; discriminate|].
    exists e. split; [exact H1|]. apply H2. vm_compute. discriminate.
Defined.

(** The datagram of a broadcast. *)
Lemma udp_Broadcast_layout msg :
  udp_Broadcast msg = Ret (put_u32 (u32 (len (UDP_layout msg))) ++ UDP_layout msg).
Proof.
  unfold udp_Broadcast. rewrite UDP_ToBytes_layout. cbn [mbind go_bind].
  set (data := UDP_layout msg). pose proof (len_nonneg data).
  rewrite make_bytes_ret by lia. cbn [mbind go_bind].
  replace (zeros (Z.to_nat (4 + len data))) with ([] ++ zeros 4 ++ zeros (length data))
    by (rewrite app_nil_l; unfold zeros; rewrite <- replicate_add; f_equal; unfold len in *; lia).
  rewrite copy_into_mid by (try rewrite length_zeros; try rewrite length_be_encode; done).
  cbn [mbind go_bind]. rewrite app_nil_l.
  apply (copy_into_parts _ (put_u32 (u32 (len data))) (zeros (length data)) []); rewrite ?app_nil_r;
    try done; try (by rewrite length_zeros).
  by rewrite len_app.
Qed.

Lemma UDP_layout_len msg :
  len (UDP_layout msg) = 20 + len (dd_HashOfPreviousUpstreamData msg) + len (dd_Data msg).
Proof. unfold UDP_layout. rewrite !len_app, !len_be_encode. lia. Qed.

(** What the listener does with a header and a body. *)
Lemma udp_listen_frame h body :
  length h = 4%nat → len body ≤ MAX_UDP_SIZE - 4 →
  udp_ListenAndBlock (h ++ body) None =
  (if negb (be_decode h =? len body) then Crash RuntimeError
   else r ← UDP_FromBytes body; Ret (match r with Ok m => m | Err _ => zeroMessage end)).
Proof.
  intros Hh Hb. unfold MAX_UDP_SIZE in Hb. pose proof (len_nonneg body) as H0.
  assert (len h = 4) as Hl by (unfold len; lia).
  unfold udp_ListenAndBlock. rewrite make_bytes_ret by (unfold MAX_UDP_SIZE; lia). cbn [mbind go_bind].
  rewrite copy_bytes_short by (rewrite length_app, length_zeros; unfold len, MAX_UDP_SIZE in *; lia).
  set (pad := drop _ (zeros _)). rewrite <- (assoc_L (++)). rewrite slice_app_l by done. cbn [mbind go_bind].
  rewrite Z.min_l by (rewrite len_app; unfold MAX_UDP_SIZE; lia). rewrite len_app, Hl.
  destruct (Z.eqb_spec (be_decode h) (len body)) as [E|E].
  - rewrite E, (proj2 (Z.eqb_eq _ _)) by lia. cbn [negb mbind go_bind].
    rewrite make_bytes_ret by lia. cbn [mbind go_bind].
    rewrite slice_app_mid by lia. cbn [mbind go_bind].
    by rewrite copy_bytes_same by (rewrite length_zeros; by rewrite to_nat_len).
  - by rewrite (proj2 (Z.eqb_neq _ _)) by lia.
Qed.

(** A message with another owner *)
Definition with_owner (msg : REL_CLI_DOWNSTREAM_DATA) (owner : Z) : REL_CLI_DOWNSTREAM_DATA :=
  mkDownstream (dd_RoundID msg) owner (dd_HashOfPreviousUpstreamData msg) (dd_Data msg)
    (dd_FlagResync msg) (dd_FlagOpenClosedRequest msg).

(** C32: A message broadcast over UDP whose datagram fits (65507 bytes) and whose
    owner is a number of 32 bits is received exactly as it was sent.  The owner is
    taken modulo 2^32: a round without an owner, announced with -1, is received as
    one of owner 4294967295, all else as sent.  A datagram that says it is longer or
    shorter than it is crashes the listener: the code reports the mismatch by
    calling a method of the nil error. *)
Theorem udp_delivers msg :
  - 2147483648 ≤ dd_RoundID msg < 2147483648 →
  24 + len (dd_HashOfPreviousUpstreamData msg) + len (dd_Data msg) ≤ MAX_UDP_SIZE →
  let received := (datagram ← udp_Broadcast msg; udp_ListenAndBlock datagram None) in
  (0 ≤ dd_OwnershipID msg < 2 ^ 32 → received = Ret msg)
  ∧ received = Ret (with_owner msg (dd_OwnershipID msg mod 2 ^ 32))
  ∧ (dd_OwnershipID msg = -1 → received = Ret (with_owner msg (4294967295)))
  ∧ ∀ h body, length h = 4%nat → len body ≤ MAX_UDP_SIZE - 4 → be_decode h ≠ len body →
      udp_ListenAndBlock (h ++ body) None = Crash RuntimeError.
Proof.
  intros Hr Hfit received. pose proof (UDP_layout_len msg) as Hlen.
  pose proof (len_nonneg (dd_HashOfPreviousUpstreamData msg)). pose proof (len_nonneg (dd_Data msg)).
  unfold MAX_UDP_SIZE in *.
  assert (received = Ret (with_owner msg (u32 (dd_OwnershipID msg)))) as Hrec.
  { unfold received. rewrite udp_Broadcast_layout. cbn [mbind go_bind].
    rewrite udp_listen_frame by (rewrite ?length_be_encode; unfold MAX_UDP_SIZE; done || lia).
    rewrite be_u32, !wrap_u_small by (rewrite ?wrap_u_small; lia).
    rewrite Z.eqb_refl. cbn [negb mbind go_bind].
    pose proof (UDP_roundtrip msg Hr ltac:(lia)) as H1. rewrite UDP_ToBytes_layout in H1. cbn [mbind go_bind] in H1.
    by rewrite H1. }
  split_and!.
  - intros Ho. rewrite Hrec, wrap_u_small by done. by destruct msg.
  - exact Hrec.
  - intros Ho. rewrite Hrec, Ho. done.
  - intros h body Hh Hb Hne. rewrite udp_listen_frame by (unfold MAX_UDP_SIZE; done).
    by rewrite (proj2 (Z.eqb_neq _ _) Hne).
Qed.

Lemma udp_delivers_witness :
  (datagram ← udp_Broadcast (mkDownstream 7 2 [1; 2] [3; 4; 5] false true);
   udp_ListenAndBlock datagram None) = Ret (mkDownstream 7 2 [1; 2] [3; 4; 5] false true).
Proof.
  destruct (udp_delivers (mkDownstream 7 2 [1; 2] [3; 4; 5] false true)) as [H _];
    [cbn; lia | vm_compute; discriminate | apply H; cbn; lia].
Defined.
