(* ===== verification/Application.v ===== *)
(** * Starting a node from the command line (sda/app/prifi.go)

    The commands [trustee], [relay], [client] and [sockstest]: each reads the
    configuration files, creates the server with its services, and starts the
    service in its role.  Files, git and the parsers of onet and toml are the
    environment; so is the parsed command line.  A Go pointer that may be nil is
    an option.  The configuration is one object that the service keeps a pointer
    to: writing it after it was handed over changes the service's. *)

From stdpp Require Import pretty.
From S2P Require Import Prelude GoStrings Bytes Crypto Messages StateMachine Network Trustee Client Relay Protocol Service.

Open Scope Z_scope.

(** ** What the process finds around it *)

(** An error of os.Stat; os.IsNotExist tells the first kind *)
Inductive osError := ErrNotExist | ErrOther (e : string).
Definition os_IsNotExist (e : option osError) : bool :=
  match e with Some ErrNotExist => true | _ => false end.

(** cli.Context: the flags of the command line *)
Record cliContext := mkCli {
  GlobalString : string → string;
  GlobalInt : string → Z;
  GlobalIsSet : string → bool
}.

(** app.Group of onet: the servers of the roster with their descriptions *)
Record Group {CS : CryptoSuite} {O : Onet CS} := mkGroup {
  g_Roster : option (list (ServerIdentity * string))
}.
Arguments Group CS {O}.
Arguments mkGroup {CS O} _.

Class Environment (CS : CryptoSuite) {O : Onet CS} := {
  os_Stat : string → option osError;
  ioutil_ReadFile : string → string * option string;
  os_Open : string → result string;                      (* the contents *)
  toml_Decode : string → PrifiTomlConfig → result PrifiTomlConfig;
  app_ParseCothority : string → result ServerIdentity;   (* a server of that identity *)
  app_ReadGroupDescToml : string → result (option (Group CS));
  git_rev_parse_HEAD : result string;
  user_Current : result string;                          (* the home directory *)
  os_Getwd : result string;
  runtime_GOOS : string;
  app_InputYN : string → bool
}.

Section app.
Context {CS : CryptoSuite} {CK : Clock CS} {PS : ProofSystem CS} {O : Onet CS} {E : Environment CS}.

(** ** Configuration files *)

Definition DefaultName : string := "prifi".
Definition DefaultCothorityConfigFile : string := "identity.toml".
Definition DefaultCothorityGroupConfigFile : string := "group.toml".
Definition DefaultPriFiConfigFile : string := "prifi.toml".

(** [&PrifiTomlConfig{}] *)
Definition zeroToml : PrifiTomlConfig :=
  mkToml false false 0 false false 0 0 0 false false 0 false false 0 0 "" "" false "" 0 false false 0
    false false 0 0 0 0 0 0 false false.

(** func readPriFiConfigFile: the configuration and the error.  A file that
    cannot be read is only logged, and decoded as the empty text. *)
Definition readPriFiConfigFile (c : cliContext) : option PrifiTomlConfig * option string :=
  let cfile := GlobalString c "prifi_config" in
  if os_IsNotExist (os_Stat cfile) then (None, Some "no such file") else
  match toml_Decode (ioutil_ReadFile cfile).1 zeroToml with
  | Err err => (None, Some err)
  | Ok tomlConfig =>
    let tomlConfig := if GlobalIsSet c "port"
      then tomlConfig <| tm_SocksServerPort := GlobalInt c "port" |> else tomlConfig in
    let tomlConfig := if GlobalIsSet c "port_client"
      then tomlConfig <| tm_SocksClientPort := GlobalInt c "port_client" |> else tomlConfig in
    (Some tomlConfig, None)
  end.

(** func getDefaultFilePathForName *)
Definition getDefaultFilePathForName (fileName : string) : go string :=
  match user_Current with
  | Err _ =>
    match os_Getwd with
    | Err _ => Crash (Fatal "Impossible to get the current directory.")
    | Ok curr => Ret (path_Join [curr; fileName])
    end
  | Ok HomeDir =>
    if String.eqb runtime_GOOS "darwin"
    then Ret (path_Join [HomeDir; "Library"; DefaultName; fileName])
    else Ret (path_Join [HomeDir; ".config"; DefaultName; fileName])
  end.

(** func readCothorityGroupConfig: nil when the file is missing or names no server *)
Definition readCothorityGroupConfig (c : cliContext) : go (option (Group CS)) :=
  let gfile := GlobalString c "group" in
  if os_IsNotExist (os_Stat gfile) then Ret None else
  match os_Open gfile with
  | Err _ => Ret None
  | Ok text =>
    match app_ReadGroupDescToml text with
    | Err _ => Crash (Fatal "Could not parse toml file")
    | Ok groups =>
      Ret (match groups with
           | Some (mkGroup (Some (_ :: _))) => groups
           | _ => None
           end)
    end
  end.

(** func startCothorityNode *)
Definition startCothorityNode (c : cliContext) : result ServerIdentity :=
  let cfile := GlobalString c "cothority_config" in
  if os_IsNotExist (os_Stat cfile) then Err "no such file" else app_ParseCothority cfile.

(** func getGitCommitID *)
Definition getGitCommitID : go string :=
  match git_rev_parse_HEAD with
  | Err _ => Crash (Fatal "There was an error running git rev-parse command: ")
  | Ok cmdOut => Ret cmdOut
  end.

(** ** The commands *)

(** [prifiTomlConfig.ProtocolVersion = v], seen through the service's pointer *)
Definition setProtocolVersion (v : string) (s : ServiceState) : ServiceState :=
  s <| s_prifiTomlConfig := (λ t, t <| tm_ProtocolVersion := v |>) <$> s_prifiTomlConfig s |>.

(** func readConfigAndStartCothority.  The log level is read from the
    configuration before the error is looked at; the error tested after the
    group was read is the one of startCothorityNode. *)
Definition readConfigAndStartCothority (c : cliContext)
    : go (ServerIdentity * option (Group CS) * ServiceState) :=
  let '(prifiTomlConfig, err) := readPriFiConfigFile c in
  toml ← nonNil prifiTomlConfig;
  match err with Some _ => Crash (Fatal "Could not read prifi config:") | None =>
  match startCothorityNode c with
  | Err _ => Crash (Fatal "Could not start Cothority server:")
  | Ok host =>
    let err : option string := None in
    let service := newService toml false in
    group ← readCothorityGroupConfig c;
    match err with Some _ => Crash (Fatal "Could not read the group description:") | None =>
    version ← (if tm_EnforceSameVersionOnNodes toml then getGitCommitID else Ret "v1");
    Ret (host, group, setProtocolVersion version service)
    end
  end end.

(** A node that runs: its identity, its service with what it did, and whether
    network errors reach the service *)
Record Node := mkNode {
  n_host : ServerIdentity;
  n_service : ServiceState * list serviceEvent;
  n_errorHandler : bool
}.

(** [group.Roster.List] with the descriptions, where the code dereferences it *)
Definition groupOf (group : option (Group CS)) : go (list (ServerIdentity * string)) :=
  g ← nonNil group; nonNil (g_Roster g).

Definition runService (host : ServerIdentity) (m : svc unit) (s : ServiceState) (errorHandler : bool)
    : go Node :=
  '(_, w) ← m (s, []); Ret (mkNode host w errorHandler).

(** func startTrustee, startRelay, startClient, startSocksTunnelOnly *)
Definition startTrustee (c : cliContext) : go Node :=
  '(host, group, service) ← readConfigAndStartCothority c;
  group ← groupOf group;
  runService host (StartTrustee group) service true.
Definition startRelay (c : cliContext) : go Node :=
  '(host, group, service) ← readConfigAndStartCothority c;
  group ← groupOf group;
  runService host (StartRelay group) (service <| s_AutoStart := true |>) true.
Definition startClient (c : cliContext) : go Node :=
  '(host, group, service) ← readConfigAndStartCothority c;
  group ← groupOf group;
  runService host (StartClient group) service true.
Definition startSocksTunnelOnly (c : cliContext) : go Node :=
  '(host, _, service) ← readConfigAndStartCothority c;
  runService host StartSocksTunnelOnly service false.

(** func checkOverwrite *)
Definition checkOverwrite (file : string) : bool :=
  match os_Stat file with
  | None => app_InputYN ("Configuration file " +:+ file +:+ " already exists. Override?")
  | Some _ => true
  end.

(** func createNewIdentityToml exits before it does anything *)
Definition createNewIdentityToml (c : cliContext) : go Node := Crash (Fatal "Not implemented").

(** ** func main: the command line *)

Record Command := mkCommand {
  cmd_Name : string; cmd_Aliases : list string; cmd_Action : cliContext → go Node
}.
Definition Commands : list Command := [
  mkCommand "gen-id" ["gen"] createNewIdentityToml;
  mkCommand "trustee" ["t"] startTrustee;
  mkCommand "relay" ["r"] startRelay;
  mkCommand "client" ["c"] startClient;
  mkCommand "sockstest" ["socks"] startSocksTunnelOnly].

Inductive FlagValue := IntFlag (v : Z) | StringFlag (v : string) | BoolFlag.
Definition Flags : go (list (string * FlagValue)) :=
  cothority ← getDefaultFilePathForName DefaultCothorityConfigFile;
  prifi ← getDefaultFilePathForName DefaultPriFiConfigFile;
  group ← getDefaultFilePathForName DefaultCothorityGroupConfigFile;
  Ret [("debug, d", IntFlag 0); ("cothority_config, cc", StringFlag cothority);
       ("prifi_config, pc", StringFlag prifi); ("port, p", IntFlag 12345);
       ("port_client", IntFlag 8081); ("group, g", StringFlag group);
       ("default_path", StringFlag "."); ("nowait", BoolFlag)].

(** ** Starting *)

(** The version a node announces, from its files *)
Definition nodeVersion (c : cliContext) : go string :=
  toml ← nonNil (readPriFiConfigFile c).1;
  if tm_EnforceSameVersionOnNodes toml then getGitCommitID else Ret "v1".

(** A started node: the service has the configuration of the file with the
    version of the node in it, and no protocol runs yet. *)
Record fresh_node (c : cliContext) (v : string) (s : ServiceState) : Prop := {
  fn_toml : ∃ toml, (readPriFiConfigFile c).1 = Some toml
              ∧ s_prifiTomlConfig s = Some (toml <| tm_ProtocolVersion := v |>);
  fn_protocol : s_PriFiSDAProtocol s = None
}.

Lemma readConfig_inv c host group s v :
  readConfigAndStartCothority c = Ret (host, group, s) → nodeVersion c = Ret v →
  fresh_node c v s ∧ s_AutoStart s = false ∧ s_hasSocksClientGoRoutine s = false.
Proof.
  unfold readConfigAndStartCothority, nodeVersion. intros H Hv.
  destruct (readPriFiConfigFile c) as [[toml|] err] eqn:Er; [|done].
  cbn [nonNil mbind go_bind fst] in H, Hv. destruct err; [done|].
  destruct (startCothorityNode c); [|done]. go_inv H. rewrite Hv in H. injection H as <- <- <-.
  split; [|done]. split; [|done]. exists toml. by rewrite Er.
Qed.

(** Starting a role changes neither the configuration nor the protocol. *)
Lemma StartClient_keeps {T} (proj : ServiceState → T) group :
  (∀ s r i, proj (s <| s_role := r |> <| s_relayIdentity := i |>) = proj s) →
  (∀ s x, proj (s <| s_socksClientConfig := x |>) = proj s) →
  (∀ s x y, proj (s <| s_socksStopChan := x |> <| s_hasSocksServerGoRoutine := y |>) = proj s) →
  (∀ s x y, proj (s <| s_trusteeIDs := x |> <| s_connectToRelayRunning := y |>) = proj s) →
  sKeeps proj (StartClient group).
Proof.
  intros H1 H2 H3 H4. unfold StartClient. destruct (mapIdentities group). solve_skeeps.
Qed.

Lemma StartTrustee_keeps {T} (proj : ServiceState → T) group :
  (∀ s r i b, proj (s <| s_role := r |> <| s_relayIdentity := i |> <| s_connectToRelayRunning := b |>) = proj s) →
  sKeeps proj (StartTrustee group).
Proof. intros H. unfold StartTrustee. destruct (mapIdentities group). solve_skeeps. Qed.

Lemma started_node start c n v :
  start = startClient ∨ start = startTrustee → start c = Ret n → nodeVersion c = Ret v →
  fresh_node c v (n_service n).1.
Proof.
  intros Hs H Hv.
  assert (∃ host group s, readConfigAndStartCothority c = Ret (host, group, s)
    ∧ s_prifiTomlConfig (n_service n).1 = s_prifiTomlConfig s
    ∧ s_PriFiSDAProtocol (n_service n).1 = s_PriFiSDAProtocol s) as (host & group & s & Er & Ht & Hp).
  { destruct Hs as [-> | ->]; unfold startClient, startTrustee, runService in H;
      go_inv H as [[host group] s]; go_inv H; go_inv H as [u [s' tr']]; injection H as <-;
      exists host, group, s; (split; [done|]).
    - split; by eapply StartClient_keeps.
    - split; by eapply StartTrustee_keeps. }
  apply (readConfig_inv _ _ _ _ v) in Er as [[(toml & Hr & Ht') Hp'] _]; [|done].
  split; [exists toml; split|]; congruence.
Qed.

(** A started relay: nobody waits, and it may start the protocol by itself. *)
Record fresh_relay (c : cliContext) (v : string) (s : ServiceState) : Prop := {
  fr_node : fresh_node c v s;
  fr_churn : ∃ relayID trustees, s_churnHandler s = Some (mkChurn (mkQueue ∅ ∅) 0 0 relayID trustees true)
}.

Lemma StartRelay_keeps {T} (proj : ServiceState → T) group :
  (∀ s r i, proj (s <| s_role := r |> <| s_relayIdentity := i |>) = proj s) →
  (∀ s x, proj (s <| s_churnHandler := x |>) = proj s) →
  (∀ s x, proj (s <| s_socksServerConfig := x |>) = proj s) →
  (∀ s x y, proj (s <| s_socksStopChan := x |> <| s_hasSocksClientGoRoutine := y |>) = proj s) →
  sKeeps proj (StartRelay group).
Proof.
  intros H1 H2 H3 H4. unfold StartRelay, setChurn, sendHelloMessage.
  destruct (mapIdentities group). solve_skeeps.
Qed.

Lemma StartRelay_churn group s tr u s' tr' :
  s_AutoStart s = true → StartRelay group (s, tr) = Ret (u, (s', tr')) →
  ∃ relayID trustees, s_churnHandler s' = Some (mkChurn (mkQueue ∅ ∅) 0 0 relayID trustees true).
Proof.
  intros Ha H. unfold StartRelay in H. destruct (mapIdentities group) as [relayID trustees].
  apply svc_bind_inv in H as (? & ? & H1 & H). injection H1 as <- <-.
  apply svc_bind_inv in H as (? & ? & H1 & H). injection H1 as <- <-.
  apply svc_bind_inv in H as (ch & ? & H1 & H).
  destruct relayID as [relayID|]; [|done]. injection H1 as <- <-.
  apply svc_bind_inv in H as (? & ? & H1 & H). injection H1 as <- <-.
  exists relayID, trustees. cbv beta in H.
  match type of H with ?m _ = _ => assert (sKeeps s_churnHandler m) as Hk end.
  { unfold sendHelloMessage. solve_skeeps. }
  apply Hk in H. rewrite H. cbn. by rewrite Ha.
Qed.
End app.

Arguments Node CS {O}.

(** ** The first connection *)

Section connection.
Context {CS : CryptoSuite} {CK : Clock CS} {PS : ProofSystem CS} {O : Onet CS}.
Context (Range : nat → gmap string waitQueueEntry → list (string * waitQueueEntry)).

Lemma started_relay {E : Environment CS} c n v :
  startRelay c = Ret n → nodeVersion c = Ret v → fresh_relay c v (n_service n).1.
Proof.
  intros H Hv. unfold startRelay, runService in H.
  go_inv H as [[host group] s]. go_inv H. go_inv H as [u [s' tr']]. injection H as <-. cbn [n_service fst].
  apply (readConfig_inv _ _ _ _ v) in E0 as [[(toml & Hr & Ht) Hp] _]; [|done].
  split; [split; [exists toml; split; [done|]|]|].
  - rewrite <- Ht. by eapply (StartRelay_keeps s_prifiTomlConfig) in E2.
  - rewrite <- Hp. by eapply (StartRelay_keeps s_PriFiSDAProtocol) in E2.
  - by eapply StartRelay_churn in E2.
Qed.

(** A node asks to take part with the version it has. *)
Lemma node_request {E : Environment CS} c v s tr relayID :
  fresh_node c v s →
  connectToRelayTick relayID (s, tr) = Ret (tt, (s, tr ++ [RawSent relayID (ConnectionRequest v)])).
Proof.
  intros [(toml & _ & Ht) Hp]. unfold connectToRelayTick, sendConnectionRequest, IsPriFiProtocolRunning.
  unfold mbind, svc_bind, sGet, sLift, sEmit. cbn [fst snd]. rewrite Hp. cbn. by rewrite Ht.
Qed.

(** The relay's service after the first node [from] was admitted *)
Definition admitted (s : ServiceState) (from : ServerIdentity) : Prop :=
  ∃ c, s_churnHandler s = Some c ∧ s_PriFiSDAProtocol s = None
  ∧ if isATrustee c from
    then wq_trustees (ch_waitQueue c) = {[ si_Public from := mkEntry from 0 Role_Trustee ]}
         ∧ wq_clients (ch_waitQueue c) = ∅
    else wq_clients (ch_waitQueue c) = {[ si_Public from := mkEntry from 0 Role_Client ]}
         ∧ wq_trustees (ch_waitQueue c) = ∅.

Lemma relay_first_connection {E : Environment CS} c v s tr x from v' :
  fresh_relay c v s →
  HandleConnection Range x from v' (s, tr)
  = if decide (v = v') then handleConnection Range x from (s, tr)
    else Crash (Fatal "Different CommitID between relay and ").
Proof.
  intros [[(toml & _ & Ht) _] (relayID & trustees & Hc)]. unfold HandleConnection.
  unfold mbind at 1, svc_bind at 1, sGet at 1. cbn [fst]. rewrite Hc, decide_False by done.
  unfold mbind at 1, svc_bind at 1, sLift at 1. rewrite Ht. cbn [nonNil]. change (tm_ProtocolVersion (toml <| tm_ProtocolVersion := v |>)) with v.
  destruct (String.eqb_spec v v') as [->|Hn]; [by rewrite decide_True | by rewrite decide_False].
Qed.

Lemma tryStart_alone x c s tr :
  s_churnHandler s = Some c →
  wq_clients (ch_waitQueue c) = ∅ ∨ wq_trustees (ch_waitQueue c) = ∅ →
  tryStartProtocol Range x (s, tr) = Ret (tt, (s, tr)).
Proof.
  intros Hc He. unfold tryStartProtocol. rewrite s_run_bind, (s_run_churn c) by done.
  unfold count. destruct He as [-> | ->]; rewrite map_size_empty; [done|]. by rewrite andb_false_r.
Qed.

Lemma first_admitted {E : Environment CS} c v s tr x from :
  fresh_relay c v s →
  ∃ s', handleConnection Range x from (s, tr) = Ret (tt, (s', tr)) ∧ admitted s' from.
Proof.
  intros [[_ Hp] (relayID & trustees & Hc)]. unfold handleConnection.
  rewrite s_run_bind, (s_run_churn _ _ _ Hc).
  set (churn := mkChurn _ _ _ _ _ _) in *. set (T := isATrustee churn from).
  change (ch_waitQueue churn) with (mkQueue ∅ ∅).
  assert (contains (mkQueue ∅ ∅) (idFromServerIdentity from) T = false) as ->.
  { unfold contains. destruct T; cbn; apply bool_decide_eq_false_2; rewrite lookup_empty; by intros [? ?]. }
  rewrite s_run_bind. cbn [setChurn sSet fst snd].
  destruct T eqn:HT; (erewrite tryStart_alone; [|done | cbn; auto]); eexists; (split; [done|]);
    (eexists; split; [done|]; split; [done|]); unfold T, isATrustee in HT |- *; cbn in HT |- *; by rewrite HT.
Qed.
(** C36: A relay and a node (client or trustee) are started from the command line,
    each with its own files.  The node asks the relay to take part with the
    version its own files give it (the commit of its git repository when its
    configuration asks for equal versions, "v1" otherwise).  When this is the
    relay's version too, the relay admits it as participant number 0 of its
    role; when it is not, the relay's process exits. *)
Theorem version_decides_admission (E1 E2 : Environment CS) c1 c2 start relay node v1 v2 relayID x from :
  startRelay (E:=E1) c1 = Ret relay → nodeVersion (E:=E1) c1 = Ret v1 →
  start = startClient (E:=E2) ∨ start = startTrustee (E:=E2) →
  start c2 = Ret node → nodeVersion (E:=E2) c2 = Ret v2 →
  connectToRelayTick relayID (n_service node)
  = Ret (tt, ((n_service node).1, (n_service node).2 ++ [RawSent relayID (ConnectionRequest v2)]))
  ∧ if decide (v1 = v2)
    then ∃ s', HandleConnection Range x from v2 (n_service relay) = Ret (tt, (s', (n_service relay).2))
               ∧ admitted s' from
    else HandleConnection Range x from v2 (n_service relay)
         = Crash (Fatal "Different CommitID between relay and ").
Proof.
  intros Hr Hv1 Hs Hn Hv2. apply (started_relay _ _ v1) in Hr; [|done].
  apply (started_node _ _ _ v2) in Hn; [|done..]. destruct (n_service node) as [s2 tr2].
  destruct (n_service relay) as [s1 tr1]. split; [by eapply node_request|].
  rewrite (relay_first_connection _ _ _ _ _ _ _ Hr). destruct (decide (v1 = v2)); [|done].
  exact (first_admitted (E:=E1) _ _ _ _ _ _ Hr).
Qed.
End connection.

(** ** Missing files *)

Section missing.
Context {CS : CryptoSuite} {CK : Clock CS} {PS : ProofSystem CS} {O : Onet CS} {E : Environment CS}.

Definition needsGroup : list (cliContext → go (Node CS)) := [startTrustee; startRelay; startClient].

Lemma no_config c :
  (readPriFiConfigFile c).1 = None → readConfigAndStartCothority c = Crash RuntimeError.
Proof. intros H. unfold readConfigAndStartCothority. destruct (readPriFiConfigFile c) as [toml err]. cbn in H. by subst. Qed.

(** C40: Without its prifi.toml, or with one that does not parse, every command
    dies of a nil dereference before it can report the error; without the group
    file every command but the SOCKS tunnel does. *)
Theorem missing_file_panics c :
  ((readPriFiConfigFile c).1 = None →
   Forall (λ start, start c = Crash RuntimeError) (startSocksTunnelOnly :: needsGroup))
  ∧ (∀ toml host v,
     readPriFiConfigFile c = (Some toml, None) → startCothorityNode c = Ok host → nodeVersion c = Ret v →
     os_Stat (GlobalString c "group") = Some ErrNotExist →
     Forall (λ start, start c = Crash RuntimeError) needsGroup
     ∧ ∃ n, startSocksTunnelOnly c = Ret n).
Proof.
  split.
  - intros H. apply no_config in H. repeat constructor;
      unfold startSocksTunnelOnly, startTrustee, startRelay, startClient; by rewrite H.
  - intros toml host v Hc Hh Hv Hg.
    assert (∃ s, readConfigAndStartCothority c = Ret (host, None, s) ∧ is_Some (s_prifiTomlConfig s))
      as (s & Hr & [t Ht]).
    { unfold readConfigAndStartCothority, nodeVersion, readCothorityGroupConfig in *.
      rewrite Hc in Hv |- *. cbn [nonNil mbind go_bind fst] in Hv |- *. rewrite Hh, Hg.
      cbn [os_IsNotExist mbind go_bind]. cbn [mbind go_bind] in Hv. rewrite Hv.
      eexists. split; [done|]. by eexists. }
    split.
    + repeat constructor; unfold startTrustee, startRelay, startClient; by rewrite Hr.
    + unfold startSocksTunnelOnly, runService, StartSocksTunnelOnly. rewrite Hr.
      cbn [mbind go_bind]. rewrite !s_run_bind. cbn [sGet fst]. rewrite s_run_bind. cbn [sLift].
      rewrite Ht. cbn. by eexists.
Qed.

(** An unreadable prifi.toml is an empty one: the node starts with every
    parameter zero. *)
Lemma unreadable_config_is_zero c err :
  os_Stat (GlobalString c "prifi_config") = None →
  ioutil_ReadFile (GlobalString c "prifi_config") = (EmptyString, Some err) →
  (∀ z, toml_Decode EmptyString z = Ok z) →
  GlobalIsSet c "port" = false → GlobalIsSet c "port_client" = false →
  readPriFiConfigFile c = (Some zeroToml, None).
Proof.
  intros Hs Hr Hd Hp Hp'. unfold readPriFiConfigFile. rewrite Hs, Hr. cbn. by rewrite Hd, Hp, Hp'.
Qed.

(** The names and aliases of the commands are unambiguous. *)
Lemma commands_unambiguous : NoDup (Commands ≫= λ cmd, cmd_Name cmd :: cmd_Aliases cmd).
Proof. apply NoDup_ListNoDup. vm_compute. repeat constructor; cbn; intuition discriminate. Qed.
End missing.

