(* ===== verification/Wiring.v ===== *)
(** * How the entities are wired together

    The handlers of relay, client and trustee send messages of 23 kinds, and each
    entity dispatches on the kind.  Every message an entity sends goes to the
    right kind of node, is of a kind that node has a handler for, and is one the
    tree of the protocol delivers. *)

From S2P Require Import Prelude Bytes Crypto Messages StateMachine NeffShuffle Network Trustee Client ClientSpec Relay RelayStates Protocol.

Open Scope Z_scope.

Section wiring.
Context {CS : CryptoSuite} {NW : Network CS} {CK : Clock CS} {PS : ProofSystem CS}.

(** What a client and a trustee send, always to the relay *)
Definition clientSends (d : dest) (m : message CS) : bool :=
  match d, m with
  | ToRelay, (MTellPkEph _ | MUpstream _ | MOpenClosed _ | MBlame _ | MClientReveal _
             | MClientSecret _) => true
  | _, _ => false
  end.
(** ... the key of a client only in answer to its parameters. *)
Definition clientData (d : dest) (m : message CS) : bool :=
  match m with MTellPkEph _ => false | _ => clientSends d m end.
Definition trusteeSends (d : dest) (m : message CS) : bool :=
  match d, m with
  | ToRelay, (MTellPk _ | MNewBase _ | MShuffleSig _ | MDCCipher _ | MTrusteeReveal _
             | MTrusteeSecret _) => true
  | _, _ => false
  end.

(** ** What each entity sends *)

Abbreviation C_ok := (emits (sentBy clientData)).
Create HintDb client_sends.

Lemma sends_measured {X} (f : X → event CS) (l : list X) :
  (∀ x, silent (f x) = true) →
  C_ok (foldr (λ v k, _ ← emit (f v); k) (mret tt : handler (PriFiLibClientInstance CS) unit) l).
Proof.
  intros Hf. induction l as [|x l IH]; cbn; [apply emits_ret|].
  apply emits_bind; [apply emits_emit; specialize (Hf x); by destruct (f x) | done].
Qed.

Ltac client :=
  unfold setC, getC, c_AssertState, c_ChangeState, c_startStop, SendToRelayWithLog;
  cbv zeta; solve_emits_with ltac:(eauto with client_sends nocore).

Lemma sends_ownerContent ci n : C_ok (ownerContent ci n).
Proof. unfold ownerContent. client. by apply (sends_measured (Measured "latency-msg-stayed-in-buffer")). Qed.
#[local] Hint Resolve sends_ownerContent : client_sends.
Lemma sends_encodeAndSend b c : C_ok (encodeAndSend b c).
Proof. unfold encodeAndSend. client. Qed.
#[local] Hint Resolve sends_encodeAndSend : client_sends.
Lemma sends_upstream ci o : C_ok (SendUpstreamData ci o).
Proof. unfold SendUpstreamData. client. Qed.
Lemma sends_wants ci : C_ok (WantsToTransmit ci).
Proof. unfold WantsToTransmit. client. Qed.
#[local] Hint Resolve sends_upstream sends_wants : client_sends.
Lemma sends_openclosed ci : C_ok (answerOpenClosed ci).
Proof. unfold answerOpenClosed. client. Qed.
Lemma sends_disruption m : C_ok (handlePossibleDisruption m).
Proof. unfold handlePossibleDisruption. client. Qed.
Lemma sends_handleData ci m : C_ok (handleData ci m).
Proof.
  unfold handleData. client.
  match goal with |- emits _ (foldr ?g _ ?l) => induction l as [|[[]] l IH]; cbn [foldr] end; client.
Qed.
#[local] Hint Resolve sends_openclosed sends_disruption sends_handleData : client_sends.
Lemma sends_process ci m : C_ok (ProcessDownStreamData ci m).
Proof. unfold ProcessDownStreamData. client. Qed.
#[local] Hint Resolve sends_process : client_sends.
Lemma sends_downstream fuel ci m : C_ok (Received_REL_CLI_DOWNSTREAM_DATA fuel ci m).
Proof. revert m. induction fuel as [|fuel IH]; intros m; cbn [Received_REL_CLI_DOWNSTREAM_DATA]; client. Qed.
#[local] Hint Resolve sends_downstream : client_sends.
Lemma sends_eph_pks m : C_ok (Received_REL_CLI_TELL_EPH_PKS m).
Proof. unfold Received_REL_CLI_TELL_EPH_PKS. client. Qed.
#[local] Hint Resolve sends_eph_pks : client_sends.

Definition isParameters (m : message CS) : bool := match m with MParameters _ => true | _ => false end.

Lemma client_data ci msg : isParameters msg = false → C_ok (c_ReceivedMessage ci msg).
Proof.
  intros Hm. unfold c_ReceivedMessage, c_Received_ALL_ALL_SHUTDOWN, Received_REL_CLI_UDP_DOWNSTREAM_DATA,
    c_Received_REL_ALL_DISRUPTION_REVEAL, c_Received_REL_ALL_REVEAL_SHARED_SECRETS.
  cbv zeta. destruct msg; try discriminate Hm; client.
Qed.

Lemma client_sends ci msg : emits (sentBy clientSends) (c_ReceivedMessage ci msg).
Proof.
  destruct (isParameters msg) eqn:Hm.
  - destruct msg; try discriminate Hm.
    unfold c_ReceivedMessage, c_Received_ALL_ALL_PARAMETERS, Received_REL_CLI_TELL_TRUSTEES_PK. client.
  - eapply emits_weaken; [|by apply client_data]. intros e. destruct e as [d m|d m| | | | | | |]; try done; by destruct m.
Qed.

Abbreviation T_ok := (emits (sentBy trusteeSends)).
Ltac trustee :=
  unfold setT, t_AssertState, t_ChangeState, t_sendRate, SendToRelayWithLog;
  cbv zeta; solve_emits.

Lemma trustee_sends d msg : T_ok (t_ReceivedMessage d msg).
Proof.
  unfold t_ReceivedMessage, t_Received_ALL_ALL_SHUTDOWN, t_Received_ALL_ALL_PARAMETERS, Send_TRU_REL_PK,
    Received_REL_TRU_TELL_CLIENTS, Received_REL_TRU_TELL_TRANSCRIPT, Received_REL_TRU_TELL_RATE_CHANGE,
    t_Received_REL_ALL_DISRUPTION_REVEAL, t_Received_REL_ALL_REVEAL_SHARED_SECRETS.
  cbv zeta. destruct msg; trustee.
Qed.

Lemma sender_sends v : T_ok (senderStep v).
Proof. unfold senderStep, sendData. cbv zeta. trustee. Qed.

(** ** What each entity has a handler for *)

(** A dispatcher that does not know a message answers this and does nothing. *)
Definition unrecognised {S} (h : handler S (result unit)) : Prop :=
  ∀ w : S * list (event CS), h w = Ret (Err "Unrecognized message, type", w).

(** The node a message is sent to has a handler for it. *)
Definition recognised (d : dest) (m : message CS) : Prop :=
  match d with
  | ToRelay => ∀ rnd1 rnd2, ¬ unrecognised (r_ReceivedMessage rnd1 rnd2 m)
  | ToClient _ | ToAllClients => ∀ ci, ¬ unrecognised (c_ReceivedMessage ci m)
  | ToTrustee _ => ∀ td, ¬ unrecognised (t_ReceivedMessage td m)
  end.

(** An entity that was shut down recognises a message without doing anything. *)
Lemma relay_recognises m rnd1 rnd2 :
  clientSends ToRelay m || trusteeSends ToRelay m = true →
  ¬ unrecognised (r_ReceivedMessage rnd1 rnd2 m).
Proof.
  intros Hm HU. destruct (NewRelay Scalar_One 0 false []) as [p|] eqn:E; [|done].
  specialize (HU (p <| r_stateMachine := mkStateMachine "" "SHUTDOWN" relayStates |>, [])).
  by destruct m.
Qed.

Lemma client_recognises d m ci :
  relaySends d m = true → d ≠ ToRelay → (∀ i, d ≠ ToTrustee i) →
  ¬ unrecognised (c_ReceivedMessage ci m).
Proof.
  intros Hm H1 H2 HU. destruct (NewClient Scalar_One 0 0 false false [] false "") as [p|] eqn:E; [|done].
  specialize (HU (p <| c_stateMachine := mkStateMachine "" "SHUTDOWN" clientStates |>, [])).
  destruct d; [done | | by edestruct H2 | by destruct m]. destruct m; try done.
  injection E as <-. revert HU. cbv [c_ReceivedMessage]. destruct (ForceParams _); [|done].
  intros HU. unfold c_Received_ALL_ALL_PARAMETERS, getC, setC in HU. h_run HU.
  repeat case_match; h_run HU; try done.
Qed.

Lemma trustee_recognises i m td :
  relaySends (ToTrustee i) m = true → ¬ unrecognised (t_ReceivedMessage td m).
Proof.
  intros Hm HU. destruct (NewTrustee Scalar_One false false 0) as [p|] eqn:E; [|done].
  specialize (HU (p <| t_stateMachine := mkStateMachine "" "SHUTDOWN" trusteeStates |>, [])).
  injection E as <-. destruct m; try done. revert HU. cbv [t_ReceivedMessage]. destruct (ForceParams _); [|done].
  intros HU. unfold t_Received_ALL_ALL_PARAMETERS, setT in HU. h_run HU.
  repeat case_match; h_run HU; try done.
Qed.

(** ** Every message has a handler *)

Inductive role := Relay_ | Client_ | Trustee_.

(** The relay talks to clients and trustees, these talk to the relay only. *)
Definition addressee (from : role) (d : dest) : bool :=
  match from, d with
  | Relay_, ToRelay => false
  | Relay_, _ => true
  | _, ToRelay => true
  | _, _ => false
  end.

(** A message that is well wired: its destination is one the sender may talk to
    and has a handler for it.  What is sent to one node is of a kind the tree
    delivers to the protocol, and registered with the network library unless it is
    the shutdown; what is broadcast is the one message the UDP channel accepts. *)
Definition wired (from : role) (e : event CS) : Prop :=
  match e with
  | Sent d m | SendFailed d m =>
    addressee from d = true ∧ recognised d m
    ∧ match d with
      | ToAllClients => ∃ md, m = MDownstreamUDP md
      | _ => registered m = true ∧ (init_registered m = true ∨ m = MShutdown)
      end
  | _ => True
  end.

Lemma wired_relay e : sentBy relaySends e → wired Relay_ e.
Proof.
  assert (∀ d m, relaySends d m = true → wired Relay_ (Sent d m)) as H.
  { intros d m Hm. split; [by destruct d|]. split; [|destruct d, m; cbn; eauto; done].
    destruct d; [done | | | ]; intros x.
    - by apply (client_recognises (ToClient i)).
    - by apply (trustee_recognises i).
    - by apply (client_recognises ToAllClients). }
  destruct e; try done; apply H.
Qed.

Lemma wired_client e : sentBy clientSends e → wired Client_ e.
Proof.
  assert (∀ d m, clientSends d m = true → wired Client_ (Sent d m)) as H.
  { intros d m Hm. destruct d; try done. split; [done|]. split; [|destruct m; by auto].
    intros r1 r2. apply relay_recognises. by rewrite Hm. }
  destruct e; try done; apply H.
Qed.

Lemma wired_trustee e : sentBy trusteeSends e → wired Trustee_ e.
Proof.
  assert (∀ d m, trusteeSends d m = true → wired Trustee_ (Sent d m)) as H.
  { intros d m Hm. destruct d; try done. split; [done|]. split; [|destruct m; by auto].
    intros r1 r2. apply relay_recognises. by rewrite Hm, orb_true_r. }
  destruct e; try done; apply H.
Qed.

(** C16: Every message is well wired.  Whatever message reaches an entity in
    whatever state, whichever round times out and whatever the trustee's sender
    does, each message sent in answer goes to the right kind of node (clients and
    trustees talk to the relay, the relay to them) and the dispatcher of that node
    has a handler for it.  A message to one node is of a type that registerHandlers
    registers and, unless it is ALL_ALL_SHUTDOWN, of one that init registers; the
    only message that is broadcast is REL_CLI_DOWNSTREAM_DATA_UDP. *)
Theorem messages_wired :
  (∀ rnd1 rnd2 m, emits (wired Relay_) (r_ReceivedMessage rnd1 rnd2 m))
  ∧ (∀ round, emits (wired Relay_) (checkIfRoundHasEndedAfterTimeOut_Phase1 round))
  ∧ (∀ ci m, emits (wired Client_) (c_ReceivedMessage ci m))
  ∧ (∀ td m, emits (wired Trustee_) (t_ReceivedMessage td m))
  ∧ (∀ v, emits (wired Trustee_) (senderStep v)).
Proof.
  repeat split; intros.
  - eapply emits_weaken; [apply wired_relay | apply relay_sends].
  - eapply emits_weaken; [apply wired_relay | apply relay_timeout_sends].
  - eapply emits_weaken; [apply wired_client | apply client_sends].
  - eapply emits_weaken; [apply wired_trustee | apply trustee_sends].
  - eapply emits_weaken; [apply wired_trustee | apply sender_sends].
Qed.
End wiring.
