(* ===== verification/NodeKeys.v ===== *)
(** * What a node holds after the setup

    A trustee or a client that is told its number, the parameters and the keys of
    its peers holds a DC-net entity made from exactly these, answers with its own
    number and key, and a client takes a slot only as the announcement of the
    shuffle gives it one.  This is proved of every run, whatever lists of keys
    ([allowed_keys]) the node may be told. *)

From S2P Require Import Prelude Bytes Crypto DCNetCipher Equivocation DCNet DCNetRound DCNetSession BitMask.
From S2P Require Import Messages StateMachine Measurements NeffShuffle NeffShuffleSpec Network Trustee TrusteeSpec.
From S2P Require Import Client ClientSpec ClientCells Relay RelayStates RelayKeys Wiring.

Open Scope Z_scope.

(** ** The loop that fills in the secrets *)

Section fill.
Context {CS : CryptoSuite}.

Lemma set_index_middle {A} (a : list A) x rest y :
  set_index (a ++ x :: rest) (Z.of_nat (length a)) y = Ret (a ++ y :: rest).
Proof.
  rewrite set_index_ret by (unfold len; rewrite length_app; cbn; lia).
  rewrite Nat2Z.id, insert_app_r_alt, Nat.sub_diag by lia. done.
Qed.

Lemma fillKeys_from (sk : Scalar) l : ∀ pks secrets restp rests,
  length secrets = length pks → length restp = length l → length rests = length l →
  go_fold (λ '(pks, secrets) '(i, pk),
    pks ← set_index pks (Z.of_nat i) pk;
    secrets ← set_index secrets (Z.of_nat i) (MulKey sk pk);
    Ret (pks, secrets)) (pks ++ restp, secrets ++ rests) (imap (λ i x, ((length pks + i)%nat, x)) l)
  = Ret (pks ++ l, secrets ++ (MulKey sk <$> l)).
Proof.
  induction l as [|x l IH]; intros pks secrets restp rests Hs Hp Hr.
  { by destruct restp, rests. }
  destruct restp as [|p restp], rests as [|s rests]; try done. rewrite imap_cons, go_fold_cons, Nat.add_0_r.
  rewrite set_index_middle. cbn [mbind go_bind]. rewrite <- Hs, set_index_middle. cbn [mbind go_bind].
  specialize (IH (pks ++ [x]) (secrets ++ [MulKey sk x]) restp rests).
  rewrite !length_app in IH. rewrite <- !app_assoc in IH. cbn [length app] in IH.
  rewrite fmap_cons, <- IH; [|cbn in *; lia..]. f_equal. apply imap_ext. intros i y _. cbn. f_equal. lia.
Qed.

Lemma fillKeys_all (sk : Scalar) l pks secrets :
  length pks = length l → length secrets = length l → fillKeys sk l pks secrets = Ret (l, MulKey sk <$> l).
Proof. intros Hp Hs. unfold fillKeys. exact (fillKeys_from sk l [] [] pks secrets eq_refl Hp Hs). Qed.
End fill.

(** ** Trustees *)

Section trustee_keys.
Context {CS : CryptoSuite} {CL : CryptoLaws CS} {NW : Network CS} {PS : ProofSystem CS}.
Context (sk : Scalar) (id n N : Z) (equiv : bool).
Context (allowed_keys : list (option Point) → Prop) (Hlen : ∀ pks, allowed_keys pks → length pks = Z.to_nat n).
Abbreviation tinst := (PriFiLibTrusteeInstance CS).

(** What the trustee may be told *)
Definition trustee_fits (m : message CS) : Prop :=
  match m with
  | MParameters m =>
    (∀ d, IntValueOrElse m "NextFreeTrusteeID" d = id) ∧ (∀ d, IntValueOrElse m "NClients" d = n)
    ∧ (∀ d, IntValueOrElse m "PayloadSize" d = N) ∧ ∀ d, BoolValueOrElse m "EquivocationProtectionEnabled" d = equiv
  | MTellClients m => ∃ pks, tb_Pks m = Some pks ∧ allowed_keys pks
  | _ => True
  end.

(** What it tells about itself *)
Definition trustee_tells (e : event CS) : Prop :=
  ∀ d m, e = Sent d (MTellPk m) → m = mkTellPk id (Some (Point_Mul sk Point_Base)).

(** The part of its state that comes from the setup *)
Definition trusteePart (p : tinst) :=
  let s := trusteeState p in
  (t_privateKey s, t_PublicKey s, t_ID s, cellConfig p, t_ClientPublicKeys s, t_sharedSecrets s).

Record trustee_joined (p : tinst) : Prop := {
  tj_id : t_ID (trusteeState p) = id;
  tj_config : cellConfig p = (N, equiv);
  tj_keys : length (t_ClientPublicKeys (trusteeState p)) = Z.to_nat n;
  tj_entity : t_DCNet (trusteeState p) = None ∨ allowed_keys (t_ClientPublicKeys (trusteeState p));
  tj_state : currentState (t_stateMachine p) ≠ "BEFORE_INIT";
  tj_secrets : length (t_sharedSecrets (trusteeState p)) = Z.to_nat n
}.

(** Before it joined it has no entity and no sender, and sent no cell. *)
Definition trustee_early (c : tconf) : Prop :=
  (currentState (t_stateMachine (tc_inst c)) = "BEFORE_INIT" ∨ currentState (t_stateMachine (tc_inst c)) = "SHUTDOWN")
  ∧ tc_senders c = [] ∧ ciphers (tc_trace c) = [] ∧ t_DCNet (trusteeState (tc_inst c)) = None.

Record tkinv (c : tconf) : Prop := {
  tk_private : t_privateKey (trusteeState (tc_inst c)) = sk;
  tk_public : t_PublicKey (trusteeState (tc_inst c)) = Point_Mul sk Point_Base;
  tk_tells : Forall trustee_tells (tc_trace c);
  tk_phase : trustee_joined (tc_inst c) ∨ trustee_early c
}.

(** A step that keeps the part, makes no entity and does not go back to the start *)
Definition trustee_stays (p p' : tinst) : Prop :=
  trusteePart p' = trusteePart p ∧ (t_DCNet (trusteeState p) = None → t_DCNet (trusteeState p') = None)
  ∧ (currentState (t_stateMachine p) ≠ "BEFORE_INIT" → currentState (t_stateMachine p') ≠ "BEFORE_INIT").

Lemma trusteePart_joined p p' : trustee_stays p p' → trustee_joined p → trustee_joined p'.
Proof.
  unfold trustee_stays, trusteePart. cbv zeta. rewrite !pair_eq.
  intros ((((((_ & _) & E1) & E2) & E3) & E4) & E5 & E6) [J1 J2 J3 J4 J5 J6].
  split; [congruence | congruence | by rewrite E3 | destruct J4; [by left; apply E5 | right; by rewrite E3] | auto | by rewrite E4].
Qed.

(** Messages that are not about the setup *)
Definition trusteeSetup (m : message CS) : bool :=
  match m with MParameters _ | MTellClients _ => true | _ => false end.

Ltac trustee_handlers :=
  unfold t_ReceivedMessage, t_Received_ALL_ALL_SHUTDOWN, Received_REL_TRU_TELL_TRANSCRIPT,
    Received_REL_TRU_TELL_RATE_CHANGE, t_Received_REL_ALL_DISRUPTION_REVEAL,
    t_Received_REL_ALL_REVEAL_SHARED_SECRETS, setT, t_AssertState, t_sendRate,
    SendToRelayWithLog; cbv zeta.

Lemma ChangeState_part x : keeps_proj trusteePart (t_ChangeState x).
Proof. intros p tr r p' tr' (sm & -> & _)%ChangeState_effect. done. Qed.

Lemma trustee_keeps_part d msg : trusteeSetup msg = false → keeps_proj trusteePart (t_ReceivedMessage d msg).
Proof. intros Hm. trustee_handlers. destruct msg; try discriminate Hm; solve_keeps_with ltac:(apply ChangeState_part). Qed.

Lemma trustee_quiet d msg : trusteeSetup msg = false → emits trustee_tells (t_ReceivedMessage d msg).
Proof. intros Hm. trustee_handlers. unfold t_ChangeState. destruct msg; try discriminate Hm; solve_emits. Qed.

Lemma sender_quiet v : keeps_proj trusteePart (senderStep v) ∧ emits trustee_tells (senderStep v).
Proof. unfold senderStep, sendData, setT, SendToRelayWithLog. split; [solve_keeps | solve_emits]. Qed.

(** A trustee that took over its parameters *)
Definition trustee_set (p q : tinst) : Prop :=
  t_ID (trusteeState q) = id ∧ cellConfig q = (N, equiv)
  ∧ length (t_ClientPublicKeys (trusteeState q)) = Z.to_nat n ∧ length (t_sharedSecrets (trusteeState q)) = Z.to_nat n
  ∧ t_DCNet (trusteeState q) = t_DCNet (trusteeState p) ∧ t_privateKey (trusteeState q) = t_privateKey (trusteeState p)
  ∧ t_PublicKey (trusteeState q) = t_PublicKey (trusteeState p).

Lemma parameters_joined m p tr r p' tr' :
  trustee_fits (MParameters m) → t_PublicKey (trusteeState p) = Point_Mul sk Point_Base →
  t_DCNet (trusteeState p) = None → t_Received_ALL_ALL_PARAMETERS m (p, tr) = Ret (r, (p', tr')) →
  (trusteePart p' = trusteePart p ∧ t_DCNet (trusteeState p') = None
   ∧ currentState (t_stateMachine p') = currentState (t_stateMachine p) ∧ tr' = tr)
  ∨ trustee_joined p' ∧ t_privateKey (trusteeState p') = t_privateKey (trusteeState p)
    ∧ t_PublicKey (trusteeState p') = t_PublicKey (trusteeState p)
    ∧ ∃ new, tr' = tr ++ new ∧ Forall trustee_tells new.
Proof.
  intros (Hid & Hn & HN & He) Hpub Hd H.
  unfold t_Received_ALL_ALL_PARAMETERS, setT, Send_TRU_REL_PK, SendToRelayWithLog in H. h_step H. h_step H.
  repeat (match type of H with (if ?b then _ else _) _ = _ => destruct b end; [by h_run H; left|]).
  right. h_step H. h_step H.
  match type of E with _ (?q, _) = _ =>
    assert (trustee_set p q) as Hs; [|generalize dependent q] end.
  { unfold trustee_set, cellConfig. cbn. rewrite Hid, Hn, HN, He, !length_replicate. done. }
  intros q E Hs. h_run H. apply ChangeState_effect in E0 as (sm & -> & -> & Hst & _).
  destruct Hs as (S1 & S2 & S3 & S4 & S5 & S6 & S7).
  assert (s = q ∧ ∃ new, tr0 = tr ++ new ∧ Forall trustee_tells new) as (-> & new & -> & Hnew).
  { destruct (BoolValueOrElse m "StartNow" false); h_run E.
    - split; [done|]. eexists. split; [done|].
      destruct (net_send _ _ _); repeat constructor; intros d m' [= _ <-]. by rewrite S1, S7, Hpub.
    - split; [done|]. exists []. by rewrite app_nil_r. }
  split_and!; [|done|done|by exists new]. split; cbn; try done; [left; congruence | by rewrite Hst].
Qed.

Lemma tell_clients_joined rnd1 rnd2 c perm m p tr r p' tr' :
  trustee_fits (MTellClients m) → trustee_joined p →
  Received_REL_TRU_TELL_CLIENTS rnd1 rnd2 c perm m (p, tr) = Ret (r, (p', tr')) →
  trustee_joined p' ∧ t_privateKey (trusteeState p') = t_privateKey (trusteeState p)
  ∧ t_PublicKey (trusteeState p') = t_PublicKey (trusteeState p)
  ∧ ∃ new, tr' = tr ++ new ∧ Forall trustee_tells new.
Proof.
  intros (pks & Hpks & Hk) Hj H. unfold Received_REL_TRU_TELL_CLIENTS, setT, SendToRelayWithLog in H.
  rewrite Hpks in H. change (default [] (Some pks)) with pks in H.
  repeat (match type of H with (if ?b then _ else _) _ = _ => destruct b end;
          [h_run H; split_and!; try done; exists []; by rewrite app_nil_r|]).
  h_step H. h_step H. pose proof Hj as [Hid Hcf Hlk _ Hst Hls]. pose proof (Hlen _ Hk) as Hl.
  rewrite fillKeys_all in E0 by congruence. injection E0 as <-. h_step H. h_step H. h_step H. h_step H.
  match type of H with (let '_ := ?x in _) _ = _ => destruct x as [res nn] end. h_step H.
  match type of H with _ (?q, _) = _ =>
    assert (trustee_joined q ∧ t_privateKey (trusteeState q) = t_privateKey (trusteeState p)
            ∧ t_PublicKey (trusteeState q) = t_PublicKey (trusteeState p)) as (Hj' & Hp & Hq);
      [|generalize dependent q] end.
  { split; [|done]. split; cbn; try done; [by right | by rewrite length_fmap]. }
  intros q H Hj' Hp Hq. destruct res; h_run H; [|split_and!; try done; exists []; by rewrite app_nil_r].
  apply ChangeState_effect in E as (sm & -> & -> & Hsd & _).
  split_and!; [apply (trusteePart_joined q); [|done]; split_and!; [done..|cbn; by rewrite Hsd] | done | done |].
  eexists. split; [done|]. destruct (net_send _ _ _); by repeat constructor.
Qed.

Lemma tkinv_same c c' new :
  trustee_stays (tc_inst c) (tc_inst c') → tc_trace c' = tc_trace c ++ new →
  Forall trustee_tells new → (trustee_early c → trustee_early c') → tkinv c → tkinv c'.
Proof.
  intros Hs Ht Hn He [H1 H2 H3 H4]. pose proof (trusteePart_joined _ _ Hs) as Hj. destruct Hs as [E _].
  unfold trusteePart in E. cbv zeta in E. rewrite !pair_eq in E. destruct E as (((((E1 & E2) & _) & _) & _) & _).
  split; [congruence | congruence | rewrite Ht; by apply Forall_app | destruct H4; auto].
Qed.

Lemma tkinv_joined p p' tr new ss ss' :
  trustee_joined p' → t_privateKey (trusteeState p') = t_privateKey (trusteeState p) →
  t_PublicKey (trusteeState p') = t_PublicKey (trusteeState p) → Forall trustee_tells new →
  tkinv (mkTConf p tr ss) → tkinv (mkTConf p' (tr ++ new) ss').
Proof.
  intros Hj Hp Hq Hn [H1 H2 H3 _]. cbn [tc_inst tc_trace] in *.
  split; cbn [tc_inst tc_trace]; [congruence | congruence | by apply Forall_app | by left].
Qed.

(** Outside the setup a trustee goes on from where it is, or is shut down. *)
Lemma trustee_moves d msg p tr r p' tr' :
  trusteeSetup msg = false → normal_msg p msg → t_ReceivedMessage d msg (p, tr) = Ret (r, (p', tr')) →
  t_DCNet (trusteeState p') = t_DCNet (trusteeState p)
  ∧ (currentState (t_stateMachine p') = currentState (t_stateMachine p)
     ∨ (currentState (t_stateMachine p') = "SHUTDOWN" ∧ ∀ m, msg ≠ MTranscript m)
     ∨ currentState (t_stateMachine p) = "SHUFFLE_DONE" ∧ currentState (t_stateMachine p') = "READY").
Proof.
  intros Hm Hn H. destruct msg; try discriminate Hm; cbn [t_ReceivedMessage normal_msg] in H, Hn;
    try (by h_run H; auto); try done; try (apply guarded_inv in H as [[-> ->]|[Hb H]]; [by auto|]).
  - apply shutdown_effect in H as [(_ & _ & _ & Hd & _) Hs]. split; [done|]. right. by left.
  - apply transcript_effect in H as [[-> _]|((_ & _ & _ & Hd & _) & Hs & _)]; [by auto|]. split; [done|]. by right; right.
  - apply rate_effect in H as [(_ & _ & _ & Hd & _) ->]. by auto.
  - apply secrets_effect in H as ->. by auto.
Qed.

Lemma early_stays d msg p tr ss r p' tr' :
  trusteeSetup msg = false → normal_msg p msg → t_ReceivedMessage d msg (p, tr) = Ret (r, (p', tr')) →
  trustee_early (mkTConf p tr ss) →
  trustee_early (mkTConf p' tr' (ss ++ replicate (spawns tr' - spawns tr) senderStart)).
Proof.
  intros Hm Hn H (Hs & Hss & Hc & Hd). cbn [tc_inst tc_senders tc_trace] in *. subst ss.
  destruct (trustee_moves d msg p tr r p' tr' Hm Hn H) as [Hd' Hst].
  assert (spawns tr' = spawns tr) as Hsp.
  { destruct msg as [| | | | | | | | |m| | | | | | | | | | | | |]; try (by eapply ReceivedMessage_no_spawn in H).
    cbn [t_ReceivedMessage] in H. apply guarded_inv in H as [[_ ->]|[Hb _]]; [done|]. destruct Hs; congruence. }
  unfold trustee_early. cbn [tc_inst tc_senders tc_trace].
  rewrite (ReceivedMessage_ciphers _ _ _ _ _ _ _ H), Hsp, Nat.sub_diag, Hd'. split_and!; try done.
  destruct Hst as [->|[[-> _]|[Hb _]]]; auto. destruct Hs; congruence.
Qed.

Lemma tkinv_receive d msg p tr ss r p' tr' :
  normal_msg p msg → trustee_fits msg → tkinv (mkTConf p tr ss) →
  t_ReceivedMessage d msg (p, tr) = Ret (r, (p', tr')) →
  tkinv (mkTConf p' tr' (ss ++ replicate (spawns tr' - spawns tr) senderStart)).
Proof.
  intros Hn Hf HI H. destruct (trusteeSetup msg) eqn:Hm.
  2:{ destruct (trustee_quiet d msg Hm _ _ _ _ _ H) as (new & Htr & Hnew).
      apply (tkinv_same (mkTConf p tr ss) _ new); [| exact Htr | done | by eapply early_stays | exact HI].
      destruct (trustee_moves d msg p tr r p' tr' Hm Hn H) as [Hd Hst].
      split; [exact (trustee_keeps_part d msg Hm _ _ _ _ _ H)|]. cbn [tc_inst]. split; [congruence|].
      intros Hb. destruct Hst as [->|[[-> _]|[_ ->]]]; done. }
  assert (∀ m, msg ≠ MTranscript m) as Hnt by (intros m ->; discriminate Hm).
  rewrite (ReceivedMessage_no_spawn _ _ _ _ _ _ _ Hnt H), Nat.sub_diag, app_nil_r.
  pose proof (ReceivedMessage_ciphers _ _ _ _ _ _ _ H) as Hc.
  destruct msg as [m| | | | | | | |m| | | | | | | | | | | | | |]; try discriminate Hm; cbn [t_ReceivedMessage normal_msg] in H, Hn.
  - apply forced_inv in H as [[-> ->]|[Hb H]]; [done| |done].
    destruct (tk_phase _ HI) as [Hj|He]; [by destruct (tj_state _ Hj)|]. pose proof He as (_ & Hss & Hci & Hd). cbn in Hss, Hci, Hd.
    apply parameters_joined in H as [(E & Ed & Est & ->)|(Hj & Hp & Hq & new & -> & Hnew)]; [| |done|apply HI|done].
    + apply (tkinv_same (mkTConf p tr ss) _ []); [|by rewrite app_nil_r|constructor| |done].
      * split_and!; cbn; [done | done | by rewrite Est].
      * unfold trustee_early. cbn. by rewrite Est, Ed, Hd.
    + by eapply tkinv_joined.
  - apply guarded_inv in H as [[-> ->]|[Hb H]]; [done|].
    destruct (tk_phase _ HI) as [Hj|[[Hs|Hs] _]]; cbn [tc_inst] in *; [|congruence..].
    apply tell_clients_joined in H as (Hj' & Hp & Hq & new & -> & Hnew); [|done..]. by eapply tkinv_joined.
Qed.

Lemma sender_moves v p tr v' p' tr' :
  senderStep v (p, tr) = Ret (v', (p', tr')) →
  t_stateMachine p' = t_stateMachine p ∧ (t_DCNet (trusteeState p) = None → t_DCNet (trusteeState p') = None).
Proof.
  intros H. split.
  - assert (keeps_proj t_stateMachine (senderStep v)) as Hk
      by (unfold senderStep, sendData, setT, SendToRelayWithLog; solve_keeps). by apply Hk in H.
  - intros Hd. assert (∀ r t, sendData r (p, t) = Crash RuntimeError) as Hno.
    { intros r t. unfold sendData. rewrite run_bind. unfold get. cbn. by rewrite Hd. }
    unfold senderStep, setT in H. h_step H.
    destruct (t_sendingRate _); [|by h_run H]. destruct (_ =? _).
    + h_step H. assert (s = p) as -> by (destruct (t_AlwaysSlowDown _); by h_run E).
      apply handler_bind_inv in H as (x & w & E' & _). by rewrite Hno in E'.
    + destruct (_ =? _); [|by h_run H]. h_step H. destruct (negb _); h_run E; by h_run H.
Qed.

Lemma tkinv_step (allowed : tinst → message CS → Prop) c c' :
  (∀ p m, allowed p m → normal_msg p m ∧ trustee_fits m) → tstep allowed c c' → tkinv c → tkinv c'.
Proof.
  intros Ha [d msg p tr ss r p' tr' Hal H|i v p tr ss v' p' tr' Hi Hv H] HI.
  - apply Ha in Hal as [Hn Hf]. by eapply tkinv_receive.
  - destruct (sender_quiet v) as [Hk He]. destruct (He _ _ _ _ _ H) as (new & Htr & Hnew).
    apply (tkinv_same (mkTConf p tr ss) _ new); [| exact Htr | done | | exact HI].
    + destruct (sender_moves _ _ _ _ _ _ H) as [Hsm Hd]. split; [exact (Hk _ _ _ _ _ H)|]. cbn. by rewrite Hsm.
    + intros (_ & Hss & _). cbn in Hss. by subst.
Qed.

Lemma tkinv_run (allowed : tinst → message CS → Prop) never always base p c :
  (∀ p m, allowed p m → normal_msg p m ∧ trustee_fits m) →
  NewTrustee sk never always base = Ret p → treach allowed (mkTConf p [] []) c → tkinv c.
Proof.
  intros Ha Hp H. assert (tkinv (mkTConf p [] [])) as H0.
  { unfold NewTrustee in Hp. cbn in Hp. destruct (_ && _); [done|]. injection Hp as <-.
    split; cbn; [done | done | constructor | right; split; cbn; auto]. }
  revert H0. induction H as [|x y z Hs _ IH]; [done|]. intros H0. by eapply IH, tkinv_step.
Qed.
End trustee_keys.

(** ** Clients *)

Section client_keys.
Context {CS : CryptoSuite} {CL : CryptoLaws CS} {NW : Network CS} {PS : ProofSystem CS}.
Context (sk : Scalar) (id n N : Z) (equiv force : bool).
Context (allowed_keys : list (option Point) → Prop) (Hlen : ∀ pks, allowed_keys pks → length pks = Z.to_nat n).
Context (announced : REL_CLI_TELL_EPH_PKS_AND_TRUSTEES_SIG CS → Prop).
Abbreviation cinst := (PriFiLibClientInstance CS).

(** What the client may be told *)
Definition client_fits (m : message CS) : Prop :=
  match m with
  | MParameters m =>
    (∀ d, IntValueOrElse m "NextFreeClientID" d = id) ∧ (∀ d, IntValueOrElse m "NTrustees" d = n)
    ∧ (∀ d, IntValueOrElse m "PayloadSize" d = N) ∧ (∀ d, BoolValueOrElse m "EquivocationProtectionEnabled" d = equiv)
    ∧ (∀ d, BoolValueOrElse m "ForceDisruptionSinceRound3" d = force) ∧ allowed_keys (TrusteesPks m)
  | MTellEphPks m => announced m
  | _ => True
  end.

(** What it tells about itself *)
Definition client_tells (e : event CS) : Prop :=
  ∀ d m, e = Sent d (MTellPkEph m) → tp_ClientID m = id ∧ tp_Pk m = Some (Point_Mul sk Point_Base).

(** An entity made from the keys it was told *)
Definition client_entity (d : DCNetEntity CS) : Prop :=
  synced d ∧ Entity d = DCNET_CLIENT ∧ DCNetPayloadSize d = N ∧ history_is equiv Scalar_One d
  ∧ ∃ pks, allowed_keys pks ∧ sharedKeys d = MulKey sk <$> pks.

(** A slot given by an announcement of the shuffle, if any *)
Definition slot_given (p : cinst) : Prop :=
  c_MySlot (clientState p) = -1 ∨ ∃ m pks, announced m
    ∧ ClientVerifySigAndRecognizeSlot (c_ephemeralPrivateKey (clientState p)) (Some pks) (te_Base m) (te_EphPks m)
        (Some (GetSignatures m)) = Ret (Ok (c_MySlot (clientState p))).

Record client_joined (p : cinst) : Prop := {
  cj_id : c_ID (clientState p) = id;
  cj_force : c_ForceDisruptionSinceRound3 (clientState p) = force;
  cj_entity : ∃ d, c_DCNet (clientState p) = Some d ∧ client_entity d;
  cj_slot : slot_given p
}.

Record ckinv (w : cinst * list (event CS)) : Prop := {
  ck_private : c_privateKey (clientState w.1) = sk;
  ck_public : c_PublicKey (clientState w.1) = Point_Mul sk Point_Base;
  ck_tells : Forall client_tells w.2;
  ck_force : force = false → c_ForceDisruptionSinceRound3 (clientState w.1) = false;
  ck_phase : client_joined w.1 ∨ c_DCNet (clientState w.1) = None
}.

Lemma client_entity_alike e d : alike e d → client_entity e → client_entity d.
Proof.
  intros [_ (Hs & H1 & H2 & H3 & H4 & H5)] (_ & E1 & E2 & [E3 E4] & pks & E5 & E6).
  split; [done|]. split; [congruence|]. split; [congruence|]. split.
  - split; [congruence|]. intros He. rewrite H5. by apply E4.
  - exists pks. split; [done | congruence].
Qed.

Lemma new_client_entity rnd1 rnd2 cid pks d :
  allowed_keys pks →
  NewDCNetEntity rnd1 rnd2 cid DCNET_CLIENT N equiv (MulKey sk <$> pks) = Ret d → client_entity d.
Proof.
  intros Hk H. assert (DCNET_CLIENT ≠ DCNET_RELAY) as Hne by done.
  destruct (NewDCNetEntity_Ret_keys _ _ _ _ _ _ _ _ Hne H) as [HF HN].
  destruct (NewDCNetEntity_synced rnd1 rnd2 cid DCNET_CLIENT N equiv (MulKey sk <$> pks))
    as (e & E & H1 & H2 & H3 & H4 & _ & H5 & H6); [done..|].
  rewrite H in E. injection E as <-. split_and!; try done; [|by exists pks].
  split; [done|]. intros He. by rewrite (H6 He).
Qed.

(** A client that took over its parameters *)
Definition client_set (e : option (DCNetEntity CS)) (p : cinst) : Prop :=
  c_ID (clientState p) = id ∧ c_nTrustees (clientState p) = n ∧ c_PayloadSize (clientState p) = N
  ∧ c_EquivocationProtectionEnabled (clientState p) = equiv ∧ c_ForceDisruptionSinceRound3 (clientState p) = force
  ∧ c_MySlot (clientState p) = -1 ∧ c_privateKey (clientState p) = sk
  ∧ c_PublicKey (clientState p) = Point_Mul sk Point_Base ∧ c_DCNet (clientState p) = e.

Lemma trustees_pk_joined ci pks e p tr r p' tr' :
  allowed_keys pks → client_set e p →
  Received_REL_CLI_TELL_TRUSTEES_PK ci pks (p, tr) = Ret (r, (p', tr')) →
  (p' = p ∧ tr' = tr ∧ len pks < 1)
  ∨ client_joined p' ∧ c_privateKey (clientState p') = sk ∧ c_PublicKey (clientState p') = Point_Mul sk Point_Base
    ∧ ∃ new, tr' = tr ++ new ∧ Forall client_tells new.
Proof.
  intros Hk (Hid & Hn & HN & He & Hf & Hs & Hsk & Hpk & _) H.
  unfold Received_REL_CLI_TELL_TRUSTEES_PK, getC, setC, SendToRelayWithLog in H.
  destruct (Z.ltb_spec (len pks) 1); [h_run H; by left|]. right. pose proof (Hlen _ Hk) as Hl.
  h_step H. h_step H. rewrite Hsk in E0. rewrite fillKeys_all in E0 by (rewrite length_replicate, Hl; congruence).
  injection E0 as <-. h_go. cbn in *. rewrite HN, He in *.
  apply new_client_entity in E0; [|done]. apply c_ChangeState_effect in E1 as (sm & -> & -> & _).
  split_and!; [split; cbn; try done; [by exists a0 | by left] | done | done |].
  eexists. split; [done|]. destruct (net_send _ _ _); repeat apply Forall_cons_2; try apply Forall_nil_2;
    intros d m [= _ <-]; cbn; by rewrite Hid, Hpk.
Qed.

(** What decides whether a client has joined *)
Lemma client_joined_same p p' :
  cellPart p' = cellPart p → client_joined p → client_joined p'.
Proof.
  intros (H1 & H2 & H3 & H4 & H5)%cellPart_inv [J1 J2 J3 J4]. unfold ownKeys in H5.
  rewrite !pair_eq in H5. destruct H5 as [[_ _] H5].
  split; [congruence | congruence | by rewrite H3 | unfold slot_given; by rewrite H2, H5].
Qed.

Lemma ckinv_same p tr p' new :
  cellPart p' = cellPart p → Forall client_tells new → ckinv (p, tr) → ckinv (p', tr ++ new).
Proof.
  intros E Hn [K1 K2 K3 K5 K4]. cbn [fst snd] in *. pose proof (client_joined_same _ _ E) as Hj.
  apply cellPart_inv in E as (_ & _ & E1 & E4 & E2). unfold ownKeys in E2. rewrite !pair_eq in E2. destruct E2 as [[E2 E3] _].
  split; cbn [fst snd]; [congruence | congruence | by apply Forall_app | intros Hf; rewrite <- K5 by done; congruence |].
  destruct K4; [left; auto | right; congruence].
Qed.

Lemma ckinv_unchanged p tr p' : cellPart p' = cellPart p → ckinv (p, tr) → ckinv (p', tr).
Proof. intros E HI. rewrite <- (app_nil_r tr). by apply (ckinv_same p tr p' []). Qed.

Lemma startStop_part b (p : cinst) tr r p' tr' :
  c_startStop b (p, tr) = Ret (r, (p', tr')) → ∃ x, p' = p <| clientState := (clientState p) <| c_StartStopReceiveBroadcast := x |> |> ∧ tr' = tr.
Proof.
  unfold c_startStop, getC, setC. intros H. h_step H. destruct (c_StartStopReceiveBroadcast _); [|done].
  destruct (_ <=? _)%nat; [done|]. h_run H. by eexists.
Qed.

Lemma ckinv_parameters ci m p tr r p' tr' :
  client_fits (MParameters m) → ckinv (p, tr) →
  c_Received_ALL_ALL_PARAMETERS ci m (p, tr) = Ret (r, (p', tr')) → ckinv (p', tr').
Proof.
  intros (Hid & Hn & HN & He & Hf & Hk) HI H. pose proof HI as [K1 K2 K3 K5 K4]. cbn [fst snd] in *.
  unfold c_Received_ALL_ALL_PARAMETERS, getC, setC in H. h_step H. h_step H.
  repeat (match type of H with (if ?b then _ else _) _ = _ => destruct b end;
          [h_run H; first [done | by apply (ckinv_unchanged p)]|]).
  h_step H. h_step H. h_step H. h_step H.
  match type of H with _ (?q, _) = _ =>
    assert (client_set (c_DCNet (clientState p)) q) as Hq;
      [unfold client_set; cbn; rewrite Hid, Hn, HN, He, Hf; by split_and! | generalize dependent q] end.
  intros q H Hq. clear E0. h_step H.
  assert (client_set (c_DCNet (clientState p)) s ∧ tr0 = tr) as [Hs ->].
  { destruct (c_StartStopReceiveBroadcast _); [apply startStop_part in E as (x & -> & ->) | h_run E]; done. }
  clear E Hq. h_step H. h_step H. h_run H.
  match goal with E : (if _ then emit _ else _) (?q, _) = Ret (_, (?q1, ?t1)) |- _ =>
    assert (q1 = q ∧ ∃ new, t1 = tr ++ new ∧ Forall client_tells new) as (-> & new1 & -> & Hn1) end.
  { destruct (BoolValueOrElse m "UseUDP" _); h_run E.
    - split; [done|]. eexists. split; [done|]. by repeat constructor.
    - split; [done|]. exists []. by rewrite app_nil_r. }
  apply (trustees_pk_joined _ _ (c_DCNet (clientState p))) in E0
    as [(-> & -> & _)|(Hj & Hp & Hq & new2 & -> & Hn2)]; [| |done..].
  - destruct Hs as (H1 & H2 & H3 & H4 & H5 & H6 & H7 & H8 & H9).
    split; cbn [fst snd]; [done | done | by apply Forall_app | by intros <- |].
    destruct K4 as [[_ _ J3 _]|K4]; [left | right; cbn; congruence].
    split; cbn; [done | done | by rewrite H9 | by left].
  - split; cbn [fst snd]; [done | done | | intros <-; apply Hj | by left]. rewrite <- app_assoc. apply Forall_app. split; [done|]. by apply Forall_app.
Qed.

(** A step in which the entity encodes a round *)
Definition evolves (p p' : cinst) : Prop :=
  c_ID (clientState p') = c_ID (clientState p) ∧ c_MySlot (clientState p') = c_MySlot (clientState p)
  ∧ c_ForceDisruptionSinceRound3 (clientState p') = c_ForceDisruptionSinceRound3 (clientState p)
  ∧ ownKeys p' = ownKeys p ∧ option_Forall2 alike (c_DCNet (clientState p)) (c_DCNet (clientState p')).

Lemma ckinv_evolves p tr p' new :
  evolves p p' → Forall client_tells new → ckinv (p, tr) → ckinv (p', tr ++ new).
Proof.
  intros (E1 & E2 & E3 & E4 & E5) Hn [K1 K2 K3 K5 K4]. cbn [fst snd] in *. unfold ownKeys in E4.
  rewrite !pair_eq in E4. destruct E4 as [[E4 E6] E7].
  split; cbn [fst snd]; [congruence | congruence | by apply Forall_app | intros Hf; rewrite <- K5 by done; congruence |].
  destruct K4 as [[J1 J2 (d & J3 & J4) J5]|K4].
  - left. rewrite J3 in E5. inversion E5 as [? d' Hal Ed Ed'|]; subst.
    split; [congruence | congruence | exists d'; split; [done | by eapply client_entity_alike]|].
    unfold slot_given. by rewrite E2, E7.
  - right. rewrite K4 in E5. by inversion E5.
Qed.

Lemma ckinv_slot m pks p tr p' :
  announced m → cellPart p' = cellPart (p <| clientState := (clientState p) <| c_MySlot := c_MySlot (clientState p') |> |>) →
  (c_MySlot (clientState p') = -1 ∨
   ClientVerifySigAndRecognizeSlot (c_ephemeralPrivateKey (clientState p)) (Some pks) (te_Base m) (te_EphPks m)
     (Some (GetSignatures m)) = Ret (Ok (c_MySlot (clientState p')))) →
  ckinv (p, tr) → ckinv (p', tr).
Proof.
  intros Ha E Hs [K1 K2 K3 K5 K4]. cbn [fst snd] in *. apply cellPart_inv in E as (E1 & _ & E3 & E4 & E5).
  unfold ownKeys in E5. rewrite !pair_eq in E5. destruct E5 as [[E5 E6] E7]. cbn in *.
  split; cbn [fst snd]; [congruence | congruence | done | intros Hf; rewrite <- K5 by done; congruence |]. destruct K4 as [[J1 J2 J3 _]|K4]; [left | right; congruence].
  split; [congruence | congruence | by rewrite E3 |]. destruct Hs as [|Hs]; [by left|]. right. exists m, pks. by rewrite E7.
Qed.

Lemma firstCell_part (p : cinst) k data s' :
  firstCell (clientState p) k = Ret (data, s') → cellPart (p <| clientState := s' |>) = cellPart p.
Proof.
  unfold firstCell. intros H. go_inv H. destruct (c_DisruptionProtectionEnabled _).
  - go_inv H. by injection H as <- <-.
  - by injection H as <- <-.
Qed.

Lemma evolves_same p p1 p' : cellPart p1 = cellPart p → evolves p1 p' → evolves p p'.
Proof.
  intros (H1 & H2 & H3 & H4 & H5)%cellPart_inv (E1 & E2 & E3 & E4 & E5).
  split_and!; try congruence.
Qed.

(** The first cell is encoded for round 0. *)
Lemma first_cell_evolves slotOwner k (q : cinst) tr r p' tr' :
  synced_client q →
  (s ← getC;
   '(data, s) ← lift (firstCell s k);
   _ ← setC (λ _, s);
   match c_DCNet s with
   | None => lift (Crash RuntimeError)
   | Some d =>
     '(upstreamCell, plainPayload, d) ← lift (EncodeForRound d 0 slotOwner (Some data));
     _ ← setC (λ s, s <| c_DCNet := Some d |>);
     _ ← (if c_EquivocationProtectionEnabled s && c_DisruptionProtectionEnabled s then
            let plain := default [] plainPayload in
            setC (λ s, s <| c_LastMessage := plain |> <| c_HashFromPreviousMessage := Sum256 plain |>)
          else mret tt);
     _ ← SendToRelayWithLog (MUpstream (mkUpstream (c_ID s) (c_RoundNo s) (Some upstreamCell)));
     _ ← setC (λ s, s <| c_RoundNo := i32 (c_RoundNo s + 1) |>);
     mret (Ok tt)
   end) (q, tr) = Ret (r, (p', tr')) → evolves q p'.
Proof.
  intros Hs H. unfold getC, setC, SendToRelayWithLog in H. h_step H. h_step H.
  match type of H with (let '_ := ?x in _) _ = _ => destruct x as [data s1] end.
  match goal with E : firstCell _ _ = Ret _ |- _ => apply firstCell_part in E as Hp end.
  h_step H. apply (synced_same _ _ Hp) in Hs. apply (evolves_same _ _ _ Hp). clear Hp E0.
  set (q1 := q <| clientState := s1 |>) in *. change s1 with (clientState q1) in H.
  destruct (c_DCNet (clientState q1)) as [d|] eqn:Hd; [|by h_run H]. h_step H.
  match type of H with (let '_ := ?x in _) _ = _ => destruct x as [[cell plain] d'] end.
  match goal with E : EncodeForRound _ _ _ _ = Ret _ |- _ => apply encode_alike in E as Hal; [|by apply Hs|by split] end.
  h_run H. match goal with E : (if ?b then _ else _) _ = _ |- _ => destruct b; h_run E end;
    (split_and!; [done..|change (option_Forall2 alike (c_DCNet (clientState q1)) (Some d')); rewrite Hd; by constructor]).
Qed.

Lemma ckinv_eph_pks m p tr r p' tr' :
  announced m → synced_client p → ckinv (p, tr) →
  Received_REL_CLI_TELL_EPH_PKS m (p, tr) = Ret (r, (p', tr')) → ckinv (p', tr').
Proof.
  intros Ha Hsy HI H. destruct (sends_eph_pks m _ _ _ _ _ H) as (new & Htr & Hnew).
  assert (Forall client_tells new) as Hnew'.
  { eapply Forall_impl; [exact Hnew|]. intros e He d x ->. by destruct d. }
  unfold Received_REL_CLI_TELL_EPH_PKS, getC, setC, SendToRelayWithLog in H. h_step H. h_step H. h_step H.
  match type of H with _ (?q, _) = _ =>
    assert (ckinv (q, tr) ∧ synced_client q) as [Hq Hsq]; [|generalize dependent q] end.
  { split; [|done]. apply (ckinv_slot m (c_TrusteePublicKey (clientState p)) p); [done | done | | done]. cbn.
    match goal with E : ClientVerifySigAndRecognizeSlot _ _ _ _ _ = Ret ?x |- _ => destruct x end; [by right | by left]. }
  intros q H Hq Hsq.
  match type of H with (if ?b then _ else _) _ = _ => destruct b end; [h_run H; by apply (ckinv_same q)|].
  apply (ckinv_evolves q); [|done..]. h_step H. h_step H.
  assert (cellPart s = cellPart q) as Hs.
  { destruct (c_UseUDP (clientState p)); [by apply startStop_part in E as (x & -> & _) | by h_run E]. }
  apply c_ChangeState_effect in E1 as (sm & -> & _).
  apply (evolves_same _ (s <| c_stateMachine := sm |>)); [done|].
  by apply first_cell_evolves in H; [|apply (synced_same q)].
Qed.

Lemma ckinv_receive ms ci msg p tr r p' tr' :
  cinv (p, tr) → cells_inv ms (p, tr) → cnormal p msg → no_query msg → client_fits msg → ckinv (p, tr) →
  c_ReceivedMessage ci msg (p, tr) = Ret (r, (p', tr')) → ckinv (p', tr').
Proof.
  intros HI HC Hn Hq Hf HK H. destruct (isParameters msg) eqn:Hm.
  { destruct msg as [m| | | | | | | | | | | | | | | | | | | | | |]; try discriminate Hm. unfold c_ReceivedMessage in H.
    apply handler_bind_inv in H as (s & [q t] & E & H). unfold getC in E. h_run E.
    apply c_forced_inv in H as [[-> ->]|[Hcur H]]; [done| |done]. by eapply ckinv_parameters. }
  destruct (client_data ci msg Hm _ _ _ _ _ H) as (new & -> & Hnew).
  assert (Forall client_tells new) as Hnew'.
  { eapply Forall_impl; [exact Hnew|]. intros e He d x ->. by destruct d. }
  assert (∀ fuel md, currentState (c_stateMachine p) = "READY" → dd_FlagResync md = false →
    - 2147483648 ≤ dd_RoundID md < MaxInt32 →
    Received_REL_CLI_DOWNSTREAM_DATA fuel ci md (p, tr) = Ret (r, (p', tr ++ new)) → ckinv (p', tr ++ new)) as Hdown.
  { intros fuel md Hcur Hres Hid Hd. destruct (ci_ready _ HI Hcur) as [Hb _]. pose proof (cc_round _ _ HC Hcur) as Hr1.
    cbn [fst] in *. apply downstream_answered in Hd as [A1 A2 A3 A4 A5 _]; [|exact Hb|apply HC|lia|exact Hres|lia].
    by apply (ckinv_evolves p). }
  unfold c_ReceivedMessage in H. apply handler_bind_inv in H as (s & [q t] & E & H). unfold getC in E. h_run E.
  destruct msg; try discriminate Hm; cbn [cnormal no_query client_fits] in Hn, Hq, Hf;
    try (by h_run H; apply (ckinv_same p)); try done;
    try (apply c_guarded_inv in H as [[-> ->]|[Hcur H]]; [done|]).
  - unfold c_Received_ALL_ALL_SHUTDOWN in H. h_step H. h_run H.
    use c_ChangeState_effect as (sm & -> & _). by apply (ckinv_same p).
  - destruct Hn. by eapply Hdown.
  - destruct Hn. unfold Received_REL_CLI_UDP_DOWNSTREAM_DATA, getC in H. h_step H. by eapply Hdown.
  - eapply ckinv_eph_pks; [done | apply HC | done..].
  - apply unseen_run in H as [[E _]%cellState_inv _]; [|apply c_secrets_unseen]. by apply (ckinv_same p).
Qed.

Lemma ckinv_run now msNow lat out data replay folder p ms w :
  NewClient sk now msNow lat out data replay folder = Ret p → crun (p, []) ms w →
  (∀ m, m ∈ ms → client_fits m) → ckinv w.
Proof.
  intros Hp H. induction H as [|ms ci msg q tr r p' tr' Hrun IH Hn Hq Hr|ms dd q tr Hrun IH]; intros Hms.
  - unfold NewClient in Hp. cbn in Hp. injection Hp as <-. split; cbn; [done | done | constructor | done | by right].
  - assert (cinv (q, tr)) as HI.
    { apply crun_reach in Hrun. apply cinv_new in Hp. clear -Hp Hrun. induction Hrun as [|a b c Hs _ IH]; [done|]. by eapply IH, cinv_step. }
    eapply ckinv_receive; [exact HI | by eapply crun_cells | done | done | | | done].
    + apply Hms, elem_of_app. right. by apply list_elem_of_singleton.
    + apply IH. intros m Hm. apply Hms, elem_of_app. by left.
  - by apply (ckinv_unchanged q), IH.
Qed.
End client_keys.

(** A client that is told no key for a trustee takes its own public key as the
    secret it shares with it. *)
Lemma missing_key_public {CS : CryptoSuite} {CL : CryptoLaws CS} {NW : Network CS} {CK : Clock CS} {PS : ProofSystem CS}
    ci pks k (p : PriFiLibClientInstance CS) tr r p' tr' :
  let s := clientState p in
  c_MySlot s = -1 → c_PublicKey s = Point_Mul (c_privateKey s) Point_Base →
  length pks = Z.to_nat (c_nTrustees s) → pks !! k = Some None →
  Received_REL_CLI_TELL_TRUSTEES_PK ci pks (p, tr) = Ret (r, (p', tr')) →
  ∃ d, c_DCNet (clientState p') = Some d ∧ sharedKeys d !! k = Some (Some (c_PublicKey s)).
Proof.
  intros s Hs Hpk Hl Hk H.
  apply (trustees_pk_joined (c_privateKey s) (c_ID s) (c_nTrustees s) (c_PayloadSize s)
    (c_EquivocationProtectionEnabled s) (c_ForceDisruptionSinceRound3 s) (.= pks) ltac:(by intros ? ->) (λ _, True)
    ci pks (c_DCNet s)) in H as [(_ & _ & H)|([_ _ (d & Hd & He) _] & _)]; [| |done|by split_and!].
  { apply lookup_lt_Some in Hk. unfold len in H. lia. }
  exists d. split; [done|]. destruct He as (_ & _ & _ & _ & pks' & -> & ->).
  rewrite list_lookup_fmap, Hk. cbn. by rewrite Hpk.
Qed.
