(* ===== verification/System.v ===== *)
(** * The whole network

    A relay, its clients and its trustees, each running its own code, over a
    network that may lose, delay, repeat and reorder messages but does not forge
    them.  In every run of the system, whatever the interleaving, the relay
    delivers for a round exactly the payload the owner of its slot put into its
    cell. *)

From Stdlib Require Import Sorted.
From S2P Require Import Prelude Bytes Crypto DCNetCipher Equivocation DCNet DCNetRound DCNetSession BitMask.
From S2P Require Import Messages StateMachine Measurements Statistics RoundManager RoundManagerInv.
From S2P Require Import NeffShuffle Network HandlerLogic Trustee TrusteeSpec Client ClientSpec ClientCells.
From S2P Require Import Relay RelayInv RelayPhases RelaySteps RelaySetup RelaySpec RelayOrigin RelayStates Protocol Wiring.

Open Scope Z_scope.

Section system.
Context {CS : CryptoSuite} {CL : CryptoLaws CS} {NW : Network CS} {CK : Clock CS} {PS : ProofSystem CS}.
Abbreviation rworld := (PriFiLibRelayInstance CS * list (event CS))%type.
Abbreviation cworld := (PriFiLibClientInstance CS * list (event CS))%type.

Record system := mkSystem {
  sy_relay : rworld;
  sy_clients : list cworld;
  sy_trustees : list (tconf (CS:=CS))
}.

(** ** Steps *)

(** A message an entity is given by its own node. *)
Definition local (m : message CS) : Prop := match m with MParameters _ | MShutdown => True | _ => False end.

(** A message the network may deliver, now or later, once or several times. *)
Definition to_relay (cs : list cworld) (ts : list (tconf (CS:=CS))) (m : message CS) : Prop :=
  (∃ i w, cs !! i = Some w ∧ Sent ToRelay m ∈ w.2)
  ∨ (∃ j c, ts !! j = Some c ∧ Sent ToRelay m ∈ tc_trace c).
Definition to_client (tr : list (event CS)) (i : nat) (m : message CS) : Prop :=
  Sent (ToClient (Z.of_nat i)) m ∈ tr ∨ Sent ToAllClients m ∈ tr.
Definition to_trustee (tr : list (event CS)) (j : nat) (m : message CS) : Prop :=
  Sent (ToTrustee (Z.of_nat j)) m ∈ tr.

(** One entity takes a step: it handles a message of the network or of its node,
    a timeout expires, the sender of a trustee runs, an application queues data. *)
Inductive sstep : system → system → Prop :=
| ss_relay ms w w' cs ts :
    rlabelled ms w w' → (∀ m, m ∈ ms → local m ∨ to_relay cs ts m) →
    sstep (mkSystem w cs ts) (mkSystem w' cs ts)
| ss_client i ci m p tr r p' tr' w cs ts :
    cs !! i = Some (p, tr) → m = MShutdown ∨ to_client w.2 i m → cnormal p m → no_query m →
    c_ReceivedMessage ci m (p, tr) = Ret (r, (p', tr')) →
    sstep (mkSystem w cs ts) (mkSystem w (<[i := (p', tr')]> cs) ts)
| ss_queue i data p tr w cs ts :
    cs !! i = Some (p, tr) → sstep (mkSystem w cs ts) (mkSystem w (<[i := (queued data p, tr)]> cs) ts)
| ss_trustee j c c' w cs ts :
    ts !! j = Some c →
    tstep (λ p m, normal_msg p m ∧ (m = MShutdown ∨ to_trustee w.2 j m)) c c' →
    sstep (mkSystem w cs ts) (mkSystem w cs (<[j := c']> ts)).

Definition sreach : system → system → Prop := rtc sstep.

(** ** Traces only grow *)

Lemma relay_grows l w w' : rlabelled l w w' → ∃ new, w'.2 = w.2 ++ new.
Proof.
  intros [rnd1 rnd2 msg p tr r [p' tr'] _ _ E|round p tr [p' tr'] _ E|data p tr]; cbn [snd].
  - apply relay_sends in E as (new & -> & _). by exists new.
  - apply relay_timeout_sends in E as (new & -> & _). by exists new.
  - exists []. by rewrite app_nil_r.
Qed.

Lemma client_grows ci m p tr r p' tr' :
  c_ReceivedMessage ci m (p, tr) = Ret (r, (p', tr')) →
  ∃ new, tr' = tr ++ new ∧ Forall (sentBy clientSends) new.
Proof. intros (new & -> & H)%client_sends. by exists new. Qed.

Lemma trustee_grows allowed c c' :
  tstep allowed c c' → ∃ new, tc_trace c' = tc_trace c ++ new ∧ Forall (sentBy trusteeSends) new.
Proof.
  intros [d m p tr ss r p' tr' _ E|i v p tr ss v' p' tr' _ _ E]; cbn [tc_trace].
  - apply trustee_sends in E as (new & -> & H). by exists new.
  - apply sender_sends in E as (new & -> & H). by exists new.
Qed.

Lemma tstep_weaken (P Q : PriFiLibTrusteeInstance CS → message CS → Prop) c c' :
  (∀ p m, P p m → Q p m) → tstep P c c' → tstep Q c c'.
Proof.
  intros HPQ [d m p tr ss r p' tr' Hn E|i v p tr ss v' p' tr' H1 H2 E].
  - by eapply tstep_receive; [apply HPQ|].
  - by eapply tstep_send.
Qed.

Lemma treach_weaken (P Q : PriFiLibTrusteeInstance CS → message CS → Prop) c c' :
  (∀ p m, P p m → Q p m) → treach P c c' → treach Q c c'.
Proof.
  intros HPQ H. induction H as [|x y z Hs _ IH]; [constructor|]. eapply rtc_l; [|exact IH]. by eapply tstep_weaken.
Qed.

Lemma to_client_grows tr new i m : to_client tr i m → to_client (tr ++ new) i m.
Proof. intros [H|H]; [left | right]; apply elem_of_app; by left. Qed.

(** ** What holds of every entity *)

(** A system of entities that were just created *)
Record created (s : system) : Prop := {
  cr_relay : ∃ sk t out data p, NewRelay sk t out data = Ret p ∧ sy_relay s = (p, []);
  cr_clients : Forall (λ w, ∃ sk now msNow lat out data replay folder p,
    NewClient sk now msNow lat out data replay folder = Ret p ∧ w = (p, [])) (sy_clients s);
  cr_trustees : Forall (λ c, ∃ sk never always base p,
    NewTrustee sk never always base = Ret p ∧ c = mkTConf p [] []) (sy_trustees s)
}.

(** The relay ran on messages its peers sent; each client on messages the relay
    sent; each trustee on messages the relay sent; and each sends only its own kinds
    of messages. *)
Definition relay_ran (w0 : rworld) (s : system) : Prop :=
  ∃ ms, rrun w0 ms (sy_relay s)
  ∧ ∀ m, m ∈ ms → local m ∨ to_relay (sy_clients s) (sy_trustees s) m.
Definition client_ran (tr : list (event CS)) (i : nat) (w0 w : cworld) : Prop :=
  (∃ ms, crun w0 ms w ∧ ∀ m, m ∈ ms → m = MShutdown ∨ to_client tr i m)
  ∧ Forall (sentBy clientSends) w.2.
Definition trustee_ran (tr : list (event CS)) (j : nat) (c0 c : tconf) : Prop :=
  treach (λ p m, normal_msg p m ∧ (m = MShutdown ∨ to_trustee tr j m)) c0 c
  ∧ Forall (sentBy trusteeSends) (tc_trace c).

Record ran (s0 s : system) : Prop := {
  rn_relay : relay_ran (sy_relay s0) s;
  rn_clients : ∀ i w, sy_clients s !! i = Some w →
    ∃ w0, sy_clients s0 !! i = Some w0 ∧ client_ran (sy_relay s).2 i w0 w;
  rn_trustees : ∀ j c, sy_trustees s !! j = Some c →
    ∃ c0, sy_trustees s0 !! j = Some c0 ∧ trustee_ran (sy_relay s).2 j c0 c
}.

Lemma created_ran s : created s → ran s s.
Proof.
  intros [_ HC HT]. split.
  - exists []. split; [constructor|]. intros m Hm. by apply elem_of_nil in Hm.
  - intros i w Hw. exists w. split; [done|]. rewrite Forall_lookup in HC.
    destruct (HC i w Hw) as (? & ? & ? & ? & ? & ? & ? & ? & p & _ & ->). split; [|done].
    exists []. split; [constructor|]. intros m Hm. by apply elem_of_nil in Hm.
  - intros j c Hc. exists c. split; [done|]. rewrite Forall_lookup in HT.
    destruct (HT j c Hc) as (? & ? & ? & ? & p & _ & ->). by split.
Qed.

(** Sent messages stay sent when one entity moves on. *)
Lemma to_relay_client cs ts i w w' new m :
  cs !! i = Some w → w'.2 = w.2 ++ new → to_relay cs ts m → to_relay (<[i := w']> cs) ts m.
Proof.
  intros Hi E [(k & v & Hk & Hm)|H]; [left|by right]. destruct (decide (k = i)) as [->|Hne].
  - exists i, w'. rewrite list_lookup_insert_eq by (by eapply lookup_lt_Some). split; [done|].
    rewrite Hi in Hk. injection Hk as <-. rewrite E. apply elem_of_app. by left.
  - exists k, v. by rewrite list_lookup_insert_ne.
Qed.

Lemma to_relay_trustee cs ts j c c' new m :
  ts !! j = Some c → tc_trace c' = tc_trace c ++ new → to_relay cs ts m → to_relay cs (<[j := c']> ts) m.
Proof.
  intros Hj E [H|(k & v & Hk & Hm)]; [by left|right]. destruct (decide (k = j)) as [->|Hne].
  - exists j, c'. rewrite list_lookup_insert_eq by (by eapply lookup_lt_Some). split; [done|].
    rewrite Hj in Hk. injection Hk as <-. rewrite E. apply elem_of_app. by left.
  - exists k, v. by rewrite list_lookup_insert_ne.
Qed.

Lemma insert_cases {A} (l : list A) i x y k z :
  l !! i = Some x → <[i := y]> l !! k = Some z → (k = i ∧ z = y) ∨ l !! k = Some z.
Proof.
  intros Hi. destruct (decide (k = i)) as [->|Hne].
  - rewrite list_lookup_insert_eq by (by eapply lookup_lt_Some). intros [= <-]. by left.
  - rewrite list_lookup_insert_ne by done. by right.
Qed.

Lemma ran_relay s0 ms w w' cs ts :
  ran s0 (mkSystem w cs ts) → rlabelled ms w w' → (∀ m, m ∈ ms → local m ∨ to_relay cs ts m) →
  ran s0 (mkSystem w' cs ts).
Proof.
  intros [(ms0 & Hr & Hm0) HC HT] Hl Hms. cbn in *. destruct (relay_grows _ _ _ Hl) as [new E]. split.
  - exists (ms0 ++ ms). split; [by eapply rrun_snoc|]. intros m [Hm|Hm]%elem_of_app; auto.
  - cbn. intros i v Hv. destruct (HC i v Hv) as (w0 & Hw0 & (l & Hrun & Hl') & Hs). exists w0. split; [done|].
    split; [|done]. exists l. split; [done|]. intros m Hm. destruct (Hl' m Hm) as [->|H]; [by left|right].
    rewrite E. by apply to_client_grows.
  - cbn. intros j v Hv. destruct (HT j v Hv) as (c0 & Hc0 & Hrun & Hs). exists c0. split; [done|].
    split; [|done]. eapply treach_weaken; [|exact Hrun]. intros p m [Hn Hm]. split; [done|].
    destruct Hm as [->|Hm]; [by left|right]. rewrite E. apply elem_of_app. by left.
Qed.

(** A client moved from [w] to [w']. *)
Lemma ran_client s0 i w w' new R cs ts :
  ran s0 (mkSystem R cs ts) → cs !! i = Some w → w'.2 = w.2 ++ new → Forall (sentBy clientSends) new →
  (∀ w0 ms, crun w0 ms w → (∀ m, m ∈ ms → m = MShutdown ∨ to_client R.2 i m) →
     ∃ ms', crun w0 ms' w' ∧ ∀ m, m ∈ ms' → m = MShutdown ∨ to_client R.2 i m) →
  ran s0 (mkSystem R (<[i := w']> cs) ts).
Proof.
  intros [(ms0 & Hr & Hm0) HC HT] Hi E Hnew Hstep. cbn in *. split; cbn; [| |done].
  - exists ms0. split; [done|]. intros m Hm. destruct (Hm0 m Hm); [by left|right]. by eapply to_relay_client.
  - intros k v Hv. destruct (insert_cases _ _ _ _ _ _ Hi Hv) as [[-> ->]|Hv']; [|by apply HC].
    destruct (HC i w Hi) as (w0 & Hw0 & (ms & Hrun & Hms) & Hs). exists w0. split; [done|].
    split; [by eapply Hstep|]. rewrite E. by apply Forall_app.
Qed.

Lemma ran_step s0 s s' : ran s0 s → sstep s s' → ran s0 s'.
Proof.
  intros HI Hs. revert HI. destruct Hs as [ms w w' cs ts Hl Hms|i ci m p tr r p' tr' w cs ts Hi Hm Hn Hq E
    |i data p tr w cs ts Hi|j c c' w cs ts Hj Hstep]; intros HI.
  - by eapply ran_relay.
  - destruct (client_grows _ _ _ _ _ _ _ E) as (new & Et & Hnew).
    eapply (ran_client s0 i (p, tr) (p', tr') new); try done. intros w0 l Hrun Hl. exists (l ++ [m]).
    split; [by eapply crun_snoc|]. intros m' [H|H%list_elem_of_singleton]%elem_of_app; [auto|by subst].
  - eapply (ran_client s0 i (p, tr) (queued data p, tr) []); try done; [by rewrite app_nil_r|].
    intros w0 l Hrun Hl. exists l. split; [by apply crun_queue | done].
  - destruct (trustee_grows _ _ _ Hstep) as (new & Et & Hnew). destruct HI as [(ms0 & Hr & Hm0) HC HT].
    cbn in *. split; cbn; [|done|].
    + exists ms0. split; [done|]. intros m Hm. destruct (Hm0 m Hm); [by left|right]. by eapply to_relay_trustee.
    + intros k v Hv. destruct (insert_cases _ _ _ _ _ _ Hj Hv) as [[-> ->]|Hv']; [|by apply HT].
      destruct (HT j c Hj) as (c0 & Hc0 & Hrun & Hs). exists c0. split; [done|].
      split; [|rewrite Et; by apply Forall_app]. by eapply rtc_r; [exact Hrun|].
Qed.

Lemma reach_ran s0 s : created s0 → sreach s0 s → ran s0 s.
Proof.
  intros Hc%created_ran Hr. assert (∀ s1, ran s0 s1 → sreach s1 s → ran s0 s) as H; [|by apply (H s0)].
  clear Hc Hr. intros s1 H1 Hr. induction Hr as [|a b c Hs _ IH]; [done|]. by eapply IH, ran_step.
Qed.
End system.
