(* ===== verification/SystemKeys.v ===== *)
(** * The setup of the whole network

    After any run of the whole network, every client and trustee that has a DC-net
    entity has it from keys its peers sent: the secret a client holds for a trustee
    is the one the trustee holds for the client, all agree with the parameters of
    the relay, and no two clients hold one slot.  The theorem asks that the relay
    passed on no missing key: it counts the keys it receives and not the nodes
    they come from ([repeated_key_missing]), and a missing key makes a secret that
    everyone knows ([missing_key_public]). *)

From S2P Require Import Prelude Bytes Crypto DCNetCipher Equivocation DCNet DCNetRound DCNetSession BitMask.
From S2P Require Import Messages StateMachine Measurements Statistics RoundManager RoundManagerInv.
From S2P Require Import NeffShuffle NeffShuffleSpec Network HandlerLogic Trustee TrusteeSpec Client ClientSpec ClientCells.
From S2P Require Import Relay RelayStates RelayInv RelaySpec RelayOrigin RelayKeys Protocol Wiring NodeKeys System.

Open Scope Z_scope.

Section system_keys.
Context {CS : CryptoSuite} {CL : CryptoLaws CS} {NW : Network CS} {CK : Clock CS} {PS : ProofSystem CS}.

(** ** Secrets *)

Definition clientPrivate (s : system (CS:=CS)) (i : nat) : Scalar :=
  match sy_clients s !! i with Some w => c_privateKey (clientState w.1) | None => Scalar_One end.
Definition trusteePrivate (s : system (CS:=CS)) (j : nat) : Scalar :=
  match sy_trustees s !! j with Some c => t_privateKey (trusteeState (tc_inst c)) | None => Scalar_One end.

(** The Diffie-Hellman secret of a client and a trustee *)
Definition secret (s : system (CS:=CS)) (i j : nat) : Point :=
  Point_Mul (clientPrivate s i) (Point_Mul (trusteePrivate s j) Point_Base).

(** No key the relay passed on was missing. *)
Definition complete (tr : list (event CS)) : Prop :=
  (∀ d m, Sent d (MParameters m) ∈ tr → Forall is_Some (TrusteesPks m))
  ∧ ∀ d m pks, Sent d (MTellClients m) ∈ tr → tb_Pks m = Some pks → Forall is_Some pks.

(** No two clients have the same ephemeral key in a base the relay announced. *)
Definition ephemeral_apart (s : system (CS:=CS)) : Prop :=
  ∀ i k w v x y d m base, i ≠ k → sy_clients s !! i = Some w → sy_clients s !! k = Some v →
  c_ephemeralPrivateKey (clientState w.1) = Some x → c_ephemeralPrivateKey (clientState v.1) = Some y →
  Sent d (MTellEphPks m) ∈ (sy_relay s).2 → te_Base m = Some base → Point_Mul x base ≠ Point_Mul y base.

(** The keys a node is told: one for each peer, which the peer sent *)
Definition received_keys (R : Z → Point → Prop) (n : Z) (pks : list (option Point)) : Prop :=
  keys_from R n pks ∧ Forall is_Some pks.

Lemma received_length R n pks : received_keys R n pks → length pks = Z.to_nat n.
Proof. by intros [[H _] _]. Qed.

(** Secrets made from keys that were received *)
Lemma received_secrets R n pks sk (K : nat → Point) :
  received_keys R n pks → (∀ k pk, R (Z.of_nat k) pk → Point_Mul sk pk = K k) →
  MulKey sk <$> pks = (λ k, Some (K k)) <$> seq 0 (Z.to_nat n).
Proof.
  intros [[Hl Hk] Hs] HK. apply list_eq_same_length with (n := length pks);
    rewrite ?length_fmap, ?length_seq; [done | done |].
  intros k x y Hlt Hx Hy. apply list_lookup_fmap_Some in Hx as (o & -> & Ho).
  apply list_lookup_fmap_Some in Hy as (k' & -> & [-> _]%lookup_seq). cbn.
  rewrite Forall_lookup in Hs. destruct (Hs k o Ho) as [pk ->]. unfold MulKey. cbn. by rewrite (HK k pk (Hk k pk Ho)).
Qed.

(** ** What the nodes hold *)

Section reached.
Context (s0 s : system (CS:=CS)).
Hypothesis (Hcr : created s0) (Hran : ran s0 s) (Hcomplete : complete (sy_relay s).2).
Abbreviation st := (relayState (sy_relay s).1).
Abbreviation tr := ((sy_relay s).2).

(** The announcement of the shuffle *)
Definition eph_sent (m : REL_CLI_TELL_EPH_PKS_AND_TRUSTEES_SIG CS) : Prop := ∃ d, Sent d (MTellEphPks m) ∈ tr.

Lemma relay_told : ∃ ms, kinv ms (sy_relay s) ∧ ∀ m, m ∈ ms → local m ∨ to_relay (sy_clients s) (sy_trustees s) m.
Proof.
  destruct (rn_relay _ _ Hran) as (ms & Hrun & Hms). destruct (cr_relay _ Hcr) as (sk & t & out & data & p0 & Hnew & E0).
  rewrite E0 in Hrun. exists ms. split; [by eapply kinv_run | done].
Qed.

Section told.
Context (ms : list (message CS)).
Hypothesis (HK : kinv ms (sy_relay s)).
Hypothesis (Hms : ∀ m, m ∈ ms → local m ∨ to_relay (sy_clients s) (sy_trustees s) m).

Lemma client_state i w :
  sy_clients s !! i = Some w →
  ckinv (clientPrivate s i) (Z.of_nat i) (r_PayloadSize st) (r_EquivocationProtectionEnabled st)
    (r_ForceDisruptionSinceRound3 st) (received_keys (trusteeKey ms) (r_nTrustees st)) eph_sent w.
Proof.
  intros Hi. destruct (rn_clients _ _ Hran i w Hi) as (w0 & Hw0 & (l & Hrun & Hl) & _).
  pose proof (cr_clients _ Hcr) as Hnew. rewrite Forall_lookup in Hnew.
  destruct (Hnew i w0 Hw0) as (sk & ? & ? & ? & ? & ? & ? & ? & p0 & Hp & ->).
  assert (∀ sk', c_privateKey (clientState w.1) = sk' → clientPrivate s i = sk') as Hpr
    by (intros sk' <-; unfold clientPrivate; by rewrite Hi).
  assert (∀ m, m ∈ l → client_fits (Z.of_nat i) (r_nTrustees st) (r_PayloadSize st) (r_EquivocationProtectionEnabled st)
    (r_ForceDisruptionSinceRound3 st) (received_keys (trusteeKey ms) (r_nTrustees st)) eph_sent m) as Hfits.
  { intros m Hm. destruct (Hl m Hm) as [->|Hto]; [done|]. pose proof (ki_told _ _ HK) as Htold.
    rewrite Forall_forall in Htold. destruct m; try done; cbn [client_fits].
    - destruct Hto as [Hs|Hs]; pose proof (Htold _ Hs) as H; cbn [told] in H; [|done].
      destruct H as ([] & Hid & Hf & Hk). split_and!; try done. split; [done|]. by eapply (proj1 Hcomplete).
    - destruct Hto as [Hs|Hs]; by eexists. }
  pose proof (ckinv_run sk _ _ _ _ _ _ (received_length _ _) _ _ _ _ _ _ _ _ _ _ _ Hp Hrun Hfits) as HC.
  by rewrite (Hpr _ (ck_private _ _ _ _ _ _ _ _ HC)).
Qed.

Lemma trustee_state j c :
  sy_trustees s !! j = Some c →
  tkinv (trusteePrivate s j) (Z.of_nat j) (r_nClients st) (r_PayloadSize st) (r_EquivocationProtectionEnabled st)
    (received_keys (clientKey ms) (r_nClients st)) c.
Proof.
  intros Hj. destruct (rn_trustees _ _ Hran j c Hj) as (c0 & Hc0 & Hrun & _).
  pose proof (cr_trustees _ Hcr) as Hnew. rewrite Forall_lookup in Hnew.
  destruct (Hnew j c0 Hc0) as (sk & ? & ? & ? & p0 & Hp & ->).
  assert (∀ sk', t_privateKey (trusteeState (tc_inst c)) = sk' → trusteePrivate s j = sk') as Hpr
    by (intros sk' <-; unfold trusteePrivate; by rewrite Hj).
  assert (tkinv sk (Z.of_nat j) (r_nClients st) (r_PayloadSize st) (r_EquivocationProtectionEnabled st)
    (received_keys (clientKey ms) (r_nClients st)) c) as HC.
  { eapply tkinv_run; [apply received_length | | exact Hp | exact Hrun].
    intros p m [Hn Hm]. split; [done|]. destruct Hm as [->|Hs]; [done|]. pose proof (ki_told _ _ HK) as Htold.
    rewrite Forall_forall in Htold. apply Htold in Hs as H. destruct m; try done; cbn [trustee_fits told] in *.
    - destruct H as ([] & Hid). by split_and!.
    - destruct H as (pks & Hp' & Hk). exists pks. split; [done|]. split; [done|]. by eapply (proj2 Hcomplete). }
  by rewrite (Hpr _ (tk_private _ _ _ _ _ _ _ HC)).
Qed.

(** A key received for a number is that of the node with the number. *)
Lemma trusteeKey_own k pk :
  trusteeKey ms k pk → ∃ j, k = Z.of_nat j ∧ pk = Point_Mul (trusteePrivate s j) Point_Base.
Proof.
  intros H. destruct (Hms _ H) as [Hl|[(i & w & Hi & Hs)|(j & c & Hj & Hs)]]; [done| |].
  - destruct (rn_clients _ _ Hran i w Hi) as (_ & _ & _ & Hf). rewrite Forall_forall in Hf. by apply Hf in Hs.
  - pose proof (tk_tells _ _ _ _ _ _ _ (trustee_state j c Hj)) as Ht. rewrite Forall_forall in Ht.
    exists j. specialize (Ht _ Hs _ _ eq_refl). by injection Ht as -> ->.
Qed.

Lemma clientKey_own k pk :
  clientKey ms k pk → ∃ i, k = Z.of_nat i ∧ pk = Point_Mul (clientPrivate s i) Point_Base.
Proof.
  intros [eph H]. destruct (Hms _ H) as [Hl|[(i & w & Hi & Hs)|(j & c & Hj & Hs)]]; [done| |].
  - pose proof (ck_tells _ _ _ _ _ _ _ _ (client_state i w Hi)) as Ht. rewrite Forall_forall in Ht.
    exists i. destruct (Ht _ Hs _ _ eq_refl) as [H1 H2]. cbn in H1, H2. by injection H2 as ->.
  - destruct (rn_trustees _ _ Hran j c Hj) as (_ & _ & _ & Hf). rewrite Forall_forall in Hf. by apply Hf in Hs.
Qed.

Lemma client_holds i w d :
  sy_clients s !! i = Some w → c_DCNet (clientState w.1) = Some d → r_nTrustees st = len (sy_trustees s) →
  c_ID (clientState w.1) = Z.of_nat i
  ∧ client_of (r_PayloadSize st) (length (sy_trustees s)) (secret s) i d
  ∧ history_is (r_EquivocationProtectionEnabled st) Scalar_One d.
Proof.
  intros Hi Hd Hn. destruct (ck_phase _ _ _ _ _ _ _ _ (client_state i w Hi)) as [[Hid _ (d' & Hd' & He) _]|Hno]; [|congruence].
  rewrite Hd in Hd'. injection Hd' as <-. destruct He as (H1 & H2 & H3 & H4 & pks & H5 & H6).
  split; [done|]. split; [|done]. split_and!; try done. rewrite H6, (received_secrets _ _ _ _ (secret s i) H5).
  - rewrite Hn. unfold len. by rewrite Nat2Z.id.
  - intros k pk (j & E & ->)%trusteeKey_own. by apply Nat2Z.inj in E as ->.
Qed.

Lemma trustee_holds j c d :
  sy_trustees s !! j = Some c → t_DCNet (trusteeState (tc_inst c)) = Some d → r_nClients st = len (sy_clients s) →
  len (ciphers (tc_trace c)) ≤ MaxInt32 → ciphers (tc_trace c) ≠ [] →
  t_ID (trusteeState (tc_inst c)) = Z.of_nat j
  ∧ trustee_of (r_PayloadSize st) (length (sy_clients s)) (secret s) j d
  ∧ ∃ h, history_is (r_EquivocationProtectionEnabled st) h d.
Proof.
  intros Hj Hd Hn Hb Hne. destruct (tk_phase _ _ _ _ _ _ _ (trustee_state j c Hj)) as [[Hid Hcf _ Hk _ _]|(_ & _ & Hno & _)]; [|done].
  destruct Hk as [Hk|Hk]; [congruence|]. split; [done|].
  destruct (rn_trustees _ _ Hran j c Hj) as (c0 & Hc0 & Hrun & _). pose proof (cr_trustees _ Hcr) as Hnew.
  rewrite Forall_lookup in Hnew. destruct (Hnew j c0 Hc0) as (sk & ? & ? & ? & p0 & Hp & ->).
  apply (treach_weaken _ normal_msg) in Hrun; [|by intros p m []]. apply tinv_new in Hp.
  pose proof (tinv_reach _ _ _ Hrun Hp Hb) as HI.
  destruct (ti_phase _ _ HI) as [(_ & E & _)|(v & e0 & q & _ & Hm & _ & Hd0 & E & _)]; [done|].
  assert (sk = trusteePrivate s j) as -> by (unfold trusteePrivate; rewrite Hj; symmetry; apply HI).
  rewrite Hd in Hd0. injection Hd0 as ->. pose proof (made_config _ _ _ Hm) as Hmc. rewrite Hcf in Hmc. injection Hmc as Hsz Heq.
  split; [split_and!; [apply synced_at_round; [apply Hm | lia] | apply Hm | done |]|].
  - cbn. rewrite (made_keys _ _ _ Hm), (received_secrets _ _ _ _ (λ i, secret s i j) Hk).
    + rewrite Hn. unfold len. by rewrite Nat2Z.id.
    + intros k pk (i & E' & ->)%clientKey_own. apply Nat2Z.inj in E' as ->. unfold secret.
      by rewrite !Point_Mul_Mul, Scalar_Mul_comm.
  - destruct (EquivocationProtectionEnabled e0) eqn:Ee.
    + destruct (made_equiv _ _ _ Hm Ee) as [eqp Hx]. exists (history eqp). split; [cbn; congruence|]. intros _. cbn. by rewrite Hx.
    + exists Scalar_One. split; [cbn; congruence|]. intros Ht. congruence.
Qed.

(** The slot of a client was announced with its key. *)
Lemma slot_announced i w d :
  sy_clients s !! i = Some w → c_DCNet (clientState w.1) = Some d → 0 ≤ c_MySlot (clientState w.1) →
  ∃ x dest m base l, c_ephemeralPrivateKey (clientState w.1) = Some x ∧ Sent dest (MTellEphPks m) ∈ tr
    ∧ te_Base m = Some base ∧ te_EphPks m = Some l
    ∧ l !! Z.to_nat (c_MySlot (clientState w.1)) = Some (Some (Point_Mul x base)).
Proof.
  intros Hi Hd Hs. destruct (ck_phase _ _ _ _ _ _ _ _ (client_state i w Hi)) as [[_ _ _ Hslot]|Hno]; [|congruence].
  destruct Hslot as [Hslot|(m & pks & [dest Hm] & H)]; [lia|].
  apply recognized_slot in H as (x & base & l & H1 & H2 & H3 & _ & H4). by exists x, dest, m, base, l.
Qed.

Lemma slots_apart i k w v d d' :
  ephemeral_apart s → sy_clients s !! i = Some w → sy_clients s !! k = Some v →
  c_DCNet (clientState w.1) = Some d → c_DCNet (clientState v.1) = Some d' →
  0 ≤ c_MySlot (clientState w.1) → c_MySlot (clientState w.1) = c_MySlot (clientState v.1) → i = k.
Proof.
  intros Hap Hi Hk Hd Hd' H0 E. destruct (decide (i = k)) as [|Hne]; [done|]. exfalso.
  destruct (slot_announced i w d Hi Hd H0) as (x & d1 & m & base & l & Hx & Hm & Hb & Hl & Hp).
  destruct (slot_announced k v d' Hk Hd' ltac:(lia)) as (y & d2 & m' & base' & l' & Hy & Hm' & Hb' & Hl' & Hp').
  assert (m = m') as <-.
  { destruct (ki_eph _ _ HK) as [Hno|[_ [m0 H0m]]]; [rewrite Forall_forall in Hno; by destruct (Hno _ Hm d1 m)|].
    rewrite Forall_forall in H0m. by rewrite (H0m _ Hm _ _ eq_refl), (H0m _ Hm' _ _ eq_refl). }
  apply (Hap i k w v x y d1 m base Hne Hi Hk Hx Hy Hm Hb). congruence.
Qed.
End told.

(** ** Key agreement *)

(** After any run, the nodes agree: clients and trustees that have an entity have
    it with the parameters of the relay and with the same pairwise secrets, under
    their own numbers; and two clients with an entity share no slot. *)
Record agreement : Prop := {
  ag_client : ∀ i w d, sy_clients s !! i = Some w → c_DCNet (clientState w.1) = Some d →
    c_ID (clientState w.1) = Z.of_nat i
    ∧ client_of (r_PayloadSize st) (length (sy_trustees s)) (secret s) i d
    ∧ history_is (r_EquivocationProtectionEnabled st) Scalar_One d;
  ag_force : ∀ i w, sy_clients s !! i = Some w → r_ForceDisruptionSinceRound3 st = false →
    c_ForceDisruptionSinceRound3 (clientState w.1) = false;
  ag_slots : ∀ i k w v d d', sy_clients s !! i = Some w → sy_clients s !! k = Some v →
    c_DCNet (clientState w.1) = Some d → c_DCNet (clientState v.1) = Some d' →
    0 ≤ c_MySlot (clientState w.1) → c_MySlot (clientState w.1) = c_MySlot (clientState v.1) → i = k;
  ag_trustee : ∀ j c d, sy_trustees s !! j = Some c → t_DCNet (trusteeState (tc_inst c)) = Some d →
    len (ciphers (tc_trace c)) ≤ MaxInt32 → ciphers (tc_trace c) ≠ [] →
    t_ID (trusteeState (tc_inst c)) = Z.of_nat j
    ∧ trustee_of (r_PayloadSize st) (length (sy_clients s)) (secret s) j d
    ∧ ∃ h, history_is (r_EquivocationProtectionEnabled st) h d
}.

Lemma setup_agrees :
  r_nClients st = len (sy_clients s) → r_nTrustees st = len (sy_trustees s) → ephemeral_apart s → agreement.
Proof.
  intros Hn Hm Hap. destruct relay_told as (ms & HK & Hms). split.
  - intros. by eapply client_holds.
  - intros i w Hi Hf. by apply (ck_force _ _ _ _ _ _ _ _ (client_state ms HK i w Hi)).
  - intros. by eapply slots_apart.
  - intros. by eapply trustee_holds.
Qed.
End reached.

(** C4: Key agreement of the whole network.  A relay, clients and trustees that
    were just created run their code in any interleaving, over a network that loses,
    delays, repeats and reorders messages; the relay is set up for the nodes there
    are and passed on no missing key.  Then in every reachable state, every client
    with a DC-net entity and every trustee that sent a cell goes by its own number,
    has the cell size and the equivocation protection of the relay, and holds for
    each peer the Diffie-Hellman secret of the two private keys: client i and
    trustee j hold the same one for each other.  No client disrupts unless the relay
    is set up for it; and two clients recognise the same slot only if they drew the
    same ephemeral key. *)
Theorem key_agreement s0 s :
  created s0 → sreach s0 s →
  let st := relayState (sy_relay s).1 in
  r_nClients st = len (sy_clients s) → r_nTrustees st = len (sy_trustees s) →
  complete (sy_relay s).2 → ephemeral_apart s → agreement s.
Proof. intros Hcr Hre st Hn Hm Hc Hap. by eapply setup_agrees; [|eapply reach_ran|..]. Qed.
End system_keys.
