(* ===== verification/SystemIntegrity.v ===== *)
(** * What the application of the relay gets

    The cells the relay decodes for a round come from the clients and trustees of
    the system, all of them encoded for one announcement; so the payload it
    delivers is the one of the owner of the announced slot. *)

From Stdlib Require Import Sorted.
From S2P Require Import Prelude Bytes Crypto DCNetCipher Equivocation DCNet DCNetRound DCNetSession BitMask.
From S2P Require Import Messages StateMachine Measurements Statistics RoundManager RoundManagerInv.
From S2P Require Import NeffShuffle Network HandlerLogic Trustee TrusteeSpec Client ClientSpec ClientCells.
From S2P Require Import Relay RelayInv RelayPhases RelaySteps RelaySetup RelaySpec RelayOrigin RelayStates Protocol Wiring System SystemKeys.

Open Scope Z_scope.

(** A list of the things that exist for every index. *)
Lemma choose_list {A} (Q : nat → A → Prop) n :
  (∀ k, (k < n)%nat → ∃ x, Q k x) → ∃ l, length l = n ∧ ∀ k x, l !! k = Some x → Q k x.
Proof.
  induction n as [|n IH]; intros H; [by exists []|]. destruct IH as (l & Hl & Hq); [auto|].
  destruct (H n) as [x Hx]; [lia|]. exists (l ++ [x]). split; [rewrite length_app; cbn; lia|].
  intros k y [Hk|(Hk & Hy)]%lookup_app_Some; [by apply Hq|].
  apply list_lookup_singleton_Some in Hy as [E <-]. by replace k with n by lia.
Qed.

Section dcnet.
Context {CS : CryptoSuite} {CL : CryptoLaws CS}.
Implicit Types e d : DCNetEntity CS.

(** Without tags, no payload is the empty payload. *)
Lemma EncodeForRound_nil e r owner :
  synced e → Entity e = DCNET_CLIENT → EquivocationProtectionEnabled e = false → 0 ≤ r < MaxInt32 →
  EncodeForRound e r owner None = EncodeForRound e r owner (Some []).
Proof.
  intros Hs HE Heq Hr. pose proof (synced_size _ Hs).
  rewrite !EncodeForRound_client_plain by (done || lia || unfold len; cbn; lia). done.
Qed.

(** What fits into the cell of a slot owner. *)
Lemma owner_fits e r p x :
  synced e → 0 ≤ r → Entity e = DCNET_CLIENT → EncodeForRound e r true (Some p) = Ret x →
  len p + (if EquivocationProtectionEnabled e then 16 else 0) ≤ DCNetPayloadSize e.
Proof.
  intros Hs Hr He H. destruct (Z.lt_ge_cases (DCNetPayloadSize e) (len p)) as [Hl|Hl].
  { by rewrite EncodeForRound_longer in H. }
  destruct (EquivocationProtectionEnabled e) eqn:Eq; [|lia].
  destruct (Z.lt_ge_cases (DCNetPayloadSize e - 16) (len p)) as [Hl'|Hl']; [|lia].
  by rewrite EncodeForRound_no_tag_room in H.
Qed.

(** Without a payload the owner of a slot seals a whole cell of zeros: the sealed
    cell has no room, so no cell leaves a client that shares a key with a trustee,
    and the relay cannot decode the cell of one that shares none. *)
Lemma xorPads_short payload pad pads :
  (length pad < length payload)%nat → xorPads payload (pad :: pads) = Crash RuntimeError.
Proof.
  intros H. unfold xorPads. cbn. unfold xor_into. rewrite (proj2 (Nat.ltb_lt _ _) H).
  induction pads as [|q pads IH]; [done|]. exact IH.
Qed.

Lemma idle_owner_cell e q r cell plain e' :
  synced e → Entity e = DCNET_CLIENT → EquivocationProtectionEnabled e = true →
  equivocationProtection e = Some q → 0 ≤ r → EncodeForRound e r true None = Ret (cell, plain, e') →
  ∃ kappa c, cell = ToBytes (mkDCNetCipher (Some kappa) c) ∧ length kappa = 32%nat
    ∧ length c = (Z.to_nat (DCNetPayloadSize e) + 16)%nat.
Proof.
  intros Hs HE Heq Hq Hr. pose proof (synced_size _ Hs).
  rewrite EncodeForRound_unfold by (done || unfold len; cbn; lia). rewrite bool_decide_eq_true_2 by done.
  unfold clientEncode. cbn [DCNetPayloadSize EquivocationProtectionEnabled sharedPRNGs
    equivocationProtection at_round set_field]. rewrite Heq, Hq. rewrite make_bytes_ret by lia.
  cbn [mbind go_bind]. rewrite readPads_at. cbn [mbind go_bind].
  set (pads := _ <$> sharedKeys e).
  assert (Forall (λ p : bytes, length p = Z.to_nat (DCNetPayloadSize e)) pads) as Hpads
    by (apply Forall_fmap, Forall_true; intros; apply length_pad_at).
  destruct (ClientEncryptPayload_owner q (zeros (Z.to_nat (DCNetPayloadSize e))) pads)
    as (c & kappa & key & Ek & _ & Hl & _ & _ & Hc).
  rewrite length_zeros in Hc. rewrite Ek. cbn [mbind go_bind]. clear Ek. clearbody pads.
  destruct Hpads as [|pad pads Hpad _].
  - cbn. intros [= <- _ _]. by exists kappa, c.
  - by rewrite xorPads_short by lia.
Qed.

Lemma decodeInto_fits e (d : DCNetRoundDecoder) r c store e' :
  RoundDecoder e = Some d → (length (default [] (EquivocationProtectionTag c)) ≤ 32)%nat →
  decodeInto e r (ToBytes c) store = Ret e' → (length (Payload c) ≤ length (xorBuffer d))%nat.
Proof.
  intros Hd Ht. unfold decodeInto. rewrite FromBytes_ToBytes by (unfold len; lia). cbn [mbind go_bind Payload].
  rewrite Hd. destruct (negb _); [done|]. unfold xor_range.
  destruct (Nat.ltb_spec (length (xorBuffer d)) (length (Payload c))); [done|lia].
Qed.

Lemma DecodeClient_length e (d : DCNetRoundDecoder) r cell e' :
  RoundDecoder e = Some d → DecodeClient e r cell = Ret e' →
  ∃ d' : DCNetRoundDecoder, RoundDecoder e' = Some d' ∧ length (xorBuffer d') = length (xorBuffer d).
Proof.
  intros Hd. unfold DecodeClient, decodeInto. destruct (DCNetCipherFromBytes cell) as [c|]; [|done].
  cbn [mbind go_bind]. rewrite Hd. destruct (negb _); [done|]. unfold xor_range.
  destruct (Nat.ltb_spec (length (xorBuffer d)) (length (Payload c))); [done|]. cbn [mbind go_bind].
  intros [= <-]. eexists. split; [reflexivity|].
  assert (length (xor_bytes (take (length (Payload c)) (xorBuffer d)) (Payload c)
    ++ drop (length (Payload c)) (xorBuffer d)) = length (xorBuffer d)) as Hl
    by (rewrite length_app, length_xor_bytes, length_take, length_drop; lia).
  by destruct (EquivocationProtectionEnabled e).
Qed.

Lemma decoded_cells_fit e (d : DCNetRoundDecoder) r cells e' c :
  RoundDecoder e = Some d → go_fold (λ e c, DecodeClient e r c) e cells = Ret e' →
  ToBytes c ∈ cells → (length (default [] (EquivocationProtectionTag c)) ≤ 32)%nat →
  (length (Payload c) ≤ length (xorBuffer d))%nat.
Proof.
  intros Hd Hf Hc Ht. revert e d Hd Hf. induction cells as [|x cells IH]; intros e d Hd Hf; [by apply elem_of_nil in Hc|].
  rewrite go_fold_cons in Hf. destruct (DecodeClient e r x) as [e1|] eqn:E; [|done]. cbn [mbind go_bind] in Hf.
  apply elem_of_cons in Hc as [<-|Hc]; [by eapply decodeInto_fits|].
  destruct (DecodeClient_length _ _ _ _ _ Hd E) as (d1 & Hd1 & <-). by apply (IH Hc e1).
Qed.

(** So a decoded cell of the owner of a slot, under equivocation protection,
    carries a payload. *)
Lemma decoded_owner_payload h e d r payload cell plain e' cells ts x :
  synced e → Entity e = DCNET_CLIENT → history_is true h e → DCNetPayloadSize d = DCNetPayloadSize e → 0 ≤ r →
  EncodeForRound e r true payload = Ret (cell, plain, e') → cell ∈ cells →
  decodeRound d r false cells ts = Ret x → payload ≠ None.
Proof.
  intros Hs HE [Heq Hh] Hsz Hr Henc Hc Hdec ->. destruct (equivocationProtection e) as [q|] eqn:Hq; [|by specialize (Hh eq_refl)].
  pose proof (synced_size _ Hs).
  destruct (idle_owner_cell e q r cell plain e' Hs HE Heq Hq Hr Henc) as (kappa & c & -> & Hk & Hlc).
  unfold decodeRound, DecodeStart in Hdec. rewrite make_bytes_ret in Hdec by lia. cbn [mbind go_bind] in Hdec.
  destruct (go_fold _ _ cells) as [d1|] eqn:E; [|done].
  eapply decoded_cells_fit in E; [|reflexivity|exact Hc|cbn; lia].
  cbn in E. rewrite length_zeros, Hsz in E. lia.
Qed.

(** The entity the relay makes for its parameters decodes what its clients encode. *)
Lemma relay_entity_fits N m K equiv i e rnd1 rnd2 D :
  client_of N m K i e → NewDCNetEntity rnd1 rnd2 0 DCNET_RELAY N equiv [] = Ret D →
  DCNetPayloadSize D = N ∧ history_is equiv Scalar_One D.
Proof.
  intros (Hsy & _ & Hsz & _) HD. pose proof (synced_size _ Hsy).
  destruct (NewDCNetEntity_relay rnd1 rnd2 0 N equiv []) as (D' & ED & _ & H1 & _ & H2 & H3); [lia|].
  rewrite HD in ED. injection ED as <-. split; [done|]. split; [done|]. intros He. by rewrite (H3 He).
Qed.

(** One cell of every client and every trustee, only client [i] owning the slot:
    the relay decodes the payload of client [i]. *)
Lemma gathered_decodes N n m K equiv h d r i payload cs ts :
  0 < N → 0 ≤ r < MaxInt32 → (i < n)%nat → length cs = n → length ts = m →
  DCNetPayloadSize d = N → history_is equiv h d →
  len payload + (if equiv then 16 else 0) ≤ N →
  (∀ k c, cs !! k = Some c → ∃ e plain e', client_of N m K k e ∧ history_is equiv h e
     ∧ EncodeForRound e r (bool_decide (k = i)) (if bool_decide (k = i) then Some payload else None)
       = Ret (c, plain, e')) →
  (∀ j c, ts !! j = Some c → ∃ e e', trustee_of N n K j e ∧ (∃ h', history_is equiv h' e)
     ∧ TrusteeEncodeForRound e r = Ret (c, e')) →
  ∃ ct, decodeRound d r false cs ts = Ret (padPayload (cell_size N equiv) (Some payload), ct).
Proof.
  intros HN Hr Hi Hnc Hnt Hsz Hh Hfit HC HT.
  destruct (choose_list (λ k e, ∃ plain e', client_of N m K k e ∧ history_is equiv h e
    ∧ EncodeForRound e r (bool_decide (k = i)) (if bool_decide (k = i) then Some payload else None)
      = Ret (nth k cs [], plain, e')) n) as (es & Hes & HE).
  { intros k Hk. rewrite <- Hnc in Hk. destruct (lookup_lt_is_Some_2 cs k Hk) as [c Hc].
    rewrite (nth_lookup_Some _ _ _ _ Hc). destruct (HC k c Hc) as (e & plain & e' & H). eauto. }
  destruct (choose_list (λ j e, ∃ e', trustee_of N n K j e ∧ (∃ h', history_is equiv h' e)
    ∧ TrusteeEncodeForRound e r = Ret (nth j ts [], e')) m) as (fs & Hfs & HF).
  { intros j Hj. rewrite <- Hnt in Hj. destruct (lookup_lt_is_Some_2 ts j Hj) as [c Hc].
    rewrite (nth_lookup_Some _ _ _ _ Hc). by apply HT. }
  assert (session_inv N n m K equiv (mkSession es fs d)) as Hses.
  { split; cbn; try done.
    - exists h. split; [done|]. intros k e He. destruct (HE k e He) as (? & ? & ? & ? & _). done.
    - intros j e He. destruct (HF j e He) as (? & ? & ? & _). done. }
  assert (input_ok N n equiv (mkRoundInput r i payload [])) as Hin by done.
  destruct (session_decodes N n m K equiv _ _ Hses Hin) as (ct & E). exists ct. cbn [ri_payload] in E. rewrite <- E.
  unfold dcnetRound, theClients, theTrustees. cbn [ri_round ses_clients ses_trustees ses_relay].
  rewrite !mapM_go_fmap.
  rewrite (mapM_go_ret _ (λ k, nth k cs []) (seq 0 n)).
  2:{ intros k [_ Hk]%elem_of_seq. destruct (HE k (nth k es entity_default)) as (plain & e' & _ & _ & Ee);
        [apply nthE_lookup; lia|]. unfold ri_sends, ri_owns. cbn. by rewrite Ee. }
  cbn [mbind go_bind]. rewrite (mapM_go_ret _ (λ j, nth j ts []) (seq 0 m)).
  2:{ intros j [_ Hj]%elem_of_seq. destruct (HF j (nth j fs entity_default)) as (e' & _ & _ & Ee);
        [apply nthE_lookup; lia|]. by rewrite Ee. }
  cbn [mbind go_bind]. by rewrite <- Hnc, <- Hnt, <- !fmap_nth_seq.
Qed.
End dcnet.

Section integrity.
Context {CS : CryptoSuite} {CL : CryptoLaws CS} {NW : Network CS} {CK : Clock CS} {PS : ProofSystem CS}.

(** ** Announcements *)

Lemma phase_log p os :
  phase (CS:=CS) p os → ∃ n log, os = announceAll (viewOf p) log ∧ dd_RoundID <$> log = rounds_from 0 n.
Proof.
  intros [? ? ? ? E|? ? ? E|? ? ? ? E|? ? ? E|? ? ? ? (log & E & Hl & _)|n ? (log & E & Hl)];
    [rewrite E; by exists 0%nat, []..|by eauto|by eauto].
Qed.

Lemma rounds_from_NoDup a n : NoDup (rounds_from a n).
Proof. apply NoDup_fmap_2; [intros x y; lia | apply NoDup_seq]. Qed.

Lemma rounds_from_lt a n r : r ∈ rounds_from a n → a + 1 ≤ r.
Proof. intros (k & -> & _)%list_elem_of_fmap. lia. Qed.

(** Two announcements of one round are one message. *)
Lemma one_announcement (p : PriFiLibRelayInstance CS) tr d1 m1 d2 m2 :
  rinv (p, tr) → Down d1 m1 ∈ observe tr → Down d2 m2 ∈ observe tr →
  dd_RoundID m1 = dd_RoundID m2 → m1 = m2.
Proof.
  intros [_ Hph] H1 H2 E. apply phase_log in Hph as (n & log & Hd & Hl). cbn [fst snd] in *.
  eapply (NoDup_fmap_eq dd_RoundID log); [rewrite Hl; apply rounds_from_NoDup | | | done];
    by eapply announced_in_log.
Qed.

Lemma announced_pos (p : PriFiLibRelayInstance CS) tr d m :
  rinv (p, tr) → Down d m ∈ observe tr → 1 ≤ dd_RoundID m.
Proof.
  intros [_ Hph] H. apply phase_log in Hph as (n & log & Hd & Hl). cbn [fst snd] in *.
  apply (rounds_from_lt 0 n). rewrite <- Hl. apply list_elem_of_fmap_2. by eapply announced_in_log.
Qed.

Lemma sent_observed tr i (m : message CS) md :
  to_client tr i m → m = MDownstream md ∨ m = MDownstreamUDP md → ∃ d, Down d md ∈ observe tr.
Proof.
  intros Hs Hm. assert (∃ d, Sent d m ∈ tr) as [d Hd] by (destruct Hs; eauto). exists d.
  unfold observe. apply list_elem_of_In, in_flat_map. exists (Sent d m).
  split; [by apply list_elem_of_In|]. destruct Hm as [->| ->]; by left.
Qed.

(** ** Cells *)

(** A cell of a round that a client sent answers an announcement of that round. *)
Lemma client_cell tr i sk now msNow lat out data replay folder p0 w u k r c :
  NewClient sk now msNow lat out data replay folder = Ret p0 → client_ran tr i (p0, []) w →
  Sent ToRelay u ∈ w.2 → clientCipher (CS:=CS) u = Some (k, r, c) → 1 ≤ r →
  ∃ d md, Down d md ∈ observe tr ∧ dd_RoundID md = r ∧ answer md w.1 u.
Proof.
  intros Hp [(ms & Hrun & Hms) _] Hu Hc Hr. pose proof (crun_cells _ _ _ _ _ _ _ _ _ _ _ Hp Hrun) as HI.
  assert (roundOf u = r ∧ u ∈ ups w.2) as [Er Hups].
  { unfold ups. rewrite list_elem_of_omap. destruct u as [| | |m|m| | | | | | | | | | | | | | | | | |]; try done; cbn in Hc |- *.
    - destruct (up_Data m); [|done]. injection Hc as _ <- _. eauto.
    - destruct (oc_OpenClosedData m); [|done]. injection Hc as _ <- _. eauto. }
  destruct (cc_ups _ _ HI u Hups) as (md & Hmd & Ha); [by rewrite Er|].
  assert (∃ m, m ∈ ms ∧ (m = MDownstream md ∨ m = MDownstreamUDP md)) as (m & Hm & Hmm)
    by (destruct Hmd as [H|H]; eauto).
  destruct (sent_observed tr i m md) as [d Hd]; [|done|].
  - destruct (Hms m Hm) as [->|H]; [by destruct Hmm | done].
  - exists d, md. split; [done|]. split; [|done]. destruct Ha as [E _]. by rewrite <- E.
Qed.

(** A cell a trustee sent is the one its entity encodes for the round. *)
Lemma trustee_cell N n K J equiv tr k sk never always base p0 c u j r cell :
  NewTrustee sk never always base = Ret p0 → trustee_ran tr k (mkTConf p0 [] []) c →
  len (ciphers (tc_trace c)) ≤ MaxInt32 →
  (∀ d, t_DCNet (trusteeState (tc_inst c)) = Some d → ciphers (tc_trace c) ≠ [] →
     t_ID (trusteeState (tc_inst c)) = Z.of_nat J ∧ trustee_of N n K J d ∧ ∃ h, history_is equiv h d) →
  Sent ToRelay u ∈ tc_trace c → trusteeCipher (CS:=CS) u = Some (j, r, cell) →
  j = Z.of_nat J ∧
  ∃ e e', trustee_of N n K J e ∧ (∃ h, history_is equiv h e) ∧ TrusteeEncodeForRound e r = Ret (cell, e').
Proof.
  intros Hp [Hrun _] Hb Hd Hu Hc. apply (treach_weaken _ normal_msg) in Hrun; [|by intros p m []]. apply tinv_new in Hp.
  pose proof (tinv_reach _ _ _ Hrun Hp Hb) as HI.
  destruct u as [| | | | | | | | | |m| | | | | | | | | | | |]; try done. cbn in Hc.
  destruct (tc_Data m) as [x|] eqn:Ex; [|done]. injection Hc as <- <- <-.
  assert (m ∈ ciphers (tc_trace c)) as Hm.
  { unfold ciphers. rewrite list_elem_of_omap. by exists (Sent ToRelay (MDCCipher m)). }
  destruct (ti_phase _ _ HI) as [(_ & E & _)|(v & e0 & q & _ & Hm0 & _ & Hd0 & E & _)].
  { rewrite E in Hm. by apply elem_of_nil in Hm. }
  destruct (Hd _ Hd0) as (Hid & (Hsy & Hent & Hsz & Hk) & h & Hh); [intros En; rewrite En in Hm; by apply elem_of_nil in Hm|].
  rewrite E in Hm, Hb. apply list_elem_of_fmap in Hm as (a & -> & [_ Ha]%elem_of_seq).
  unfold len in Hb. rewrite length_fmap, length_seq in Hb. cbn in Ex. injection Ex as <-. cbn [tc_TrusteeID cipherOf tc_RoundID].
  split; [done|].
  exists (at_round e0 (Z.of_nat a)). eexists. split; [|split; [by exists h|apply (send_at_round sk (tc_inst c)); [done|lia]]].
  split; [|done]. apply synced_at_round; [apply Hm0 | lia].
Qed.

(** A client sent one cell for a round. *)
Lemma one_cell tr i sk now msNow lat out data replay folder p0 w u v :
  NewClient (CS:=CS) sk now msNow lat out data replay folder = Ret p0 → client_ran tr i (p0, []) w →
  u ∈ ups w.2 → v ∈ ups w.2 → roundOf u = roundOf v → u = v.
Proof.
  intros Hp [(ms & Hrun & _) _] Hu Hv E. apply crun_reach in Hrun. apply cinv_new in Hp.
  assert (cinv w) as HI by (clear Hu Hv E; induction Hrun as [|a b c Hs _ IH]; [done|]; by eapply IH, cinv_step).
  eapply (NoDup_fmap_eq roundOf (ups w.2)); [|done..]. rewrite <- upRounds_ups.
  pose proof (ci_sorted _ HI) as Hs. clear -Hs. induction Hs as [|r l Hl IH Hr]; constructor; [|done].
  rewrite Forall_forall in Hr. intros Hin. specialize (Hr r Hin). lia.
Qed.

(** ** Rounds *)

Section deployment.
Context (s0 s : system) (ms : list (message CS)).
Abbreviation st := (relayState (sy_relay s).1).
Abbreviation tr := ((sy_relay s).2).
Abbreviation N := (r_PayloadSize st).
Abbreviation equiv := (r_EquivocationProtectionEnabled st).
Abbreviation K := (secret s).
Hypothesis (Hcr : created s0) (Hran : ran s0 s) (Hag : agreement s).
Hypothesis (Hcalm : r_ForceDisruptionSinceRound3 st = false).
Hypothesis (Hbound : ∀ j c, sy_trustees s !! j = Some c → len (ciphers (tc_trace c)) ≤ MaxInt32).
Hypothesis (Hms : ∀ m, m ∈ ms → local m ∨ to_relay (sy_clients s) (sy_trustees s) m).

(** A client's cell among the received messages. *)
Lemma gathered_client d md k c :
  rinv (sy_relay s) → Down d md ∈ observe tr → dd_FlagOpenClosedRequest md = false →
  Some (Z.of_nat k, dd_RoundID md, c) ∈ clientCipher <$> ms →
  0 ≤ dd_RoundID md < MaxInt32 ∧
  ∃ w d0 e payload plain e', sy_clients s !! k = Some w ∧ c_DCNet (clientState w.1) = Some d0
    ∧ Sent ToRelay (MUpstream (mkUpstream (Z.of_nat k) (dd_RoundID md) (Some c))) ∈ w.2
    ∧ client_of N (length (sy_trustees s)) K k e ∧ history_is equiv Scalar_One e
    ∧ (let owner := dd_OwnershipID md =? c_MySlot (clientState w.1) in
       EncodeForRound e (dd_RoundID md) owner payload = Ret (c, plain, e') ∧ (owner = false → payload = None)).
Proof.
  intros Hinv Hd Hoc (u & Hc & Hu)%list_elem_of_fmap. symmetry in Hc.
  assert (1 ≤ dd_RoundID md) as Hr by (destruct (sy_relay s); by eapply announced_pos).
  destruct (Hms u Hu) as [Hl|[(i & w & Hi & Hs)|(j & t & Hj & Hs)]]; [by destruct u| |].
  2:{ exfalso. destruct (rn_trustees _ _ Hran j t Hj) as (_ & _ & _ & Hf). rewrite Forall_forall in Hf.
      apply Hf in Hs. by destruct u. }
  destruct (rn_clients _ _ Hran i w Hi) as (w0 & Hw0 & Hrun). pose proof (cr_clients _ Hcr) as Hnew.
  rewrite Forall_lookup in Hnew. destruct (Hnew i w0 Hw0) as (? & ? & ? & ? & ? & ? & ? & ? & p0 & Hp & ->).
  destruct (client_cell _ _ _ _ _ _ _ _ _ _ _ _ _ _ _ _ Hp Hrun Hs Hc Hr) as (d' & md' & Hd' & Er & Ha).
  assert (md' = md) as -> by (destruct (sy_relay s); by eapply one_announcement).
  pose proof (ag_force _ Hag i w Hi Hcalm) as Hforce.
  destruct Ha as (_ & Hrange & Ha). split; [done|].
  destruct u as [| | |m|m| | | | | | | | | | | | | | | | | |]; try done; [|by destruct Ha; congruence].
  destruct Ha as (Eid & _ & Ha). destruct (Ha Hforce) as (d1 & e & payload & cell & plain & e' & Ed1 & Hal & Henc & Edata & Hpay).
  destruct m as [mid mr mdata]. cbn in *. subst mdata. cbn in Hc. injection Hc as -> -> ->.
  destruct (ag_client _ Hag i w d1 Hi Ed1) as (Hid & Hof & Hh).
  assert (i = k) as -> by lia.
  exists w, d1, e, payload, plain, e'. destruct Hal as [Hsy (_ & H1 & H2 & H3 & H4 & H5)].
  destruct Hof as (_ & Ho1 & Ho2 & Ho3). destruct Hh as [Hh1 Hh2].
  split; [done|]. split; [done|]. split; [done|]. split; [split_and!; congruence || done|].
  split; [split; [congruence | by rewrite <- H5]|]. done.
Qed.

(** A trustee's cell among them. *)
Lemma gathered_trustee j r c :
  Some (Z.of_nat j, r, c) ∈ trusteeCipher <$> ms →
  ∃ e e', trustee_of N (length (sy_clients s)) K j e ∧ (∃ h, history_is equiv h e)
          ∧ TrusteeEncodeForRound e r = Ret (c, e').
Proof.
  intros (u & Hc & Hu)%list_elem_of_fmap. symmetry in Hc.
  destruct (Hms u Hu) as [Hl|[(i & w & Hi & Hs)|(k & t & Hk & Hs)]]; [by destruct u| |].
  { exfalso. destruct (rn_clients _ _ Hran i w Hi) as (_ & _ & _ & Hf). rewrite Forall_forall in Hf.
    apply Hf in Hs. by destruct u. }
  destruct (rn_trustees _ _ Hran k t Hk) as (c0 & Hc0 & Hrun). pose proof (cr_trustees _ Hcr) as Hnew.
  rewrite Forall_lookup in Hnew. destruct (Hnew k c0 Hc0) as (? & ? & ? & ? & p0 & Hp & ->).
  pose proof (Hbound k t Hk) as Hb. pose proof (ag_trustee _ Hag k t) as Htr.
  destruct (trustee_cell N (length (sy_clients s)) K k equiv _ _ _ _ _ _ _ _ _ _ _ _ Hp Hrun Hb
    (λ d Ed Hne, Htr d Hk Ed Hb Hne) Hs Hc) as [Ej H].
  by replace j with k by lia.
Qed.

(** A cell a client sent is the only one for its round. *)
Lemma only_cell i w m u :
  sy_clients s !! i = Some w → Sent ToRelay (MUpstream m) ∈ w.2 → u ∈ ups w.2 → roundOf u = up_RoundID m →
  u = MUpstream m.
Proof.
  intros Hi Hm Hu Er. destruct (rn_clients _ _ Hran i w Hi) as (w0 & Hw0 & Hrun).
  pose proof (cr_clients _ Hcr) as Hnew. rewrite Forall_lookup in Hnew.
  destruct (Hnew i w0 Hw0) as (? & ? & ? & ? & ? & ? & ? & ? & p0 & Hp & ->).
  apply (one_cell _ _ _ _ _ _ _ _ _ _ _ _ _ _ Hp Hrun Hu); [|done].
  unfold ups. rewrite list_elem_of_omap. by exists (Sent ToRelay (MUpstream m)).
Qed.

(** What the relay decodes in a round is the payload of the owner of its slot. *)
Lemma owner_delivered d md i w rnd1 rnd2 D cells tcells pt ct :
  rinv (sy_relay s) → Down d md ∈ observe tr → dd_FlagOpenClosedRequest md = false →
  sy_clients s !! i = Some w → c_MySlot (clientState w.1) = dd_OwnershipID md → 0 ≤ dd_OwnershipID md →
  NewDCNetEntity rnd1 rnd2 0 DCNET_RELAY N equiv [] = Ret D →
  gathered clientCipher ms (len (sy_clients s)) (dd_RoundID md) cells →
  gathered trusteeCipher ms (len (sy_trustees s)) (dd_RoundID md) tcells →
  decodeRound D (dd_RoundID md) false cells tcells = Ret (pt, ct) →
  ∃ e payload cell plain e',
    client_of N (length (sy_trustees s)) K i e
    ∧ EncodeForRound e (dd_RoundID md) true payload = Ret (cell, plain, e')
    ∧ Sent ToRelay (MUpstream (mkUpstream (Z.of_nat i) (dd_RoundID md) (Some cell))) ∈ w.2
    ∧ pt = padPayload (cell_size N equiv) payload.
Proof.
  intros Hinv Hd Hoc Hi Hslot Hpos HD [Hlc Hgc] [Hlt Hgt] Hdec. unfold len in Hlc, Hlt. rewrite Nat2Z.id in Hlc, Hlt.
  assert (i < length cells)%nat as Hic by (rewrite Hlc; by eapply lookup_lt_Some).
  destruct (lookup_lt_is_Some_2 cells i Hic) as [cell Hcell].
  destruct (gathered_client d md i cell Hinv Hd Hoc (Hgc i cell Hcell))
    as (Hrange & w' & d0 & e & payload & plain & e' & Hw' & Hd0 & Hsent & Hof & Hh & Henc & _).
  destruct (relay_entity_fits _ _ _ _ _ _ _ _ _ Hof HD) as [HDs HDh].
  rewrite Hi in Hw'. injection Hw' as <-. rewrite Hslot, Z.eqb_refl in Henc.
  exists e, payload, cell, plain, e'. split; [done|]. split; [done|]. split; [done|].
  pose proof Hof as (Hsy & HE & Hsz & _). pose proof Hh as [Heq _].
  assert (payload ≠ None ∨ equiv = false) as Hpay.
  { destruct equiv; [left|by right]. eapply (decoded_owner_payload _ e D _ _ cell plain e' cells tcells);
      [done..|congruence|apply Hrange|done|by eapply list_elem_of_lookup_2|done]. }
  assert (EncodeForRound e (dd_RoundID md) true (Some (default [] payload)) = Ret (cell, plain, e')) as Henc'.
  { destruct payload as [q|]; [done|]. destruct Hpay as [|Hpay]; [done|].
    rewrite <- Henc. symmetry. apply EncodeForRound_nil; [done..| |done]. congruence. }
  pose proof (owner_fits _ _ _ _ Hsy (proj1 Hrange) HE Henc') as Hfit. rewrite Heq, Hsz in Hfit.
  destruct (gathered_decodes N (length (sy_clients s)) (length (sy_trustees s)) K equiv Scalar_One D
    (dd_RoundID md) i (default [] payload) cells tcells) as [ct' E]; try done.
  - rewrite <- Hsz. apply (synced_size _ Hsy).
  - by rewrite <- Hlc.
  - intros k c Hc. destruct (decide (k = i)) as [->|Hne].
    + rewrite Hcell in Hc. injection Hc as <-. exists e, plain, e'. by rewrite !bool_decide_eq_true_2.
    + destruct (gathered_client d md k c Hinv Hd Hoc (Hgc k c Hc))
        as (_ & v & d1 & f & q & plain' & f' & Hv & Hd1 & _ & Hof' & Hh' & Henc2 & Hnone).
      exists f, plain', f'. rewrite !bool_decide_eq_false_2 by done. split; [done|]. split; [done|].
      assert ((dd_OwnershipID md =? c_MySlot (clientState v.1)) = false) as Eo.
      { apply Z.eqb_neq. intros Eo. apply Hne. symmetry. eapply (ag_slots _ Hag); [done..| |]; congruence. }
      rewrite Eo in *. by rewrite Hnone in Henc2.
  - intros j c Hc. by apply gathered_trustee, Hgt.
  - rewrite Hdec in E. injection E as -> _. by destruct payload.
Qed.
End deployment.

(** C3: Integrity of the whole network, once set up.  A relay, clients and trustees
    that were just created run their code, interleaved in any way, over a network
    that loses, delays, repeats and reorders messages but does not forge them; no
    node is initialised a second time, no resync and no disruption query is
    delivered, and round numbers stay below 2^31.  The relay is set up for the
    numbers of clients and trustees there are and not to force a disruption; it
    passed on no missing key (a key message repeated during the setup can make it
    do so, and such runs are excluded); no two clients drew the same ephemeral key;
    and no trustee sent more than 2^31 - 1 cells.  Then the payloads the relay
    hands to its application belong to strictly increasing rounds, all announced
    (but for round 0), and the payload of a round whose announced slot belongs to
    client i is, padded with zeros (and less the echo flag), what client i encoded,
    with the Diffie-Hellman secrets of its key and the trustees' keys, into the one
    cell it ever sent for that round. *)
Theorem system_integrity s0 s :
  created s0 → sreach s0 s →
  let st := relayState (sy_relay s).1 in
  let tr := (sy_relay s).2 in
  r_nClients st = len (sy_clients s) → r_nTrustees st = len (sy_trustees s) →
  r_ForceDisruptionSinceRound3 st = false →
  (∀ j c, sy_trustees s !! j = Some c → len (ciphers (tc_trace c)) ≤ MaxInt32) →
  complete tr → ephemeral_apart s →
  let equiv := r_EquivocationProtectionEnabled st in
  ∃ rs, StronglySorted Z.lt rs
  ∧ Forall2 (λ r x,
      0 ≤ r ∧ (r = 0 ∨ ∃ d md, Down d md ∈ observe tr ∧ dd_RoundID md = r)
      ∧ ∀ d md i w, Down d md ∈ observe tr → dd_RoundID md = r →
      sy_clients s !! i = Some w → c_MySlot (clientState w.1) = dd_OwnershipID md → 0 ≤ dd_OwnershipID md →
      ∃ e payload cell plain e',
        client_of (r_PayloadSize st) (length (sy_trustees s)) (secret s) i e
        ∧ EncodeForRound e r true payload = Ret (cell, plain, e')
        ∧ Sent ToRelay (MUpstream (mkUpstream (Z.of_nat i) r (Some cell))) ∈ w.2
        ∧ (∀ u, u ∈ ups w.2 → roundOf u = r → u = MUpstream (mkUpstream (Z.of_nat i) r (Some cell)))
        ∧ let plain := padPayload (cell_size (r_PayloadSize st) equiv) payload in
          x = if r_DisruptionProtectionEnabled st then drop 1 plain else plain)
    rs (outs (observe tr)).
Proof.
  intros Hcr Hre st tr EnC EnT Hcalm Hbound Hcomplete Hap equiv. pose proof (reach_ran _ _ Hcr Hre) as Hran.
  pose proof (setup_agrees s0 s Hcr Hran Hcomplete EnC EnT Hap) as Hag.
  pose proof (rn_relay _ _ Hran) as (ms & Hrun & Hms).
  destruct (cr_relay _ Hcr) as (sk & t & out & data & p0 & Hnew & E0). rewrite E0 in Hrun.
  pose proof (run_oinv _ _ _ _ _ _ _ Hnew Hrun) as [_ [(rs & Hrs & Hf) Hdown] _].
  pose proof (reach_inv _ _ _ _ _ _ Hnew (rrun_reach _ _ _ Hrun)) as Hinv.
  exists rs. split; [exact Hrs|]. eapply Forall2_impl; [exact Hf|].
  intros r x (([Hr0 _] & Hcov) & Hocr & rnd1 & rnd2 & D & cells & tcells & pt & ct & HD & Hgc & Hgt & Hdec & ->).
  split; [exact Hr0|]. split; [exact Hcov|]. intros d md i w Hd <- Hi Hslot Hpos. cbn [v_size v_equiv v_nC v_nT viewOf] in *.
  fold st in HD, Hgc, Hgt. rewrite EnC in Hgc. rewrite EnT in Hgt.
  assert (dd_FlagOpenClosedRequest md = false) as Hoc.
  { rewrite Forall_forall in Hdown. destruct (Hdown _ Hd) as (_ & _ & Hreq).
    destruct (dd_FlagOpenClosedRequest md); [|done]. destruct (Hreq eq_refl). congruence. }
  destruct (owner_delivered s0 s ms Hcr Hran Hag Hcalm Hbound Hms d md i w rnd1 rnd2 D cells tcells pt ct)
    as (e & payload & cell & plain & e' & Hof & Henc & Hsent & Hpt); [done..|].
  exists e, payload, cell, plain, e'. split_and!; [apply Hof..|done|done| |].
  - intros u Hu Hr. by eapply (only_cell s0 s Hcr Hran i w).
  - by rewrite Hpt.
Qed.
End integrity.
