(* ===== verification/SystemDemo.v ===== *)
(** * A complete run

    An executable scheduler for the system, proved to take only steps of the
    system, and a run on the concrete suite: a relay, two clients and one trustee
    from their creation through parameters, keys, shuffle and signatures to the
    first rounds, in which a client's bytes reach the relay's application. *)

From Stdlib Require Import Sorted.
From S2P Require Import Prelude Bytes Crypto DCNetCipher Equivocation DCNet DCNetRound DCNetSession BitMask.
From S2P Require Import Messages StateMachine Measurements Statistics RoundManager RoundManagerInv.
From S2P Require Import NeffShuffle Network HandlerLogic Trustee TrusteeSpec Client ClientSpec ClientCells.
From S2P Require Import Relay RelayInv RelayPhases RelaySteps RelaySetup RelaySpec RelayOrigin System SystemKeys SystemIntegrity.

Open Scope Z_scope.

Section scheduler.
Context {CS : CryptoSuite} {CL : CryptoLaws CS} {NW : Network CS} {CK : Clock CS} {PS : ProofSystem CS}.

(** What one step takes from outside: random draws and clocks. *)
Record inputs := mkInputs { in_rnd1 : bytes; in_rnd2 : bytes; in_client : nat → @clientInputs CS; in_trustee : nat → @trusteeDraws CS }.
Context (inp : inputs).

(** Who does what: a message is named by its sender and its place in the trace. *)
Inductive action :=
| Start (m : ALL_ALL_PARAMETERS CS) (* the relay's node gives it its parameters *)
| FromClient (i n : nat)            (* the relay gets an event of client i *)
| FromTrustee (j n : nat)           (* ... or of trustee j *)
| Expire (round : Z)
| ToClient_ (i n : nat)             (* client i gets an event of the relay *)
| ToTrustee_ (j n : nat)
| Send (j : nat)                    (* the sender of trustee j runs *)
| Queue (i : nat) (data : bytes).

Definition roomy (p : PriFiLibRelayInstance CS) : bool :=
  bool_decide (lastRoundClosed (r_roundManager (relayState p)) + r_WindowSize (relayState p) + 2 < MaxInt32 - 1).
Definition unforced (st : string) (m : message CS) : bool :=
  match m with MParameters m => negb (ForceParams m) || String.eqb st "BEFORE_INIT" | _ => true end.
Definition in_sync (m : message CS) : bool :=
  match m with
  | MDownstream m | MDownstreamUDP m =>
    negb (dd_FlagResync m) && (-2147483648 <=? dd_RoundID m) && (dd_RoundID m <? MaxInt32)
  | MReveal _ => false
  | _ => true
  end.

Definition relayGets (m : message CS) (s : system) : option system :=
  let p := (sy_relay s).1 in
  if roomy p && unforced (currentState (r_stateMachine p)) m then
    match r_ReceivedMessage (in_rnd1 inp) (in_rnd2 inp) m (sy_relay s) with
    | Ret (_, w) => Some (mkSystem w (sy_clients s) (sy_trustees s))
    | Crash _ => None
    end
  else None.

(** The message at a place of a trace, if it goes there. *)
Definition sent_at (to : dest → bool) (tr : list (event CS)) (n : nat) : option (message CS) :=
  match tr !! n with Some (Sent d m) => if to d then Some m else None | _ => None end.
Definition is_relay (d : dest) : bool := match d with ToRelay => true | _ => false end.
Definition is_client (i : nat) (d : dest) : bool :=
  match d with ToClient k => k =? Z.of_nat i | ToAllClients => true | _ => false end.
Definition is_trustee (j : nat) (d : dest) : bool :=
  match d with ToTrustee k => k =? Z.of_nat j | _ => false end.

Definition act (a : action) (s : system) : option system :=
  match a with
  | Start m => relayGets (MParameters m) s
  | FromClient i n =>
    w ← sy_clients s !! i; m ← sent_at is_relay w.2 n; relayGets m s
  | FromTrustee j n =>
    c ← sy_trustees s !! j; m ← sent_at is_relay (tc_trace c) n; relayGets m s
  | Expire round =>
    if roomy (sy_relay s).1 then
      match checkIfRoundHasEndedAfterTimeOut_Phase1 round (sy_relay s) with
      | Ret (_, w) => Some (mkSystem w (sy_clients s) (sy_trustees s))
      | Crash _ => None
      end
    else None
  | ToClient_ i n =>
    w ← sy_clients s !! i; m ← sent_at (is_client i) (sy_relay s).2 n;
    if unforced (currentState (c_stateMachine w.1)) m && in_sync m then
      match c_ReceivedMessage (in_client inp i) m w with
      | Ret (_, w') => Some (mkSystem (sy_relay s) (<[i := w']> (sy_clients s)) (sy_trustees s))
      | Crash _ => None
      end
    else None
  | ToTrustee_ j n =>
    c ← sy_trustees s !! j; m ← sent_at (is_trustee j) (sy_relay s).2 n;
    if unforced (currentState (t_stateMachine (tc_inst c))) m && in_sync m then
      match t_ReceivedMessage (in_trustee inp j) m (tc_inst c, tc_trace c) with
      | Ret (_, (p', tr')) =>
        Some (mkSystem (sy_relay s) (sy_clients s) (<[j := mkTConf p' tr'
          (tc_senders c ++ replicate (spawns tr' - spawns (tc_trace c)) senderStart)]> (sy_trustees s)))
      | Crash _ => None
      end
    else None
  | Send j =>
    c ← sy_trustees s !! j; v ← tc_senders c !! 0%nat;
    if sv_stop v then None else
    match senderStep v (tc_inst c, tc_trace c) with
    | Ret (v', (p', tr')) =>
      Some (mkSystem (sy_relay s) (sy_clients s)
        (<[j := mkTConf p' tr' (<[0%nat := v']> (tc_senders c))]> (sy_trustees s)))
    | Crash _ => None
    end
  | Queue i data =>
    w ← sy_clients s !! i;
    Some (mkSystem (sy_relay s) (<[i := (queued data w.1, w.2)]> (sy_clients s)) (sy_trustees s))
  end.

Fixpoint acts (l : list action) (s : system) : option system :=
  match l with [] => Some s | a :: l => s ← act a s; acts l s end.

Lemma sent_at_elem to tr n m : sent_at to tr n = Some m → ∃ d, Sent d m ∈ tr ∧ to d = true.
Proof.
  unfold sent_at. destruct (tr !! n) as [e|] eqn:E; [|done]. destruct e as [d x| | | | | | | |]; try done.
  destruct (to d) eqn:Et; [|done]. intros [= ->]. exists d. split; [by eapply list_elem_of_lookup_2 | done].
Qed.

Lemma unforced_spec st m : unforced st m = true →
  match m with MParameters m => ForceParams m = false ∨ st = "BEFORE_INIT"%string | _ => True end.
Proof.
  destruct m; try done. cbn. destruct (ForceParams m); [right; by apply String.eqb_eq | by left].
Qed.

Lemma in_sync_spec m : in_sync m = true →
  no_query m ∧ match m with
  | MDownstream m | MDownstreamUDP m => dd_FlagResync m = false ∧ - 2147483648 ≤ dd_RoundID m < MaxInt32
  | _ => True
  end.
Proof.
  destruct m; try done; cbn; intros [[H1 H2%Z.leb_le]%andb_prop H3%Z.ltb_lt]%andb_prop;
    (split; [done|]); (split; [by destruct (dd_FlagResync m) | done]).
Qed.

Lemma relayGets_step m s s' :
  relayGets m s = Some s' → local m ∨ to_relay (sy_clients s) (sy_trustees s) m → sstep s s'.
Proof.
  unfold relayGets. intros H Hm. destruct s as [[p tr] cs ts]. cbn in *.
  destruct (roomy p && _) eqn:E; [|done]. apply andb_prop in E as [Hr%bool_decide_eq_true Hu%unforced_spec].
  destruct (r_ReceivedMessage _ _ m (p, tr)) as [[r w]|] eqn:Er; [|done]. injection H as <-.
  apply (ss_relay [m]); [|by intros x ->%list_elem_of_singleton].
  eapply rstep_receive; [exact Hr | by destruct m | exact Er].
Qed.

Ltac opt H x E := match type of H with (?o ≫= _) = Some _ => destruct o as [x|] eqn:E; [|done]; cbn in H end.

Lemma client_act i n s s' : act (ToClient_ i n) s = Some s' → sstep s s'.
Proof.
  intros H. destruct s as [w0 cs ts]. cbn in H. opt H w Ew. opt H m Em.
  apply sent_at_elem in Em as (d & Hd & Ht). destruct w as [p tr]. cbn in H.
  destruct (unforced _ m && _) eqn:E; [|done].
  apply andb_prop in E as [Hu%unforced_spec [Hq Hs]%in_sync_spec].
  destruct (c_ReceivedMessage _ m (p, tr)) as [[r [p' tr']]|] eqn:Er; [|done]. injection H as <-.
  eapply ss_client; [exact Ew | right | | exact Hq | exact Er]; [|by destruct m].
  unfold to_client. destruct d; try done; [left | by right]. by apply Z.eqb_eq in Ht as ->.
Qed.

Lemma trustee_act j n s s' : act (ToTrustee_ j n) s = Some s' → sstep s s'.
Proof.
  intros H. destruct s as [w0 cs ts]. cbn in H. opt H c Ec. opt H m Em.
  apply sent_at_elem in Em as (d & Hd & Ht). destruct c as [p tr ss]. cbn in H.
  destruct (unforced _ m && _) eqn:E; [|done].
  apply andb_prop in E as [Hu%unforced_spec [Hq Hs]%in_sync_spec].
  destruct (t_ReceivedMessage _ m (p, tr)) as [[r [p' tr']]|] eqn:Er; [|done]. injection H as <-.
  eapply ss_trustee; [exact Ec|]. eapply tstep_receive; [|exact Er]. split; [by destruct m|right].
  unfold to_trustee. destruct d; try done. by apply Z.eqb_eq in Ht as ->.
Qed.

(** The scheduler takes steps of the system. *)
Lemma act_step a s s' : act a s = Some s' → sstep s s'.
Proof.
  destruct a as [m|i n|j n|round|i n|j n|j|i data]; [..|by apply client_act|by apply trustee_act| |]; intros H.
  - eapply relayGets_step; [exact H | by left].
  - cbn in H. opt H w Ew. opt H m Em. eapply relayGets_step; [exact H|]. right. left.
    apply sent_at_elem in Em as (d & Hd & Ht). destruct d; try done. eauto.
  - cbn in H. opt H c Ec. opt H m Em. eapply relayGets_step; [exact H|]. right. right.
    apply sent_at_elem in Em as (d & Hd & Ht). destruct d; try done. eauto.
  - destruct s as [[p tr] cs ts]. cbn in H. destruct (roomy p) eqn:Hr; [|done]. apply bool_decide_eq_true in Hr.
    destruct (checkIfRoundHasEndedAfterTimeOut_Phase1 round (p, tr)) as [[[] w]|] eqn:E; [|done].
    injection H as <-. apply (ss_relay []); [by eapply rstep_timeout|]. intros m Hm. by apply elem_of_nil in Hm.
  - destruct s as [w cs ts]. cbn in H. opt H c Ec. opt H v Ev. destruct c as [p tr ss]. cbn in *.
    destruct (sv_stop v) eqn:Hstop; [done|].
    destruct (senderStep v (p, tr)) as [[v' [p' tr']]|] eqn:E; [|done]. injection H as <-.
    eapply ss_trustee; [exact Ec|]. by eapply tstep_send.
  - destruct s as [w cs ts]. cbn in H. opt H v Ev. destruct v as [p tr]. injection H as <-. by apply ss_queue.
Qed.

Lemma acts_reach l : ∀ s s', acts l s = Some s' → sreach s s'.
Proof.
  induction l as [|a l IH]; intros s s' H; [injection H as <-; constructor|]. cbn in H.
  destruct (act a s) as [s1|] eqn:E; [|done]. eapply rtc_l; [exact (act_step a s s1 E) | by apply IH].
Qed.
End scheduler.

(** ** A relay, two clients and one trustee *)

Module SystemDemo.
Import ToySuite.
#[local] Existing Instance suite.

Instance net : Network suite := {| net_send := λ _ _ _, None |}.
Instance clock : Clock suite := {| time_Now := λ tr, 1000000 * len tr |}.
Instance proofs : ProofSystem suite := {|
  HashProve := λ _ _ _ _ _ _, Ok []; HashVerify := λ _ _ _ _, true |}.

Definition clientInput (i : nat) : @clientInputs suite :=
  @mkClientInputs suite 0 0 0 (λ _, 0) 0 ([1], 0) [1] [2] (fp_of (11 * (Z.of_nat i + 1)))
    (Err "") (Err "") 0 (Err "").
Definition draws (j : nat) : @trusteeDraws suite := @mkTrusteeDraws suite [1] [2] (fp_of 5) [1; 0]%nat ([3], 0).
Definition inp : @inputs suite := @mkInputs suite [1] [2] clientInput draws.
Definition params : ALL_ALL_PARAMETERS suite :=
  (Add (Add (Add (Add (Add (Add (Add newParams "NTrustees" (PInt 1)) "NClients" (PInt 2))
    "PayloadSize" (PInt 4)) "WindowSize" (PInt 1)) "StartNow" (PBool true))
    "RelayMaxNumberOfConsecutiveFailedRounds" (PInt 2)) "ExperimentRoundLimit" (PInt (-1)))
    <| ForceParams := true |>.

Definition client (sk : Z) : PriFiLibClientInstance suite :=
  match NewClient (fp_of sk : @Scalar suite) 0 0 false true [] false "" with
  | Ret p => p | Crash _ => ClientDemo.dummy end.
Definition trustee : PriFiLibTrusteeInstance suite :=
  match NewTrustee (fp_of 5 : @Scalar suite) false false 0 with Ret p => p | Crash _ => TrusteeDemo.start end.
Definition s0 : system (CS:=suite) :=
  mkSystem (RelayDemo.start, []) [(client 3, []); (client 77, [])] [mkTConf trustee [] []].

(** keys and parameters, the shuffle, its signatures *)
Definition setup : list (action (CS:=suite)) :=
  [Start params; ToTrustee_ 0 0; FromTrustee 0 0; ToClient_ 0 1; ToClient_ 1 2; FromClient 0 0; FromClient 1 0;
   ToTrustee_ 0 3; FromTrustee 0 1; ToTrustee_ 0 4; FromTrustee 0 2; ToClient_ 0 5; ToClient_ 1 6].
(** round 0; the trustee is ahead of the relay *)
Definition round0 : list (action (CS:=suite)) :=
  [Send 0; Send 0; FromTrustee 0 5; FromClient 1 1; FromTrustee 0 4; FromClient 0 1].
(** round 1: client 1 owns slot 0; the relay's message arrives twice there, and
    an old cell arrives again at the relay *)
Definition round1 : list (action (CS:=suite)) :=
  [Queue 1 [7; 8]; ToClient_ 1 10; ToClient_ 1 10; ToClient_ 0 9; FromClient 1 1; FromClient 0 2; FromClient 1 2].
Definition script : list (action (CS:=suite)) := setup ++ round0 ++ round1.
Definition sF : system (CS:=suite) := default s0 (acts inp script s0).

Lemma s0_created : created s0.
Proof.
  split; cbn [s0 sy_relay sy_clients sy_trustees].
  - exists (fp_of 13), 0, true, [], RelayDemo.start. split; [exact RelayDemo.start_new | reflexivity].
  - constructor; [|constructor; [|constructor]].
    + exists (fp_of 3), 0, 0, false, true, [], false, "", (client 3). split; reflexivity.
    + exists (fp_of 77), 0, 0, false, true, [], false, "", (client 77). split; reflexivity.
  - constructor; [|constructor]. exists (fp_of 5), false, false, 0, trustee. split; reflexivity.
Qed.

Lemma sF_reached : sreach s0 sF.
Proof.
  assert (bool_decide (is_Some (acts inp script s0)) = true) as H by (vm_compute; reflexivity).
  apply bool_decide_eq_true in H as [s H]. unfold sF. rewrite H. by apply (acts_reach inp script).
Qed.

Abbreviation stF := (relayState (sy_relay sF).1).
Lemma sF_parameters :
  (r_PayloadSize stF = 4 ∧ r_EquivocationProtectionEnabled stF = false)
  ∧ (r_ForceDisruptionSinceRound3 stF = false ∧ r_DisruptionProtectionEnabled stF = false)
  ∧ length (sy_trustees sF) = 1%nat.
Proof. vm_compute. by split_and!. Qed.

Lemma sF_nClients : r_nClients stF = len (sy_clients sF).
Proof. vm_compute. reflexivity. Qed.

Lemma sF_nTrustees : r_nTrustees stF = len (sy_trustees sF).
Proof. vm_compute. reflexivity. Qed.

Lemma sF_two : length (sy_clients sF) = 2%nat.
Proof. vm_compute. reflexivity. Qed.

Lemma sF_slots : (λ w, c_MySlot (clientState w.1)) <$> sy_clients sF = [1; 0].
Proof. vm_compute. reflexivity. Qed.

Lemma sF_client i w : sy_clients sF !! i = Some w → (i < 2)%nat ∧ c_MySlot (clientState w.1) = 1 - Z.of_nat i.
Proof.
  intros Hw. pose proof (f_equal (.!! i) sF_slots) as E. cbn beta in E. rewrite list_lookup_fmap, Hw in E.
  destruct i as [|[|i]]; [| |discriminate E]; injection E as ->; lia.
Qed.

Lemma sF_trustees : (λ c, length (ciphers (tc_trace c))) <$> sy_trustees sF = [2%nat].
Proof. vm_compute. reflexivity. Qed.

Lemma sF_ciphers j c : sy_trustees sF !! j = Some c → len (ciphers (tc_trace c)) ≤ MaxInt32.
Proof.
  intros Hc. pose proof (f_equal (.!! j) sF_trustees) as E. cbn beta in E. rewrite list_lookup_fmap, Hc in E.
  destruct j as [|j]; [|discriminate E]. injection E as E. unfold len. rewrite E. by vm_compute.
Qed.

(** The messages that carry keys *)
Definition carriesKey (e : event suite) : bool :=
  match e with
  | Sent _ (MParameters m) => bool_decide (Forall is_Some (TrusteesPks m))
  | Sent _ (MTellClients m) => match tb_Pks m with Some pks => bool_decide (Forall is_Some pks) | None => true end
  | _ => true
  end.

Lemma sF_complete : complete (sy_relay sF).2.
Proof.
  assert (forallb carriesKey (sy_relay sF).2 = true) as H by (vm_compute; reflexivity).
  rewrite forallb_forall in H. split.
  - intros d m Hm%list_elem_of_In%H. by apply bool_decide_eq_true in Hm.
  - intros d m pks Hm%list_elem_of_In%H E. cbn in Hm. rewrite E in Hm. by apply bool_decide_eq_true in Hm.
Qed.

Definition bases : list (option fp) :=
  omap (λ e, match e with Sent _ (MTellEphPks m) => Some (te_Base m) | _ => None end) (sy_relay sF).2.

Lemma sF_ephemeral : (λ w, c_ephemeralPrivateKey (clientState w.1)) <$> sy_clients sF = [Some (fp_of 11); Some (fp_of 22)].
Proof. vm_compute. reflexivity. Qed.

(** Two places of a list of two *)
Lemma other_of_two {A B} (f : A → option B) l a b i k w v x y :
  f <$> l = [Some a; Some b] → i ≠ k → l !! i = Some w → l !! k = Some v → f w = Some x → f v = Some y →
  (x = a ∧ y = b) ∨ (x = b ∧ y = a).
Proof.
  intros E Hne Hi Hk Hx Hy. destruct l as [|w0 [|w1 [|]]]; try done. injection E as E0 E1.
  destruct i as [|[|i]], k as [|[|k]]; try done; injection Hi as <-; injection Hk as <-;
    rewrite Hx in *; rewrite Hy in *; [left | right]; split; congruence.
Qed.

Lemma sF_apart : ephemeral_apart sF.
Proof.
  assert (forallb (λ b, match b with Some base => negb (fp_val (Point_Mul (fp_of 11) base : @Point suite)
    =? fp_val (Point_Mul (fp_of 22) base : @Point suite)) | None => true end) bases = true) as Hb by (vm_compute; reflexivity).
  rewrite forallb_forall in Hb. intros i k w v x y d m base Hne Hi Hk Hx Hy Hm Hbase.
  assert (Some base ∈ bases) as Hin.
  { unfold bases. rewrite list_elem_of_omap. exists (Sent d (MTellEphPks m)). split; [done|]. by rewrite Hbase. }
  apply list_elem_of_In, Hb, negb_true_iff, Z.eqb_neq in Hin.
  destruct (other_of_two _ _ _ _ i k w v x y sF_ephemeral Hne Hi Hk Hx Hy) as [[-> ->]|[-> ->]];
    clear -Hin; intros E; apply Hin; [by rewrite E | by rewrite <- E].
Qed.

(** What a node holds for a peer *)
Definition clientHolds (i j : nat) : option fp :=
  w ← sy_clients sF !! i; d ← c_DCNet (clientState w.1); mjoin (sharedKeys d !! j).
Definition trusteeHolds (j i : nat) : option fp :=
  c ← sy_trustees sF !! j; d ← t_DCNet (trusteeState (tc_inst c)); mjoin (sharedKeys d !! i).

Lemma sF_joined :
  is_Some (w ← sy_clients sF !! 1%nat; c_DCNet (clientState w.1))
  ∧ is_Some (c ← sy_trustees sF !! 0%nat; t_DCNet (trusteeState (tc_inst c))).
Proof. split; apply (bool_decide_unpack _); vm_compute; exact I. Qed.

Lemma sF_sent c : sy_trustees sF !! 0%nat = Some c → ciphers (tc_trace c) ≠ [].
Proof.
  intros Hc. pose proof (f_equal (.!! 0%nat) sF_trustees) as E. cbn beta in E. rewrite list_lookup_fmap, Hc in E.
  injection E as E. intros H. by rewrite H in E.
Qed.

(** Client 1 and trustee 0 hold the product of their private keys 77 and 5, modulo 251. *)
Lemma key_agreement_witness :
  fp_val (secret sF 1 0) = 134 ∧ clientHolds 1 0 = Some (secret sF 1 0) ∧ trusteeHolds 0 1 = Some (secret sF 1 0).
Proof.
  destruct (@key_agreement suite laws net clock proofs s0 sF s0_created sF_reached sF_nClients sF_nTrustees
    sF_complete sF_apart) as [HC _ _ HT].
  destruct sF_joined as [[d Hd] [e He]]. apply bind_Some in Hd as (w & Hw & Hd). apply bind_Some in He as (c & Hc & He).
  destruct (HC 1%nat w d Hw Hd) as (_ & (_ & _ & _ & Hk) & _).
  destruct (HT 0%nat c e Hc He (sF_ciphers 0 c Hc) (sF_sent c Hc)) as (_ & (_ & _ & _ & Hl) & _).
  split; [vm_compute; reflexivity|].
  split; [unfold clientHolds; rewrite Hw; cbn [mbind option_bind]; rewrite Hd | unfold trusteeHolds; rewrite Hc; cbn [mbind option_bind]; rewrite He];
    cbn [mbind option_bind]; [rewrite Hk, (proj2 (proj2 sF_parameters)) | rewrite Hl, sF_two]; reflexivity.
Defined.

Definition announcements : list (Z * Z) :=
  omap (λ o, match o with Down _ m => Some (dd_RoundID m, dd_OwnershipID m) | Out _ => None end)
    (observe (sy_relay sF).2).

Lemma announced_in d m : Down d m ∈ observe (sy_relay sF).2 → (dd_RoundID m, dd_OwnershipID m) ∈ announcements.
Proof.
  unfold announcements. generalize (observe (sy_relay sF).2). intros os H. rewrite list_elem_of_omap.
  by exists (Down d m).
Qed.

Lemma announcements_are : announcements = [(1, 0); (1, 0); (2, 1); (2, 1)].
Proof. vm_compute. reflexivity. Qed.

(** Both clients answered rounds 0 and 1, and no other. *)
Lemma sF_answers i w : sy_clients sF !! i = Some w → upRounds w.2 = [0; 1].
Proof.
  intros Hw. assert ((λ w, upRounds w.2) <$> sy_clients sF = [[0; 1]; [0; 1]]) as E by (vm_compute; reflexivity).
  apply (f_equal (.!! i)) in E. rewrite list_lookup_fmap, Hw in E.
  destruct i as [|[|i]]; [| |discriminate E]; by injection E.
Qed.

Lemma sent_round (tr : list (event suite)) m :
  Sent ToRelay (MUpstream m) ∈ tr → up_RoundID m ∈ upRounds tr.
Proof. intros H. unfold upRounds. rewrite list_elem_of_omap. by exists (Sent ToRelay (MUpstream m)). Qed.

Lemma sF_answered i w m : sy_clients sF !! i = Some w → Sent ToRelay (MUpstream m) ∈ w.2 →
  up_RoundID m = 0 ∨ up_RoundID m = 1.
Proof.
  intros Hw H%sent_round. rewrite (sF_answers i w Hw), !elem_of_cons, elem_of_nil in H. clear Hw. lia.
Qed.

(** The client of a slot. *)
Lemma sF_owner slot : slot = 0 ∨ slot = 1 →
  ∃ i w, sy_clients sF !! i = Some w ∧ c_MySlot (clientState w.1) = slot ∧ slot = 1 - Z.of_nat i.
Proof.
  intros Hs. assert (Z.to_nat (1 - slot) < length (sy_clients sF))%nat as Hl.
  { rewrite sF_two. lia. }
  destruct (lookup_lt_is_Some_2 _ _ Hl) as [w Hw]. exists (Z.to_nat (1 - slot)), w.
  split; [done|]. destruct (sF_client _ _ Hw) as (_ & ->). lia.
Qed.

(** The second payload is what client 1 encoded for round 1. *)
Lemma system_integrity_witness :
  outs (observe (sy_relay sF).2) = [[0; 0; 0; 0]; [7; 8; 0; 0]] ∧
  ∃ e payload cell plain e', client_of 4 1 (secret sF) 1 e
    ∧ EncodeForRound (CS:=suite) e 1 true payload = Ret (cell, plain, e')
    ∧ [7; 8; 0; 0] = padPayload 4 payload.
Proof.
  assert (outs (observe (sy_relay sF).2) = [[0; 0; 0; 0]; [7; 8; 0; 0]]) as Eo by (vm_compute; reflexivity).
  split; [exact Eo|]. destruct sF_parameters as ((P3 & P4) & (P5 & P6) & Hm).
  destruct (@system_integrity suite laws net clock proofs s0 sF s0_created sF_reached sF_nClients sF_nTrustees P5 sF_ciphers
    sF_complete sF_apart) as (rs & Hs & H).
  rewrite Eo in H. apply Forall2_cons_inv_r in H as (r1 & rs1 & (Hr1 & _) & H & ->).
  apply Forall2_cons_inv_r in H as (r2 & rs2 & (_ & Hcov & H) & _ & ->).
  apply StronglySorted_inv in Hs as [_ Hs]. apply Forall_cons in Hs as [Hlt _].
  destruct Hcov as [->|(d & md & Hd & Er)]; [clear -Hr1 Hlt; lia|].
  pose proof (announced_in d md Hd) as Ha. rewrite announcements_are, !elem_of_cons, elem_of_nil in Ha.
  assert ((dd_RoundID md = 1 ∧ dd_OwnershipID md = 0) ∨ (dd_RoundID md = 2 ∧ dd_OwnershipID md = 1)) as Hmd
    by (clear -Ha; naive_solver).
  destruct (sF_owner (dd_OwnershipID md)) as (i & w & Hi & Hslot & Ei); [clear -Hmd; lia|].
  destruct (H d md i w Hd Er Hi Hslot ltac:(clear -Hmd; lia)) as (e & payload & cell & plain & e' & Hof & Henc & Hsent & _ & Hx).
  pose proof (sF_answered i w _ Hi Hsent) as Hround. cbn [up_RoundID] in Hround.
  assert (r2 = 1 ∧ i = 1%nat) as [-> ->] by (clear -Hround Hmd Er Ei; lia).
  rewrite Hm, P3 in Hof.
  exists e, payload, cell, plain, e'. split; [exact Hof|]. split; [exact Henc|].
  rewrite P3, P4, P6 in Hx. exact Hx.
Defined.
End SystemDemo.
