(* ===== verification/Mobile.v ===== *)
(** * The mobile bindings (prifi-mobile/config.go, prepare.go, utils.go, main.go, network.go)

    On a phone the client is started by the app, which also reads and changes
    its configuration.  The package keeps three configurations in variables,
    each read once from the app's assets, and ONE error variable that the three
    share.  A call reads and writes these variables ([mob]).  Assets, parsers,
    addresses and servers are the environment.

    The service points to the configuration and to the identities of the group:
    a setter that runs after the client was started changes them there too. *)

From stdpp Require Import pretty.
From S2P Require Import Prelude GoStrings Bytes Crypto Messages StateMachine Network Trustee Client Relay Protocol Service Application.

Open Scope Z_scope.

(** app.CothorityConfig of onet *)
Record CothorityConfig := mkCothority {
  co_Suite : string; co_Public : string; co_Private : string;
  co_Address : string; co_ListenAddress : string; co_Description : string
}.
#[export] Instance eta_Cothority : Eta CothorityConfig := λ r,
  mkCothority (co_Suite r) (co_Public r) (co_Private r) (co_Address r) (co_ListenAddress r)
    (co_Description r).

(** What the bindings use of the platform and of onet and kyber.  A nil file is
    [None]; its contents is what reading it gives. *)
Class MobileEnv (CS : CryptoSuite) {O : Onet CS} := {
  asset_Open : string → option (result string) * option string;
  toml_DecodePrifi : string → result PrifiTomlConfig;
  toml_DecodeCothority : string → result CothorityConfig;
  ReadGroupDescToml : result string → result (option (Group CS));
  Address : Type;
  addr_Host : Address → string;
  addr_Port : Address → string;
  addr_String : Address → string;
  addr_Valid : Address → bool;
  NewAddress : string → Address;                 (* of type PlainTCP *)
  si_Addr : ServerIdentity → Address;
  si_setAddr : ServerIdentity → Address → ServerIdentity;
  suites_Find : string → result unit;
  StringHexToScalar : string → result Scalar;
  StringHexToPoint : string → result Point;
  ScalarToStringHex : Scalar → result string;
  PointToStringHex : Point → result string;
  NewServer : Point → Scalar → CothorityConfig → ServerIdentity;
  http_Get : option string → Z → string → result (Z * Z) (* status code, size of the body *)
}.

(** The address of a server is a field; an address made of a host and a port has
    these. *)
Class MobileLaws (CS : CryptoSuite) {O : Onet CS} {ME : MobileEnv CS} := {
  si_setAddr_get : ∀ si a, si_Addr (si_setAddr si a) = a;
  NewAddress_parts : ∀ h p, addr_Valid (NewAddress (h +:+ ":" +:+ p)) = true →
    addr_Host (NewAddress (h +:+ ":" +:+ p)) = h ∧ addr_Port (NewAddress (h +:+ ":" +:+ p)) = p
}.

Section mobile.
Context {CS : CryptoSuite} {CK : Clock CS} {PS : ProofSystem CS} {O : Onet CS} {ME : MobileEnv CS}.

(** ** The variables of the package *)

Record Mobile := mkMobile {
  m_prifiConfigSingleton : option PrifiTomlConfig;
  m_cothorityConfigSingleton : option CothorityConfig;
  m_groupConfigSingleton : option (Group CS);
  m_onceClient : bool;
  m_onceCothority : bool;
  m_onceGroup : bool;
  m_globalErr : option string;
  m_globalHost : option ServerIdentity;
  m_globalService : option (ServiceState * list serviceEvent)
}.
#[export] Instance eta_Mobile : Eta Mobile := λ r,
  mkMobile (m_prifiConfigSingleton r) (m_cothorityConfigSingleton r) (m_groupConfigSingleton r)
    (m_onceClient r) (m_onceCothority r) (m_onceGroup r) (m_globalErr r) (m_globalHost r)
    (m_globalService r).

Definition unstarted : Mobile := mkMobile None None None false false false None None None.

Definition mob (A : Type) : Type := Mobile → go (A * Mobile).
#[export] Instance mob_ret : MRet mob := λ A a m, Ret (a, m).
#[export] Instance mob_bind : MBind mob := λ A B f x m,
  match x m with Ret (a, m) => f a m | Crash c => Crash c end.
Definition mLift {A} (x : go A) : mob A := λ m,
  match x with Ret a => Ret (a, m) | Crash c => Crash c end.
Definition mGet : mob Mobile := λ m, Ret (m, m).
Definition mSet (f : Mobile → Mobile) : mob unit := λ m, Ret (tt, f m).

(** ** config.go *)

Definition prifiConfigFilename : string := "prifi.toml".
Definition cothorityConfigFilename : string := "identity.toml".
Definition cothorityGroupConfigFilename : string := "group.toml".

(** func readTomlFromAssets.  [defer file.Close()] comes before the test of the
    error: on a nil file it is a nil dereference. *)
Definition readTomlFromAssets (filename : string) : go (result string) :=
  let '(file, err) := asset_Open filename in
  contents ← nonNil file;
  Ret (match err with Some e => Err e | None => contents end).

(** func initPrifiConfig, initCothorityConfig *)
Definition initPrifiConfig : go (result PrifiTomlConfig) :=
  text ← readTomlFromAssets prifiConfigFilename;
  Ret (match text with Err e => Err e | Ok text => toml_DecodePrifi text end).
Definition initCothorityConfig : go (result CothorityConfig) :=
  text ← readTomlFromAssets cothorityConfigFilename;
  Ret (match text with Err e => Err e | Ok text => toml_DecodeCothority text end).

(** func initCothorityGroupConfig: the group and the error.  The error of opening
    the file is overwritten; a group without servers is nil without an error. *)
Definition initCothorityGroupConfig : go (option (Group CS) * option string) :=
  let '(file, _) := asset_Open cothorityGroupConfigFilename in
  contents ← nonNil file;
  Ret (match ReadGroupDescToml contents with
       | Err e => (None, Some e)
       | Ok (Some (mkGroup (Some (_ :: _))) as group) => (group, None)
       | Ok _ => (None, None)
       end).

Definition valueOf {A} (r : result A) : option A := match r with Ok a => Some a | Err _ => None end.
Definition errorOf {A} (r : result A) : option string := match r with Ok _ => None | Err e => Some e end.

(** func getPrifiConfig, getCothorityConfig, getGroupConfig *)
Definition getPrifiConfig : mob (option PrifiTomlConfig * option string) :=
  m ← mGet;
  _ ← (if m_onceClient m then mret tt else
       r ← mLift initPrifiConfig;
       mSet (λ m, m <| m_onceClient := true |> <| m_prifiConfigSingleton := valueOf r |>
                    <| m_globalErr := errorOf r |>));
  m ← mGet; mret (m_prifiConfigSingleton m, m_globalErr m).
Definition getCothorityConfig : mob (option CothorityConfig * option string) :=
  m ← mGet;
  _ ← (if m_onceCothority m then mret tt else
       r ← mLift initCothorityConfig;
       mSet (λ m, m <| m_onceCothority := true |> <| m_cothorityConfigSingleton := valueOf r |>
                    <| m_globalErr := errorOf r |>));
  m ← mGet; mret (m_cothorityConfigSingleton m, m_globalErr m).
Definition getGroupConfig : mob (option (Group CS) * option string) :=
  m ← mGet;
  _ ← (if m_onceGroup m then mret tt else
       '(group, err) ← mLift initCothorityGroupConfig;
       mSet (λ m, m <| m_onceGroup := true |> <| m_groupConfigSingleton := group |>
                    <| m_globalErr := err |>));
  m ← mGet; mret (m_groupConfigSingleton m, m_globalErr m).

(** ** Writing through the pointers *)

Definition updatePrifi (f : PrifiTomlConfig → PrifiTomlConfig) : mob unit :=
  mSet (λ m, m <| m_prifiConfigSingleton := f <$> m_prifiConfigSingleton m |>
               <| m_globalService := (λ '(s, tr), (s <| s_prifiTomlConfig := f <$> s_prifiTomlConfig s |>, tr))
                                       <$> m_globalService m |>).
Definition updateCothority (f : CothorityConfig → CothorityConfig) : mob unit :=
  mSet (λ m, m <| m_cothorityConfigSingleton := f <$> m_cothorityConfigSingleton m |>).
(** The identities the service knows are those of the group. *)
Definition updateGroup (g : Group CS) : mob unit :=
  mSet (λ m, m <| m_groupConfigSingleton := Some g |>
               <| m_globalService :=
                    (λ '(s, tr), let '(relay, trustees) := mapIdentities (default [] (g_Roster g)) in
                       (s <| s_relayIdentity := relay |> <| s_trusteeIDs := trustees |>, tr))
                    <$> m_globalService m |>).

(** ** utils.go *)

Definition relayIndex : Z := 0.
Definition separatorHostPort : string := ":".

(** [c.Roster.Get(relayIndex)] *)
Definition theRelay (c : option (Group CS)) : go (Group CS * list (ServerIdentity * string) * ServerIdentity) :=
  g ← nonNil c; l ← nonNil (g_Roster g);
  match l with (si, _) :: _ => Ret (g, l, si) | [] => Crash RuntimeError end.

(** func GetPrifiPort *)
Definition GetPrifiPort : mob (Z * option string) :=
  '(c, err) ← getPrifiConfig;
  match err with
  | Some _ => mret (0, err)
  | None => c ← mLift (nonNil c); mret (tm_SocksServerPort c, None)
  end.

(** func GetRelayAddress, GetRelayPort: the configuration is used before the
    error is returned *)
Definition GetRelayAddress : mob (string * option string) :=
  '(c, err) ← getGroupConfig;
  '(_, _, si) ← mLift (theRelay c);
  mret (addr_Host (si_Addr si), err).
Definition GetRelayPort : mob (Z * option string) :=
  '(c, err) ← getGroupConfig;
  '(_, _, si) ← mLift (theRelay c);
  mret ((Atoi (addr_Port (si_Addr si))).1, err).

(** [c.Roster.Get(relayIndex).Address = fullAddress] if it is valid *)
Definition setRelay (c : option (Group CS)) (host port : string) : mob (option string) :=
  '(g, l, si) ← mLift (theRelay c);
  let fullAddress := NewAddress (host +:+ separatorHostPort +:+ port) in
  if addr_Valid fullAddress then
    _ ← updateGroup (mkGroup (Some (match l with
          | (si, d) :: l => (si_setAddr si fullAddress, d) :: l | [] => [] end)));
    mret None
  else mret (Some "not a host:port address").

(** func SetRelayAddress, SetRelayPort *)
Definition SetRelayAddress (host : string) : mob (option string) :=
  '(c, err) ← getGroupConfig;
  match err with
  | Some _ => mret err
  | None => '(_, _, si) ← mLift (theRelay c); setRelay c host (addr_Port (si_Addr si))
  end.
Definition SetRelayPort (port : Z) : mob (option string) :=
  '(c, err) ← getGroupConfig;
  match err with
  | Some _ => mret err
  | None => '(_, _, si) ← mLift (theRelay c); setRelay c (addr_Host (si_Addr si)) (pretty port)
  end.

(** func GetRelaySocksPort, SetRelaySocksPort *)
Definition GetRelaySocksPort : mob (Z * option string) :=
  '(c, err) ← getPrifiConfig; c ← mLift (nonNil c); mret (tm_SocksClientPort c, err).
Definition SetRelaySocksPort (port : Z) : mob (option string) :=
  '(c, err) ← getPrifiConfig;
  match err with
  | Some _ => mret err
  | None => _ ← mLift (nonNil c); _ ← updatePrifi (λ c, c <| tm_SocksClientPort := port |>); mret None
  end.

(** func GetPublicKey, SetPublicKey, GetPrivateKey, SetPrivateKey *)
Definition GetPublicKey : mob (string * option string) :=
  '(c, err) ← getCothorityConfig; c ← mLift (nonNil c); mret (co_Public c, err).
Definition SetPublicKey (pubKey : string) : mob (option string) :=
  '(c, err) ← getCothorityConfig;
  match err with
  | Some _ => mret err
  | None => _ ← mLift (nonNil c); _ ← updateCothority (λ c, c <| co_Public := pubKey |>); mret None
  end.
Definition GetPrivateKey : mob (string * option string) :=
  '(c, err) ← getCothorityConfig; c ← mLift (nonNil c); mret (co_Private c, err).
Definition SetPrivateKey (priKey : string) : mob (option string) :=
  '(c, err) ← getCothorityConfig;
  match err with
  | Some _ => mret err
  | None => _ ← mLift (nonNil c); _ ← updateCothority (λ c, c <| co_Private := priKey |>); mret None
  end.

(** func GenerateNewKeyPairAndAssign, with the pair that was drawn *)
Definition GenerateNewKeyPairAndAssign (kp : Scalar * Point) : mob (option string) :=
  match suites_Find "Ed25519" with
  | Err e => mLift (Crash (Panicked e))
  | Ok _ =>
    match ScalarToStringHex kp.1 with
    | Err e => mret (Some e)
    | Ok priStr =>
      match PointToStringHex kp.2 with
      | Err e => mret (Some e)
      | Ok pubStr =>
        err ← SetPublicKey pubStr;
        match err with Some _ => mret err | None =>
        err ← SetPrivateKey priStr;
        match err with Some _ => mret err | None => mret None end end
      end
    end
  end.

(** func getFullAddress *)
Definition getFullAddress : mob string :=
  '(c, _) ← getGroupConfig; '(_, _, si) ← mLift (theRelay c); mret (addr_String (si_Addr si)).

(** ** prepare.go *)

(** func parsePrifi, parseCothority, parseGroup *)
Definition parsePrifi : mob (option PrifiTomlConfig * option string) :=
  '(c, err) ← getPrifiConfig;
  match err with
  | Some _ => mret (None, err)
  | None => c ← mLift (nonNil c); mret (Some c, None)
  end.
Definition parseCothority : mob (option ServerIdentity * option string) :=
  '(c, err) ← getCothorityConfig;
  match err with Some _ => mret (None, err) | None =>
  c ← mLift (nonNil c);
  let suite := if String.eqb (co_Suite c) "" then "Ed25519" else co_Suite c in
  _ ← updateCothority (λ c, c <| co_Suite := suite |>);
  match suites_Find suite with Err e => mret (None, Some e) | Ok _ =>
  match StringHexToScalar (co_Private c) with Err e => mret (None, Some e) | Ok secret =>
  match StringHexToPoint (co_Public c) with Err e => mret (None, Some e) | Ok point =>
  mret (Some (NewServer point secret (c <| co_Suite := suite |>)), None)
  end end end end.
Definition parseGroup : mob (option (Group CS) * option string) :=
  '(c, err) ← getGroupConfig;
  match err with Some _ => mret (None, err) | None => mret (c, None) end.

(** func startCothorityNode; the version is written after the service got the
    configuration, into the same object *)
Definition m_startCothorityNode
    : mob (option ServerIdentity * option (Group CS) * option ServiceState * option string) :=
  '(prifiConfig, err) ← parsePrifi;
  match err with Some _ => mret (None, None, None, err) | None =>
  '(host, err) ← parseCothority;
  match err with Some _ => mret (None, None, None, err) | None =>
  '(group, err) ← parseGroup;
  match err with Some _ => mret (None, None, None, err) | None =>
  toml ← mLift (nonNil prifiConfig);
  _ ← updatePrifi (λ c, c <| tm_ProtocolVersion := "v1" |>);
  mret (host, group, Some (newService (toml <| tm_ProtocolVersion := "v1" |>) false), None)
  end end end.

(** ** main.go *)

(** func run: up to the point where the server serves; [None] is no error *)
Definition run : mob (option string) :=
  '(host, group, service, err) ← m_startCothorityNode;
  _ ← mSet (λ m, m <| m_globalHost := host |> <| m_globalService := (λ s, (s, [])) <$> service |>);
  match err with Some _ => mret err | None =>
  group ← mLift (groupOf group);
  service ← mLift (nonNil service);
  '(_, w) ← mLift (StartClient group (service, []));
  _ ← mSet (λ m, m <| m_globalService := Some w |>);
  mret None end.

(** func StartClient: what the select does when run returned an error and when
    StopClient was called *)
Inductive clientSignal := RunReturned (err : option string) | Stopped.
Definition m_StartClient_select (sig : clientSignal) : mob unit :=
  match sig with
  | RunReturned _ => mret tt
  | Stopped =>
    m ← mGet;
    _ ← mLift (nonNil (m_globalHost m));
    w ← mLift (nonNil (m_globalService m));
    '(_, w) ← mLift (ShutdownSocks w);
    mSet (λ m, m <| m_globalService := Some w |>)
  end.

(** ** network.go *)

(** type HTTPRequestResult *)
Record HTTPRequestResult := mkHTTPResult { Latency : Z; StatusCode : Z; BodySize : Z }.
Definition NewHTTPRequestResult : HTTPRequestResult := mkHTTPResult 0 0 0.

(** func (result) RetrieveHTTPResponseThroughPrifi; [elapsed] is the time the
    request took.  The port is looked up even when PriFi is not used. *)
Definition RetrieveHTTPResponseThroughPrifi (elapsed : Z) (result : HTTPRequestResult)
    (targetURLString : string) (timeout : Z) (throughPrifi : bool)
    : mob (HTTPRequestResult * option string) :=
  '(prifiPort, err) ← GetPrifiPort;
  match err with Some _ => mret (result, err) | None =>
  let proxyURL := "socks5://127.0.0.1:" +:+ pretty prifiPort in
  match http_Get (if throughPrifi then Some proxyURL else None) timeout targetURLString with
  | Err e => mret (result, Some e)
  | Ok (status, size) => mret (mkHTTPResult elapsed status size, None)
  end end.

(** ** The shared error variable *)

Lemma m_run_bind {A B} (x : mob A) (f : A → mob B) m :
  (x ≫= f) m = match x m with Ret (a, m) => f a m | Crash c => Crash c end.
Proof. done. Qed.

Lemma mob_bind_inv {A B} (x : mob A) (f : A → mob B) m b m' :
  (x ≫= f) m = Ret (b, m') → ∃ a m1, x m = Ret (a, m1) ∧ f a m1 = Ret (b, m').
Proof. rewrite m_run_bind. destruct (x m) as [[a m1]|]; [eauto | done]. Qed.

(** The app reads prifi.toml and then the group.  What GetPrifiPort answers
    afterwards depends on the outcome of reading the GROUP: if that failed, its
    error is reported although prifi.toml may be fine; if it succeeded and
    prifi.toml had failed, the error is forgotten and the app crashes. *)
Theorem mobile_error_is_shared (prifi : result PrifiTomlConfig) (group : option (Group CS))
    (groupErr : option string) :
  initPrifiConfig = Ret prifi → initCothorityGroupConfig = Ret (group, groupErr) →
  ∃ m, (_ ← getPrifiConfig; getGroupConfig) unstarted = Ret ((group, groupErr), m)
  ∧ GetPrifiPort m
    = match groupErr, prifi with
      | Some e, _ => Ret ((0, Some e), m)
      | None, Ok c => Ret ((tm_SocksServerPort c, None), m)
      | None, Err _ => Crash RuntimeError
      end.
Proof.
  intros Hp Hg. eexists. split.
  - unfold getPrifiConfig, getGroupConfig. rewrite !m_run_bind. cbn [mGet unstarted m_onceClient].
    rewrite !m_run_bind. unfold mLift. rewrite Hp. cbn -[mbind initCothorityGroupConfig].
    rewrite !m_run_bind. cbn -[mbind initCothorityGroupConfig]. rewrite !m_run_bind.
    unfold mLift. rewrite Hg. cbn. reflexivity.
  - unfold GetPrifiPort, getPrifiConfig. rewrite !m_run_bind. cbn.
    destruct groupErr; [done|]. by destruct prifi.
Qed.

(** ** Changing the relay's address *)

Section endpoint.
Context {ML : MobileLaws CS}.

(** The group has been read. *)
Definition group_loaded (g : Group CS) (m : Mobile) : Prop :=
  m_onceGroup m = true ∧ m_globalErr m = None ∧ m_groupConfigSingleton m = Some g.

Lemma getGroup_loaded g m : group_loaded g m → getGroupConfig m = Ret ((Some g, None), m).
Proof.
  intros (Ho & He & Hg). unfold getGroupConfig. rewrite m_run_bind. cbn [mGet]. rewrite Ho.
  rewrite m_run_bind. cbn [mret mob_ret]. rewrite m_run_bind. cbn [mGet]. by rewrite Hg, He.
Qed.

(** The state after the address of the first server was replaced *)
Definition withRelay (si : ServerIdentity) (d : string) (l : list (ServerIdentity * string)) (a : Address)
    (m : Mobile) : Mobile :=
  match updateGroup (mkGroup (Some ((si_setAddr si a, d) :: l))) m with
  | Ret (_, m') => m' | Crash _ => m
  end.

Lemma withRelay_loaded g si d l a m :
  group_loaded g m → group_loaded (mkGroup (Some ((si_setAddr si a, d) :: l))) (withRelay si d l a m).
Proof. intros (Ho & He & _). by split_and!. Qed.

Lemma setRelay_loaded si d l host port m :
  addr_Valid (NewAddress (host +:+ ":" +:+ port)) = true →
  setRelay (Some (mkGroup (Some ((si, d) :: l)))) host port m
  = Ret (None, withRelay si d l (NewAddress (host +:+ ":" +:+ port)) m).
Proof.
  intros Hv. unfold setRelay, separatorHostPort. rewrite m_run_bind.
  cbn [theRelay mLift nonNil mbind go_bind g_Roster]. by rewrite Hv.
Qed.

(** Setting the relay's host and then its port, each to a valid address,
    succeeds, and both are read back; the change reaches the identities of a
    client that has been started already, and nothing else changes. *)
Theorem relay_endpoint_roundtrip si d l host port m :
  group_loaded (mkGroup (Some ((si, d) :: l))) m → MinInt64 ≤ port ≤ MaxInt64 →
  addr_Valid (NewAddress (host +:+ ":" +:+ addr_Port (si_Addr si))) = true →
  addr_Valid (NewAddress (host +:+ ":" +:+ pretty port)) = true →
  ∃ m1 m2 si', SetRelayAddress host m = Ret (None, m1) ∧ SetRelayPort port m1 = Ret (None, m2)
  ∧ GetRelayAddress m2 = Ret ((host, None), m2) ∧ GetRelayPort m2 = Ret ((port, None), m2)
  ∧ m_groupConfigSingleton m2 = Some (mkGroup (Some ((si', d) :: l)))
  ∧ (∀ s tr, m_globalService m = Some (s, tr) → ∃ s', m_globalService m2 = Some (s', tr)
       ∧ s_relayIdentity s' = (mapIdentities ((si', d) :: l)).1)
  ∧ m_prifiConfigSingleton m2 = m_prifiConfigSingleton m
  ∧ m_cothorityConfigSingleton m2 = m_cothorityConfigSingleton m.
Proof.
  intros Hg Hp Hv1 Hv2.
  destruct (NewAddress_parts _ _ Hv1) as [Hh1 _], (NewAddress_parts _ _ Hv2) as [Hh2 Hp2].
  set (a1 := NewAddress (host +:+ ":" +:+ addr_Port (si_Addr si))) in *.
  set (a2 := NewAddress (host +:+ ":" +:+ pretty port)) in *.
  set (si1 := si_setAddr si a1). set (m1 := withRelay si d l a1 m).
  pose proof (withRelay_loaded _ si d l a1 _ Hg) as Hg1. fold si1 m1 in Hg1.
  pose proof (withRelay_loaded _ si1 d l a2 _ Hg1) as Hg2.
  exists m1, (withRelay si1 d l a2 m1), (si_setAddr si1 a2). split_and!.
  - unfold SetRelayAddress. rewrite m_run_bind, (getGroup_loaded _ _ Hg). rewrite m_run_bind.
    cbn [theRelay mLift nonNil mbind go_bind g_Roster]. by apply setRelay_loaded.
  - unfold SetRelayPort. rewrite m_run_bind, (getGroup_loaded _ _ Hg1). rewrite m_run_bind.
    cbn [theRelay mLift nonNil mbind go_bind g_Roster]. unfold si1 at 2.
    rewrite si_setAddr_get, Hh1. by apply setRelay_loaded.
  - unfold GetRelayAddress. rewrite m_run_bind, (getGroup_loaded _ _ Hg2). rewrite m_run_bind.
    cbn [theRelay mLift nonNil mbind go_bind g_Roster]. by rewrite si_setAddr_get, Hh2.
  - unfold GetRelayPort. rewrite m_run_bind, (getGroup_loaded _ _ Hg2). rewrite m_run_bind.
    cbn [theRelay mLift nonNil mbind go_bind g_Roster]. by rewrite si_setAddr_get, Hp2, Atoi_Itoa.
  - done.
  - intros s tr Hs. unfold withRelay, m1. cbn -[mapIdentities]. rewrite Hs. cbn -[mapIdentities].
    destruct (mapIdentities ((si_setAddr si a1, d) :: l)). cbn -[mapIdentities].
    destruct (mapIdentities ((si_setAddr si1 a2, d) :: l)). by eexists.
  - done.
  - done.
Qed.
End endpoint.

(** ** Starting the client *)

(** A client that was started announces version v1. *)
Lemma mobile_run_version m m' :
  run m = Ret (None, m') →
  ∃ s tr toml, m_globalService m' = Some (s, tr) ∧ s_prifiTomlConfig s = Some toml
  ∧ tm_ProtocolVersion toml = "v1"%string ∧ s_PriFiSDAProtocol s = None.
Proof.
  unfold run, m_startCothorityNode. intros H.
  apply mob_bind_inv in H as ([[[host group] service] err] & m1 & H1 & H).
  assert (err = None → ∃ toml, service = Some (newService (toml <| tm_ProtocolVersion := "v1" |>) false))
    as Hs.
  { intros ->. apply mob_bind_inv in H1 as ([prifi [e|]] & m2 & _ & H1); [done|].
    apply mob_bind_inv in H1 as ([co [e|]] & m3 & _ & H1); [done|].
    apply mob_bind_inv in H1 as ([g [e|]] & m4 & _ & H1); [done|].
    apply mob_bind_inv in H1 as (toml & m5 & _ & H1).
    apply mob_bind_inv in H1 as ([] & m6 & _ & H1). injection H1 as _ _ <- _. by exists toml. }
  apply mob_bind_inv in H as ([] & m2 & _ & H). destruct err as [e|]; [done|].
  destruct (Hs eq_refl) as [toml ->]. clear Hs.
  apply mob_bind_inv in H as (l & m3 & _ & H). apply mob_bind_inv in H as (s0 & m4 & Hn & H).
  injection Hn as <- <-. apply mob_bind_inv in H as ([u [s tr]] & m5 & Hc & H).
  unfold mLift in Hc.
  destruct (StartClient l (newService toml <| tm_ProtocolVersion := "v1" |> false, [])) as [[? w]|] eqn:Ec;
    [|done]. injection Hc as <- -> <-.
  injection H as <-. exists s, tr, (toml <| tm_ProtocolVersion := "v1" |>). split; [done|].
  split_and!; [|done|].
  - by apply (StartClient_keeps s_prifiTomlConfig) in Ec.
  - by apply (StartClient_keeps s_PriFiSDAProtocol) in Ec.
Qed.

(** Such a client makes a relay that wants equal versions on all nodes exit. *)
Lemma mobile_client_and_relay {E : Environment CS} (Range : nat → gmap string waitQueueEntry → list (string * waitQueueEntry))
    m m' c relay v relayID x from :
  run m = Ret (None, m') → startRelay c = Ret relay → nodeVersion c = Ret v →
  ∃ s tr, m_globalService m' = Some (s, tr)
  ∧ connectToRelayTick relayID (s, tr) = Ret (tt, (s, tr ++ [RawSent relayID (ConnectionRequest "v1")]))
  ∧ (v ≠ "v1" → HandleConnection Range x from "v1" (n_service relay)
                = Crash (Fatal "Different CommitID between relay and ")).
Proof.
  intros Hm Hr Hv. destruct (mobile_run_version _ _ Hm) as (s & tr & toml & Hs & Ht & <- & Hp).
  exists s, tr. split; [done|]. split.
  - unfold connectToRelayTick, sendConnectionRequest, IsPriFiProtocolRunning.
    rewrite s_run_bind. cbn [sGet fst]. rewrite Hp. cbn [negb].
    rewrite !s_run_bind. cbn [sGet fst]. rewrite s_run_bind. unfold sLift. by rewrite Ht.
  - intros Hn. apply (started_relay _ _ v) in Hr; [|done]. destruct (n_service relay) as [s1 tr1].
    rewrite (relay_first_connection Range _ _ _ _ _ _ _ Hr). by rewrite decide_False.
Qed.

(** ** Keys *)

Definition cothority_loaded (co : CothorityConfig) (m : Mobile) : Prop :=
  m_onceCothority m = true ∧ m_globalErr m = None ∧ m_cothorityConfigSingleton m = Some co.

Lemma getCothority_loaded co m : cothority_loaded co m → getCothorityConfig m = Ret ((Some co, None), m).
Proof.
  intros (Ho & He & Hc). unfold getCothorityConfig. rewrite m_run_bind. cbn [mGet]. rewrite Ho.
  rewrite m_run_bind. cbn [mret mob_ret]. rewrite m_run_bind. cbn [mGet]. by rewrite Hc, He.
Qed.

Lemma SetPublicKey_loaded k co m :
  cothority_loaded co m →
  SetPublicKey k m = Ret (None, m <| m_cothorityConfigSingleton := Some (co <| co_Public := k |>) |>).
Proof.
  intros Hc. unfold SetPublicKey. rewrite m_run_bind, (getCothority_loaded _ _ Hc). rewrite m_run_bind.
  cbn [mLift nonNil]. rewrite m_run_bind. cbn [updateCothority mSet]. destruct Hc as (_ & _ & ->). done.
Qed.

Lemma SetPrivateKey_loaded k co m :
  cothority_loaded co m →
  SetPrivateKey k m = Ret (None, m <| m_cothorityConfigSingleton := Some (co <| co_Private := k |>) |>).
Proof.
  intros Hc. unfold SetPrivateKey. rewrite m_run_bind, (getCothority_loaded _ _ Hc). rewrite m_run_bind.
  cbn [mLift nonNil]. rewrite m_run_bind. cbn [updateCothority mSet]. destruct Hc as (_ & _ & ->). done.
Qed.

(** Both halves of a new key pair are assigned, or none. *)
Lemma keys_assigned kp co m priStr pubStr :
  cothority_loaded co m → suites_Find "Ed25519" = Ok tt →
  ScalarToStringHex kp.1 = Ok priStr → PointToStringHex kp.2 = Ok pubStr →
  ∃ m', GenerateNewKeyPairAndAssign kp m = Ret (None, m')
  ∧ GetPublicKey m' = Ret ((pubStr, None), m') ∧ GetPrivateKey m' = Ret ((priStr, None), m').
Proof.
  intros Hc Hs Hpri Hpub. unfold GenerateNewKeyPairAndAssign. rewrite Hs, Hpri, Hpub.
  set (m1 := m <| m_cothorityConfigSingleton := Some (co <| co_Public := pubStr |>) |>).
  set (m2 := m1 <| m_cothorityConfigSingleton :=
               Some (co <| co_Public := pubStr |> <| co_Private := priStr |>) |>).
  assert (cothority_loaded (co <| co_Public := pubStr |>) m1) as H1 by (destruct Hc as (? & ? & ?); by split_and!).
  assert (cothority_loaded (co <| co_Public := pubStr |> <| co_Private := priStr |>) m2) as H2
    by (destruct Hc as (? & ? & ?); by split_and!).
  exists m2. split_and!.
  - rewrite m_run_bind, (SetPublicKey_loaded _ _ _ Hc). fold m1. cbv beta iota.
    by rewrite m_run_bind, (SetPrivateKey_loaded _ _ _ H1).
  - unfold GetPublicKey. rewrite m_run_bind, (getCothority_loaded _ _ H2). by rewrite !m_run_bind.
  - unfold GetPrivateKey. rewrite m_run_bind, (getCothority_loaded _ _ H2). by rewrite !m_run_bind.
Qed.
End mobile.

Arguments Mobile CS {O}.
