(* ===== verification/Simulation.v ===== *)
(** * Experiments (sda/simulation/simulation_manual.go, prifi.go)

    An experiment runs one relay, [NTrustees] trustees and clients on the hosts
    of a file.  CreateRoster gives every participant an address and a key pair;
    Node starts each of them in its role; Run waits for the participants, starts
    the protocol on the relay, and reports the result.  onet's simulation
    framework, the files, the regular expressions and the ports the system hands
    out are the environment. *)

From Stdlib Require Import Ascii.
From stdpp Require Import pretty.
From S2P Require Import Prelude GoStrings Bytes Crypto Messages StateMachine Network Trustee Client Relay Protocol Service Application.

Open Scope Z_scope.

(** type SimulationManualAssignment *)
Record SimulationManualAssignment := mkManual {
  sm_Rounds : Z; sm_BF : Z; sm_Hosts : Z; sm_SingleHost : bool; sm_Depth : Z; sm_Suite : string
}.

(** type HostMapping; HostsMappingToml is a list of them *)
Record HostMapping := mkMapping { hm_ID : Z; hm_IP : string }.

Definition HostsMappingFile : string := "hosts_mapping.toml".
Definition FILE_SIMULATION_ID : string := ".simID".

Class SimEnv (CS : CryptoSuite) {O : Onet CS} := {
  sim_Open : string → result string;
  toml_DecodeHosts : string → result (list HostMapping);
  suites_Known : string → bool;
  NewTCPAddress : string → string;
  NewServerIdentity : Point → string → ServerIdentity;
  si_ID : ServerIdentity → string;
  Point_Add : Point → Point → Point;
  Scalar_Equal : Scalar → Scalar → bool;
  Tree : Type;
  GenerateBigNaryTree : list ServerIdentity → Z → Z → Tree;
  (* MatchString of the compiled pattern; None: it does not compile *)
  regexp_Match : string → string → option bool;
  sha1_base64 : string → string
}.

(** What the libraries document of addresses, identities and the group *)
Class SimLaws (CS : CryptoSuite) {O : Onet CS} {SE : SimEnv CS} := {
  NewTCPAddress_inj : ∀ a b, NewTCPAddress a = NewTCPAddress b → a = b;
  NewServerIdentity_address : ∀ p a, si_Address (NewServerIdentity p a) = a;
  Point_Add_Mul : ∀ a b P, Point_Add (Point_Mul a P) (Point_Mul b P) = Point_Mul (Scalar_Add a b) P;
  Point_Mul_One : ∀ P, Point_Mul Scalar_One P = P;
  Scalar_Equal_next : ∀ k, Scalar_Equal k (Scalar_Add k Scalar_One) = false
}.

Section simulation.
Context {CS : CryptoSuite} {CK : Clock CS} {PS : ProofSystem CS} {O : Onet CS} {SE : SimEnv CS}.

(** onet.SimulationConfig, as far as it is filled here *)
Record SimulationConfig := mkSimConfig {
  sc_PrivateKeys : gmap string Scalar;
  sc_Roster : option (list ServerIdentity);
  sc_Tree : option Tree
}.
#[export] Instance eta_SimConfig : Eta SimulationConfig := λ r,
  mkSimConfig (sc_PrivateKeys r) (sc_Roster r) (sc_Tree r).

(** ** simulation_manual.go *)

(** func decodeHostsMapping *)
Definition decodeHostsMapping (filePath : string) : result (list HostMapping) :=
  match sim_Open filePath with
  | Err _ => Err "Could not read file"
  | Ok text => toml_DecodeHosts text
  end.

(** [portsMapping[hostMapping.IP] = port] for every host *)
Definition preparePorts (mapping : list HostMapping) (port : Z) : gmap string Z :=
  foldl (λ m h, <[hm_IP h := port]> m) ∅ mapping.

(** The last host of the file with this number; "" when there is none *)
Definition addressOf (mapping : list HostMapping) (c : Z) : string :=
  foldl (λ address h, if hm_ID h =? c then hm_IP h else address) EmptyString mapping.

(** The search for a free port: what net.Listen on ":0" gives, and whether the
    next port is free too *)
Fixpoint findPort (attempts : list (result (Z * bool))) : go Z :=
  match attempts with
  | [] => Crash Diverges
  | Err _ :: _ => Crash (Fatal "Couldn't search for empty port:")
  | Ok (port, nextFree) :: attempts =>
    let port := if nextFree : bool then port else 0 in
    if port =? 0 then findPort attempts else Ret port
  end.

(** What the loop of CreateRoster carries: the key pair, the next free port of
    every host, the identities so far and the private keys by address *)
Record rosterVars := mkRosterVars {
  rv_Private : Scalar;
  rv_Public : Point;
  rv_portsMapping : gmap string Z;
  rv_entities : list ServerIdentity;
  rv_PrivateKeys : gmap string Scalar
}.

(** One iteration *)
Definition rosterStep (localhosts : bool) (listen : Z → list (result (Z * bool)))
    (mapping : list HostMapping) (v : rosterVars) (c : Z) : go rosterVars :=
  let Private := Scalar_Add (rv_Private v) Scalar_One in
  let Public := Point_Add (rv_Public v) Point_Base in
  let address := addressOf mapping c in
  if String.eqb address "" then Crash (Fatal "Host index not specified in hosts_mapping.toml") else
  '(port, portsMapping) ←
    (if localhosts then port ← findPort (listen c); Ret (port, rv_portsMapping v)
     else let nextFreePort := default 0 (rv_portsMapping v !! address) in
          Ret (nextFreePort, <[address := nextFreePort + 2]> (rv_portsMapping v)));
  let entity := NewServerIdentity Public (NewTCPAddress (address +:+ ":" +:+ pretty port)) in
  Ret (mkRosterVars Private Public portsMapping (rv_entities v ++ [entity])
         (<[si_Address entity := Private]> (rv_PrivateKeys v))).

(** The sanity check after the loop *)
Definition firstKeysEqual (v : rosterVars) : bool :=
  match rv_entities v with
  | e0 :: e1 :: _ =>
    match rv_PrivateKeys v !! si_Address e0, rv_PrivateKeys v !! si_Address e1 with
    | Some k0, Some k1 => Scalar_Equal k0 k1
    | _, _ => false
    end
  | _ => false
  end.

(** func (s) CreateRoster: [key] is the pair NewKeyPair drew, [listen] and
    [closed] the answers of the system for the ports of local hosts *)
Definition CreateRoster (key : Scalar * Point) (listen : Z → list (result (Z * bool))) (closed : bool)
    (s : SimulationManualAssignment) (sc : SimulationConfig) (addresses : list string) (port : Z)
    : go SimulationConfig :=
  if sm_SingleHost s then Crash (Fatal "Not supported yet") else
  if sm_Hosts s <? 0 then Crash RuntimeError else
  address0 ← index addresses 0;
  let localhosts := Contains address0 "127.0.0." in
  if negb (suites_Known (sm_Suite s)) then Crash (Panicked "no such suite") else
  match decodeHostsMapping HostsMappingFile with
  | Err _ => Crash (Fatal "Could not decode hosts_mapping.toml")
  | Ok mapping =>
    v ← go_fold (rosterStep localhosts listen mapping)
          (mkRosterVars key.1 key.2 (preparePorts mapping port) [] (sc_PrivateKeys sc))
          (seqZ 0 (sm_Hosts s));
    if (1 <? sm_Hosts s) && firstKeysEqual v then Crash (Fatal "Something went terribly wrong.") else
    if localhosts && negb closed then Crash (Fatal "Couldn't close port:") else
    Ret (sc <| sc_PrivateKeys := rv_PrivateKeys v |> <| sc_Roster := Some (rv_entities v) |>)
  end.

(** func (s) CreateTree *)
Definition CreateTree (s : SimulationManualAssignment) (sc : SimulationConfig) : result SimulationConfig :=
  match sc_Roster sc with
  | None => Err "Empty Roster"
  | Some roster => Ok (sc <| sc_Tree := Some (GenerateBigNaryTree roster (sm_BF s) (sm_Hosts s)) |>)
  end.

(** ** prifi.go *)

(** type SimulationService *)
Record SimulationService := mkSim {
  sim_manual : SimulationManualAssignment;
  sim_PrifiTomlConfig : PrifiTomlConfig;
  sim_NTrustees : Z;
  sim_TrusteeIPRegexPattern : string;
  sim_ClientIPRegexPattern : string;
  sim_RelayIPRegexPattern : string
}.
#[export] Instance eta_Sim : Eta SimulationService := λ r,
  mkSim (sim_manual r) (sim_PrifiTomlConfig r) (sim_NTrustees r) (sim_TrusteeIPRegexPattern r)
    (sim_ClientIPRegexPattern r) (sim_RelayIPRegexPattern r).

(** func (s) Setup *)
Definition Setup (key : Scalar * Point) (listen : Z → list (result (Z * bool))) (closed : bool)
    (s : SimulationService) (hosts : list string) : go (result SimulationConfig) :=
  sc ← CreateRoster key listen closed (sim_manual s) (mkSimConfig ∅ None None) hosts 2000;
  Ret (CreateTree (sim_manual s) sc).

(** config.Roster.Search *)
Definition Search (roster : list ServerIdentity) (id : string) : option (nat * ServerIdentity) :=
  list_find (λ si, si_ID si = id) roster.

Definition mustMatch (pattern s : string) : go bool :=
  match regexp_Match pattern s with Some b => Ret b | None => Crash (Panicked "regexp: Compile") end.

(** func (s) identifyNodeType *)
Definition identifyNodeType (s : SimulationService) (roster : list ServerIdentity) (nodeID : string)
    : go string :=
  let v := snd <$> Search roster nodeID in
  _ ← mustMatch (sim_RelayIPRegexPattern s) "";
  _ ← mustMatch (sim_ClientIPRegexPattern s) "";
  _ ← mustMatch (sim_TrusteeIPRegexPattern s) "";
  v ← nonNil v;
  let addrStr := si_Address v in
  isRelay ← mustMatch (sim_RelayIPRegexPattern s) addrStr;
  if isRelay : bool then Ret "relay"%string else
  isClient ← mustMatch (sim_ClientIPRegexPattern s) addrStr;
  if isClient : bool then Ret "client"%string else
  isTrustee ← mustMatch (sim_TrusteeIPRegexPattern s) addrStr;
  if isTrustee : bool then Ret "trustee"%string else
  Crash (Fatal "Unrecognized node type, IP is").

(** func (s) Node: the service it starts, and for how many seconds a client
    waits before it connects.  [nodeID] is the identity of this server. *)
Definition Node_ (s : SimulationService) (roster : list ServerIdentity) (nodeID : string)
    : go (ServiceState * list serviceEvent * Z) :=
  _ ← nonNil (Search roster nodeID);
  _ ← identifyNodeType s roster nodeID;
  '(index, _) ← nonNil (Search roster nodeID);
  let index := Z.of_nat index in
  let s := s <| sim_PrifiTomlConfig :=
                (sim_PrifiTomlConfig s) <| tm_SocksServerPort := 8080 + index |> |> in
  group ← mapM (λ v, role ← identifyNodeType s roster (si_ID v); Ret (v, role)) roster;
  let toml := sim_PrifiTomlConfig s in
  if (tm_ReplayPCAP toml && tm_DisruptionProtectionEnabled toml)
     || (tm_ReplayPCAP toml && tm_EquivocationProtectionEnabled toml)
  then Crash (Fatal "There is a bug that needs to be fixed") else
  let service := newService toml false in
  if index =? 0 then '(_, w) ← StartRelay group (service, []); Ret (w, 0)
  else if (0 <? index) && (index <=? sim_NTrustees s) then
    '(_, w) ← StartTrustee group (service, []); Ret (w, 0)
  else
    let delay := if 0 <? tm_SimulDelayBetweenClients toml
                 then 5 + tm_SimulDelayBetweenClients toml * (index - 1 - sim_NTrustees s) else 0 in
    '(_, w) ← StartClient group (service, []); Ret (w, delay).

(** func hashString *)
Definition hashString (data : string) : string :=
  Remove "/"%char (Remove "_"%char (Remove "-"%char (Remove "="%char (sha1_base64 data)))).

(** func writeExperimentResult: the files written, with their contents.  The
    configuration is written when the folder is new; [printed] is the text of the
    whole SimulationConfig. *)
Definition writeExperimentResult (data : list string) (simulationID : string) (folderExists : bool)
    (config printed : string) : list (string * string) :=
  let folderName := "output_" +:+ simulationID +:+ "/" +:+ hashString config in
  (if folderExists then [] else [(path_Join [folderName; "config"], printed)])
  ++ [(path_Join [folderName; "output.json"], foldl String.append EmptyString data)].

(** The seconds Run gives the experiment; the variable of the package starts at 3600 *)
Definition simulationTimeout (s : SimulationService) (current : Z) : Z :=
  let delay := tm_SimulDelayBetweenClients (sim_PrifiTomlConfig s) in
  if 0 <? delay then
    let nClients := sm_Hosts (sim_manual s) - 1 - sim_NTrustees s in
    Z.max current (5 + delay * (nClients + 1))
  else current.

(** The exit status and the contents of .lastsimul *)
Definition exitStatus (result : list string) : go Z :=
  lastItem ← index result (len result - 1);
  Ret (if HasPrefix lastItem "<shutdown from simul>" then 1 else 0).

(** ** func (s) Run, on the relay

    While it sleeps, nodes connect: [sleeps] is what the service handles during
    each sleep of 10 seconds. *)
Context (Range : nat → gmap string waitQueueEntry → list (string * waitQueueEntry)).

Fixpoint waitForParticipants (sleeps : list (svc unit)) : svc unit :=
  enough ← HasEnoughParticipants;
  if enough : bool then mret tt else
  match sleeps with
  | [] => sLift (Crash Diverges)
  | sleep :: sleeps => _ ← sleep; waitForParticipants sleeps
  end.

(** Between RelayAllowAutoStart and StartPriFiCommunicateProtocol the service
    may handle [between]; [during] is what it handles until the result comes
    ([None]: the timeout).  The two loops that wait for the protocol and its
    channel end at once: StartPriFiCommunicateProtocol has set both.  The value is
    the files written and the status the process exits with. *)
Definition Run (simulationID : result string) (sleeps : list (svc unit)) (x : serviceInputs)
    (between during : svc unit) (result : option (list string)) (folderExists : bool)
    (config printed : string) : svc (list (string * string) * Z) :=
  match simulationID with
  | Err _ => sLift (Crash (Fatal "Could not read file .simID"))
  | Ok simulationID =>
    _ ← waitForParticipants sleeps;
    _ ← RelayAllowAutoStart;
    _ ← between;
    _ ← StartPriFiCommunicateProtocol Range (si_tmp x) (si_created x) (si_lib x);
    _ ← during;
    let res := default ["<shutdown from simul> simulation timed out"%string] result in
    let files := writeExperimentResult res simulationID folderExists config printed in
    _ ← StopPriFiCommunicateProtocol (si_lib x);
    _ ← GlobalShutDownSocks Range;
    outBit ← sLift (exitStatus res);
    mret (files ++ [(".lastsimul"%string, pretty outBit)], outBit)
  end.

(** ** The roster *)

Section roster.
Context {SL : SimLaws CS}.
Context (mapping : list HostMapping) (port : Z) (sk : Scalar).

(** The private key of the [c]-th participant counted from 1 *)
Definition nthKey (c : nat) : Scalar := Nat.iter c (λ k, Scalar_Add k Scalar_One) sk.

(** How many of the first [c] participants run on host [ip] *)
Definition uses (c : nat) (ip : string) : nat :=
  length (List.filter (λ c', String.eqb (addressOf mapping (Z.of_nat c')) ip) (seq 0 c)).

(** The address of participant [c]: its host, and the first port of it that no
    earlier participant has *)
Definition nthAddress (c : nat) : string :=
  let ip := addressOf mapping (Z.of_nat c) in
  NewTCPAddress (ip +:+ ":" +:+ pretty (port + 2 * Z.of_nat (uses c ip))).

Definition nthEntity (c : nat) : ServerIdentity :=
  NewServerIdentity (Point_Mul (nthKey (S c)) Point_Base) (nthAddress c).

Lemma uses_S c ip :
  uses (S c) ip = (uses c ip + if String.eqb (addressOf mapping (Z.of_nat c)) ip then 1 else 0)%nat.
Proof.
  unfold uses. rewrite seq_S, List.filter_app, length_app. f_equal. cbn.
  by destruct (String.eqb _ ip).
Qed.

Lemma uses_mono c c' ip : (c ≤ c')%nat → (uses c ip ≤ uses c' ip)%nat.
Proof. induction 1 as [|c' _ IH]; [done|]. rewrite uses_S. lia. Qed.

(** A host and a port are read off an address in one way only. *)
Lemma host_port_inj a b d e :
  allChars isDigit d = true → allChars isDigit e = true →
  a +:+ ":" +:+ d = b +:+ ":" +:+ e → a = b ∧ d = e.
Proof.
  intros Hd He. revert b. induction a as [|x a IH]; intros [|y b] E.
  - split; [done|]. by injection E.
  - exfalso. change (String ":" d = String y (b +:+ ":" +:+ e)) in E. injection E as _ ->.
    rewrite allChars_app in Hd. apply andb_prop in Hd as [_ Hd]. done.
  - exfalso. change (String x (a +:+ ":" +:+ d) = String ":" e) in E. injection E as _ <-.
    rewrite allChars_app in He. apply andb_prop in He as [_ He]. done.
  - rewrite !app_String in E. injection E as <- E. apply IH in E as [<- <-]. done.
Qed.

Lemma nthAddress_inj c c' : 0 ≤ port → nthAddress c = nthAddress c' → c = c'.
Proof.
  intros Hp. assert (∀ c c', (c < c')%nat → nthAddress c = nthAddress c' → False) as Hlt.
  { clear c c'. intros c c' Hc E. apply NewTCPAddress_inj in E.
    apply host_port_inj in E as [Ei Ep]; [|apply pretty_digits; lia..].
    apply (inj pretty) in Ep. rewrite <- Ei in Ep. assert (uses c (addressOf mapping (Z.of_nat c))
      = uses c' (addressOf mapping (Z.of_nat c))) as Eu by lia.
    pose proof (uses_mono (S c) c' (addressOf mapping (Z.of_nat c))) as Hm.
    rewrite uses_S, String.eqb_refl in Hm. lia. }
  intros E. destruct (Nat.lt_trichotomy c c') as [H|[H|H]]; [|done|];
    [by destruct (Hlt _ _ H E) | by destruct (Hlt _ _ H (eq_sym E))].
Qed.

(** *** The loop *)

Record roster_inv (c : nat) (v : rosterVars) : Prop := {
  ri_Private : rv_Private v = nthKey c;
  ri_Public : rv_Public v = Point_Mul (nthKey c) Point_Base;
  ri_ports : ∀ h, h ∈ mapping → rv_portsMapping v !! hm_IP h = Some (port + 2 * Z.of_nat (uses c (hm_IP h)));
  ri_entities : rv_entities v = nthEntity <$> seq 0 c;
  ri_keys : ∀ i, (i < c)%nat → rv_PrivateKeys v !! nthAddress i = Some (nthKey (S i))
}.

Lemma addressOf_mapped c : addressOf mapping c ≠ EmptyString → ∃ h, h ∈ mapping ∧ hm_IP h = addressOf mapping c.
Proof.
  unfold addressOf. induction mapping as [|h l IH] using rev_ind; [done|].
  rewrite foldl_app. cbn [foldl]. destruct (hm_ID h =? c) eqn:E; intros Hne.
  - exists h. split; [set_solver | done].
  - destruct (IH Hne) as (h' & Hin & <-). exists h'. split; [set_solver | done].
Qed.

Lemma preparePorts_lookup h : h ∈ mapping → preparePorts mapping port !! hm_IP h = Some port.
Proof.
  unfold preparePorts. induction mapping as [|h' l IH] using rev_ind; [set_solver|].
  rewrite foldl_app. cbn [foldl]. intros Hin. destruct (decide (hm_IP h' = hm_IP h)) as [->|Hn].
  - by rewrite lookup_insert_eq.
  - rewrite lookup_insert_ne by done. apply IH. set_solver.
Qed.

Lemma rosterStep_inv listen c v :
  0 ≤ port → addressOf mapping (Z.of_nat c) ≠ EmptyString → roster_inv c v →
  ∃ v', rosterStep false listen mapping v (Z.of_nat c) = Ret v' ∧ roster_inv (S c) v'.
Proof.
  intros Hp Ha [Hpr Hpu Hpo Hen Hke]. unfold rosterStep.
  destruct (String.eqb_spec (addressOf mapping (Z.of_nat c)) "") as [E|_]; [done|].
  destruct (addressOf_mapped _ Ha) as (h & Hin & Hh).
  assert (rv_portsMapping v !! addressOf mapping (Z.of_nat c)
          = Some (port + 2 * Z.of_nat (uses c (addressOf mapping (Z.of_nat c))))) as ->
    by (rewrite <- Hh; by apply Hpo).
  cbn [mbind go_bind default from_option id]. unfold id. rewrite Hpr, Hpu.
  assert (Point_Add (Point_Mul (nthKey c) Point_Base) Point_Base = Point_Mul (nthKey (S c)) Point_Base) as ->.
  { rewrite <- (Point_Mul_One Point_Base) at 2. by rewrite Point_Add_Mul. }
  fold (nthAddress c). eexists. split; [reflexivity|]. fold (nthEntity c).
  split; cbn [rv_Private rv_Public rv_portsMapping rv_entities rv_PrivateKeys].
  - done.
  - done.
  - intros h' Hh'. rewrite uses_S. destruct (String.eqb_spec (addressOf mapping (Z.of_nat c)) (hm_IP h')) as [E|Hn]; cbv iota.
    + rewrite E, lookup_insert_eq. f_equal. lia.
    + rewrite lookup_insert_ne by done. rewrite Hpo by done. f_equal. lia.
  - rewrite seq_S, fmap_app, Hen. done.
  - intros i Hi. unfold nthEntity. rewrite NewServerIdentity_address.
    destruct (decide (i = c)) as [->|Hn]; [by rewrite lookup_insert_eq|].
    rewrite lookup_insert_ne by (intros E; apply nthAddress_inj in E; [congruence | done]).
    apply Hke. lia.
Qed.

Lemma roster_loop listen n : ∀ c v,
  0 ≤ port → (∀ i, (c ≤ i < c + n)%nat → addressOf mapping (Z.of_nat i) ≠ EmptyString) → roster_inv c v →
  ∃ v', go_fold (rosterStep false listen mapping) v (Z.of_nat <$> seq c n) = Ret v' ∧ roster_inv (c + n) v'.
Proof.
  induction n as [|n IH]; intros c v Hp Ha HI.
  - exists v. split; [done|]. by rewrite Nat.add_0_r.
  - destruct (rosterStep_inv listen c v) as (v1 & E1 & HI1); [done | apply Ha; lia | done|].
    destruct (IH (S c) v1) as (v2 & E2 & HI2); [done | intros i Hi; apply Ha; lia | done|].
    exists v2. cbn [seq fmap list_fmap]. rewrite go_fold_cons, E1. cbn [mbind go_bind].
    split; [done|]. by replace (c + S n)%nat with (S c + n)%nat by lia.
Qed.
End roster.

Section roster_made.
Context {SL : SimLaws CS}.

(** The first two keys differ. *)
Lemma first_keys_differ mapping port sk c v :
  0 ≤ port → roster_inv mapping port sk c v → (1 < c)%nat → firstKeysEqual v = false.
Proof.
  intros Hp HI Hc. unfold firstKeysEqual. destruct HI as [_ _ _ Hen Hk]. rewrite Hen.
  destruct c as [|[|c]]; [lia..|]. cbn [seq fmap list_fmap]. unfold nthEntity.
  rewrite !NewServerIdentity_address, !Hk by lia. apply Scalar_Equal_next.
Qed.

(** C37: With a hosts file that names a machine for each of the participants (and
    machines that are not local), CreateRoster returns a roster of exactly that
    many servers, no two with the same address; each runs on the machine of the
    file, on the first free port of it (ports are given out in steps of two),
    and the private key filed under its address belongs to its public key. *)
Theorem simulation_roster sk listen closed s a0 rest mapping port :
  sm_SingleHost s = false → 0 ≤ sm_Hosts s → Contains a0 "127.0.0." = false →
  suites_Known (sm_Suite s) = true → decodeHostsMapping HostsMappingFile = Ok mapping →
  (∀ i, 0 ≤ i < sm_Hosts s → addressOf mapping i ≠ EmptyString) → 0 ≤ port →
  ∃ sc roster, CreateRoster (sk, Point_Mul sk Point_Base) listen closed s (mkSimConfig ∅ None None)
                 (a0 :: rest) port = Ret sc
  ∧ sc_Roster sc = Some roster ∧ len roster = sm_Hosts s ∧ NoDup (si_Address <$> roster)
  ∧ ∀ i e, roster !! i = Some e →
      si_Address e = nthAddress mapping port i
      ∧ ∃ k, sc_PrivateKeys sc !! si_Address e = Some k
             ∧ e = NewServerIdentity (Point_Mul k Point_Base) (si_Address e).
Proof.
  intros Hsh Hh Hl Hsu Hm Ha Hp.
  set (v0 := mkRosterVars sk (Point_Mul sk Point_Base) (preparePorts mapping port) [] ∅).
  assert (roster_inv mapping port sk 0 v0) as HI0.
  { split; [done | done | | done | intros i Hi; lia].
    intros h Hin. cbn. rewrite preparePorts_lookup by done. f_equal. lia. }
  destruct (roster_loop mapping port sk listen (Z.to_nat (sm_Hosts s)) 0 v0) as (v & Ev & HI);
    [done | intros i Hi; apply Ha; lia | done|]. cbn [Nat.add] in HI.
  exists (mkSimConfig (rv_PrivateKeys v) (Some (rv_entities v)) None), (rv_entities v). split.
  { unfold CreateRoster. rewrite Hsh, Hsu, Hm. destruct (Z.ltb_spec (sm_Hosts s) 0); [lia|].
    change (index (a0 :: rest) 0) with (Ret a0). cbn [mbind go_bind negb fst snd sc_PrivateKeys]. rewrite Hl.
    assert (seqZ 0 (sm_Hosts s) = Z.of_nat <$> seq 0 (Z.to_nat (sm_Hosts s))) as ->.
    { unfold seqZ. apply list_fmap_ext. intros i x _. lia. }
    fold v0. rewrite Ev.
    cbn [mbind go_bind andb]. destruct (Z.ltb_spec 1 (sm_Hosts s)) as [H1|H1]; cbn [andb]; [|done].
    rewrite (first_keys_differ _ _ _ _ _ Hp HI) by lia. done. }
  destruct HI as [_ _ _ Hen Hk]. split; [done|]. split_and!.
  - rewrite Hen. unfold len. rewrite length_fmap, length_seq. lia.
  - rewrite Hen, <- list_fmap_compose. apply NoDup_fmap_2_strong; [|apply NoDup_seq].
    intros i j _ _. unfold compose, nthEntity. rewrite !NewServerIdentity_address. by apply nthAddress_inj.
  - intros i e He. rewrite Hen in He. apply list_lookup_fmap_Some in He as (j & -> & Hj).
    apply lookup_seq in Hj as [-> Hj]. cbn. unfold nthEntity. rewrite NewServerIdentity_address.
    split; [done|]. exists (nthKey sk (S i)). split; [|done]. by apply Hk.
Qed.
End roster_made.

(** ** The roles of the nodes *)

(** The description of a node by its index, as Node assigns the roles *)
Definition roleOf (nTrustees : Z) (i : nat) : string :=
  if Z.of_nat i =? 0 then "relay" else if Z.of_nat i <=? nTrustees then "trustee" else "client".

Definition planned (s : SimulationService) (roster : list ServerIdentity) : Prop :=
  NoDup (si_ID <$> roster) ∧
  ∀ i e, roster !! i = Some e → identifyNodeType s roster (si_ID e) = Ret (roleOf (sim_NTrustees s) i).

Lemma Search_self roster i e :
  NoDup (si_ID <$> roster) → roster !! i = Some e → Search roster (si_ID e) = Some (i, e).
Proof.
  intros Hnd He. unfold Search. apply list_find_Some. split; [done|]. split; [done|].
  intros j y Hj Hlt E. assert (j = i) by (apply (NoDup_lookup (si_ID <$> roster) j i (si_ID e));
    [done | by rewrite list_lookup_fmap, Hj; cbn; rewrite E | by rewrite list_lookup_fmap, He]). lia.
Qed.

(** The group the node makes of the roster *)
Definition describe (nTrustees : Z) (roster : list ServerIdentity) : list (ServerIdentity * string) :=
  imap (λ i e, (e, roleOf nTrustees i)) roster.

Lemma mapM_describe (f : ServerIdentity → go string) (g : nat → string) l :
  (∀ i e, l !! i = Some e → f e = Ret (g i)) →
  mapM (λ v, role ← f v; Ret (v, role)) l = Ret (imap (λ i e, (e, g i)) l).
Proof.
  revert g. induction l as [|e l IH]; intros g Hf; [done|]. cbn.
  rewrite (Hf 0%nat e eq_refl). cbn. rewrite (IH (g ∘ S)); [done|].
  intros i e' He. apply (Hf (S i)). done.
Qed.

Lemma mapIdentities_app l l' :
  mapIdentities (l ++ l')
  = foldl (λ '(relay, trustees) '(si, description),
             if String.eqb description "relay" then (Some si, trustees)
             else if String.eqb description "trustee" then (relay, trustees ++ [si])
             else (relay, trustees)) (mapIdentities l) l'.
Proof. unfold mapIdentities. apply foldl_app. Qed.

(** Which identities the services get from it: the first server is the relay,
    the next [nTrustees] are the trustees *)
Lemma mapIdentities_describe nTrustees r l :
  0 ≤ nTrustees →
  mapIdentities (describe nTrustees (r :: l)) = (Some r, take (Z.to_nat nTrustees) l).
Proof.
  intros Hn. induction l as [|e l IH] using rev_ind; [by rewrite take_nil|].
  unfold describe in *. rewrite app_comm_cons, imap_app, mapIdentities_app, IH. cbn [imap foldl].
  unfold roleOf, compose. cbn [length]. destruct (Z.eqb_spec (Z.of_nat (S (length l) + 0)) 0); [lia|].
  destruct (Z.leb_spec (Z.of_nat (S (length l) + 0)) nTrustees) as [Hle|Hgt].
  - cbn [String.eqb]. rewrite (take_ge (l ++ [e])) by (rewrite length_app; cbn; lia).
    by rewrite take_ge by lia.
  - cbn [String.eqb]. by rewrite take_app_le by lia.
Qed.

Lemma identify_ext s t roster id :
  identifyNodeType (s <| sim_PrifiTomlConfig := t |>) roster id = identifyNodeType s roster id.
Proof. done. Qed.

(** The configuration a node runs with *)
Definition nodeToml (s : SimulationService) (i : nat) : PrifiTomlConfig :=
  (sim_PrifiTomlConfig s) <| tm_SocksServerPort := 8080 + Z.of_nat i |>.

(** What Node leaves of participant [i]: its role and the identities it knows *)
Record node_started (s : SimulationService) (r : ServerIdentity) (l : list ServerIdentity) (i : nat)
    (st : ServiceState) : Prop := {
  ns_relay : s_relayIdentity st = Some r;
  ns_toml : s_prifiTomlConfig st = Some (nodeToml s i);
  ns_role : s_role st = if Z.of_nat i =? 0 then Role_Relay
                        else if Z.of_nat i <=? sim_NTrustees s then Role_Trustee else Role_Client;
  ns_churn : Z.of_nat i = 0 → s_churnHandler st
             = Some (mkChurn (mkQueue ∅ ∅) 0 0 r (take (Z.to_nat (sim_NTrustees s)) l) false)
}.

Lemma StartRelay_run group r ts toml :
  mapIdentities group = (Some r, ts) →
  ∃ w, StartRelay group (newService toml false, []) = Ret (tt, w)
  ∧ s_relayIdentity w.1 = Some r ∧ s_prifiTomlConfig w.1 = Some toml ∧ s_role w.1 = Role_Relay
  ∧ s_churnHandler w.1 = Some (mkChurn (mkQueue ∅ ∅) 0 0 r ts false).
Proof.
  intros E. unfold StartRelay. rewrite E. repeat (rewrite s_run_bind; cbn -[mbind sForEach]).
  set (w := (_, _)). assert (∃ w', sForEach sendHelloMessage ts w = Ret (tt, w') ∧ w'.1 = w.1) as (w' & Ew & E1).
  { generalize w. clear. induction ts as [|t ts IH]; intros w; [by exists w|]. cbn [sForEach].
    rewrite s_run_bind. cbn [sendHelloMessage sEmit].
    destruct (IH (w.1, w.2 ++ [RawSent t HelloMsg])) as (w' & E & E1). by exists w'. }
  exists w'. rewrite Ew. split; [done|]. by rewrite E1.
Qed.

Lemma StartClient_run group r ts toml :
  mapIdentities group = (Some r, ts) →
  ∃ w, StartClient group (newService toml false, []) = Ret (tt, w)
  ∧ s_relayIdentity w.1 = Some r ∧ s_prifiTomlConfig w.1 = Some toml ∧ s_role w.1 = Role_Client.
Proof. intros E. unfold StartClient. rewrite E. by eexists. Qed.

Lemma StartTrustee_run group r ts toml :
  mapIdentities group = (Some r, ts) →
  ∃ w, StartTrustee group (newService toml false, []) = Ret (tt, w)
  ∧ s_relayIdentity w.1 = Some r ∧ s_prifiTomlConfig w.1 = Some toml ∧ s_role w.1 = Role_Trustee.
Proof. intros E. unfold StartTrustee. rewrite E. by eexists. Qed.

(** C38: When the patterns of the experiment describe the first server of the
    roster as relay, the next NTrustees as trustees and the others as clients,
    Node starts every participant in the role of its index, knowing the first
    server as its relay, with a SOCKS port of its own; the relay accepts exactly
    the NTrustees servers as trustees and does not start the protocol yet; a
    client waits long enough for those before it. *)
Theorem simulation_roles s r l i e :
  planned s (r :: l) → 0 ≤ sim_NTrustees s → (r :: l) !! i = Some e →
  tm_ReplayPCAP (sim_PrifiTomlConfig s) = false →
  ∃ st tr delay, Node_ s (r :: l) (si_ID e) = Ret ((st, tr), delay) ∧ node_started s r l i st
  ∧ (sim_NTrustees s < Z.of_nat i → 0 < tm_SimulDelayBetweenClients (sim_PrifiTomlConfig s) →
     delay = 5 + tm_SimulDelayBetweenClients (sim_PrifiTomlConfig s) * (Z.of_nat i - 1 - sim_NTrustees s)).
Proof.
  intros [Hnd Hid] Hn He Hr. unfold Node_. rewrite (Search_self _ _ _ Hnd He).
  cbn [nonNil mbind go_bind]. rewrite (Hid _ _ He). cbn [mbind go_bind].
  rewrite (mapM_describe _ (roleOf (sim_NTrustees s)));
    [|intros j e' He'; rewrite identify_ext; by apply Hid].
  cbn [mbind go_bind]. fold (describe (sim_NTrustees s) (r :: l)). fold (nodeToml s i).
  change (sim_PrifiTomlConfig (s <| sim_PrifiTomlConfig := nodeToml s i |>)) with (nodeToml s i).
  change (tm_ReplayPCAP (nodeToml s i)) with (tm_ReplayPCAP (sim_PrifiTomlConfig s)).
  rewrite Hr. cbn [andb orb].
  change (sim_NTrustees (s <| sim_PrifiTomlConfig := nodeToml s i |>)) with (sim_NTrustees s).
  pose proof (mapIdentities_describe _ r l Hn) as Hm.
  destruct (Z.eqb_spec (Z.of_nat i) 0) as [H0|H0].
  - destruct (StartRelay_run _ _ _ (nodeToml s i) Hm) as ([st tr] & E & H1 & H2 & H3 & H4).
    cbn [fst] in *. rewrite E. exists st, tr, 0. split; [done|]. split; [|lia]. split; try done. by rewrite H0.
  - destruct (Z.ltb_spec 0 (Z.of_nat i)); [|lia]. cbn [andb].
    destruct (Z.leb_spec (Z.of_nat i) (sim_NTrustees s)) as [Ht|Ht].
    + destruct (StartTrustee_run _ _ _ (nodeToml s i) Hm) as ([st tr] & E & H1 & H2 & H3).
      cbn [fst] in *. rewrite E. exists st, tr, 0. split; [done|]. split; [|lia]. split; try done.
      rewrite H3. destruct (Z.eqb_spec (Z.of_nat i) 0); [lia|]. by destruct (Z.leb_spec (Z.of_nat i) (sim_NTrustees s)); [|lia].
    + destruct (StartClient_run _ _ _ (nodeToml s i) Hm) as ([st tr] & E & H1 & H2 & H3).
      cbn [fst] in *. rewrite E. eexists st, tr, _. split; [done|]. split.
      * split; try done. rewrite H3. destruct (Z.eqb_spec (Z.of_nat i) 0); [lia|].
        by destruct (Z.leb_spec (Z.of_nat i) (sim_NTrustees s)); [lia|].
      * intros _ Hd. change (tm_SimulDelayBetweenClients (nodeToml s i))
          with (tm_SimulDelayBetweenClients (sim_PrifiTomlConfig s)).
        by destruct (Z.ltb_spec 0 (tm_SimulDelayBetweenClients (sim_PrifiTomlConfig s))); [|lia].
Qed.
End simulation.

Arguments SimulationConfig CS {O SE}.
