(* ===== verification/StartDemo.v ===== *)
(** * Concrete nodes that are started

    Environments for the command line, the phone and the experiment on the
    deployment of ServiceDemo: the theorems about starting nodes, applied. *)

From Stdlib Require Import Ascii.
From stdpp Require Import pretty.
From S2P Require Import Prelude GoStrings Bytes Crypto Messages StateMachine Network Trustee TrusteeSpec Client ClientSpec Relay RelaySpec Protocol Service ServiceDemo Application Mobile Simulation.

Open Scope Z_scope.

Module StartDemo.
Import ToySuite.
#[local] Existing Instance suite.
#[local] Existing Instances RelayDemo.clock RelayDemo.proofs ServiceDemo.onet.

(** ** The command line *)

Definition cli : cliContext := mkCli id (λ _, 0) (λ _, false).
Definition deployment : Group suite := mkGroup (Some ServiceDemo.group).

(** A machine with all files, whose git repository is at [commit] *)
Definition machine (enforce : bool) (commit : string) (missing : string) : Environment suite := {|
  os_Stat f := if String.eqb f missing then Some ErrNotExist else None;
  ioutil_ReadFile f := (f, None);
  os_Open f := Ok f;
  toml_Decode _ _ := Ok (ServiceDemo.toml <| tm_EnforceSameVersionOnNodes := enforce |>);
  app_ParseCothority f := Ok f;
  app_ReadGroupDescToml _ := Ok (Some deployment);
  git_rev_parse_HEAD := Ok commit;
  user_Current := Ok "/home/user"%string;
  os_Getwd := Ok "/"%string;
  runtime_GOOS := "linux";
  app_InputYN _ := true
|}.

Definition relayNode : Node suite :=
  match startRelay (E:=machine true "abc" "") cli with
  | Ret n => n | Crash _ => mkNode ""%string (newService ServiceDemo.toml false, []) false end.
Definition clientNode (commit : string) : Node suite :=
  match startClient (E:=machine true commit "") cli with
  | Ret n => n | Crash _ => mkNode ""%string (newService ServiceDemo.toml false, []) false end.

Lemma relayNode_started : startRelay (E:=machine true "abc" "") cli = Ret relayNode.
Proof.
  assert (returns (startRelay (E:=machine true "abc" "") cli) = true) as H by (vm_compute; reflexivity).
  unfold relayNode. by destruct (startRelay (E:=machine true "abc" "") cli).
Qed.
Lemma clientNode_started commit :
  startClient (E:=machine true commit "") cli = Ret (clientNode commit).
Proof.
  assert (returns (startClient (E:=machine true commit "") cli) = true) as H by (vm_compute; reflexivity).
  unfold clientNode. by destruct (startClient (E:=machine true commit "") cli).
Qed.

Lemma version_decides_admission_witness :
  (∃ s', HandleConnection ServiceDemo.range ServiceDemo.inputs "A"%string "abc" (n_service relayNode)
         = Ret (tt, (s', (n_service relayNode).2)) ∧ admitted s' "A"%string)
  ∧ HandleConnection ServiceDemo.range ServiceDemo.inputs "A"%string "def" (n_service relayNode)
    = Crash (Fatal "Different CommitID between relay and ").
Proof.
  split.
  - refine (proj2 (version_decides_admission ServiceDemo.range (machine true "abc" "")
      (machine true "abc" "") cli cli (startClient (E:=machine true "abc" "")) relayNode
      (clientNode "abc") "abc" "abc" "R"%string ServiceDemo.inputs "A"%string relayNode_started _ _ _ _)).
    + reflexivity.
    + left. reflexivity.
    + apply clientNode_started.
    + reflexivity.
  - refine (proj2 (version_decides_admission ServiceDemo.range (machine true "abc" "")
      (machine true "def" "") cli cli (startClient (E:=machine true "def" "")) relayNode
      (clientNode "def") "abc" "def" "R"%string ServiceDemo.inputs "A"%string relayNode_started _ _ _ _)).
    + reflexivity.
    + left. reflexivity.
    + apply clientNode_started.
    + reflexivity.
Defined.

Lemma missing_file_panics_witness :
  startRelay (E:=machine false "" "prifi_config") cli = Crash RuntimeError
  ∧ startRelay (E:=machine false "" "group") cli = Crash RuntimeError
  ∧ ∃ n, startSocksTunnelOnly (E:=machine false "" "group") cli = Ret n.
Proof.
  split.
  - pose proof (proj1 (missing_file_panics (E:=machine false "" "prifi_config") cli) eq_refl) as H.
    rewrite Forall_forall in H. apply H. right. right. left.
  - destruct (proj2 (missing_file_panics (E:=machine false "" "group") cli)
      (ServiceDemo.toml <| tm_EnforceSameVersionOnNodes := false |>) "cothority_config"%string "v1"
      eq_refl eq_refl eq_refl eq_refl) as [H Hn].
    split; [|exact Hn]. rewrite Forall_forall in H. apply H. right. left.
Defined.

(** ** The phone *)

Definition hostPort (a : string) : option (string * string) :=
  match Split ":"%char a with [h; p] => Some (h, p) | _ => None end.

Definition phone (prifi : result PrifiTomlConfig) : MobileEnv suite := {|
  asset_Open _ := (Some (Ok EmptyString), None);
  toml_DecodePrifi _ := prifi;
  toml_DecodeCothority _ := Err "";
  ReadGroupDescToml _ := Ok (Some (mkGroup (Some [("10.0.0.1:7000", "relay")]%string)));
  Address := string;
  addr_Host a := from_option fst "" (hostPort a);
  addr_Port a := from_option snd "" (hostPort a);
  addr_String a := a;
  addr_Valid a := match hostPort a with Some (_, p) => allChars isDigit p | None => false end;
  NewAddress a := a;
  si_Addr (si : string) := si;
  si_setAddr (si : string) (a : string) := a;
  suites_Find _ := Ok tt;
  StringHexToScalar _ := Err "";
  StringHexToPoint _ := Err "";
  ScalarToStringHex _ := Err "";
  PointToStringHex _ := Err "";
  NewServer _ _ _ := ""%string;
  http_Get _ _ _ := Err ""
|}.

Lemma phone_laws prifi : MobileLaws suite (ME:=phone prifi).
Proof.
  split; [done|]. intros h p. cbn [addr_Valid NewAddress addr_Host addr_Port phone]. unfold hostPort.
  change (h +:+ ":" +:+ p) with (h +:+ String ":"%char p). rewrite Split_app_both.
  pose proof (Split_nonempty ":"%char h) as Hh. pose proof (Split_nonempty ":"%char p) as Hp.
  destruct (Split ":"%char h) as [|h1 [|h2 hs]] eqn:Eh; [done| |].
  - destruct (Split ":"%char p) as [|p1 [|p2 ps]] eqn:Ep; [done| |done].
    apply Split_single in Eh as ->. by apply Split_single in Ep as ->.
  - by destruct hs, (Split ":"%char p).
Qed.

Lemma mobile_error_is_shared_witness :
  ∃ m, (_ ← getPrifiConfig (ME:=phone (Err "no toml")); getGroupConfig (ME:=phone (Err "no toml"))) unstarted
       = Ret ((Some (mkGroup (Some [("10.0.0.1:7000", "relay")]%string)), None), m)
  ∧ GetPrifiPort (ME:=phone (Err "no toml")) m = Crash RuntimeError.
Proof.
  exact (mobile_error_is_shared (ME:=phone (Err "no toml")) (Err "no toml")
           (Some (mkGroup (Some [("10.0.0.1:7000", "relay")]%string))) None eq_refl eq_refl).
Defined.

Definition phoneState : Mobile suite :=
  mkMobile None None (Some (mkGroup (Some [("10.0.0.1:7000", "relay")]%string))) false false true None None None.

Lemma relay_endpoint_roundtrip_witness :
  ∃ m1 m2, SetRelayAddress (ME:=phone (Err "")) "1.2.3.4" phoneState = Ret (None, m1)
  ∧ SetRelayPort (ME:=phone (Err "")) 8000 m1 = Ret (None, m2)
  ∧ GetRelayAddress (ME:=phone (Err "")) m2 = Ret (("1.2.3.4"%string, None), m2)
  ∧ GetRelayPort (ME:=phone (Err "")) m2 = Ret ((8000, None), m2).
Proof.
  destruct (relay_endpoint_roundtrip (ME:=phone (Err "")) (ML:=phone_laws (Err "")) "10.0.0.1:7000"%string
              "relay" [] "1.2.3.4" 8000 phoneState) as (m1 & m2 & si' & H1 & H2 & H3 & H4 & _).
  - repeat split.
  - unfold MinInt64, MaxInt64. lia.
  - reflexivity.
  - reflexivity.
  - exists m1, m2. split; [exact H1|]. split; [exact H2|]. split; [exact H3 | exact H4].
Defined.

(** ** The experiment *)

Instance sim : SimEnv suite := {|
  sim_Open f := Ok f;
  toml_DecodeHosts _ := Ok [mkMapping 0 "10.0.0.1"; mkMapping 1 "10.0.0.2"; mkMapping 2 "10.0.0.2"];
  suites_Known _ := true;
  NewTCPAddress a := a;
  NewServerIdentity _ a := a;
  si_ID (a : string) := a;
  Point_Add := add;
  Scalar_Equal (a b : fp) := fp_val a =? fp_val b;
  Tree := unit;
  GenerateBigNaryTree _ _ _ := tt;
  regexp_Match pattern s := Some (Contains s pattern);
  sha1_base64 s := s
|}.

Lemma sim_laws : SimLaws suite.
Proof.
  split; [done | done | | |].
  - intros a b P. cbn. fp_ring.
  - intros P. apply fp_eq. cbn. rewrite Z.mul_1_l. apply Z.mod_small, fp_range.
  - intros k. cbn -[Z.modulo]. change (1 mod 251) with 1. pose proof (fp_range k) as Hk. apply Z.eqb_neq.
    destruct (decide (fp_val k = 250)) as [E|E]; [by rewrite E|]. rewrite Z.mod_small; lia.
Qed.

Definition manual : SimulationManualAssignment := mkManual 10 2 3 false 1 "Ed25519".

Lemma simulation_roster_witness :
  ∃ sc roster, CreateRoster (fp_of 5, Point_Mul (fp_of 5) Point_Base) (λ _, []) true manual
                 (mkSimConfig ∅ None None) ["node0"%string] 2000 = Ret sc
  ∧ sc_Roster sc = Some roster ∧ len roster = 3 ∧ NoDup (si_Address <$> roster).
Proof.
  destruct (simulation_roster (SL:=sim_laws) (fp_of 5) (λ _, []) true manual "node0" []
              [mkMapping 0 "10.0.0.1"; mkMapping 1 "10.0.0.2"; mkMapping 2 "10.0.0.2"] 2000)
    as (sc & roster & H1 & H2 & H3 & H4 & _).
  - reflexivity.
  - vm_compute. discriminate.
  - reflexivity.
  - reflexivity.
  - reflexivity.
  - intros i Hi. change (sm_Hosts manual) with 3 in Hi.
    assert (i = 0 ∨ i = 1 ∨ i = 2) as [->|[->| ->]] by lia; vm_compute; discriminate.
  - lia.
  - exists sc, roster. split; [exact H1|]. split; [exact H2|]. split; [exact H3 | exact H4].
Defined.

Definition experiment : SimulationService :=
  mkSim manual ServiceDemo.toml 1 "10.0.0.2:2000" "10.0.0.2:2002" "10.0.0.1".
Definition roster3 : list string := ["10.0.0.2:2000"; "10.0.0.2:2002"]%string.

Lemma experiment_planned : planned experiment ("10.0.0.1:2000"%string :: roster3).
Proof.
  split.
  - apply NoDup_ListNoDup. repeat constructor; cbn; intuition discriminate.
  - intros [|[|[|i]]] e He; cbn in He; try done; injection He as <-; vm_compute; reflexivity.
Qed.

Lemma simulation_roles_witness :
  ∃ st tr delay, Node_ experiment ("10.0.0.1:2000"%string :: roster3) "10.0.0.1:2000"%string
                 = Ret ((st, tr), delay)
  ∧ s_role st = Role_Relay ∧ s_relayIdentity st = Some "10.0.0.1:2000"%string
  ∧ ∃ c, s_churnHandler st = Some c ∧ ch_trusteesIDs c = ["10.0.0.2:2000"%string].
Proof.
  destruct (simulation_roles (O:=ServiceDemo.onet) experiment "10.0.0.1:2000"%string roster3 0 "10.0.0.1:2000"%string)
    as (st & tr & delay & H1 & [H2 _ H3 H4] & _).
  - exact experiment_planned.
  - vm_compute. discriminate.
  - reflexivity.
  - reflexivity.
  - exists st, tr, delay. split; [exact H1|]. split; [exact H3|]. split; [exact H2|].
    eexists. split; [exact (H4 eq_refl) | reflexivity].
Defined.
End StartDemo.
